(** * smoldtb: a shallow embedding of the flattened-device-tree parser

    The development follows [smoldtb.c] function by function.  The parser
    keeps one global [dtb_state]; it is threaded explicitly here.  Pointers
    into the (immutable) blob are modelled as an object together with a byte
    offset, pointers to nodes and properties as a block handed out by
    [ops.malloc] together with an index into the table carved from it.
    Every C access that has no defined result (a null or dangling
    dereference, a read or write outside its object, a read of an
    uninitialised local) is an explicit [Err]. *)

From Stdlib Require Import ZArith List Lia String Ascii Bool.
From stdpp Require Import base tactics option list.
Import ListNotations.

Local Open Scope Z_scope.

(** ** Machine integers *)

(** [uint32_t] and [uint8_t] arithmetic wraps around. *)
Definition u32 (x : Z) : Z := x mod 4294967296.
Definition u8 (x : Z) : Z := x mod 256.

Definition FDT_MAGIC : Z := 0xD00DFEED.
Definition FDT_BEGIN_NODE : Z := 1.
Definition FDT_END_NODE : Z := 2.
Definition FDT_PROP : Z := 3.
Definition FDT_CELL_SIZE : Z := 4.

(** The value [~0u] returned by [string_find_char] when nothing is found. *)
Definition NOT_FOUND : Z := 4294967295.

(** [be32] on a little-endian host (the [#else] branch of the source). *)
Definition be32 (input : Z) : Z :=
  let temp := 0 in
  let temp := Z.lor temp (u32 (Z.shiftl (Z.land input 0xFF) 24)) in
  let temp := Z.lor temp (u32 (Z.shiftl (Z.land input 0xFF00) 8)) in
  let temp := Z.lor temp (Z.shiftr (Z.land input 0xFF0000) 8) in
  let temp := Z.lor temp (Z.shiftr (Z.land input 0xFF000000) 24) in
  temp.

Definition dtb_align_up (input alignment : Z) : Z :=
  u32 (u32 (u32 (input + alignment) - 1) / alignment * alignment).

(** ** Results *)

(** What can go wrong in C without the program noticing. *)
Inductive fault : Type :=
  | NullDeref        (* access through a null pointer *)
  | OutOfBounds      (* access outside the object pointed into *)
  | Dangling         (* access to a block already given to [ops.free] *)
  | Uninitialised    (* use of a local that was never written *)
  | DivByZero
  | ForeignPointer.  (* address arithmetic between unrelated blocks *)

(** The result of running a piece of the program: a value, undefined
    behaviour, or the bound put on a loop by the model was reached. *)
Inductive res (A : Type) : Type :=
  | Ret (a : A)
  | Err (f : fault)
  | OutOfFuel.
Arguments Ret {A} a.
Arguments Err {A} f.
Arguments OutOfFuel {A}.

Definition rbind {A B : Type} (m : res A) (k : A -> res B) : res B :=
  match m with
  | Ret a => k a
  | Err f => Err f
  | OutOfFuel => OutOfFuel
  end.

Notation "x <~ m ; k" := (rbind m (fun x => k))
  (at level 20, m at level 100, k at level 200, only parsing).
Notation "' p <~ m ; k" := (rbind m (fun p => k))
  (at level 20, p pattern, m at level 100, k at level 200, only parsing).

Definition of_option {A : Type} (f : fault) (o : option A) : res A :=
  match o with
  | Some a => Ret a
  | None => Err f
  end.

(** ** Pointers into constant memory *)

(** A [const char*] or [const uint32_t*]: the object pointed into (the blob,
    a caller's string, a string literal) and a byte offset.  The null pointer
    points into an object with no bytes. *)
Record cptr : Type := CPtr { mem : list Z; off : Z }.

Definition null_cptr : cptr := CPtr [] 0.

Definition ptr_add (p : cptr) (d : Z) : cptr := CPtr (mem p) (off p + d).

(** The bytes readable from a pointer onwards. *)
Definition bytes_from (p : cptr) : list Z :=
  if off p <? 0 then [] else drop (Z.to_nat (off p)) (mem p).

Definition load8 (p : cptr) : res Z :=
  match bytes_from p with
  | b :: _ => Ret b
  | [] => Err OutOfBounds
  end.

(** A native [uint32_t] load on the little-endian host. *)
Definition load32 (p : cptr) : res Z :=
  match bytes_from p with
  | b0 :: b1 :: b2 :: b3 :: _ =>
      Ret (b0 + b1 * 256 + b2 * 65536 + b3 * 16777216)
  | _ => Err OutOfBounds
  end.

Definition bytes_of_string (s : string) : list Z :=
  map (fun c => Z.of_N (N_of_ascii c)) (list_ascii_of_string s).

(** A string literal of the source, with its terminator. *)
Definition cstr (s : string) : cptr := CPtr (bytes_of_string s ++ [0]) 0.

(** ** String helpers of the source

    Each works on the bytes readable from its pointer argument; running off
    the object is a fault.  The index of [string_len], [strings_eq] and
    [string_find_char] is a [uint32_t]: incremented at 0xFFFFFFFF it wraps to
    0, the scan starts over on bytes it has already passed, and the call
    never returns, which is [OutOfFuel] here. *)

Fixpoint string_len_from (str : list Z) (count : Z) : res Z :=
  match str with
  | [] => Err OutOfBounds
  | c :: rest =>
      if c =? 0 then Ret count
      else if count =? 4294967295 then OutOfFuel
      else string_len_from rest (count + 1)
  end.

Definition string_len (str : cptr) : res Z := string_len_from (bytes_from str) 0.

Fixpoint strings_eq_from (a b : list Z) (count : Z) : res bool :=
  match a, b with
  | ca :: a', cb :: b' =>
      if ca =? cb then
        if ca =? 0 then Ret true
        else if count =? 4294967295 then OutOfFuel
        else strings_eq_from a' b' (count + 1)
      else Ret false
  | _, _ => Err OutOfBounds
  end.

Definition strings_eq (a b : cptr) : res bool :=
  strings_eq_from (bytes_from a) (bytes_from b) 0.

Fixpoint strings_eq_bounded_from (a b : list Z) (len : nat) {struct len} : res bool :=
  match len with
  | O => Ret true
  | S len' =>
      match a, b with
      | ca :: a', cb :: b' =>
          if (ca =? 0) && (cb =? 0) then Ret true
          else if negb (ca =? cb) then Ret false
          else strings_eq_bounded_from a' b' len'
      | _, _ => Err OutOfBounds
      end
  end.

Definition strings_eq_bounded (a b : cptr) (len : Z) : res bool :=
  strings_eq_bounded_from (bytes_from a) (bytes_from b) (Z.to_nat len).

Fixpoint string_find_char_from (str : list Z) (target : Z) (i : Z) : res Z :=
  match str with
  | [] => Err OutOfBounds
  | c :: rest =>
      if c =? target then Ret i
      else if c =? 0 then Ret NOT_FOUND
      else if i =? 4294967295 then OutOfFuel
      else string_find_char_from rest target (i + 1)
  end.

Definition string_find_char (str : cptr) (target : Z) : res Z :=
  string_find_char_from (bytes_from str) target 0.

(** ** Data model *)

(** A [dtb_node*] or [dtb_prop*]: the block it points into and the index of
    the table entry. *)
Definition nodeptr : Type := (nat * nat)%type.
Definition propptr : Type := (nat * nat)%type.

Record dtb_node : Type := Node {
  parent : option nodeptr;
  sibling : option nodeptr;
  child : option nodeptr;
  props : option propptr;
  node_name : cptr;
  addr_cells : Z;
  size_cells : Z
}.

Record dtb_prop : Type := Prop_ {
  prop_name : cptr;
  first_cell : cptr;
  prop_length : Z;
  next : option propptr
}.

(** All-zero table entries, as [alloc_buffers] leaves them. *)
Definition zero_node : dtb_node := Node None None None None null_cptr 0 0.
Definition zero_prop : dtb_prop := Prop_ null_cptr null_cptr 0 None.

(** The host interface: only whether each callback is non-null matters to
    the parser.  A supplied [malloc] is taken to return a fresh block, a
    supplied [on_error] to return to its caller. *)
Record dtb_ops : Type := Ops { malloc : bool; free : bool; on_error : bool }.

Record dtb_node_stat : Type := Stat {
  stat_name : cptr;
  child_count : Z;
  prop_count : Z;
  sibling_count : Z
}.

(** One block obtained from [ops.malloc], carved by [alloc_buffers] into the
    node table, the property table and the phandle table. *)
Record block : Type := Block {
  nodes : list dtb_node;
  bprops : list dtb_prop;
  handles : list (option nodeptr);
  live : bool
}.

(** [struct dtb_state], followed by the two things the C program keeps
    outside it: the blocks handed out by the host allocator and the calls
    made so far to [ops.on_error]. *)
Record dtb_state : Type := State {
  cells : cptr;
  strings : cptr;
  cell_count : Z;
  root : option nodeptr;
  handle_lookup : option nat;
  node_buff : option nat;
  node_alloc_head : Z;
  node_alloc_max : Z;
  prop_buff : option nat;
  prop_alloc_head : Z;
  prop_alloc_max : Z;
  ops : dtb_ops;
  heap : list block;
  err_log : list string
}.

(** The zero-initialised global of the source. *)
Definition state0 : dtb_state :=
  State null_cptr null_cptr 0 None None None 0 0 None 0 0
        (Ops false false false) [] [].

(** Field updates of the state. *)
Definition set_cells (v : cptr) (s : dtb_state) : dtb_state :=
  State v (strings s) (cell_count s) (root s) (handle_lookup s) (node_buff s)
        (node_alloc_head s) (node_alloc_max s) (prop_buff s) (prop_alloc_head s)
        (prop_alloc_max s) (ops s) (heap s) (err_log s).
Definition set_strings (v : cptr) (s : dtb_state) : dtb_state :=
  State (cells s) v (cell_count s) (root s) (handle_lookup s) (node_buff s)
        (node_alloc_head s) (node_alloc_max s) (prop_buff s) (prop_alloc_head s)
        (prop_alloc_max s) (ops s) (heap s) (err_log s).
Definition set_cell_count (v : Z) (s : dtb_state) : dtb_state :=
  State (cells s) (strings s) v (root s) (handle_lookup s) (node_buff s)
        (node_alloc_head s) (node_alloc_max s) (prop_buff s) (prop_alloc_head s)
        (prop_alloc_max s) (ops s) (heap s) (err_log s).
Definition set_root (v : option nodeptr) (s : dtb_state) : dtb_state :=
  State (cells s) (strings s) (cell_count s) v (handle_lookup s) (node_buff s)
        (node_alloc_head s) (node_alloc_max s) (prop_buff s) (prop_alloc_head s)
        (prop_alloc_max s) (ops s) (heap s) (err_log s).
Definition set_handle_lookup (v : option nat) (s : dtb_state) : dtb_state :=
  State (cells s) (strings s) (cell_count s) (root s) v (node_buff s)
        (node_alloc_head s) (node_alloc_max s) (prop_buff s) (prop_alloc_head s)
        (prop_alloc_max s) (ops s) (heap s) (err_log s).
Definition set_node_buff (v : option nat) (s : dtb_state) : dtb_state :=
  State (cells s) (strings s) (cell_count s) (root s) (handle_lookup s) v
        (node_alloc_head s) (node_alloc_max s) (prop_buff s) (prop_alloc_head s)
        (prop_alloc_max s) (ops s) (heap s) (err_log s).
Definition set_node_alloc_head (v : Z) (s : dtb_state) : dtb_state :=
  State (cells s) (strings s) (cell_count s) (root s) (handle_lookup s) (node_buff s)
        v (node_alloc_max s) (prop_buff s) (prop_alloc_head s)
        (prop_alloc_max s) (ops s) (heap s) (err_log s).
Definition set_node_alloc_max (v : Z) (s : dtb_state) : dtb_state :=
  State (cells s) (strings s) (cell_count s) (root s) (handle_lookup s) (node_buff s)
        (node_alloc_head s) v (prop_buff s) (prop_alloc_head s)
        (prop_alloc_max s) (ops s) (heap s) (err_log s).
Definition set_prop_buff (v : option nat) (s : dtb_state) : dtb_state :=
  State (cells s) (strings s) (cell_count s) (root s) (handle_lookup s) (node_buff s)
        (node_alloc_head s) (node_alloc_max s) v (prop_alloc_head s)
        (prop_alloc_max s) (ops s) (heap s) (err_log s).
Definition set_prop_alloc_head (v : Z) (s : dtb_state) : dtb_state :=
  State (cells s) (strings s) (cell_count s) (root s) (handle_lookup s) (node_buff s)
        (node_alloc_head s) (node_alloc_max s) (prop_buff s) v
        (prop_alloc_max s) (ops s) (heap s) (err_log s).
Definition set_prop_alloc_max (v : Z) (s : dtb_state) : dtb_state :=
  State (cells s) (strings s) (cell_count s) (root s) (handle_lookup s) (node_buff s)
        (node_alloc_head s) (node_alloc_max s) (prop_buff s) (prop_alloc_head s)
        v (ops s) (heap s) (err_log s).
Definition set_ops (v : dtb_ops) (s : dtb_state) : dtb_state :=
  State (cells s) (strings s) (cell_count s) (root s) (handle_lookup s) (node_buff s)
        (node_alloc_head s) (node_alloc_max s) (prop_buff s) (prop_alloc_head s)
        (prop_alloc_max s) v (heap s) (err_log s).
Definition set_heap (v : list block) (s : dtb_state) : dtb_state :=
  State (cells s) (strings s) (cell_count s) (root s) (handle_lookup s) (node_buff s)
        (node_alloc_head s) (node_alloc_max s) (prop_buff s) (prop_alloc_head s)
        (prop_alloc_max s) (ops s) v (err_log s).
Definition set_err_log (v : list string) (s : dtb_state) : dtb_state :=
  State (cells s) (strings s) (cell_count s) (root s) (handle_lookup s) (node_buff s)
        (node_alloc_head s) (node_alloc_max s) (prop_buff s) (prop_alloc_head s)
        (prop_alloc_max s) (ops s) (heap s) v.

Definition set_nodes (v : list dtb_node) (b : block) : block :=
  Block v (bprops b) (handles b) (live b).
Definition set_bprops (v : list dtb_prop) (b : block) : block :=
  Block (nodes b) v (handles b) (live b).
Definition set_handles (v : list (option nodeptr)) (b : block) : block :=
  Block (nodes b) (bprops b) v (live b).
Definition set_live (v : bool) (b : block) : block :=
  Block (nodes b) (bprops b) (handles b) v.

(** ** The state monad of the parser *)

Definition M (A : Type) : Type := dtb_state -> res (A * dtb_state).

Definition ret {A : Type} (a : A) : M A := fun s => Ret (a, s).

Definition bind {A B : Type} (m : M A) (k : A -> M B) : M B :=
  fun s => match m s with
           | Ret (a, s') => k a s'
           | Err f => Err f
           | OutOfFuel => OutOfFuel
           end.

Notation "x <- m ; k" := (bind m (fun x => k))
  (at level 20, m at level 100, k at level 200, only parsing).
Notation "' p <- m ; k" := (bind m (fun p => k))
  (at level 20, p pattern, m at level 100, k at level 200, only parsing).
Notation "'do' m ; k" := (bind m (fun _ => k))
  (at level 20, m at level 100, k at level 200, only parsing).

Definition gets {A : Type} (f : dtb_state -> A) : M A := fun s => Ret (f s, s).
Definition reads {A : Type} (f : dtb_state -> res A) : M A :=
  fun s => a <~ f s; Ret (a, s).
Definition modify (f : dtb_state -> dtb_state) : M unit := fun s => Ret (tt, f s).
Definition update (f : dtb_state -> res dtb_state) : M unit :=
  fun s => s' <~ f s; Ret (tt, s').
Definition lift {A : Type} (r : res A) : M A := fun s => a <~ r; Ret (a, s).
Definition fail {A : Type} (f : fault) : M A := fun _ => Err f.
Definition timeout {A : Type} : M A := fun _ => OutOfFuel.

(** ** Access to the tables *)

Definition read_block (st : dtb_state) (b : nat) : res block :=
  match heap st !! b with
  | Some blk => if live blk then Ret blk else Err Dangling
  | None => Err Dangling
  end.

Definition read_node (st : dtb_state) (p : nodeptr) : res dtb_node :=
  blk <~ read_block st p.1; of_option OutOfBounds (nodes blk !! p.2).

Definition read_prop (st : dtb_state) (p : propptr) : res dtb_prop :=
  blk <~ read_block st p.1; of_option OutOfBounds (bprops blk !! p.2).

Definition write_node (p : nodeptr) (f : dtb_node -> dtb_node) (st : dtb_state)
  : res dtb_state :=
  blk <~ read_block st p.1;
  n <~ of_option OutOfBounds (nodes blk !! p.2);
  Ret (set_heap (<[p.1 := set_nodes (<[p.2 := f n]> (nodes blk)) blk]> (heap st)) st).

Definition write_prop (p : propptr) (f : dtb_prop -> dtb_prop) (st : dtb_state)
  : res dtb_state :=
  blk <~ read_block st p.1;
  n <~ of_option OutOfBounds (bprops blk !! p.2);
  Ret (set_heap (<[p.1 := set_bprops (<[p.2 := f n]> (bprops blk)) blk]> (heap st)) st).

(** [state.handle_lookup[handle] = node] *)
Definition write_handle (handle : Z) (node : nodeptr) (st : dtb_state)
  : res dtb_state :=
  b <~ of_option NullDeref (handle_lookup st);
  blk <~ read_block st b;
  _ <~ of_option OutOfBounds (handles blk !! Z.to_nat handle);
  Ret (set_heap (<[b := set_handles (<[Z.to_nat handle := Some node]> (handles blk)) blk]>
                   (heap st)) st).

(** [state.handle_lookup[handle]] *)
Definition read_handle (st : dtb_state) (handle : Z) : res (option nodeptr) :=
  b <~ of_option NullDeref (handle_lookup st);
  blk <~ read_block st b;
  of_option OutOfBounds (handles blk !! Z.to_nat handle).

(** [state.cells[i]] *)
Definition read_cell (st : dtb_state) (i : Z) : res Z :=
  load32 (ptr_add (cells st) (4 * i)).

Definition set_parent v (n : dtb_node) : dtb_node :=
  Node v (sibling n) (child n) (props n) (node_name n) (addr_cells n) (size_cells n).
Definition set_sibling v (n : dtb_node) : dtb_node :=
  Node (parent n) v (child n) (props n) (node_name n) (addr_cells n) (size_cells n).
Definition set_child v (n : dtb_node) : dtb_node :=
  Node (parent n) (sibling n) v (props n) (node_name n) (addr_cells n) (size_cells n).
Definition set_props v (n : dtb_node) : dtb_node :=
  Node (parent n) (sibling n) (child n) v (node_name n) (addr_cells n) (size_cells n).
Definition set_node_name v (n : dtb_node) : dtb_node :=
  Node (parent n) (sibling n) (child n) (props n) v (addr_cells n) (size_cells n).
Definition set_addr_cells v (n : dtb_node) : dtb_node :=
  Node (parent n) (sibling n) (child n) (props n) (node_name n) v (size_cells n).
Definition set_size_cells v (n : dtb_node) : dtb_node :=
  Node (parent n) (sibling n) (child n) (props n) (node_name n) (addr_cells n) v.

Definition set_prop_name v (p : dtb_prop) : dtb_prop :=
  Prop_ v (first_cell p) (prop_length p) (next p).
Definition set_first_cell v (p : dtb_prop) : dtb_prop :=
  Prop_ (prop_name p) v (prop_length p) (next p).
Definition set_prop_length v (p : dtb_prop) : dtb_prop :=
  Prop_ (prop_name p) (first_cell p) v (next p).
Definition set_next v (p : dtb_prop) : dtb_prop :=
  Prop_ (prop_name p) (first_cell p) (prop_length p) v.

(** ** The allocator *)

(** [if (state.ops.on_error) state.ops.on_error(why);] *)
Definition call_on_error (why : string) : M unit :=
  fun st => if on_error (ops st)
            then Ret (tt, set_err_log (err_log st ++ [why]) st)
            else Ret (tt, st).

Definition alloc_node : M (option nodeptr) :=
  head <- gets node_alloc_head;
  max <- gets node_alloc_max;
  if u32 (head + 1) <? max then
    buff <- gets node_buff;
    match buff with
    | Some b =>
        do modify (set_node_alloc_head (u32 (head + 1)));
        ret (Some (b, Z.to_nat head))
    | None => fail NullDeref
    end
  else
    do call_on_error "Node allocator ran out of space";
    ret None.

Definition alloc_prop : M (option propptr) :=
  head <- gets prop_alloc_head;
  max <- gets prop_alloc_max;
  if u32 (head + 1) <? max then
    buff <- gets prop_buff;
    match buff with
    | Some b =>
        do modify (set_prop_alloc_head (u32 (head + 1)));
        ret (Some (b, Z.to_nat head))
    | None => fail NullDeref
    end
  else
    do call_on_error "Property allocator ran out of space";
    ret None.

(** Object sizes on the LP64 targets the library is built for. *)
Definition SIZEOF_NODE : Z := 48.
Definition SIZEOF_PROP : Z := 32.
Definition SIZEOF_PTR : Z := 8.

(** [state.ops.free(ptr, size)]: the block is dead afterwards. *)
Definition host_free (ptr : option nat) : M unit :=
  match ptr with
  | None => ret tt
  | Some b =>
      fun st =>
        match heap st !! b with
        | Some blk =>
            if live blk then Ret (tt, set_heap (<[b := set_live false blk]> (heap st)) st)
            else Err Dangling
        | None => Err Dangling
        end
  end.

(** Built without [SMOLDTB_STATIC_BUFFER_SIZE], as the source is unless the
    build defines it. *)
Definition free_buffers : M unit :=
  o <- gets ops;
  if negb (free o) then
    call_on_error "ops.free() is NULL while trying to free buffers."
  else
    buff <- gets node_buff;
    do host_free buff;
    do modify (set_node_buff None);
    do modify (set_prop_buff None);
    do modify (set_handle_lookup None);
    do modify (set_prop_alloc_max 0);
    modify (set_node_alloc_max 0).

(** The counting loop of [alloc_buffers]; [remaining] is the number of
    iterations left of a [for] whose bound and counter the body leaves alone. *)
Fixpoint alloc_buffers_scan (remaining : nat) (i : Z) : M unit :=
  match remaining with
  | O => ret tt
  | S remaining' =>
      c <- reads (fun st => read_cell st i);
      do (if be32 c =? FDT_BEGIN_NODE then
            modify (fun st => set_node_alloc_max (u32 (node_alloc_max st + 1)) st)
          else if be32 c =? FDT_PROP then
            modify (fun st => set_prop_alloc_max (u32 (prop_alloc_max st + 1)) st)
          else ret tt);
      alloc_buffers_scan remaining' (i + 1)
  end.

(** [state.ops.malloc(total_size)] followed by the zeroing loop, seen through
    the three tables the block is carved into.  A [total_size] that wrapped
    around is smaller than the tables laid over it.

    The host is taken to return memory, never null, and the block returned
    is always a new one.  For memory that is still allocated this is what
    any allocator does.  A host that hands out again the memory of a block
    released through [host_free] is not covered: here a released block stays
    dead for good, so a pointer into it can never come to point into a later
    block. *)
Definition host_malloc (total_size node_max prop_max : Z) : M nat :=
  fun st =>
    if negb (malloc (ops st)) then Err NullDeref
    else if total_size <? node_max * SIZEOF_NODE + prop_max * SIZEOF_PROP
                          + node_max * SIZEOF_PTR
    then Err OutOfBounds
    else
      Ret (length (heap st),
           set_heap (heap st ++ [Block (replicate (Z.to_nat node_max) zero_node)
                                       (replicate (Z.to_nat prop_max) zero_prop)
                                       (replicate (Z.to_nat node_max) None)
                                       true]) st).

Definition alloc_buffers : M unit :=
  do modify (set_node_alloc_max 0);
  do modify (set_prop_alloc_max 0);
  count <- gets cell_count;
  do alloc_buffers_scan (Z.to_nat count) 0;
  node_max <- gets node_alloc_max;
  prop_max <- gets prop_alloc_max;
  let total_size := u32 (node_max * SIZEOF_NODE) in
  let total_size := u32 (total_size + u32 (prop_max * SIZEOF_PROP)) in
  let total_size := u32 (total_size + u32 (node_max * SIZEOF_PTR)) in
  buffer <- host_malloc total_size node_max prop_max;
  do modify (set_node_buff (Some buffer));
  do modify (set_node_alloc_head 0);
  do modify (set_prop_buff (Some buffer));
  do modify (set_prop_alloc_head 0);
  modify (set_handle_lookup (Some buffer)).

(** ** Property decoders *)

(** The caller's output array is modelled by its contents; writing past its
    end is a fault.  [None] is a null [vals]. *)
Fixpoint extract_cells (remaining : nat) (cells : cptr) (i : Z)
                       (vals : list Z) (vbase : Z) : res (list Z) :=
  match remaining with
  | O => Ret vals
  | S remaining' =>
      c <~ load32 (ptr_add cells (4 * i));
      _ <~ of_option OutOfBounds (vals !! Z.to_nat (vbase + i));
      extract_cells remaining' cells (i + 1)
                    (<[Z.to_nat (vbase + i) := be32 c]> vals) vbase
  end.

Fixpoint read_prop_cell_array_loop (remaining : nat) (first : cptr) (i cell_count : Z)
                                   (vals : list Z) : res (list Z) :=
  match remaining with
  | O => Ret vals
  | S remaining' =>
      let base := ptr_add first (4 * u32 (i * cell_count)) in
      vals' <~ extract_cells (Z.to_nat cell_count) base 0 vals (u32 (i * cell_count));
      read_prop_cell_array_loop remaining' first (i + 1) cell_count vals'
  end.

Definition dtb_read_prop_cell_array (st : dtb_state) (prop : option propptr)
    (cell_count : Z) (vals : option (list Z)) : res (Z * option (list Z)) :=
  match prop with
  | None => Ret (0, vals)
  | Some prop =>
      if cell_count =? 0 then Ret (0, vals) else
      p <~ read_prop st prop;
      let fdtprop := ptr_add (first_cell p) (-8) in
      length <~ load32 fdtprop;
      let width := u32 (cell_count * FDT_CELL_SIZE) in
      if width =? 0 then Err DivByZero else
      let count := be32 length / width in
      match vals with
      | None => Ret (count, None)
      | Some buf =>
          buf' <~ read_prop_cell_array_loop (Z.to_nat count) (first_cell p) 0 cell_count buf;
          Ret (count, Some buf')
      end
  end.

Fixpoint read_prop_bytestring_loop (remaining : nat) (base : cptr) (i : Z)
                                   (vals : list Z) : res (list Z) :=
  match remaining with
  | O => Ret vals
  | S remaining' =>
      c <~ load8 (ptr_add base i);
      _ <~ of_option OutOfBounds (vals !! Z.to_nat i);
      read_prop_bytestring_loop remaining' base (i + 1) (<[Z.to_nat i := c]> vals)
  end.

Definition dtb_read_prop_bytestring (st : dtb_state) (prop : option propptr)
    (vals : option (list Z)) : res (Z * option (list Z)) :=
  match prop with
  | None => Ret (0, vals)
  | Some prop =>
      p <~ read_prop st prop;
      let fdtprop := ptr_add (first_cell p) (-8) in
      length <~ load32 fdtprop;
      let count := be32 length in
      match vals with
      | None => Ret (count, None)
      | Some buf =>
          buf' <~ read_prop_bytestring_loop (Z.to_nat count) (first_cell p) 0 buf;
          Ret (count, Some buf')
      end
  end.

Fixpoint read_prop_string_loop (remaining : nat) (name : cptr)
                               (scan curr_index index : Z) : res (option cptr) :=
  match remaining with
  | O => Ret None
  | S remaining' =>
      c <~ load8 (ptr_add name scan);
      if c =? 0 then
        read_prop_string_loop remaining' name (scan + 1) (u32 (curr_index + 1)) index
      else if curr_index =? index then Ret (Some (ptr_add name scan))
      else read_prop_string_loop remaining' name (scan + 1) curr_index index
  end.

Definition dtb_read_prop_string (st : dtb_state) (prop : option propptr) (index : Z)
  : res (option cptr) :=
  match prop with
  | None => Ret None
  | Some prop =>
      p <~ read_prop st prop;
      read_prop_string_loop (Z.to_nat (prop_length p)) (first_cell p) 0 0 index
  end.

(** ** The structure-block parser *)

(** The idiom [uint32_t x; dtb_read_prop_cell_array(prop, 1, &x);] followed by
    a use of [x]: a one-cell local that stays unwritten when the property
    holds no full cell and is overrun when it holds more than one. *)
Definition read_local_cell (st : dtb_state) (prop : propptr) : res Z :=
  '(count, vals) <~ dtb_read_prop_cell_array st (Some prop) 1 (Some [0]);
  if count =? 0 then Err Uninitialised
  else match vals with
       | Some (x :: _) => Ret x
       | _ => Err Uninitialised
       end.

(** [name_len == len && strings_eq(a, b)] with the short circuit of [&&]. *)
Definition same_name (name_len : Z) (a b : cptr) : res bool :=
  len <~ string_len b;
  if name_len =? len then strings_eq a b else Ret false.

Definition check_for_special_prop (node : nodeptr) (prop : propptr) : M unit :=
  p <- reads (fun st => read_prop st prop);
  name0 <- lift (load8 (prop_name p));
  if negb (name0 =? 35) && negb (name0 =? 112) && negb (name0 =? 108) then ret tt
  else
    name_len <- lift (string_len (prop_name p));
    is_phandle <- lift (same_name name_len (prop_name p) (cstr "phandle"));
    if is_phandle then
      handle <- reads (fun st => read_local_cell st prop);
      update (write_handle handle node)
    else
    is_linuxhandle <- lift (same_name name_len (prop_name p) (cstr "linux,phandle"));
    if is_linuxhandle then
      handle <- reads (fun st => read_local_cell st prop);
      update (write_handle handle node)
    else
    is_addrcells <- lift (same_name name_len (prop_name p) (cstr "#address-cells"));
    if is_addrcells then
      cells <- reads (fun st => read_local_cell st prop);
      update (write_node node (set_addr_cells (u8 cells)))
    else
    is_sizecells <- lift (same_name name_len (prop_name p) (cstr "#size-cells"));
    if is_sizecells then
      cells <- reads (fun st => read_local_cell st prop);
      update (write_node node (set_size_cells (u8 cells)))
    else ret tt.

(** [offset] is passed by reference in the source; here the new value is
    returned next to the result. *)
Definition parse_prop (offset : Z) : M (option propptr * Z) :=
  c <- reads (fun st => read_cell st offset);
  if negb (be32 c =? FDT_PROP) then ret (None, offset)
  else
    let offset := u32 (offset + 1) in
    prop <- alloc_prop;
    cs <- gets cells;
    strs <- gets strings;
    let fdtprop := ptr_add cs (4 * offset) in
    name_offset <- lift (load32 (ptr_add fdtprop 4));
    match prop with
    | None => fail NullDeref
    | Some prop =>
        do update (write_prop prop (set_prop_name (ptr_add strs (be32 name_offset))));
        do update (write_prop prop (set_first_cell (ptr_add cs (4 * (offset + 2)))));
        length <- lift (load32 fdtprop);
        do update (write_prop prop (set_prop_length (be32 length)));
        let offset :=
          u32 (offset + u32 (dtb_align_up (be32 length) FDT_CELL_SIZE / FDT_CELL_SIZE + 2)) in
        ret (Some prop, offset)
    end.

(** [parse_node] and the [while] loop in its body; [fuel] bounds the nesting
    of calls and iterations. *)
Fixpoint parse_node (fuel : nat) (offset : Z) (addr_cells size_cells : Z)
  : M (option nodeptr * Z) :=
  match fuel with
  | O => timeout
  | S fuel' =>
      c <- reads (fun st => read_cell st offset);
      if negb (be32 c =? FDT_BEGIN_NODE) then ret (None, offset)
      else
        node <- alloc_node;
        match node with
        | None => fail NullDeref
        | Some node =>
            cs <- gets cells;
            let name := ptr_add cs (4 * (offset + 1)) in
            do update (write_node node (set_node_name name));
            do update (write_node node (set_addr_cells addr_cells));
            do update (write_node node (set_size_cells size_cells));
            name_len <- lift (string_len name);
            let offset :=
              u32 (offset + u32 (dtb_align_up (u32 (name_len + 1)) FDT_CELL_SIZE
                                 / FDT_CELL_SIZE + 1)) in
            parse_node_loop fuel' node offset
        end
  end
with parse_node_loop (fuel : nat) (node : nodeptr) (offset : Z)
  : M (option nodeptr * Z) :=
  match fuel with
  | O => timeout
  | S fuel' =>
      count <- gets cell_count;
      if offset <? count then
        c <- reads (fun st => read_cell st offset);
        let test := be32 c in
        if test =? FDT_END_NODE then ret (Some node, u32 (offset + 1))
        else if test =? FDT_BEGIN_NODE then
          n <- reads (fun st => read_node st node);
          '(new_child, offset) <- parse_node fuel' offset (addr_cells n) (size_cells n);
          match new_child with
          | Some new_child =>
              n <- reads (fun st => read_node st node);
              do update (write_node new_child (set_sibling (child n)));
              do update (write_node node (set_child (Some new_child)));
              do update (write_node new_child (set_parent (Some node)));
              parse_node_loop fuel' node offset
          | None => parse_node_loop fuel' node offset
          end
        else if test =? FDT_PROP then
          '(prop, offset) <- parse_prop offset;
          match prop with
          | Some prop =>
              n <- reads (fun st => read_node st node);
              do update (write_prop prop (set_next (props n)));
              do update (write_node node (set_props (Some prop)));
              do check_for_special_prop node prop;
              parse_node_loop fuel' node offset
          | None => parse_node_loop fuel' node offset
          end
        else parse_node_loop fuel' node (u32 (offset + 1))
      else
        do call_on_error "Node has no terminating tag.";
        ret (None, offset)
  end.

(** The scanning loop at the end of [dtb_init]. *)
Fixpoint dtb_init_loop (fuel : nat) (i : Z) : M unit :=
  match fuel with
  | O => timeout
  | S fuel' =>
      count <- gets cell_count;
      if i <? count then
        c <- reads (fun st => read_cell st i);
        if negb (be32 c =? FDT_BEGIN_NODE) then dtb_init_loop fuel' (u32 (i + 1))
        else
          '(sub_root, i) <- parse_node fuel' i 2 1;
          match sub_root with
          | None => dtb_init_loop fuel' (u32 (i + 1))
          | Some sub_root =>
              r <- gets root;
              do update (write_node sub_root (set_sibling r));
              do modify (set_root (Some sub_root));
              dtb_init_loop fuel' (u32 (i + 1))
          end
      else ret tt
  end.

(** Enough fuel for any structure block of [count] cells: every iteration and
    every call moves the cursor forward. *)
Definition init_fuel (count : Z) : nat := S (S (Z.to_nat count)).

Definition dtb_init (start : cptr) (o : dtb_ops) : M unit :=
  do modify (set_ops o);
  if negb (malloc o) then call_on_error "ops.malloc is NULL"
  else
    magic <- lift (load32 start);
    if negb (be32 magic =? FDT_MAGIC) then
      call_on_error "FDT has incorrect magic number."
    else
      offset_structs <- lift (load32 (ptr_add start 8));
      do modify (set_cells (ptr_add start (be32 offset_structs)));
      size_structs <- lift (load32 (ptr_add start 36));
      do modify (set_cell_count (be32 size_structs / 4));
      offset_strings <- lift (load32 (ptr_add start 12));
      do modify (set_strings (ptr_add start (be32 offset_strings)));
      buff <- gets node_buff;
      do (if buff is Some _ then free_buffers else ret tt);
      do alloc_buffers;
      count <- gets cell_count;
      dtb_init_loop (init_fuel count) 0.

(** ** Queries

    The query functions only read the state and never call into [ops]; they
    are functions of the state.  A [const char*] argument is [None] when the
    caller passes a null pointer. *)

(** Bounds for walking a sibling or property chain: a chain without a cycle
    visits each table entry at most once. *)
Definition node_slots (st : dtb_state) : nat :=
  foldr (fun b acc => (length (nodes b) + acc)%nat) O (heap st).
Definition prop_slots (st : dtb_state) : nat :=
  foldr (fun b acc => (length (bprops b) + acc)%nat) O (heap st).

Definition dtb_find_phandle (st : dtb_state) (handle : Z) : res (option nodeptr) :=
  if handle <? node_alloc_max st then read_handle st handle
  else Ret None.

(** The loop of [find_child_internal]. *)
Fixpoint find_child_loop (fuel : nat) (st : dtb_state) (scan : option nodeptr)
                         (name : cptr) (name_bounds : Z) : res (option nodeptr) :=
  match scan with
  | None => Ret None
  | Some sc =>
      match fuel with
      | O => OutOfFuel
      | S fuel' =>
          n <~ read_node st sc;
          at_pos <~ string_find_char (node_name n) 64;
          child_name_len <~ (if at_pos =? NOT_FOUND then string_len (node_name n)
                             else Ret at_pos);
          matches <~ (if child_name_len =? name_bounds
                      then strings_eq_bounded (node_name n) name name_bounds
                      else Ret false);
          if matches then Ret (Some sc)
          else find_child_loop fuel' st (sibling n) name name_bounds
      end
  end.

Definition find_child_internal (st : dtb_state) (start : nodeptr) (name : cptr)
                               (name_bounds : Z) : res (option nodeptr) :=
  n <~ read_node st start;
  find_child_loop (S (node_slots st)) st (child n) name name_bounds.

(** [while (name[0] == '/') name++;] *)
Fixpoint skip_slashes (bytes : list Z) (name : cptr) : res cptr :=
  match bytes with
  | [] => Err OutOfBounds
  | c :: rest => if c =? 47 then skip_slashes rest (ptr_add name 1) else Ret name
  end.

(** The outer loop of [dtb_find]. *)
Fixpoint dtb_find_loop (fuel : nat) (st : dtb_state) (scan : option nodeptr)
                       (name : option cptr) : res (option nodeptr) :=
  match scan with
  | None => Ret None
  | Some sc =>
      match fuel with
      | O => OutOfFuel
      | S fuel' =>
          name <~ of_option NullDeref name;
          name <~ skip_slashes (bytes_from name) name;
          slash <~ string_find_char name 47;
          seg_len <~ (if slash =? NOT_FOUND then string_len name else Ret slash);
          if seg_len =? 0 then Ret (Some sc)
          else
            scan' <~ find_child_internal st sc name seg_len;
            dtb_find_loop fuel' st scan' (Some (ptr_add name seg_len))
      end
  end.

Definition dtb_find (st : dtb_state) (name : option cptr) : res (option nodeptr) :=
  dtb_find_loop (S (length (from_option bytes_from [] name))) st (root st) name.

Definition dtb_find_child (st : dtb_state) (start : option nodeptr) (name : option cptr)
  : res (option nodeptr) :=
  match start with
  | None => Ret None
  | Some start =>
      name <~ of_option NullDeref name;
      len <~ string_len name;
      find_child_internal st start name len
  end.

Fixpoint find_prop_loop (fuel : nat) (st : dtb_state) (prop : option propptr)
                        (name : cptr) (name_len : Z) : res (option propptr) :=
  match prop with
  | None => Ret None
  | Some pp =>
      match fuel with
      | O => OutOfFuel
      | S fuel' =>
          p <~ read_prop st pp;
          prop_name_len <~ string_len (prop_name p);
          matches <~ (if prop_name_len =? name_len then strings_eq (prop_name p) name
                      else Ret false);
          if matches then Ret (Some pp)
          else find_prop_loop fuel' st (next p) name name_len
      end
  end.

Definition dtb_find_prop (st : dtb_state) (node : option nodeptr) (name : option cptr)
  : res (option propptr) :=
  match node with
  | None => Ret None
  | Some node =>
      name <~ of_option NullDeref name;
      name_len <~ string_len name;
      n <~ read_node st node;
      find_prop_loop (S (prop_slots st)) st (props n) name name_len
  end.

Definition dtb_get_sibling (st : dtb_state) (node : option nodeptr)
  : res (option nodeptr) :=
  match node with
  | None => Ret None
  | Some node => n <~ read_node st node; Ret (sibling n)
  end.

Definition dtb_get_child (st : dtb_state) (node : option nodeptr)
  : res (option nodeptr) :=
  match node with
  | None => Ret None
  | Some node => n <~ read_node st node; Ret (child n)
  end.

Definition dtb_get_parent (st : dtb_state) (node : option nodeptr)
  : res (option nodeptr) :=
  match node with
  | None => Ret None
  | Some node => n <~ read_node st node; Ret (parent n)
  end.

Fixpoint get_prop_loop (fuel : nat) (st : dtb_state) (prop : option propptr)
                       (index : Z) : res (option propptr) :=
  match prop with
  | None => Ret None
  | Some pp =>
      if index =? 0 then Ret (Some pp)
      else match fuel with
           | O => OutOfFuel
           | S fuel' =>
               p <~ read_prop st pp;
               get_prop_loop fuel' st (next p) (u32 (index - 1))
           end
  end.

Definition dtb_get_prop (st : dtb_state) (node : option nodeptr) (index : Z)
  : res (option propptr) :=
  match node with
  | None => Ret None
  | Some node =>
      n <~ read_node st node;
      get_prop_loop (S (prop_slots st)) st (props n) index
  end.

(** The three counting loops of [dtb_stat_node]. *)
Fixpoint count_props (fuel : nat) (st : dtb_state) (prop : option propptr)
                     (count : Z) : res Z :=
  match prop with
  | None => Ret count
  | Some pp =>
      match fuel with
      | O => OutOfFuel
      | S fuel' =>
          p <~ read_prop st pp;
          count_props fuel' st (next p) (u32 (count + 1))
      end
  end.

Fixpoint count_siblings (fuel : nat) (st : dtb_state) (node : option nodeptr)
                        (count : Z) : res Z :=
  match node with
  | None => Ret count
  | Some np =>
      match fuel with
      | O => OutOfFuel
      | S fuel' =>
          n <~ read_node st np;
          count_siblings fuel' st (sibling n) (u32 (count + 1))
      end
  end.

Definition ROOT_NODE_STR : cptr := cstr "/".

Definition nodeptr_eqb (a b : nodeptr) : bool :=
  Nat.eqb a.1 b.1 && Nat.eqb a.2 b.2.

(** [stat] is the struct the caller's pointer refers to, [None] for a null
    pointer; the result is the struct after the call. *)
Definition dtb_stat_node (st : dtb_state) (node : option nodeptr)
    (stat : option dtb_node_stat) : res (option dtb_node_stat) :=
  match node with
  | None => Ret stat
  | Some node =>
      n <~ read_node st node;
      _ <~ of_option NullDeref stat;
      let is_root := match root st with
                     | Some r => nodeptr_eqb node r
                     | None => false
                     end in
      let stat_name := if is_root then ROOT_NODE_STR else node_name n in
      prop_count <~ count_props (S (prop_slots st)) st (props n) 0;
      child_count <~ count_siblings (S (node_slots st)) st (child n) 0;
      sibling_count <~
        match parent n with
        | Some par =>
            pn <~ read_node st par;
            count_siblings (S (node_slots st)) st (child pn) 0
        | None => Ret 0
        end;
      Ret (Some (Stat stat_name child_count prop_count sibling_count))
  end.

(** The inner [for (ci = 0; ; ci++)] loop of [dtb_find_compatible]. *)
Fixpoint compatible_strings_loop (fuel : nat) (st : dtb_state) (compat : propptr)
                                 (str : option cptr) (ci : Z) : res bool :=
  match fuel with
  | O => OutOfFuel
  | S fuel' =>
      compat_str <~ dtb_read_prop_string st (Some compat) ci;
      match compat_str with
      | None => Ret false
      | Some compat_str =>
          str' <~ of_option NullDeref str;
          eq <~ strings_eq compat_str str';
          if eq then Ret true
          else compatible_strings_loop fuel' st compat str (u32 (ci + 1))
      end
  end.

(** The outer loop, over the node table from [i] to [node_alloc_head]. *)
Fixpoint find_compatible_loop (remaining : nat) (st : dtb_state) (i : Z)
                              (str : option cptr) : res (option nodeptr) :=
  match remaining with
  | O => Ret None
  | S remaining' =>
      b <~ of_option NullDeref (node_buff st);
      let node := (b, Z.to_nat i) in
      compat <~ dtb_find_prop st (Some node) (Some (cstr "compatible"));
      match compat with
      | None => find_compatible_loop remaining' st (i + 1) str
      | Some compat =>
          p <~ read_prop st compat;
          found <~ compatible_strings_loop (S (S (Z.to_nat (prop_length p)))) st compat str 0;
          if found then Ret (Some node)
          else find_compatible_loop remaining' st (i + 1) str
      end
  end.

Definition dtb_find_compatible (st : dtb_state) (start : option nodeptr)
    (str : option cptr) : res (option nodeptr) :=
  begin_index <~
    match start with
    | None => Ret 0
    | Some start =>
        match node_buff st with
        | Some b => if Nat.eqb start.1 b then Ret (u32 (Z.of_nat start.2 + 1))
                    else Err ForeignPointer
        | None => Err ForeignPointer
        end
    end;
  find_compatible_loop (Z.to_nat (node_alloc_head st - begin_index)) st begin_index str.

(** Walking a node's children, or the top-level nodes, the way a caller
    does: [dtb_get_child] once, then [dtb_get_sibling] until it gives null. *)
Fixpoint siblings_from (fuel : nat) (st : dtb_state) (node : option nodeptr)
  : res (list nodeptr) :=
  match node with
  | None => Ret []
  | Some np =>
      match fuel with
      | O => OutOfFuel
      | S fuel' =>
          nxt <~ dtb_get_sibling st (Some np);
          rest <~ siblings_from fuel' st nxt;
          Ret (np :: rest)
      end
  end.

Definition iter_children (st : dtb_state) (node : nodeptr) : res (list nodeptr) :=
  first <~ dtb_get_child st (Some node);
  siblings_from (S (node_slots st)) st first.

(** ** Sample blobs *)

Definition be_bytes (x : Z) : list Z :=
  [x / 16777216 mod 256; x / 65536 mod 256; x / 256 mod 256; x mod 256].

Definition pad4 (l : list Z) : list Z :=
  l ++ replicate ((4 - length l mod 4) mod 4)%nat 0.

Definition tok_begin (s : string) : list Z :=
  be_bytes FDT_BEGIN_NODE ++ pad4 (bytes_of_string s ++ [0]).
Definition tok_end_node : list Z := be_bytes FDT_END_NODE.
Definition tok_prop (name_offset : Z) (value : list Z) : list Z :=
  be_bytes FDT_PROP ++ be_bytes (Z.of_nat (length value)) ++ be_bytes name_offset
  ++ pad4 value.
Definition tok_end : list Z := be_bytes 9.

(** A version-17 image: header, an empty memory-reservation block, the
    structure block and the strings block. *)
Definition fdt_blob (magic : Z) (structs : list Z) (strs : list Z) : cptr :=
  let off_structs := 56 in
  let size_structs := Z.of_nat (length structs) in
  let off_strings := off_structs + size_structs in
  let size_strings := Z.of_nat (length strs) in
  CPtr (flat_map be_bytes [magic; off_strings + size_strings; off_structs; off_strings;
                           40; 17; 16; 0; size_strings; size_structs]
        ++ replicate 16 0 ++ structs ++ strs) 0.

Definition all_ops : dtb_ops := Ops true true true.

(** The smallest valid tree: [/ { };]. *)
Definition blob_min : cptr :=
  fdt_blob FDT_MAGIC (tok_begin "" ++ tok_end_node ++ tok_end) [].

(** Offsets in [board_strings]: #address-cells 0, #size-cells 15, reg 27,
    phandle 31, compatible 39, interrupts 50. *)
Definition board_strings : list Z :=
  flat_map (fun s => bytes_of_string s ++ [0])
    ["#address-cells"; "#size-cells"; "reg"; "phandle"; "compatible"; "interrupts"]%string.

(** A small board: two cpus with phandles [h0] and [h1] and a uart.
<<
  / { #address-cells = <1>; #size-cells = <1>;
      cpus { #address-cells = <1>; #size-cells = <0>;
             cpu@0 { reg = <0>; phandle = <h0>; };
             cpu@1 { reg = <1>; phandle = <h1>; }; };
      soc { uart@1000 { compatible = "ns16550a"; interrupts = <3>; }; }; };
>> *)
Definition board_structs (h0 h1 : Z) : list Z :=
  tok_begin "" ++
    tok_prop 0 (be_bytes 1) ++ tok_prop 15 (be_bytes 1) ++
    tok_begin "cpus" ++
      tok_prop 0 (be_bytes 1) ++ tok_prop 15 (be_bytes 0) ++
      tok_begin "cpu@0" ++
        tok_prop 27 (be_bytes 0) ++ tok_prop 31 (be_bytes h0) ++ tok_end_node ++
      tok_begin "cpu@1" ++
        tok_prop 27 (be_bytes 1) ++ tok_prop 31 (be_bytes h1) ++ tok_end_node ++
    tok_end_node ++
    tok_begin "soc" ++
      tok_begin "uart@1000" ++
        tok_prop 39 (bytes_of_string "ns16550a" ++ [0]) ++ tok_prop 50 (be_bytes 3) ++
      tok_end_node ++
    tok_end_node ++
  tok_end_node ++ tok_end.

Definition board (h0 h1 : Z) : cptr :=
  fdt_blob FDT_MAGIC (board_structs h0 h1) board_strings.


(** The same two top-level nodes with nothing between them: [b] starts in
    the cell after the END_NODE of [a]. *)
Definition adjacent_roots : cptr :=
  fdt_blob FDT_MAGIC
    (tok_begin "a" ++ tok_prop 0 (be_bytes 3) ++ tok_prop 15 (be_bytes 1) ++ tok_end_node ++
     tok_begin "b" ++ tok_end_node ++ tok_end)
    board_strings.

(** One node whose [compatible] value starts with a NUL byte:
    [/ { #address-cells = <3>; #size-cells = <1>; compatible = "", "ns16550a"; };]. *)
Definition empty_first_compatible : cptr :=
  fdt_blob FDT_MAGIC
    (tok_begin "" ++ tok_prop 0 (be_bytes 3) ++ tok_prop 15 (be_bytes 1) ++
     tok_prop 39 ([0] ++ bytes_of_string "ns16550a" ++ [0]) ++
     tok_end_node ++ tok_end)
    board_strings.

(** The state after [dtb_init] on a parser that was never initialised. *)
Definition init_state (start : cptr) (o : dtb_ops) : res dtb_state :=
  match dtb_init start o state0 with
  | Ret (_, st) => Ret st
  | Err f => Err f
  | OutOfFuel => OutOfFuel
  end.

(** * Definitions for the statements and the proofs *)

(** ** States reached on the sample blobs *)

(** A blob whose magic number is off by one. *)
Definition bad_blob : cptr := fdt_blob 0xD00DFEEE (tok_begin "" ++ tok_end_node ++ tok_end) [].

(** The state [dtb_init] has reached on the minimal blob when the scanning
    loop starts: header read, tables sized by the pre-scan. *)
Definition blob_min_prescanned : res (unit * dtb_state) :=
  (do modify (set_ops all_ops);
   do modify (set_cells (ptr_add blob_min 56));
   do modify (set_cell_count 4);
   do modify (set_strings (ptr_add blob_min 72));
   alloc_buffers) state0.

(** The sample board after [dtb_init], and cpu@0 in it. *)
Definition board_state : dtb_state :=
  match init_state (board 1 2) all_ops with
  | Ret st => st
  | _ => state0
  end.

Definition board_cpu0 : dtb_node :=
  match read_node board_state (0, 2)%nat with
  | Ret n => n
  | _ => zero_node
  end.

(** ** Segments of a path *)

(** The segments of a path: the maximal runs of bytes other than ['/'] up to
    the terminator. *)
Definition flush (cur : list Z) : list (list Z) :=
  match cur with
  | [] => []
  | _ => [cur]
  end.

Fixpoint segments_from (bytes : list Z) (cur : list Z) : list (list Z) :=
  match bytes with
  | [] => flush cur
  | c :: rest =>
      if c =? 0 then flush cur
      else if c =? 47 then flush cur ++ segments_from rest []
      else segments_from rest (cur ++ [c])
  end.

Definition segments (bytes : list Z) : list (list Z) := segments_from bytes [].

(** Descending from [scan] along a list of segments. *)
Fixpoint walk (st : dtb_state) (scan : option nodeptr) (segs : list (list Z))
  : res (option nodeptr) :=
  match scan with
  | None => Ret None
  | Some sc =>
      match segs with
      | [] => Ret (Some sc)
      | seg :: rest =>
          scan' <~ find_child_internal st sc (CPtr seg 0) (Z.of_nat (length seg));
          walk st scan' rest
      end
  end.

(** The path given as the bytes before its terminator. *)
Definition path_of (bytes : list Z) : option cptr := Some (CPtr (bytes ++ [0]) 0).

(** Length of the leading run of bytes other than ['/'] and NUL, and of the
    leading run of ['/']. *)
Fixpoint segment_end (bytes : list Z) : nat :=
  match bytes with
  | c :: rest => if (c =? 0) || (c =? 47) then O else S (segment_end rest)
  | [] => O
  end.

Fixpoint slash_run (bytes : list Z) : nat :=
  match bytes with
  | c :: rest => if c =? 47 then S (slash_run rest) else O
  | [] => O
  end.

(** A path whose terminator a [uint32_t] index can reach. *)
Definition short (bytes : list Z) : Prop := Z.of_nat (length bytes) + 1 < NOT_FOUND.

(** ** Tables, well-formed states and frames *)

Definition nodes_of (st : dtb_state) (b : nat) : list dtb_node :=
  match heap st !! b with
  | Some blk => nodes blk
  | None => []
  end.

Definition props_of (st : dtb_state) (b : nat) : list dtb_prop :=
  match heap st !! b with
  | Some blk => bprops blk
  | None => []
  end.

Definition handles_of (st : dtb_state) (b : nat) : list (option nodeptr) :=
  match heap st !! b with
  | Some blk => handles blk
  | None => []
  end.

Definition is_live (st : dtb_state) (b : nat) : Prop :=
  exists blk, heap st !! b = Some blk /\ live blk = true.

(** What the parser leaves alone once [alloc_buffers] has run. *)
Record same_config (st st' : dtb_state) : Prop := SameConfig {
  sc_cells : cells st' = cells st;
  sc_strings : strings st' = strings st;
  sc_cell_count : cell_count st' = cell_count st;
  sc_handle_lookup : handle_lookup st' = handle_lookup st;
  sc_node_buff : node_buff st' = node_buff st;
  sc_prop_buff : prop_buff st' = prop_buff st;
  sc_node_alloc_max : node_alloc_max st' = node_alloc_max st;
  sc_prop_alloc_max : prop_alloc_max st' = prop_alloc_max st;
  sc_ops : ops st' = ops st;
  sc_live : forall b, is_live st b -> is_live st' b;
  sc_nodes_len : forall b, length (nodes_of st' b) = length (nodes_of st b);
  sc_props_len : forall b, length (props_of st' b) = length (props_of st b);
  sc_handles_len : forall b, length (handles_of st' b) = length (handles_of st b)
}.

(** A step that only touches the tables. *)
Record tables_only (st st' : dtb_state) : Prop := TablesOnly {
  to_config : same_config st st';
  to_node_head : node_alloc_head st' = node_alloc_head st;
  to_prop_head : prop_alloc_head st' = prop_alloc_head st;
  to_root : root st' = root st;
  to_err_log : err_log st' = err_log st
}.

(** The state between [alloc_buffers] and the end of [dtb_init]: the three
    tables live in block [b], the bump pointers are within bounds, and the
    entries not handed out yet are still zero. *)
Record wf (b : nat) (st : dtb_state) : Prop := Wf {
  wf_node_buff : node_buff st = Some b;
  wf_prop_buff : prop_buff st = Some b;
  wf_handle_lookup : handle_lookup st = Some b;
  wf_live : is_live st b;
  wf_node_head : 0 <= node_alloc_head st <= node_alloc_max st;
  wf_prop_head : 0 <= prop_alloc_head st <= prop_alloc_max st;
  wf_node_max : node_alloc_max st < 4294967295;
  wf_prop_max : prop_alloc_max st < 4294967295;
  wf_fresh_nodes : forall i n,
      nodes_of st b !! i = Some n -> node_alloc_head st <= Z.of_nat i -> n = zero_node;
  wf_fresh_props : forall i p,
      props_of st b !! i = Some p -> prop_alloc_head st <= Z.of_nat i -> p = zero_prop;
  wf_node_room : node_alloc_head st = 0 \/ node_alloc_head st < node_alloc_max st;
  wf_prop_room : prop_alloc_head st = 0 \/ prop_alloc_head st < prop_alloc_max st
}.

(** [st'] is [st] with the bump pointers advanced by [dn] and [dp] and the
    tables of block [b] rewritten by [fn], [fp] and [fh]. *)
Record table_step (b : nat) (st st' : dtb_state) (dn dp : Z)
    (fn : list dtb_node -> list dtb_node) (fp : list dtb_prop -> list dtb_prop)
    (fh : list (option nodeptr) -> list (option nodeptr)) : Prop := TableStep {
  ts_config : same_config st st';
  ts_root : root st' = root st;
  ts_node_head : node_alloc_head st' = node_alloc_head st + dn;
  ts_prop_head : prop_alloc_head st' = prop_alloc_head st + dp;
  ts_nodes : nodes_of st' b = fn (nodes_of st b);
  ts_props : props_of st' b = fp (props_of st b);
  ts_handles : handles_of st' b = fh (handles_of st b)
}.

(** ** Tokens and the steps they cause *)

(** What the parser reads at a cursor position, as functions of the blob. *)
Definition token_at (cs : cptr) (offset : Z) : res Z :=
  c <~ load32 (ptr_add cs (4 * offset)); Ret (be32 c).

Definition node_name_at (cs : cptr) (offset : Z) : cptr :=
  ptr_add cs (4 * (offset + 1)).

Definition after_name (cs : cptr) (offset : Z) : res Z :=
  name_len <~ string_len (node_name_at cs offset);
  Ret (u32 (offset + u32 (dtb_align_up (u32 (name_len + 1)) FDT_CELL_SIZE
                          / FDT_CELL_SIZE + 1))).

Definition prop_length_at (cs : cptr) (offset : Z) : res Z :=
  length <~ load32 (ptr_add cs (4 * u32 (offset + 1))); Ret (be32 length).

Definition prop_name_at (cs strs : cptr) (offset : Z) : res cptr :=
  name_offset <~ load32 (ptr_add (ptr_add cs (4 * u32 (offset + 1))) 4);
  Ret (ptr_add strs (be32 name_offset)).

Definition prop_payload_at (cs : cptr) (offset : Z) : cptr :=
  ptr_add cs (4 * (u32 (offset + 1) + 2)).

Definition after_prop (cs : cptr) (offset : Z) : res Z :=
  length <~ prop_length_at cs offset;
  Ret (u32 (u32 (offset + 1)
            + u32 (dtb_align_up length FDT_CELL_SIZE / FDT_CELL_SIZE + 2))).

(** The properties [check_for_special_prop] acts on, by name. *)
Inductive special : Type := SpNone | SpHandle | SpAddrCells | SpSizeCells.

#[global] Instance special_eq_dec : EqDecision special.
Proof. solve_decision. Defined.

Definition classify_name (name : cptr) : res special :=
  name0 <~ load8 name;
  if negb (name0 =? 35) && negb (name0 =? 112) && negb (name0 =? 108) then Ret SpNone
  else
    name_len <~ string_len name;
    is_phandle <~ same_name name_len name (cstr "phandle");
    if is_phandle then Ret SpHandle else
    is_linuxhandle <~ same_name name_len name (cstr "linux,phandle");
    if is_linuxhandle then Ret SpHandle else
    is_addrcells <~ same_name name_len name (cstr "#address-cells");
    if is_addrcells then Ret SpAddrCells else
    is_sizecells <~ same_name name_len name (cstr "#size-cells");
    if is_sizecells then Ret SpSizeCells else Ret SpNone.

(** The effect of [check_for_special_prop], by kind of property. *)
Definition special_effect (kind : special) (node : nodeptr) (prop : propptr)
    (st st' : dtb_state) : Prop :=
  match kind with
  | SpNone => st' = st
  | SpHandle =>
      exists handle, read_local_cell st prop = Ret handle /\
                     write_handle handle node st = Ret st'
  | SpAddrCells =>
      exists v, read_local_cell st prop = Ret v /\
                write_node node (set_addr_cells (u8 v)) st = Ret st'
  | SpSizeCells =>
      exists v, read_local_cell st prop = Ret v /\
                write_node node (set_size_cells (u8 v)) st = Ret st'
  end.

(** The three stores that hang a parsed child under its parent, and the two
    that hang a parsed property on its node. *)
Definition link_child_run (node new_child : nodeptr) (st st' : dtb_state) : Prop :=
  exists n st1 st2,
    read_node st node = Ret n /\
    write_node new_child (set_sibling (child n)) st = Ret st1 /\
    write_node node (set_child (Some new_child)) st1 = Ret st2 /\
    write_node new_child (set_parent (Some node)) st2 = Ret st'.

Definition link_prop_run (node : nodeptr) (prop : propptr) (st st' : dtb_state) : Prop :=
  exists n st1,
    read_node st node = Ret n /\
    write_prop prop (set_next (props n)) st = Ret st1 /\
    write_node node (set_props (Some prop)) st1 = Ret st'.

(** The table updates of [check_for_special_prop], by kind. *)
Definition special_update (kind : special) (b k j : nat) (st : dtb_state)
    (fn : list dtb_node -> list dtb_node)
    (fh : list (option nodeptr) -> list (option nodeptr)) : Prop :=
  match kind with
  | SpNone => fn = id /\ fh = id
  | SpHandle =>
      exists handle,
        read_local_cell st (b, j) = Ret handle /\
        (Z.to_nat handle < length (handles_of st b))%nat /\
        fn = id /\ fh = <[Z.to_nat handle := Some (b, k)]>
  | SpAddrCells =>
      exists v, read_local_cell st (b, j) = Ret v /\
                fn = alter (set_addr_cells (u8 v)) k /\ fh = id
  | SpSizeCells =>
      exists v, read_local_cell st (b, j) = Ret v /\
                fn = alter (set_size_cells (u8 v)) k /\ fh = id
  end.

(** Table updates that leave entries outside a set of indices alone. *)
Definition touches_only {A : Type} (f : list A -> list A) (S : nat -> Prop) : Prop :=
  forall l i, ~ S i -> f l !! i = l !! i.

(** The fields of the node being parsed that its own loop never writes. *)
Definition kept (n n' : dtb_node) : Prop :=
  parent n' = parent n /\ sibling n' = sibling n /\ node_name n' = node_name n.

(** Node-table updates that keep those fields of entry [k]. *)
Definition keeps (f : list dtb_node -> list dtb_node) (k : nat) : Prop :=
  forall l n, l !! k = Some n -> exists n', f l !! k = Some n' /\ kept n n'.

(** Between [st] and [st'] the parser moved forward: the configuration and
    the root are the same, the bump pointers did not go back, the node
    entries below [bn] other than [k] and the property entries below [bp]
    are unchanged, and entry [k] kept its own links. *)
Record frame (b k : nat) (bn bp : Z) (st st' : dtb_state) : Prop := Frame {
  fr_config : same_config st st';
  fr_root : root st' = root st;
  fr_node_head : node_alloc_head st <= node_alloc_head st';
  fr_prop_head : prop_alloc_head st <= prop_alloc_head st';
  fr_nodes : forall i, Z.of_nat i < bn -> i <> k ->
                       nodes_of st' b !! i = nodes_of st b !! i;
  fr_kept : forall n, Z.of_nat k < bn -> nodes_of st b !! k = Some n ->
                      exists n', nodes_of st' b !! k = Some n' /\ kept n n';
  fr_props : forall j, Z.of_nat j < bp ->
                       props_of st' b !! j = props_of st b !! j;
  fr_wf : wf b st'
}.

(** What a call of [parse_node] guarantees: nothing that existed changed,
    and the node returned is the next table entry, without parent or
    sibling, named by the bytes after its token. *)
Definition call_post (b : nat) (offset : Z) (st : dtb_state) (r : option nodeptr)
    (st' : dtb_state) : Prop :=
  let k := Z.to_nat (node_alloc_head st) in
  frame b k (node_alloc_head st) (prop_alloc_head st) st st' /\
  (forall n, r = Some n ->
     n = (b, k) /\
     node_alloc_head st < node_alloc_head st' /\
     exists nd,
       nodes_of st' b !! k = Some nd /\
       parent nd = None /\ sibling nd = None /\
       node_name nd = node_name_at (cells st) offset).

(** What a run of the loop on node [k] guarantees. *)
Definition loop_post (b k : nat) (st : dtb_state) (r : option nodeptr)
    (st' : dtb_state) : Prop :=
  frame b k (node_alloc_head st) (prop_alloc_head st) st st' /\
  (forall n, r = Some n -> n = (b, k)).

(** ** Chains and the phandle table *)

(** [node_chain b ns bound c l]: following [sibling] from [c] in the node
    table [ns] visits the entries [l], at strictly decreasing indices below
    [bound], and ends in null. *)
Inductive node_chain (b : nat) (ns : list dtb_node)
  : nat -> option nodeptr -> list nat -> Prop :=
  | node_chain_nil bound : node_chain b ns bound None []
  | node_chain_cons bound i n l :
      (i < bound)%nat ->
      ns !! i = Some n ->
      node_chain b ns i (sibling n) l ->
      node_chain b ns bound (Some (b, i)) (i :: l).

(** The same for a property list, following [next]. *)
Inductive prop_chain (b : nat) (ps : list dtb_prop)
  : nat -> option propptr -> list nat -> Prop :=
  | prop_chain_nil bound : prop_chain b ps bound None []
  | prop_chain_cons bound j p l :
      (j < bound)%nat ->
      ps !! j = Some p ->
      prop_chain b ps j (next p) l ->
      prop_chain b ps bound (Some (b, j)) (j :: l).

(** What [read_local_cell] computes from the payload pointer of a property:
    the first cell, provided the length field holds exactly one cell. *)
Definition decode_cell (first : cptr) : res Z :=
  length <~ load32 (ptr_add first (-8));
  if be32 length / 4 =? 1 then (c <~ load32 first; Ret (be32 c))
  else if be32 length / 4 =? 0 then Err Uninitialised
  else Err OutOfBounds.

(** A property that registers its node under handle [h]. *)
Definition prop_handle (p : dtb_prop) (h : Z) : Prop :=
  classify_name (prop_name p) = Ret SpHandle /\ decode_cell (first_cell p) = Ret h.

(** The invariant of the phandle table: every allocated node has a
    property chain, every entry of the table points to a node one of whose
    properties registered it there, and every registering property on a
    chain has its entry filled. *)
Record hinv (b : nat) (st : dtb_state) : Prop := HInv {
  hi_chains : forall k nd,
      Z.of_nat k < node_alloc_head st -> nodes_of st b !! k = Some nd ->
      exists ps, prop_chain b (props_of st b) (Z.to_nat (prop_alloc_head st)) (props nd) ps;
  hi_table : forall h n,
      handles_of st b !! h = Some (Some n) ->
      exists k nd ps j p,
        n = (b, k) /\ Z.of_nat k < node_alloc_head st /\
        nodes_of st b !! k = Some nd /\
        prop_chain b (props_of st b) (Z.to_nat (prop_alloc_head st)) (props nd) ps /\
        j ∈ ps /\ props_of st b !! j = Some p /\ prop_handle p (Z.of_nat h);
  hi_props : forall k nd ps j p,
      Z.of_nat k < node_alloc_head st -> nodes_of st b !! k = Some nd ->
      prop_chain b (props_of st b) (Z.to_nat (prop_alloc_head st)) (props nd) ps ->
      j ∈ ps -> props_of st b !! j = Some p ->
      classify_name (prop_name p) = Ret SpHandle ->
      exists h n, decode_cell (first_cell p) = Ret h /\
                  handles_of st b !! Z.to_nat h = Some (Some n);
  hi_size : length (handles_of st b) = Z.to_nat (node_alloc_max st)
}.

(** Node tables that agree on the property lists of the allocated entries,
    new entries having none. *)
Definition same_props (ns ns' : list dtb_node) (head head' : Z) : Prop :=
  (forall k nd, Z.of_nat k < head -> ns !! k = Some nd ->
                exists nd', ns' !! k = Some nd' /\ props nd' = props nd) /\
  (forall k nd', Z.of_nat k < head' -> ns' !! k = Some nd' ->
                 (Z.of_nat k < head /\
                  exists nd, ns !! k = Some nd /\ props nd' = props nd) \/
                 props nd' = None).

(** Stores into a node that leave its property list alone. *)
Definition props_safe (f : dtb_node -> dtb_node) : Prop := forall n, props (f n) = props n.

(** [st'] is [st] with new capacities. *)
Definition recounted (st st' : dtb_state) : Prop :=
  st' = set_prop_alloc_max (prop_alloc_max st') (set_node_alloc_max (node_alloc_max st') st).

(** The block [alloc_buffers] obtains, zeroed. *)
Definition fresh_block (node_max prop_max : Z) : block :=
  Block (replicate (Z.to_nat node_max) zero_node)
        (replicate (Z.to_nat prop_max) zero_prop)
        (replicate (Z.to_nat node_max) None) true.

(** ** Enumerating what was parsed *)

(** The nodes the parser made: the entries of the node table handed out by
    [alloc_node]. *)
Definition parsed (st : dtb_state) (node : nodeptr) : Prop :=
  node_buff st = Some node.1 /\ Z.of_nat node.2 < node_alloc_head st.

(** Walking a node's properties the way a caller does: [dtb_get_prop] with
    index 0, 1, 2, ... until it gives null. *)
Fixpoint props_from (fuel : nat) (st : dtb_state) (node : nodeptr) (i : Z)
  : res (list propptr) :=
  match fuel with
  | O => OutOfFuel
  | S fuel' =>
      r <~ dtb_get_prop st (Some node) i;
      match r with
      | None => Ret []
      | Some p => rest <~ props_from fuel' st node (i + 1); Ret (p :: rest)
      end
  end.

Definition iter_props (st : dtb_state) (node : nodeptr) : res (list propptr) :=
  props_from (S (prop_slots st)) st node 0.

(** Whether property [p] is a [phandle] or [linux,phandle] of one cell
    that decodes to [h]. *)
Definition is_handle_for (p : dtb_prop) (h : Z) : res bool :=
  kind <~ classify_name (prop_name p);
  match kind with
  | SpHandle => d <~ decode_cell (first_cell p); Ret (d =? h)
  | _ => Ret false
  end.

Fixpoint any_handle (st : dtb_state) (props : list propptr) (h : Z) : res bool :=
  match props with
  | [] => Ret false
  | pp :: rest =>
      p <~ read_prop st pp;
      here <~ is_handle_for p h;
      others <~ any_handle st rest h;
      Ret (here || others)
  end.

(** Whether one of the properties of [node], as [dtb_get_prop] lists them,
    gives it the handle [h]. *)
Definition registers (st : dtb_state) (node : nodeptr) (h : Z) : res bool :=
  props <~ iter_props st node; any_handle st props h.

(** The parsed nodes that claim the handle [h], in table order. *)
Fixpoint registrants_from (remaining : nat) (st : dtb_state) (b k : nat) (h : Z)
  : res (list nodeptr) :=
  match remaining with
  | O => Ret []
  | S remaining' =>
      here <~ registers st (b, k) h;
      rest <~ registrants_from remaining' st b (S k) h;
      Ret (if here then (b, k) :: rest else rest)
  end.

Definition registrants (st : dtb_state) (h : Z) : res (list nodeptr) :=
  b <~ of_option NullDeref (node_buff st);
  registrants_from (Z.to_nat (node_alloc_head st)) st b 0 h.

(** ** The structure block read token by token *)

(** What a node's body holds, in blob order: properties and child nodes,
    each named by the cell its token sits in. *)
Inductive item : Type :=
  | IProp (offset : Z)
  | INode (offset : Z).

(** The node whose BEGIN_NODE token is at [offset], read as the format
    lays it out: the name, then properties, child nodes and other tokens up to
    the matching END_NODE.  The result is the body, or [None] when the block
    ends first, and the cell after the node.  A child cut short by the end of
    the block is no child. *)
Fixpoint fdt_node (fuel : nat) (cs : cptr) (count offset : Z)
  : res (option (list item) * Z) :=
  match fuel with
  | O => OutOfFuel
  | S fuel' =>
      t <~ token_at cs offset;
      if negb (t =? FDT_BEGIN_NODE) then Ret (None, offset)
      else
        body <~ after_name cs offset;
        fdt_body fuel' cs count body
  end
with fdt_body (fuel : nat) (cs : cptr) (count offset : Z)
  : res (option (list item) * Z) :=
  match fuel with
  | O => OutOfFuel
  | S fuel' =>
      if offset <? count then
        t <~ token_at cs offset;
        if t =? FDT_END_NODE then Ret (Some [], u32 (offset + 1))
        else if t =? FDT_BEGIN_NODE then
          sub <~ fdt_node fuel' cs count offset;
          rest <~ fdt_body fuel' cs count sub.2;
          Ret (match sub.1, rest.1 with
               | Some _, Some r => Some (INode offset :: r)
               | None, Some r => Some r
               | _, None => None
               end, rest.2)
        else if t =? FDT_PROP then
          next_offset <~ after_prop cs offset;
          rest <~ fdt_body fuel' cs count next_offset;
          Ret (match rest.1 with
               | Some r => Some (IProp offset :: r)
               | None => None
               end, rest.2)
        else fdt_body fuel' cs count (u32 (offset + 1))
      else Ret (None, offset)
  end.

(** The top-level nodes of the structure block as the format lays them
    out, in blob order, each with the cell after its END_NODE: outside of a
    node a BEGIN_NODE token starts a top-level node and any other cell is
    passed over.  The result is [None] when a top-level node is cut short by
    the end of the block. *)
Fixpoint fdt_roots (fuel : nat) (cs : cptr) (count i : Z) : res (option (list (Z * Z))) :=
  match fuel with
  | O => OutOfFuel
  | S fuel' =>
      if i <? count then
        t <~ token_at cs i;
        if negb (t =? FDT_BEGIN_NODE) then fdt_roots fuel' cs count (i + 1)
        else
          sub <~ fdt_node fuel' cs count i;
          match sub.1 with
          | None => Ret None
          | Some _ =>
              rest <~ fdt_roots fuel' cs count sub.2;
              Ret (cons (i, sub.2) <$> rest)
          end
      else Ret (Some [])
  end.

(** Whether the cell [e] is inside the block and holds a BEGIN_NODE token. *)
Definition node_follows (cs : cptr) (count e : Z) : bool :=
  (e <? count) &&
  match token_at cs e with
  | Ret t => t =? FDT_BEGIN_NODE
  | _ => false
  end.

(** The cells at which the scanning loop of [dtb_init] finds a node, in blob
    order.  This follows the loop of the source, not the layout of the
    block: the loop adds one to the cursor that [parse_node] has already
    moved past the node, so the cell after a node is never looked at, and a
    node that starts there is not found.  What the block holds at the top
    level is [fdt_roots]. *)
Fixpoint scan_toplevel (fuel : nat) (cs : cptr) (count i : Z) : res (list Z) :=
  match fuel with
  | O => OutOfFuel
  | S fuel' =>
      if i <? count then
        t <~ token_at cs i;
        if negb (t =? FDT_BEGIN_NODE) then scan_toplevel fuel' cs count (u32 (i + 1))
        else
          sub <~ fdt_node fuel' cs count i;
          rest <~ scan_toplevel fuel' cs count (u32 (sub.2 + 1));
          Ret (match sub.1 with
               | Some _ => i :: rest
               | None => rest
               end)
      else Ret []
  end.

Definition kid_offsets (items : list item) : list Z :=
  flat_map (fun it => match it with INode o => [o] | IProp _ => [] end) items.

Definition prop_offsets (items : list item) : list Z :=
  flat_map (fun it => match it with IProp o => [o] | INode _ => [] end) items.

(** The pair (#address-cells, #size-cells) of a node after the property at
    [offset]: a one-cell [#address-cells] or [#size-cells] replaces its half,
    truncated to the [uint8_t] field. *)
Definition prop_cells (cs strs : cptr) (v : Z * Z) (offset : Z) : res (Z * Z) :=
  name <~ prop_name_at cs strs offset;
  kind <~ classify_name name;
  match kind with
  | SpAddrCells => c <~ decode_cell (prop_payload_at cs offset); Ret (u8 c, v.2)
  | SpSizeCells => c <~ decode_cell (prop_payload_at cs offset); Ret (v.1, u8 c)
  | _ => Ret v
  end.

(** The pair a node ends up with, from the pair [v] it started with. *)
Fixpoint cells_after (cs strs : cptr) (v : Z * Z) (items : list item) : res (Z * Z) :=
  match items with
  | [] => Ret v
  | IProp o :: rest => v' <~ prop_cells cs strs v o; cells_after cs strs v' rest
  | INode _ :: rest => cells_after cs strs v rest
  end.

(** The child nodes of a body, each with the pair its parent holds when the
    child's token is reached. *)
Fixpoint kids_cells (cs strs : cptr) (v : Z * Z) (items : list item)
  : res (list (Z * (Z * Z))) :=
  match items with
  | [] => Ret []
  | IProp o :: rest => v' <~ prop_cells cs strs v o; kids_cells cs strs v' rest
  | INode o :: rest => l <~ kids_cells cs strs v rest; Ret ((o, v) :: l)
  end.

(** ** Relating the tree to the tokens *)

(** The fields of a node that are final once its END_NODE is reached. *)
Definition same_but_links (n n' : dtb_node) : Prop :=
  child n' = child n /\ props n' = props n /\ node_name n' = node_name n /\
  addr_cells n' = addr_cells n /\ size_cells n' = size_cells n.

(** Between [st] and [st'] the nodes from [lo] up that existed in [st], and
    the properties that existed, were left alone, except that node [lo] may
    have been given a parent and a sibling. *)
Record settled (b lo : nat) (st st' : dtb_state) : Prop := Settled {
  sd_config : same_config st st';
  sd_node_head : node_alloc_head st <= node_alloc_head st';
  sd_prop_head : prop_alloc_head st <= prop_alloc_head st';
  sd_nodes : forall i nd,
      (lo <= i)%nat -> Z.of_nat i < node_alloc_head st ->
      nodes_of st b !! i = Some nd ->
      exists nd', nodes_of st' b !! i = Some nd' /\ same_but_links nd nd' /\
                  ((lo < i)%nat -> nd' = nd);
  sd_props : forall j, Z.of_nat j < prop_alloc_head st ->
                       props_of st' b !! j = props_of st b !! j
}.

Section SimulationDefs.

Variable b : nat.
Variables cs strs : cptr.
Variable count : Z.

(** The blob the state is parsing. *)
Definition cfg (st : dtb_state) : Prop :=
  cells st = cs /\ strings st = strs /\ cell_count st = count.

(** Entry [c] of the node table is the node of the token at [ov.1], made
    with the inherited pair [ov.2]. *)
Definition kid_ok (lo : nat) (ns : list dtb_node) (inh : nat -> Z * Z)
    (c : nat) (ov : Z * (Z * Z)) : Prop :=
  (lo <= c)%nat /\
  exists n, ns !! c = Some n /\ node_name n = node_name_at cs ov.1 /\ inh c = ov.2.

(** Entry [j] of the property table is the property of the token at [o]. *)
Definition prop_ok (ps : list dtb_prop) (j : nat) (o : Z) : Prop :=
  exists p, ps !! j = Some p /\
            first_cell p = prop_payload_at cs o /\
            prop_name_at cs strs o = Ret (prop_name p) /\
            prop_length_at cs o = Ret (prop_length p).

(** Node [k], whose body is [items], has been parsed to its end. *)
Record done_ok (inh : nat -> Z * Z) (st : dtb_state) (k : nat) (nd : dtb_node)
    (items : list item) : Prop := DoneOk {
  dk_kids : exists cl kc,
      node_chain b (nodes_of st b) (Z.to_nat (node_alloc_head st)) (child nd) cl /\
      kids_cells cs strs (inh k) items = Ret kc /\
      Forall2 (kid_ok (S k) (nodes_of st b) inh) cl (rev kc);
  dk_props : exists pl,
      prop_chain b (props_of st b) (Z.to_nat (prop_alloc_head st)) (props nd) pl /\
      Forall2 (prop_ok (props_of st b)) pl (rev (prop_offsets items));
  dk_cells : cells_after cs strs (inh k) items = Ret (addr_cells nd, size_cells nd)
}.

(** Entry [k], if it is the node of a token with a complete body, has been
    parsed to its end. *)
Definition fin (inh : nat -> Z * Z) (st : dtb_state) (k : nat) : Prop :=
  forall nd offset fuel items offset',
    nodes_of st b !! k = Some nd ->
    node_name nd = node_name_at cs offset ->
    fdt_node fuel cs count offset = Ret (Some items, offset') ->
    done_ok inh st k nd items.

Definition fin_range (inh : nat -> Z * Z) (st : dtb_state) (lo hi : Z) : Prop :=
  forall k, lo <= Z.of_nat k < hi -> fin inh st k.

(** What one run of the loop on node [k] adds to it: the children and
    properties of the remaining items [rest] go in front of the lists the
    node had, and its pair of cell counts follows the properties. *)
Definition grows (inh : nat -> Z * Z) (st st' : dtb_state) (k : nat) (nd : dtb_node)
    (rest : list item) : Prop :=
  exists nd',
    nodes_of st' b !! k = Some nd' /\
    (forall cl,
        node_chain b (nodes_of st b) (Z.to_nat (node_alloc_head st)) (child nd) cl ->
        exists ncl kc,
          node_chain b (nodes_of st' b) (Z.to_nat (node_alloc_head st'))
                     (child nd') (ncl ++ cl) /\
          kids_cells cs strs (addr_cells nd, size_cells nd) rest = Ret kc /\
          Forall2 (kid_ok (Z.to_nat (node_alloc_head st)) (nodes_of st' b) inh)
                  ncl (rev kc)) /\
    (forall pl,
        prop_chain b (props_of st b) (Z.to_nat (prop_alloc_head st)) (props nd) pl ->
        exists npl,
          prop_chain b (props_of st' b) (Z.to_nat (prop_alloc_head st'))
                     (props nd') (npl ++ pl) /\
          Forall2 (prop_ok (props_of st' b)) npl (rev (prop_offsets rest))) /\
    cells_after cs strs (addr_cells nd, size_cells nd) rest
    = Ret (addr_cells nd', size_cells nd').

(** What a call of [parse_node] amounts to: the code and the token-level
    reading agree on whether there is a node and on where it ends, and every
    node the call made is parsed to its end, for a suitable record [inh] of
    the pairs the nodes were made with. *)
Definition call_sim (fuel : nat) : Prop :=
  forall offset ac sc st r offset' st',
    wf b st -> cfg st ->
    parse_node fuel offset ac sc st = Ret ((r, offset'), st') ->
    exists ritems,
      fdt_node fuel cs count offset = Ret (ritems, offset') /\
      (ritems = None <-> r = None) /\
      forall inh, exists inh',
        (forall i, Z.of_nat i < node_alloc_head st -> inh' i = inh i) /\
        (r <> None -> inh' (Z.to_nat (node_alloc_head st)) = (ac, sc)) /\
        fin_range inh' st' (node_alloc_head st) (node_alloc_head st').

Definition loop_sim (fuel : nat) : Prop :=
  forall k offset st r offset' st',
    wf b st -> cfg st -> Z.of_nat k < node_alloc_head st ->
    parse_node_loop fuel (b, k) offset st = Ret ((r, offset'), st') ->
    exists ritems,
      fdt_body fuel cs count offset = Ret (ritems, offset') /\
      (ritems = None <-> r = None) /\
      forall inh, exists inh',
        (forall i, Z.of_nat i < node_alloc_head st -> inh' i = inh i) /\
        fin_range inh' st' (node_alloc_head st) (node_alloc_head st') /\
        forall rest nd,
          ritems = Some rest -> nodes_of st b !! k = Some nd ->
          grows inh' st st' k nd rest.

(** Nothing that existed below the marks [bn] and [bp] was written. *)
Record quiet (bn bp : Z) (st st' : dtb_state) : Prop := Quiet {
  q_config : same_config st st';
  q_node_head : node_alloc_head st <= node_alloc_head st';
  q_prop_head : prop_alloc_head st <= prop_alloc_head st';
  q_nodes : forall i, Z.of_nat i < bn -> nodes_of st' b !! i = nodes_of st b !! i;
  q_props : forall j, Z.of_nat j < bp -> props_of st' b !! j = props_of st b !! j
}.

(** The top-level nodes of [tl], each made with the default pair. *)
Definition top_pairs (tl : list Z) : list (Z * (Z * Z)) :=
  (fun o => (o, (2, 1))) <$> tl.

(** What the scanning loop of [dtb_init] amounts to. *)
Definition init_sim (fuel : nat) : Prop :=
  forall i st st' u,
    wf b st -> cfg st ->
    dtb_init_loop fuel i st = Ret (u, st') ->
    wf b st' /\
    quiet (node_alloc_head st) (prop_alloc_head st) st st' /\
    exists tl,
      scan_toplevel fuel cs count i = Ret tl /\
      forall inh, exists inh',
        (forall i, Z.of_nat i < node_alloc_head st -> inh' i = inh i) /\
        fin_range inh' st' (node_alloc_head st) (node_alloc_head st') /\
        forall rl,
          node_chain b (nodes_of st b) (Z.to_nat (node_alloc_head st)) (root st) rl ->
          exists nrl,
            node_chain b (nodes_of st' b) (Z.to_nat (node_alloc_head st'))
                       (root st') (nrl ++ rl) /\
            Forall2 (kid_ok (Z.to_nat (node_alloc_head st)) (nodes_of st' b) inh')
                    nrl (rev (top_pairs tl)).

End SimulationDefs.

(** [c] is the node the parser made for the BEGIN_NODE token at [offset]:
    its name is the string that follows the token. *)
Definition node_of_token (st : dtb_state) (c : nodeptr) (offset : Z) : Prop :=
  exists n, read_node st c = Ret n /\ node_name n = node_name_at (cells st) offset.

(** [pp] is the property the parser made for the PROP token at [offset]:
    its name, length and value are the ones the token gives. *)
Definition prop_of_token (st : dtb_state) (pp : propptr) (offset : Z) : Prop :=
  exists p, read_prop st pp = Ret p /\
            first_cell p = prop_payload_at (cells st) offset /\
            prop_name_at (cells st) (strings st) offset = Ret (prop_name p) /\
            prop_length_at (cells st) offset = Ret (prop_length p).

Definition board_cpus : dtb_node :=
  match read_node board_state (0, 1)%nat with
  | Ret n => n
  | _ => zero_node
  end.

(** [inh] records, for every node, the pair (addr_cells, size_cells) it was
    made with: the top-level nodes were made with (2, 1); a parsed node [N]
    with body [items] ends up with the pair it was made with, overridden by
    its own [#address-cells] and [#size-cells] properties in blob order; and
    each child of [N] was made with the pair [N] held when the child's token
    was reached, that is, with only the overrides before that token applied. *)
Definition inherits (st : dtb_state) (inh : nodeptr -> Z * Z) : Prop :=
  (exists tops,
      siblings_from (S (node_slots st)) st (root st) = Ret tops /\
      Forall (fun r => inh r = (2, 1)) tops) /\
  forall N nd offset fuel items offset',
    parsed st N ->
    read_node st N = Ret nd ->
    node_name nd = node_name_at (cells st) offset ->
    fdt_node fuel (cells st) (cell_count st) offset = Ret (Some items, offset') ->
    cells_after (cells st) (strings st) (inh N) items
    = Ret (addr_cells nd, size_cells nd) /\
    exists kids kc,
      iter_children st N = Ret kids /\
      kids_cells (cells st) (strings st) (inh N) items = Ret kc /\
      Forall2 (fun c ov => node_of_token st c ov.1 /\ inh c = ov.2) kids (rev kc).


(** No cursor position the parser reaches is beyond this mark, so cursor
    arithmetic never wraps around. *)
Definition far : Z := 2147483652.

(** ** Texts, labels and links for the further properties *)

(** The uart's [compatible] property on the sample board. *)
Definition board_uart_compatible : dtb_prop :=
  match read_prop board_state (0, 8)%nat with
  | Ret p => p
  | _ => zero_prop
  end.

(** The uart's [interrupts] property on the sample board. *)
Definition board_uart_interrupts : dtb_prop :=
  match read_prop board_state (0, 9)%nat with
  | Ret p => p
  | _ => zero_prop
  end.

(** The text of a NUL-terminated string: the bytes before the first NUL.
    Running off the end of the memory before a NUL is a fault. *)
Fixpoint cstring_from (bytes : list Z) : res (list Z) :=
  match bytes with
  | [] => Err OutOfBounds
  | c :: rest => if c =? 0 then Ret [] else (t <~ cstring_from rest; Ret (c :: t))
  end.

(** The text of the string at [p]. *)
Definition cstring (p : cptr) : res (list Z) := cstring_from (bytes_from p).

(** The index of the first occurrence of [target] in [t]. *)
Fixpoint index_of (target : Z) (t : list Z) : option nat :=
  match t with
  | [] => None
  | c :: rest => if c =? target then Some O else S <$> index_of target rest
  end.

(** A node name without its unit address: the bytes before the first '@'
    (code 64), or the whole name when it has none. *)
Definition stem (t : list Z) : list Z :=
  match index_of 64 t with
  | Some k => take k t
  | None => t
  end.

(** The names of the nodes [l], as texts. *)
Fixpoint node_names (st : dtb_state) (l : list nodeptr) : res (list (list Z)) :=
  match l with
  | [] => Ret []
  | c :: rest =>
      n <~ read_node st c;
      t <~ cstring (node_name n);
      ts <~ node_names st rest;
      Ret (t :: ts)
  end.

(** The first element of [xs] whose label, at the same position in
    [labels], is [t]. *)
Fixpoint first_labelled {A : Type} (xs : list A) (labels : list (list Z)) (t : list Z)
  : option A :=
  match xs, labels with
  | x :: xs', l :: labels' =>
      if bool_decide (l = t) then Some x else first_labelled xs' labels' t
  | _, _ => None
  end.

(** The properties reached from [prop] along the [next] pointers. *)
Fixpoint props_chain_from (fuel : nat) (st : dtb_state) (prop : option propptr)
  : res (list propptr) :=
  match prop with
  | None => Ret []
  | Some pp =>
      match fuel with
      | O => OutOfFuel
      | S fuel' =>
          p <~ read_prop st pp;
          rest <~ props_chain_from fuel' st (next p);
          Ret (pp :: rest)
      end
  end.

(** The names of the properties [l], as texts. *)
Fixpoint prop_names (st : dtb_state) (l : list propptr) : res (list (list Z)) :=
  match l with
  | [] => Ret []
  | pp :: rest =>
      p <~ read_prop st pp;
      t <~ cstring (prop_name p);
      ts <~ prop_names st rest;
      Ret (t :: ts)
  end.

(** How many of the [remaining] cells from cell [i] on hold the value [v]. *)
Fixpoint count_cells (remaining : nat) (cs : cptr) (i : Z) (v : Z) : res Z :=
  match remaining with
  | O => Ret 0
  | S remaining' =>
      c <~ load32 (ptr_add cs (4 * i));
      n <~ count_cells remaining' cs (i + 1) v;
      Ret ((if be32 c =? v then 1 else 0) + n)
  end.

(** [N] has, among the properties [dtb_get_prop] lists, a [phandle] or
    [linux,phandle] of one cell that decodes to [h]. *)
Definition declares (st : dtb_state) (N : nodeptr) (h : Z) : Prop :=
  exists props pp p,
    iter_props st N = Ret props /\ pp ∈ props /\
    read_prop st pp = Ret p /\ is_handle_for p h = Ret true.

(** The first [n] cells at [p], decoded. *)
Fixpoint cells_at (n : nat) (p : cptr) : res (list Z) :=
  match n with
  | O => Ret []
  | S n' =>
      c <~ load32 p;
      rest <~ cells_at n' (ptr_add p 4);
      Ret (be32 c :: rest)
  end.

(** A list of strings laid out one after the other, each with its
    terminator, as in a [compatible] property. *)
Definition stringlist (strs : list (list Z)) : list Z :=
  flat_map (fun s => s ++ [0]) strs.

(** Where the scan of [dtb_read_prop_string] over [bytes] stops: the
    position, counted on from [pos], of the first byte that is not NUL and
    is met when the NULs gone by, counted on from [curr], are [index]. *)
Fixpoint find_string (bytes : list Z) (pos curr index : nat) : option nat :=
  match bytes with
  | [] => None
  | c :: rest =>
      if c =? 0 then find_string rest (S pos) (S curr) index
      else if Nat.eqb curr index then Some pos
      else find_string rest (S pos) curr index
  end.

(** The [compatible] property of [N], the first by that name, holds at
    index [ci] a string equal to [str]: [dtb_read_prop_string] gives a string
    at [ci] and [strings_eq] finds it equal to [str]. *)
Definition compatible_at (st : dtb_state) (N : nodeptr) (str : cptr) (ci : Z) : Prop :=
  exists compat s,
    dtb_find_prop st (Some N) (Some (cstr "compatible")) = Ret (Some compat) /\
    dtb_read_prop_string st (Some compat) ci = Ret (Some s) /\
    strings_eq s str = Ret true.

(** Every property of the state has a length a [uint32_t] can hold. *)
Definition lengths_fit (st : dtb_state) : bool :=
  forallb (fun blk => forallb (fun p => (0 <=? prop_length p) &&
                                        (prop_length p <? 4294967296)) (bprops blk))
          (heap st).

(** [N] is compatible with [str] as far as [dtb_find_compatible] looks: its
    [compatible] property holds a string equal to [str] at some index [ci],
    and [dtb_read_prop_string] gives a string at every index below [ci].
    This is narrower than listing [str]: the search leaves a property at the
    first index that gives null, so a string that comes after an empty one,
    or after a NUL byte at the start of the value, is not compared. *)
Definition compatible_with (st : dtb_state) (N : nodeptr) (str : cptr) : Prop :=
  exists ci,
    0 <= ci /\ compatible_at st N str ci /\
    forall compat j,
      dtb_find_prop st (Some N) (Some (cstr "compatible")) = Ret (Some compat) ->
      0 <= j < ci ->
      exists s, dtb_read_prop_string st (Some compat) j = Ret (Some s).

(** What [parse_node] reports when the structure block ends inside a node. *)
Definition NO_END : string := "Node has no terminating tag.".

(** Between [st] and [st'] the only error reported, any number of times, is
    that of a node without END_NODE. *)
Definition only_unterminated (st st' : dtb_state) : Prop :=
  exists k, err_log st' = err_log st ++ replicate k NO_END.

(** The invariant of the parent and child links: the children of every
    allocated node form a chain of younger nodes that all name it as their
    parent, and a node that names a parent is on that parent's chain. *)
Record linv (b : nat) (st : dtb_state) : Prop := LInv {
  li_kids : forall k nd,
      Z.of_nat k < node_alloc_head st -> nodes_of st b !! k = Some nd ->
      exists cl,
        node_chain b (nodes_of st b) (Z.to_nat (node_alloc_head st)) (child nd) cl /\
        Forall (fun c => (k < c)%nat /\
                         exists cn, nodes_of st b !! c = Some cn /\
                                    parent cn = Some (b, k)) cl;
  li_parent : forall c cn p,
      Z.of_nat c < node_alloc_head st -> nodes_of st b !! c = Some cn ->
      parent cn = Some p ->
      exists k nd cl,
        p = (b, k) /\ (k < c)%nat /\ nodes_of st b !! k = Some nd /\
        node_chain b (nodes_of st b) (Z.to_nat (node_alloc_head st)) (child nd) cl /\
        c ∈ cl
}.

(** Node tables that agree on the links of every entry. *)
Definition same_links (ns ns' : list dtb_node) : Prop :=
  forall i,
    match ns !! i, ns' !! i with
    | Some n, Some n' =>
        parent n' = parent n /\ sibling n' = sibling n /\ child n' = child n
    | None, None => True
    | _, _ => False
    end.

(** The top-level nodes form a chain from [root] and have no parent. *)
Definition rinv (b : nat) (st : dtb_state) : Prop :=
  exists rl,
    node_chain b (nodes_of st b) (Z.to_nat (node_alloc_head st)) (root st) rl /\
    Forall (fun c => exists cn, nodes_of st b !! c = Some cn /\ parent cn = None) rl.

(** The node reached from [c] by [n] calls of [dtb_get_sibling]. *)
Fixpoint sibling_steps (n : nat) (st : dtb_state) (c : option nodeptr)
  : res (option nodeptr) :=
  match n with
  | O => Ret c
  | S n' => s <~ dtb_get_sibling st c; sibling_steps n' st s
  end.

(** A sibling chain through the entries [l] of block [b] that ends at
    [tgt], which may lie in another block. *)
Inductive chain_to (b : nat) (ns : list dtb_node) (bound : nat) (tgt : option nodeptr)
  : option nodeptr -> list nat -> Prop :=
| chain_to_here : chain_to b ns bound tgt tgt []
| chain_to_step j p l :
    (j < bound)%nat -> ns !! j = Some p ->
    chain_to b ns bound tgt (sibling p) l ->
    chain_to b ns bound tgt (Some (b, j)) (j :: l).

(** Which blocks of the heap are allocated. *)
Definition lives (st : dtb_state) : list bool := live <$> heap st.

(** Between [st] and [st'] the three tables stay where they are and no block
    of the heap other than [b] has changed. *)
Definition within_block (b : nat) (st st' : dtb_state) : Prop :=
  node_buff st' = node_buff st /\ prop_buff st' = prop_buff st /\
  handle_lookup st' = handle_lookup st /\
  forall b', b' <> b -> heap st' !! b' = heap st !! b'.

(** A host without [free]. *)
Definition no_free_ops : dtb_ops := Ops true false true.

(** The sample board parsed a second time by the same parser, on a host
    without [free]. *)
Definition board_state_again : dtb_state :=
  match dtb_init (board 1 2) no_free_ops board_state with
  | Ret (_, st) => st
  | _ => state0
  end.

(** * Properties *)

(** ** Null arguments to the query functions *)

(** C5 (as amended).  A null node or property handle is accepted by every
    query: the result is null or zero, [dtb_stat_node] leaves the caller's
    struct alone, nothing faults, and since the queries are functions of the
    state no error callback can run.  [dtb_find] with a null path returns
    null while no tree is loaded.  A null [start] makes
    [dtb_find_compatible] search from the first table entry. *)
Theorem null_handles_are_accepted (st : dtb_state) :
  (forall name, dtb_find_child st None name = Ret None) /\
  (forall name, dtb_find_prop st None name = Ret None) /\
  dtb_get_sibling st None = Ret None /\
  dtb_get_child st None = Ret None /\
  dtb_get_parent st None = Ret None /\
  (forall index, dtb_get_prop st None index = Ret None) /\
  (forall stat, dtb_stat_node st None stat = Ret stat) /\
  (forall index, dtb_read_prop_string st None index = Ret None) /\
  (forall vals, dtb_read_prop_bytestring st None vals = Ret (0, vals)) /\
  (forall cell_count vals,
      dtb_read_prop_cell_array st None cell_count vals = Ret (0, vals)) /\
  (root st = None -> dtb_find st None = Ret None) /\
  (forall str,
      dtb_find_compatible st None str
      = find_compatible_loop (Z.to_nat (node_alloc_head st)) st 0 str).
Proof.
  repeat split; try reflexivity.
  - intros Hroot. unfold dtb_find. rewrite Hroot. reflexivity.
  - intros str. unfold dtb_find_compatible. simpl. by rewrite Z.sub_0_r.
Qed.

Lemma null_handles_are_accepted_witness :
  root state0 = None /\ dtb_find state0 None = Ret None.
Proof.
  split; [reflexivity|].
  apply (null_handles_are_accepted state0). reflexivity.
Defined.

(** C5 fails as stated: on the sample board a null name given to
    [dtb_find_child], [dtb_find_prop] or [dtb_find] and a null [stat] given to
    [dtb_stat_node] are dereferenced; a null output buffer makes the byte-string
    decoder return the length, not zero; and a null [start] makes
    [dtb_find_compatible] return the first matching node, not null. *)
Lemma null_arguments_counterexample :
  exists st,
    init_state (board 1 2) all_ops = Ret st /\
    dtb_find_child st (Some (0, 0)%nat) None = Err NullDeref /\
    dtb_find_prop st (Some (0, 0)%nat) None = Err NullDeref /\
    dtb_find st None = Err NullDeref /\
    dtb_stat_node st (Some (0, 0)%nat) None = Err NullDeref /\
    dtb_read_prop_bytestring st (Some (0, 8)%nat) None = Ret (9, None) /\
    dtb_find_compatible st None (Some (cstr "ns16550a")) = Ret (Some (0, 5)%nat).
Proof.
  eexists. split; [vm_compute; reflexivity|].
  repeat split; vm_compute; reflexivity.
Qed.

(** ** A blob with the wrong magic number *)

(** Path lookup reads the root pointer and the tables, nothing else. *)
Lemma read_node_heap (st st' : dtb_state) (p : nodeptr) :
  heap st = heap st' -> read_node st p = read_node st' p.
Proof. intros H. unfold read_node, read_block. by rewrite H. Qed.

Lemma find_child_loop_heap (st st' : dtb_state) :
  heap st = heap st' ->
  forall fuel scan name bounds,
    find_child_loop fuel st scan name bounds = find_child_loop fuel st' scan name bounds.
Proof.
  intros H fuel. induction fuel as [|fuel IH]; intros scan name bounds.
  - by destruct scan.
  - destruct scan as [sc|]; [|reflexivity]. simpl.
    rewrite (read_node_heap st st' sc H).
    destruct (read_node st' sc) as [n| |]; simpl; try reflexivity.
    destruct (string_find_char (node_name n) 64) as [at_pos| |]; simpl; try reflexivity.
    destruct (if at_pos =? NOT_FOUND then string_len (node_name n) else Ret at_pos)
      as [len| |]; simpl; try reflexivity.
    destruct (if len =? bounds then strings_eq_bounded (node_name n) name bounds
              else Ret false) as [[|]| |]; simpl; try reflexivity.
    apply IH.
Qed.

Lemma find_child_internal_heap (st st' : dtb_state) :
  heap st = heap st' ->
  forall start name bounds,
    find_child_internal st start name bounds = find_child_internal st' start name bounds.
Proof.
  intros H start name bounds. unfold find_child_internal, node_slots.
  rewrite (read_node_heap st st' start H), <- H.
  destruct (read_node st' start); [|reflexivity..].
  cbn [rbind]. by apply find_child_loop_heap.
Qed.

Lemma dtb_find_loop_heap (st st' : dtb_state) :
  heap st = heap st' ->
  forall fuel scan name,
    dtb_find_loop fuel st scan name = dtb_find_loop fuel st' scan name.
Proof.
  intros H fuel. induction fuel as [|fuel IH]; intros scan name.
  - by destruct scan.
  - destruct scan as [sc|]; [|reflexivity]. simpl.
    destruct (of_option NullDeref name) as [nm| |]; simpl; try reflexivity.
    destruct (skip_slashes (bytes_from nm) nm) as [nm'| |]; simpl; try reflexivity.
    destruct (string_find_char nm' 47) as [slash| |]; simpl; try reflexivity.
    destruct (if slash =? NOT_FOUND then string_len nm' else Ret slash)
      as [seg_len| |]; simpl; try reflexivity.
    destruct (seg_len =? 0); [reflexivity|].
    rewrite (find_child_internal_heap st st' H).
    destruct (find_child_internal st' sc nm' seg_len); simpl; try reflexivity.
    apply IH.
Qed.

Lemma dtb_find_heap (st st' : dtb_state) (path : option cptr) :
  heap st = heap st' -> root st = root st' -> dtb_find st path = dtb_find st' path.
Proof.
  intros Hh Hr. unfold dtb_find. rewrite Hr. by apply dtb_find_loop_heap.
Qed.

(** C4 (as amended).  When the first four bytes of the blob do not decode to
    [FDT_MAGIC] and an error callback is supplied, [dtb_init] calls it exactly
    once and returns with nothing but [ops] replaced: a parser that held no
    tree still holds none and [dtb_find "/"] is null, a parser that held a
    tree keeps it and every path resolves as before. *)
Theorem bad_magic_leaves_state (st : dtb_state) (start : cptr) (o : dtb_ops)
    (magic : Z) :
  load32 start = Ret magic ->
  be32 magic <> FDT_MAGIC ->
  on_error o = true ->
  exists why st',
    dtb_init start o st = Ret (tt, st') /\
    st' = set_err_log (err_log st ++ [why]) (set_ops o st) /\
    (forall path, dtb_find st' path = dtb_find st path) /\
    (root st = None -> dtb_find st' (Some (cstr "/")) = Ret None).
Proof.
  intros Hload Hmagic Herr.
  assert (Hfind : forall why path,
             dtb_find (set_err_log (err_log st ++ [why]) (set_ops o st)) path
             = dtb_find st path) by (intros; by apply dtb_find_heap).
  assert (Hroot : forall why, root st = None ->
             dtb_find (set_err_log (err_log st ++ [why]) (set_ops o st))
                      (Some (cstr "/")) = Ret None).
  { intros why Hr. rewrite Hfind. unfold dtb_find. rewrite Hr. reflexivity. }
  unfold dtb_init, bind, modify, call_on_error, lift.
  destruct (malloc o) eqn:Hmalloc; simpl.
  - rewrite Hload. simpl.
    destruct (be32 magic =? FDT_MAGIC) eqn:Heq; [apply Z.eqb_eq in Heq; done|].
    simpl. rewrite Herr.
    eexists _, _. split; [reflexivity|]. split; [reflexivity|]. split; eauto.
  - rewrite Herr.
    eexists _, _. split; [reflexivity|]. split; [reflexivity|]. split; eauto.
Qed.

Lemma bad_magic_leaves_state_witness :
  exists why st',
    dtb_init bad_blob all_ops state0 = Ret (tt, st') /\
    st' = set_err_log (err_log state0 ++ [why]) (set_ops all_ops state0) /\
    (forall path, dtb_find st' path = dtb_find state0 path) /\
    (root state0 = None -> dtb_find st' (Some (cstr "/")) = Ret None).
Proof.
  apply (bad_magic_leaves_state state0 bad_blob all_ops 0xEEFE0DD0).
  - reflexivity.
  - vm_compute. discriminate.
  - reflexivity.
Defined.

(** C4 fails as stated when the bad blob follows a good one: the tree of the
    first blob is still there and [dtb_find "/"] returns its root. *)
Lemma bad_magic_after_good_counterexample :
  exists st st',
    init_state (board 1 2) all_ops = Ret st /\
    dtb_init bad_blob all_ops st = Ret (tt, st') /\
    err_log st' = ["FDT has incorrect magic number."%string] /\
    dtb_find st' (Some (cstr "/")) = Ret (Some (0, 0)%nat).
Proof.
  eexists _, _. split; [vm_compute; reflexivity|].
  split; [vm_compute; reflexivity|].
  split; vm_compute; reflexivity.
Qed.

(** ** The bump allocators *)

(** A successful allocation leaves the bump pointer strictly below the
    capacity: the last slot counted by the pre-scan is never handed out. *)
Lemma alloc_node_below_max (st st' : dtb_state) (p : nodeptr) :
  alloc_node st = Ret (Some p, st') ->
  node_alloc_head st' < node_alloc_max st' /\
  node_alloc_head st' = u32 (node_alloc_head st + 1) /\
  node_buff st = Some p.1 /\ p.2 = Z.to_nat (node_alloc_head st).
Proof.
  unfold alloc_node, bind, gets, modify, ret, fail, call_on_error.
  destruct (u32 (node_alloc_head st + 1) <? node_alloc_max st) eqn:Hlt.
  - destruct (node_buff st) as [b|]; [|discriminate].
    intros [= <- <-]. simpl. apply Z.ltb_lt in Hlt. auto.
  - destruct (on_error (ops st)); discriminate.
Qed.

Lemma alloc_prop_below_max (st st' : dtb_state) (p : propptr) :
  alloc_prop st = Ret (Some p, st') ->
  prop_alloc_head st' < prop_alloc_max st' /\
  prop_alloc_head st' = u32 (prop_alloc_head st + 1) /\
  prop_buff st = Some p.1 /\ p.2 = Z.to_nat (prop_alloc_head st).
Proof.
  unfold alloc_prop, bind, gets, modify, ret, fail, call_on_error.
  destruct (u32 (prop_alloc_head st + 1) <? prop_alloc_max st) eqn:Hlt.
  - destruct (prop_buff st) as [b|]; [|discriminate].
    intros [= <- <-]. simpl. apply Z.ltb_lt in Hlt. auto.
  - destruct (on_error (ops st)); discriminate.
Qed.

(** C1, at the failing input.  On the smallest valid blob the pre-scan counts
    one BEGIN_NODE token, and the first call of [alloc_node], with nothing
    handed out yet, reports exhaustion and returns null; [parse_node] then
    stores through the null pointer.  No node is ever enumerated. *)
Theorem minimal_blob_exhausts_allocator :
  exists st st',
    blob_min_prescanned = Ret (tt, st) /\
    node_alloc_max st = 1 /\ node_alloc_head st = 0 /\
    alloc_node st = Ret (None, st') /\
    err_log st' = ["Node allocator ran out of space"%string] /\
    dtb_init blob_min all_ops state0 = Err NullDeref.
Proof.
  eexists _, _. split; [vm_compute; reflexivity|].
  repeat split; vm_compute; reflexivity.
Qed.

(** ** Phandles *)

(** C2, at the failing input.  With eleven slots in the phandle table and a
    node declaring phandle 200, the store [state.handle_lookup[handle] = node]
    lands outside the table: the entry is not dropped.  The same tree with
    phandle 2 parses. *)
Theorem large_phandle_is_stored_out_of_bounds :
  dtb_init (board 1 200) all_ops state0 = Err OutOfBounds /\
  exists st,
    init_state (board 1 2) all_ops = Ret st /\
    node_alloc_max st = 11 /\
    dtb_find_phandle st 200 = Ret None.
Proof.
  split; [vm_compute; reflexivity|].
  eexists. split; [vm_compute; reflexivity|].
  split; vm_compute; reflexivity.
Qed.

(** C3 fails as stated: when two nodes declare the same phandle the later
    store overwrites the earlier one.  Here cpu@0 (entry 2) and cpu@1
    (entry 3) both declare phandle 1 and the lookup returns cpu@1. *)
Lemma duplicate_phandle_counterexample :
  exists st prop,
    init_state (board 1 1) all_ops = Ret st /\
    dtb_find_prop st (Some (0, 2)%nat) (Some (cstr "phandle")) = Ret (Some prop) /\
    dtb_read_prop_cell_array st (Some prop) 1 (Some [0]) = Ret (1, Some [1]) /\
    dtb_find_phandle st 1 = Ret (Some (0, 3)%nat).
Proof.
  eexists _, _. split; [vm_compute; reflexivity|].
  repeat split; vm_compute; reflexivity.
Qed.

(** ** Top-level nodes *)


(** A top-level node that starts in the cell after the END_NODE of another
    is not found by the scanning loop: of the adjacent nodes [a] and [b] only
    [a] is parsed, and it is the root with no sibling. *)
Lemma adjacent_top_level_node_is_skipped :
  exists st a,
    init_state adjacent_roots all_ops = Ret st /\
    fdt_roots 20 (cells st) (cell_count st) 0 = Ret (Some [(0, 11); (11, 14)]) /\
    node_follows (cells st) (cell_count st) 11 = true /\
    read_node st (0, 0)%nat = Ret a /\
    take 2 (bytes_from (node_name a)) = [97; 0] /\
    root st = Some (0, 0)%nat /\
    siblings_from 2 st (root st) = Ret [(0, 0)%nat].
Proof.
  eexists _, _. split; [vm_compute; reflexivity|].
  repeat split; vm_compute; reflexivity.
Qed.

(** ** Node statistics *)

Lemma u32_idem (x : Z) : u32 (u32 x) = u32 x.
Proof. unfold u32. by rewrite Z.mod_mod. Qed.

Lemma u32_small (x : Z) : 0 <= x < 4294967296 -> u32 x = x.
Proof. intros H. unfold u32. by apply Z.mod_small. Qed.

Lemma u32_range (x : Z) : 0 <= u32 x < 4294967296.
Proof. unfold u32. apply Z.mod_pos_bound. lia. Qed.

Lemma u32_succ (x : Z) : u32 (u32 x + 1) = u32 (x + 1).
Proof. unfold u32. rewrite Zplus_mod_idemp_l. reflexivity. Qed.

(** The sibling-counting loop counts what walking the chain enumerates. *)
Lemma count_siblings_length (st : dtb_state) :
  forall fuel node count r,
    count_siblings fuel st node count = Ret r ->
    exists chain,
      siblings_from fuel st node = Ret chain /\
      u32 r = u32 (count + Z.of_nat (length chain)).
Proof.
  induction fuel as [|fuel IH]; intros node count r.
  - destruct node; simpl; [discriminate|]. intros [= <-].
    exists []. split; [reflexivity|]. simpl. by rewrite Z.add_0_r.
  - destruct node as [np|]; simpl.
    + destruct (read_node st np) as [n| |] eqn:Hn; simpl; try discriminate.
      intros Hc. destruct (IH _ _ _ Hc) as (chain & Hchain & Hr).
      exists (np :: chain). rewrite Hchain. simpl. split; [reflexivity|].
      rewrite Hr. unfold u32. rewrite Zplus_mod_idemp_l. f_equal. lia.
    + intros [= <-]. exists []. split; [reflexivity|]. simpl. by rewrite Z.add_0_r.
Qed.

Lemma count_siblings_range (st : dtb_state) :
  forall fuel node count r,
    count_siblings fuel st node count = Ret r ->
    0 <= count < 4294967296 -> 0 <= r < 4294967296.
Proof.
  induction fuel as [|fuel IH]; intros node count r.
  - destruct node; simpl; [discriminate|]. by intros [= <-].
  - destruct node as [np|]; simpl; [|by intros [= <-]].
    destruct (read_node st np) as [n| |]; simpl; try discriminate.
    intros Hc _. eapply IH; [exact Hc|]. apply u32_range.
Qed.

(** C10.  [dtb_stat_node] sets [sibling_count] to the length of the child
    chain of the node's parent, the one a caller walks with [dtb_get_child]
    and [dtb_get_sibling] and which holds the node itself, and to zero when
    the node has no parent, whatever its own [sibling] link is. *)
Theorem stat_sibling_count (st : dtb_state) (node : nodeptr) (n : dtb_node)
    (stat s : dtb_node_stat) :
  read_node st node = Ret n ->
  dtb_stat_node st (Some node) (Some stat) = Ret (Some s) ->
  match parent n with
  | Some par =>
      exists chain,
        iter_children st par = Ret chain /\
        sibling_count s = u32 (Z.of_nat (length chain))
  | None => sibling_count s = 0
  end.
Proof.
  intros Hn. unfold dtb_stat_node. rewrite Hn. cbn [rbind of_option].
  destruct (count_props _ st (props n) 0) as [pc| |]; cbn [rbind]; try discriminate.
  destruct (count_siblings _ st (child n) 0) as [cc| |]; cbn [rbind]; try discriminate.
  destruct (parent n) as [par|]; cbn [rbind].
  - destruct (read_node st par) as [pn| |] eqn:Hpn; cbn [rbind]; try discriminate.
    destruct (count_siblings _ st (child pn) 0) as [sc| |] eqn:Hsc;
      cbn [rbind]; try discriminate.
    intros [= <-]. cbn [sibling_count].
    destruct (count_siblings_length _ _ _ _ _ Hsc) as (chain & Hchain & Hr).
    exists chain. unfold iter_children, dtb_get_child. rewrite Hpn. cbn [rbind].
    split; [exact Hchain|].
    rewrite Z.add_0_l in Hr. rewrite <- Hr. symmetry. apply u32_small.
    eapply count_siblings_range; [exact Hsc|lia].
  - intros [= <-]. reflexivity.
Qed.

Lemma stat_sibling_count_witness :
  read_node board_state (0, 2)%nat = Ret board_cpu0 /\
  dtb_stat_node board_state (Some (0, 2)%nat) (Some (Stat null_cptr 0 0 0))
  = Ret (Some (Stat (node_name board_cpu0) 0 2 2)) /\
  match parent board_cpu0 with
  | Some par =>
      exists chain,
        iter_children board_state par = Ret chain /\
        sibling_count (Stat (node_name board_cpu0) 0 2 2)
        = u32 (Z.of_nat (length chain))
  | None => sibling_count (Stat (node_name board_cpu0) 0 2 2) = 0
  end.
Proof.
  split; [vm_compute; reflexivity|].
  split; [vm_compute; reflexivity|].
  apply (stat_sibling_count board_state (0, 2)%nat board_cpu0 (Stat null_cptr 0 0 0)).
  - vm_compute; reflexivity.
  - vm_compute; reflexivity.
Defined.

(** ** Path lookup *)

Lemma ptr_add_0 (p : cptr) : ptr_add p 0 = p.
Proof. destruct p. unfold ptr_add. simpl. by rewrite Z.add_0_r. Qed.

Lemma ptr_add_add (p : cptr) (a b : Z) : ptr_add (ptr_add p a) b = ptr_add p (a + b).
Proof. unfold ptr_add. simpl. by rewrite Z.add_assoc. Qed.

Lemma bytes_from_add (p : cptr) (d : nat) :
  0 <= off p -> bytes_from (ptr_add p (Z.of_nat d)) = drop d (bytes_from p).
Proof.
  intros Hoff. unfold bytes_from, ptr_add. simpl.
  destruct (off p <? 0) eqn:H1; [apply Z.ltb_lt in H1; lia|].
  destruct (off p + Z.of_nat d <? 0) eqn:H2; [apply Z.ltb_lt in H2; lia|].
  rewrite drop_drop. f_equal. lia.
Qed.

Lemma bytes_from_nonempty (p : cptr) : bytes_from p <> [] -> 0 <= off p.
Proof.
  unfold bytes_from. destruct (off p <? 0) eqn:H; [done|].
  intros _. by apply Z.ltb_ge in H.
Qed.

Lemma skip_slashes_run (bytes : list Z) :
  In 0 bytes ->
  forall p, skip_slashes bytes p = Ret (ptr_add p (Z.of_nat (slash_run bytes))).
Proof.
  induction bytes as [|c rest IH]; intros Hin p; [destruct Hin|].
  simpl. destruct (c =? 47) eqn:Hc.
  - apply Z.eqb_eq in Hc. destruct Hin as [Hin|Hin]; [lia|].
    rewrite (IH Hin). rewrite ptr_add_add. do 2 f_equal. lia.
  - by rewrite ptr_add_0.
Qed.

Lemma slash_run_In (bytes : list Z) : In 0 bytes -> In 0 (drop (slash_run bytes) bytes).
Proof.
  induction bytes as [|c rest IH]; [done|].
  simpl. destruct (c =? 47) eqn:Hc; [|done].
  apply Z.eqb_eq in Hc. intros [Hin|Hin]; [lia|]. by apply IH.
Qed.

Lemma slash_run_segments (bytes : list Z) :
  segments (drop (slash_run bytes) bytes) = segments bytes.
Proof.
  induction bytes as [|c rest IH]; [done|].
  simpl. destruct (c =? 47) eqn:Hc; [|done].
  unfold segments in *. simpl. rewrite Hc.
  destruct (c =? 0) eqn:H0; [apply Z.eqb_eq in H0, Hc; lia|].
  exact IH.
Qed.

(** What the cursor sees after the leading run of a segment. *)
Lemma string_find_char_slash (bytes : list Z) :
  In 0 bytes ->
  forall i,
    i + Z.of_nat (length bytes) <= 4294967296 ->
    (string_find_char_from bytes 47 i = Ret (i + Z.of_nat (segment_end bytes)) /\
     exists rest, drop (segment_end bytes) bytes = 47 :: rest) \/
    (string_find_char_from bytes 47 i = Ret NOT_FOUND /\
     exists rest, drop (segment_end bytes) bytes = 0 :: rest).
Proof.
  induction bytes as [|c rest IH]; intros Hin i Hi; [destruct Hin|].
  simpl. destruct (c =? 47) eqn:H47.
  - rewrite orb_true_r. left. apply Z.eqb_eq in H47. subst c.
    split; [f_equal; simpl; lia|]. by exists rest.
  - rewrite orb_false_r. destruct (c =? 0) eqn:H0.
    + right. apply Z.eqb_eq in H0. subst c. split; [done|]. by exists rest.
    + destruct Hin as [Hin|Hin]; [apply Z.eqb_neq in H0; lia|].
      assert (Hrest : (1 <= length rest)%nat) by (destruct rest; [done|simpl; lia]).
      simpl length in Hi.
      replace (i =? 4294967295) with false by (symmetry; apply Z.eqb_neq; lia).
      destruct (IH Hin (i + 1) ltac:(lia)) as [[-> Hd]|[-> Hd]].
      * left. split; [f_equal; lia|]. exact Hd.
      * right. split; [done|]. exact Hd.
Qed.

Lemma string_len_segment_end (bytes : list Z) :
  (exists rest, drop (segment_end bytes) bytes = 0 :: rest) ->
  forall count,
    count + Z.of_nat (length bytes) <= 4294967296 ->
    string_len_from bytes count = Ret (count + Z.of_nat (segment_end bytes)).
Proof.
  induction bytes as [|c rest IH]; intros [tl Hd] count Hc; [done|].
  cbn [string_len_from segment_end] in *. destruct (c =? 0) eqn:H0.
  - cbn [orb]. f_equal. simpl. lia.
  - cbn [orb] in *. destruct (c =? 47) eqn:H47.
    + simpl in Hd. injection Hd as Hc' _. apply Z.eqb_neq in H0. lia.
    + cbn [drop] in Hd.
      assert (Hrest : (1 <= length rest)%nat).
      { apply (f_equal length) in Hd. rewrite length_drop in Hd. simpl in Hd. lia. }
      simpl length in Hc.
      replace (count =? 4294967295) with false by (symmetry; apply Z.eqb_neq; lia).
      rewrite IH; [|by exists tl|lia].
      f_equal. rewrite Nat2Z.inj_succ. lia.
Qed.

(** The length [dtb_find] computes for the segment under the cursor. *)
Lemma segment_length (p : cptr) :
  In 0 (bytes_from p) ->
  Z.of_nat (length (bytes_from p)) < NOT_FOUND ->
  (slash <~ string_find_char p 47;
   if slash =? NOT_FOUND then string_len p else Ret slash)
  = Ret (Z.of_nat (segment_end (bytes_from p))).
Proof.
  intros Hin Hlen. unfold string_find_char, string_len.
  assert (Hle : (segment_end (bytes_from p) <= length (bytes_from p))%nat).
  { generalize (bytes_from p). induction l as [|c rest IH]; simpl; [lia|].
    destruct ((c =? 0) || (c =? 47)); lia. }
  assert (Hfit : 0 + Z.of_nat (length (bytes_from p)) <= 4294967296)
    by (unfold NOT_FOUND in Hlen; lia).
  destruct (string_find_char_slash _ Hin 0 Hfit) as [[-> Hd]|[-> Hd]]; cbn [rbind].
  - destruct (0 + Z.of_nat _ =? NOT_FOUND) eqn:Hnf.
    + apply Z.eqb_eq in Hnf. lia.
    + reflexivity.
  - change (NOT_FOUND =? NOT_FOUND) with true. cbn.
    by rewrite (string_len_segment_end _ Hd 0 Hfit).
Qed.

Lemma segment_end_le (bytes : list Z) : (segment_end bytes <= length bytes)%nat.
Proof.
  induction bytes as [|c rest IH]; simpl; [lia|].
  destruct ((c =? 0) || (c =? 47)); lia.
Qed.

Lemma segments_from_run (bytes : list Z) :
  forall cur,
    segments_from bytes cur
    = segments_from (drop (segment_end bytes) bytes)
                    (cur ++ take (segment_end bytes) bytes).
Proof.
  induction bytes as [|c rest IH]; intros cur.
  - simpl. by rewrite app_nil_r.
  - cbn [segment_end]. destruct (c =? 0) eqn:H0; cbn [orb].
    + simpl. by rewrite app_nil_r.
    + destruct (c =? 47) eqn:H47.
      * simpl. by rewrite app_nil_r.
      * cbn [segments_from drop take]. rewrite H0, H47, IH.
        by rewrite <- app_assoc.
Qed.

Lemma slash_run_head (bytes rest : list Z) :
  drop (slash_run bytes) bytes <> 47 :: rest.
Proof.
  induction bytes as [|c tl IH]; [done|].
  simpl. destruct (c =? 47) eqn:Hc; [exact IH|].
  simpl. intros [= -> _]. done.
Qed.

Lemma segment_end_stop (bytes : list Z) :
  In 0 bytes ->
  (exists rest, drop (segment_end bytes) bytes = 47 :: rest) \/
  (exists rest, drop (segment_end bytes) bytes = 0 :: rest).
Proof.
  induction bytes as [|c rest IH]; intros Hin; [destruct Hin|].
  simpl. destruct (c =? 0) eqn:H0.
  - right. apply Z.eqb_eq in H0. subst c. by exists rest.
  - destruct (c =? 47) eqn:H47.
    + left. apply Z.eqb_eq in H47. subst c. by exists rest.
    + destruct Hin as [Hin|Hin]; [apply Z.eqb_neq in H0; lia|]. by apply IH.
Qed.

(** One turn of the loop of [dtb_find], on the segment list. *)
Lemma segments_step (bytes : list Z) :
  In 0 bytes ->
  let rest := drop (slash_run bytes) bytes in
  let k := segment_end rest in
  (k = O /\ segments bytes = []) \/
  (k <> O /\ segments bytes = take k rest :: segments (drop k rest)).
Proof.
  intros Hin rest k.
  assert (E : segments bytes = segments_from (drop k rest) (take k rest)).
  { rewrite <- (slash_run_segments bytes). unfold segments.
    by rewrite segments_from_run. }
  rewrite E. clear E.
  pose proof (segment_end_le rest) as Hle. fold k in Hle.
  assert (Hseg : k <> O -> flush (take k rest) = [take k rest]).
  { intros Hk. destruct rest as [|c tl]; [simpl in Hle; lia|].
    destruct k; [done|]. reflexivity. }
  destruct (segment_end_stop rest (slash_run_In _ Hin))
    as [[tl Hd]|[tl Hd]]; fold k in Hd; rewrite Hd.
  - destruct (decide (k = O)) as [Hk|Hk].
    + exfalso. apply (slash_run_head bytes tl). fold rest.
      rewrite Hk in Hd. exact Hd.
    + right. split; [done|]. cbn [segments_from].
      change (47 =? 0) with false. change (47 =? 47) with true. cbv iota.
      rewrite (Hseg Hk). reflexivity.
  - cbn [segments_from]. change (0 =? 0) with true. cbv iota.
    destruct (decide (k = O)) as [Hk|Hk].
    + left. split; [done|]. rewrite Hk. reflexivity.
    + right. split; [done|]. rewrite (Hseg Hk). reflexivity.
Qed.

Lemma strings_eq_bounded_from_take :
  forall n a b,
    (n <= length b)%nat ->
    strings_eq_bounded_from a b n = strings_eq_bounded_from a (take n b) n.
Proof.
  induction n as [|n IH]; intros a b Hn; [reflexivity|].
  destruct b as [|cb b]; [simpl in Hn; lia|].
  destruct a as [|ca a]; [reflexivity|].
  cbn [strings_eq_bounded_from take].
  rewrite (IH a b); [reflexivity|]. simpl in Hn. lia.
Qed.

(** [find_child_internal] reads [name_bounds] bytes of the name and no more. *)
Lemma find_child_loop_name (st : dtb_state) (p q : cptr) (bounds : Z) :
  (Z.to_nat bounds <= length (bytes_from p))%nat ->
  (Z.to_nat bounds <= length (bytes_from q))%nat ->
  take (Z.to_nat bounds) (bytes_from p) = take (Z.to_nat bounds) (bytes_from q) ->
  forall fuel scan,
    find_child_loop fuel st scan p bounds = find_child_loop fuel st scan q bounds.
Proof.
  intros Hp Hq Heq.
  assert (Hcmp : forall a, strings_eq_bounded a p bounds = strings_eq_bounded a q bounds).
  { intros a. unfold strings_eq_bounded.
    rewrite (strings_eq_bounded_from_take _ _ _ Hp).
    rewrite (strings_eq_bounded_from_take _ _ _ Hq). by rewrite Heq. }
  induction fuel as [|fuel IH]; intros scan; [by destruct scan|].
  destruct scan as [sc|]; [|reflexivity]. cbn [find_child_loop].
  destruct (read_node st sc) as [n| |]; cbn [rbind]; try reflexivity.
  destruct (string_find_char (node_name n) 64) as [at_pos| |]; cbn [rbind];
    try reflexivity.
  destruct (if at_pos =? NOT_FOUND then string_len (node_name n) else Ret at_pos)
    as [len| |]; cbn [rbind]; try reflexivity.
  rewrite Hcmp.
  destruct (if len =? bounds then strings_eq_bounded (node_name n) q bounds
            else Ret false) as [[|]| |]; cbn [rbind]; try reflexivity.
  apply IH.
Qed.

Lemma bytes_from_start (l : list Z) : bytes_from (CPtr l 0) = l.
Proof. reflexivity. Qed.

Lemma find_child_internal_name (st : dtb_state) (start : nodeptr) (p : cptr) (k : nat) :
  (k <= length (bytes_from p))%nat ->
  find_child_internal st start p (Z.of_nat k)
  = find_child_internal st start (CPtr (take k (bytes_from p)) 0)
                        (Z.of_nat (length (take k (bytes_from p)))).
Proof.
  intros Hk.
  assert (Hlen : length (take k (bytes_from p)) = k) by (rewrite length_take; lia).
  rewrite Hlen. unfold find_child_internal.
  destruct (read_node st start) as [n| |]; cbn [rbind]; try reflexivity.
  apply find_child_loop_name; rewrite Nat2Z.id.
  - exact Hk.
  - rewrite bytes_from_start. lia.
  - rewrite bytes_from_start. by rewrite take_take, Nat.min_id.
Qed.

Lemma walk_None (st : dtb_state) (segs : list (list Z)) : walk st None segs = Ret None.
Proof. by destruct segs. Qed.

(** [dtb_find] descends along the segments of the path. *)
Lemma dtb_find_loop_walk (st : dtb_state) :
  forall fuel scan p,
    In 0 (bytes_from p) ->
    Z.of_nat (length (bytes_from p)) < NOT_FOUND ->
    (length (bytes_from p) < fuel)%nat ->
    dtb_find_loop fuel st scan (Some p) = walk st scan (segments (bytes_from p)).
Proof.
  induction fuel as [|fuel IH]; intros scan p Hin Hlen Hfuel; [lia|].
  destruct scan as [sc|]; [|by rewrite walk_None].
  cbn [dtb_find_loop of_option rbind].
  assert (Hoff : 0 <= off p).
  { apply bytes_from_nonempty. by destruct (bytes_from p). }
  rewrite (skip_slashes_run _ Hin). cbn [rbind].
  set (p1 := ptr_add p (Z.of_nat (slash_run (bytes_from p)))).
  assert (Hb1 : bytes_from p1 = drop (slash_run (bytes_from p)) (bytes_from p))
    by (by apply bytes_from_add).
  assert (Hin1 : In 0 (bytes_from p1)) by (rewrite Hb1; by apply slash_run_In).
  assert (Hlen1 : (length (bytes_from p1) <= length (bytes_from p))%nat)
    by (rewrite Hb1, length_drop; lia).
  pose proof (segment_length p1 Hin1 ltac:(lia)) as Hseg.
  destruct (string_find_char p1 47) as [slash| |]; cbn [rbind] in Hseg |- *;
    try discriminate.
  rewrite Hseg. cbn [rbind].
  pose proof (segment_end_le (bytes_from p1)) as Hle.
  pose proof (segments_step _ Hin) as Hst. cbv zeta in Hst. rewrite <- Hb1 in Hst.
  destruct Hst as [[Hk Hs]|[Hk Hs]].
  - rewrite Hk, Hs. reflexivity.
  - destruct (Z.of_nat (segment_end (bytes_from p1)) =? 0) eqn:Hz;
      [apply Z.eqb_eq in Hz; lia|].
    rewrite Hs. cbn [walk].
    rewrite (find_child_internal_name st sc p1 _ Hle).
    destruct (find_child_internal st sc _ _) as [scan'| |]; cbn [rbind];
      try reflexivity.
    assert (Hoff1 : 0 <= off p1) by (unfold p1, ptr_add; simpl; lia).
    pose proof (bytes_from_add p1 (segment_end (bytes_from p1)) Hoff1) as Hb2.
    rewrite IH; rewrite Hb2.
    + reflexivity.
    + destruct (segment_end_stop _ Hin1) as [[tl Hd]|[tl Hd]];
        rewrite Hd; simpl; auto.
      right. assert (Hin' : In 0 (47 :: tl)) by (rewrite <- Hd; clear -Hin1 Hle;
        revert Hin1; generalize (bytes_from p1); induction l as [|c r IHl];
        [done|]; cbn [segment_end]; destruct (c =? 0) eqn:H0; cbn [orb];
        [done|]; destruct (c =? 47); [done|]; cbn [drop];
        intros [Hc|Hc]; [apply Z.eqb_neq in H0; lia|by apply IHl]).
      destruct Hin' as [Hx|Hx]; [lia|exact Hx].
    + rewrite length_drop. lia.
    + rewrite length_drop. lia.
Qed.

Lemma dtb_find_walk (st : dtb_state) (a : list Z) :
  short a -> dtb_find st (path_of a) = walk st (root st) (segments (a ++ [0])).
Proof.
  intros Hs. unfold dtb_find, path_of. cbn [from_option].
  pose proof (dtb_find_loop_walk st (S (length (a ++ [0]))) (root st)
                                 (CPtr (a ++ [0]) 0)) as H.
  rewrite bytes_from_start in H. apply H.
  - apply in_or_app. right. by left.
  - unfold short in Hs. rewrite length_app. simpl. lia.
  - lia.
Qed.

Lemma segments_from_app (a x y : list Z) :
  (forall cur, segments_from x cur = segments_from y cur) ->
  forall cur, segments_from (a ++ x) cur = segments_from (a ++ y) cur.
Proof.
  intros Hxy. induction a as [|c a IH]; intros cur; [apply Hxy|].
  simpl. destruct (c =? 0); [reflexivity|].
  destruct (c =? 47); [by rewrite IH|apply IH].
Qed.

Lemma segments_double_slash (a b : list Z) :
  segments ((a ++ [47; 47] ++ b) ++ [0]) = segments ((a ++ [47] ++ b) ++ [0]).
Proof.
  unfold segments. rewrite <- !app_assoc. apply segments_from_app.
  intros cur. reflexivity.
Qed.

Lemma segments_leading_slash (a : list Z) :
  segments ((47 :: a) ++ [0]) = segments (a ++ [0]).
Proof. reflexivity. Qed.

Lemma segments_trailing_slash (a : list Z) :
  segments ((a ++ [47]) ++ [0]) = segments (a ++ [0]).
Proof.
  unfold segments. rewrite <- !app_assoc. apply segments_from_app.
  intros cur. simpl. by rewrite app_nil_r.
Qed.

(** C6.  [dtb_find] is a function of the list of non-empty segments of its
    path, for every state of the parser and so after a successful
    [dtb_init]; doubling a slash, putting a slash in front and putting a
    slash behind leave the result unchanged, and the paths without segments,
    [""] and ["/"], give the root. *)
Theorem dtb_find_depends_on_segments (st : dtb_state) :
  (forall a b, short a -> short b ->
     segments (a ++ [0]) = segments (b ++ [0]) ->
     dtb_find st (path_of a) = dtb_find st (path_of b)) /\
  (forall a b, short (a ++ [47; 47] ++ b) ->
     dtb_find st (path_of (a ++ [47; 47] ++ b)) = dtb_find st (path_of (a ++ [47] ++ b))) /\
  (forall a, short (47 :: a) ->
     dtb_find st (path_of (47 :: a)) = dtb_find st (path_of a)) /\
  (forall a, short (a ++ [47]) ->
     dtb_find st (path_of (a ++ [47])) = dtb_find st (path_of a)) /\
  dtb_find st (Some (cstr "")) = Ret (root st) /\
  dtb_find st (Some (cstr "/")) = Ret (root st).
Proof.
  assert (Hgen : forall a b, short a -> short b ->
            segments (a ++ [0]) = segments (b ++ [0]) ->
            dtb_find st (path_of a) = dtb_find st (path_of b)).
  { intros a b Ha Hb Heq. by rewrite !dtb_find_walk, Heq. }
  split; [exact Hgen|].
  split.
  { intros a b Hs. apply Hgen; [exact Hs| |apply segments_double_slash].
    unfold short in *. rewrite !length_app in *. simpl in *. lia. }
  split.
  { intros a Hs. apply Hgen; [exact Hs| |apply segments_leading_slash].
    unfold short in *. simpl in *. lia. }
  split.
  { intros a Hs. apply Hgen; [exact Hs| |apply segments_trailing_slash].
    unfold short in *. rewrite !length_app in *. simpl in *. lia. }
  split.
  - change (Some (cstr "")) with (path_of []).
    rewrite dtb_find_walk by (unfold short, NOT_FOUND; simpl; lia).
    simpl. by destruct (root st).
  - change (Some (cstr "/")) with (path_of [47]).
    rewrite dtb_find_walk by (unfold short, NOT_FOUND; simpl; lia).
    simpl. by destruct (root st).
Qed.

Lemma dtb_find_depends_on_segments_witness :
  short (bytes_of_string "/cpus//cpu/") /\
  short (bytes_of_string "cpus/cpu") /\
  segments (bytes_of_string "/cpus//cpu/" ++ [0])
  = segments (bytes_of_string "cpus/cpu" ++ [0]) /\
  dtb_find board_state (path_of (bytes_of_string "/cpus//cpu/"))
  = dtb_find board_state (path_of (bytes_of_string "cpus/cpu")).
Proof.
  assert (H1 : short (bytes_of_string "/cpus//cpu/")) by (vm_compute; reflexivity).
  assert (H2 : short (bytes_of_string "cpus/cpu")) by (vm_compute; reflexivity).
  assert (H3 : segments (bytes_of_string "/cpus//cpu/" ++ [0])
               = segments (bytes_of_string "cpus/cpu" ++ [0])) by reflexivity.
  split; [exact H1|]. split; [exact H2|]. split; [exact H3|].
  exact (proj1 (dtb_find_depends_on_segments board_state) _ _ H1 H2 H3).
Defined.

(** * The parser, step by step *)

(** ** Running monadic code backwards *)

Lemma bind_Ret {A B : Type} (m : M A) (k : A -> M B) (st st' : dtb_state) (b : B) :
  bind m k st = Ret (b, st') ->
  exists a st1, m st = Ret (a, st1) /\ k a st1 = Ret (b, st').
Proof.
  unfold bind. destruct (m st) as [[a st1]| |]; try discriminate.
  intros H. by exists a, st1.
Qed.

Lemma gets_Ret {A : Type} (f : dtb_state -> A) (st st' : dtb_state) (a : A) :
  gets f st = Ret (a, st') -> a = f st /\ st' = st.
Proof. unfold gets. by intros [= <- <-]. Qed.

Lemma reads_Ret {A : Type} (f : dtb_state -> res A) (st st' : dtb_state) (a : A) :
  reads f st = Ret (a, st') -> f st = Ret a /\ st' = st.
Proof. unfold reads. destruct (f st); simpl; try discriminate. by intros [= <- <-]. Qed.

Lemma modify_Ret (f : dtb_state -> dtb_state) (st st' : dtb_state) (u : unit) :
  modify f st = Ret (u, st') -> st' = f st.
Proof. unfold modify. by intros [= _ <-]. Qed.

Lemma update_Ret (f : dtb_state -> res dtb_state) (st st' : dtb_state) (u : unit) :
  update f st = Ret (u, st') -> f st = Ret st'.
Proof. unfold update. destruct (f st); simpl; try discriminate. by intros [= _ <-]. Qed.

Lemma lift_Ret {A : Type} (r : res A) (st st' : dtb_state) (a : A) :
  lift r st = Ret (a, st') -> r = Ret a /\ st' = st.
Proof. unfold lift. destruct r; simpl; try discriminate. by intros [= <- <-]. Qed.

Lemma ret_Ret {A : Type} (a a' : A) (st st' : dtb_state) :
  ret a st = Ret (a', st') -> a' = a /\ st' = st.
Proof. unfold ret. by intros [= <- <-]. Qed.

Lemma rbind_Ret {A B : Type} (m : res A) (k : A -> res B) (b : B) :
  rbind m k = Ret b -> exists a, m = Ret a /\ k a = Ret b.
Proof. destruct m; simpl; try discriminate. intros H. by eexists. Qed.

(** Replaces the variable on the left of an equation, if it is one. *)
Ltac subst_lhs E :=
  lazymatch type of E with
  | ?x = _ => first [subst x | idtac]
  end.

(** Splits a hypothesis [m st = Ret (a, st')] along the binds of [m]. *)
Ltac minv H :=
  lazymatch type of H with
  | bind _ _ _ = Ret _ =>
      let a := fresh "a" in
      let s := fresh "st" in
      let H1 := fresh "Hstep" in
      apply bind_Ret in H; destruct H as (a & s & H1 & H);
      minv H1; cbv beta in H; minv H
  | gets _ _ = Ret _ =>
      let E1 := fresh "E" in
      let E2 := fresh "E" in
      apply gets_Ret in H; destruct H as [E1 E2]; subst_lhs E1; subst_lhs E2
  | reads _ _ = Ret _ =>
      let E := fresh "Hrd" in
      let E2 := fresh "E" in
      apply reads_Ret in H; destruct H as [E E2]; subst_lhs E2
  | modify _ _ = Ret _ => apply modify_Ret in H; subst_lhs H
  | update _ _ = Ret _ => apply update_Ret in H
  | lift _ _ = Ret _ =>
      let E := fresh "Hlf" in
      let E2 := fresh "E" in
      apply lift_Ret in H; destruct H as [E E2]; subst_lhs E2
  | ret _ _ = Ret _ =>
      let E1 := fresh "E" in
      let E2 := fresh "E" in
      apply ret_Ret in H; destruct H as [E1 E2]; subst_lhs E1; subst_lhs E2
  | fail _ _ = Ret _ => discriminate H
  | timeout _ = Ret _ => discriminate H
  | _ => idtac
  end.

(** Rewrites the goal with the reads a run is known to have made. *)
Ltac use_reads :=
  repeat match goal with
         | H : ?x = Ret _ |- context [?x] => rewrite H; cbn [rbind]
         end.

Ltac use_reads_in Hyp :=
  repeat match goal with
         | H : ?x = Ret _ |- _ =>
             lazymatch type of Hyp with
             | context [x] => rewrite H in Hyp; cbn [rbind] in Hyp
             end
         end.

(** ** The tables of one block *)

Lemma same_config_refl (st : dtb_state) : same_config st st.
Proof. by constructor. Qed.

Lemma same_config_trans (st1 st2 st3 : dtb_state) :
  same_config st1 st2 -> same_config st2 st3 -> same_config st1 st3.
Proof.
  intros [] []. constructor; try congruence; eauto.
Qed.

Lemma read_node_of (st : dtb_state) (b i : nat) (n : dtb_node) :
  read_node st (b, i) = Ret n <-> is_live st b /\ nodes_of st b !! i = Some n.
Proof.
  unfold read_node, read_block, is_live, nodes_of. simpl.
  destruct (heap st !! b) as [blk|]; simpl.
  - destruct (live blk) eqn:Hl; simpl.
    + destruct (nodes blk !! i) as [n'|]; simpl; split.
      * intros [= ->]. eauto.
      * by intros [_ [= ->]].
      * discriminate.
      * by intros [_ ?].
    + split; [discriminate|]. intros [(blk' & [= <-] & Hl') _]. congruence.
  - split; [discriminate|]. by intros [(blk' & ? & _) _].
Qed.

Lemma read_prop_of (st : dtb_state) (b i : nat) (p : dtb_prop) :
  read_prop st (b, i) = Ret p <-> is_live st b /\ props_of st b !! i = Some p.
Proof.
  unfold read_prop, read_block, is_live, props_of. simpl.
  destruct (heap st !! b) as [blk|]; simpl.
  - destruct (live blk) eqn:Hl; simpl.
    + destruct (bprops blk !! i) as [n'|]; simpl; split.
      * intros [= ->]. eauto.
      * by intros [_ [= ->]].
      * discriminate.
      * by intros [_ ?].
    + split; [discriminate|]. intros [(blk' & [= <-] & Hl') _]. congruence.
  - split; [discriminate|]. by intros [(blk' & ? & _) _].
Qed.

Lemma read_handle_of (st : dtb_state) (b : nat) (h : Z) (v : option nodeptr) :
  handle_lookup st = Some b ->
  (read_handle st h = Ret v <-> is_live st b /\ handles_of st b !! Z.to_nat h = Some v).
Proof.
  intros Hb. unfold read_handle, read_block, is_live, handles_of. rewrite Hb. simpl.
  destruct (heap st !! b) as [blk|]; simpl.
  - destruct (live blk) eqn:Hl; simpl.
    + destruct (handles blk !! Z.to_nat h) as [n'|]; simpl; split.
      * intros [= ->]. eauto.
      * by intros [_ [= ->]].
      * discriminate.
      * by intros [_ ?].
    + split; [discriminate|]. intros [(blk' & [= <-] & Hl') _]. congruence.
  - split; [discriminate|]. by intros [(blk' & ? & _) _].
Qed.

Lemma heap_insert_views (st : dtb_state) (b : nat) (blk blk' : block) :
  heap st !! b = Some blk ->
  live blk = true -> live blk' = true ->
  length (nodes blk') = length (nodes blk) ->
  length (bprops blk') = length (bprops blk) ->
  length (handles blk') = length (handles blk) ->
  let st' := set_heap (<[b := blk']> (heap st)) st in
  nodes_of st' b = nodes blk' /\ props_of st' b = bprops blk' /\
  handles_of st' b = handles blk' /\ tables_only st st'.
Proof.
  intros Hb Hl Hl' Hn Hp Hh st'.
  assert (Hlt : (b < length (heap st))%nat) by (by eapply lookup_lt_Some).
  assert (Hget : heap st' !! b = Some blk').
  { unfold st'. simpl. by apply list_lookup_insert_eq. }
  unfold nodes_of, props_of, handles_of. rewrite Hget.
  split; [done|]. split; [done|]. split; [done|].
  constructor; try reflexivity.
  constructor; try reflexivity.
  - intros b0 (blk0 & Hb0 & Hl0). unfold is_live, st'. simpl.
    destruct (decide (b0 = b)) as [->|Hne].
    + exists blk'. split; [by apply list_lookup_insert_eq|done].
    + exists blk0. split; [by rewrite list_lookup_insert_ne|done].
  - intros b0. unfold nodes_of, st'. simpl.
    destruct (decide (b0 = b)) as [->|Hne].
    + rewrite list_lookup_insert_eq by done. by rewrite Hb.
    + by rewrite list_lookup_insert_ne.
  - intros b0. unfold props_of, st'. simpl.
    destruct (decide (b0 = b)) as [->|Hne].
    + rewrite list_lookup_insert_eq by done. by rewrite Hb.
    + by rewrite list_lookup_insert_ne.
  - intros b0. unfold handles_of, st'. simpl.
    destruct (decide (b0 = b)) as [->|Hne].
    + rewrite list_lookup_insert_eq by done. by rewrite Hb.
    + by rewrite list_lookup_insert_ne.
Qed.

Lemma read_block_Ret (st : dtb_state) (b : nat) (blk : block) :
  read_block st b = Ret blk -> heap st !! b = Some blk /\ live blk = true.
Proof.
  unfold read_block. destruct (heap st !! b) as [blk'|]; [|discriminate].
  destruct (live blk') eqn:Hl; [|discriminate]. by intros [= <-].
Qed.

Lemma of_option_Ret {A : Type} (f : fault) (o : option A) (a : A) :
  of_option f o = Ret a -> o = Some a.
Proof. destruct o; simpl; [by intros [= ->]|discriminate]. Qed.

Lemma write_node_spec (b i : nat) (f : dtb_node -> dtb_node) (st st' : dtb_state) :
  write_node (b, i) f st = Ret st' ->
  exists n,
    nodes_of st b !! i = Some n /\
    nodes_of st' b = <[i := f n]> (nodes_of st b) /\
    props_of st' b = props_of st b /\
    handles_of st' b = handles_of st b /\
    tables_only st st'.
Proof.
  unfold write_node. simpl. intros H.
  apply rbind_Ret in H as (blk & Hblk & H). apply read_block_Ret in Hblk as [Hb Hl].
  apply rbind_Ret in H as (n & Hn & H). apply of_option_Ret in Hn.
  injection H as <-.
  destruct (heap_insert_views st b blk (set_nodes (<[i := f n]> (nodes blk)) blk))
    as (H1 & H2 & H3 & H4); try done.
  { simpl. by rewrite length_insert. }
  exists n. unfold nodes_of at 1 3, props_of at 2, handles_of at 2. rewrite Hb.
  by rewrite H1, H2, H3.
Qed.

Lemma write_prop_spec (b i : nat) (f : dtb_prop -> dtb_prop) (st st' : dtb_state) :
  write_prop (b, i) f st = Ret st' ->
  exists p,
    props_of st b !! i = Some p /\
    props_of st' b = <[i := f p]> (props_of st b) /\
    nodes_of st' b = nodes_of st b /\
    handles_of st' b = handles_of st b /\
    tables_only st st'.
Proof.
  unfold write_prop. simpl. intros H.
  apply rbind_Ret in H as (blk & Hblk & H). apply read_block_Ret in Hblk as [Hb Hl].
  apply rbind_Ret in H as (n & Hn & H). apply of_option_Ret in Hn.
  injection H as <-.
  destruct (heap_insert_views st b blk (set_bprops (<[i := f n]> (bprops blk)) blk))
    as (H1 & H2 & H3 & H4); try done.
  { simpl. by rewrite length_insert. }
  exists n. unfold props_of at 1 3, nodes_of at 2, handles_of at 2. rewrite Hb.
  by rewrite H1, H2, H3.
Qed.

Lemma write_handle_spec (b : nat) (h : Z) (node : nodeptr) (st st' : dtb_state) :
  handle_lookup st = Some b ->
  write_handle h node st = Ret st' ->
  (Z.to_nat h < length (handles_of st b))%nat /\
  handles_of st' b = <[Z.to_nat h := Some node]> (handles_of st b) /\
  nodes_of st' b = nodes_of st b /\
  props_of st' b = props_of st b /\
  tables_only st st'.
Proof.
  intros Hhl. unfold write_handle. rewrite Hhl. simpl. intros H.
  apply rbind_Ret in H as (blk & Hblk & H). apply read_block_Ret in Hblk as [Hb Hl].
  apply rbind_Ret in H as (n & Hn & H). apply of_option_Ret in Hn.
  injection H as <-.
  destruct (heap_insert_views st b blk
              (set_handles (<[Z.to_nat h := Some node]> (handles blk)) blk))
    as (H1 & H2 & H3 & H4); try done.
  { simpl. by rewrite length_insert. }
  unfold handles_of at 1 3, nodes_of at 2, props_of at 2. rewrite Hb.
  rewrite H1, H2, H3. split; [by eapply lookup_lt_Some|done].
Qed.

(** ** Well-formed parser states *)

Lemma tables_only_refl (st : dtb_state) : tables_only st st.
Proof. constructor; try reflexivity. apply same_config_refl. Qed.

Lemma tables_only_trans (st1 st2 st3 : dtb_state) :
  tables_only st1 st2 -> tables_only st2 st3 -> tables_only st1 st3.
Proof.
  intros [] []. constructor; try congruence. by eapply same_config_trans.
Qed.

Lemma wf_tables_only (b : nat) (st st' : dtb_state) :
  wf b st -> tables_only st st' ->
  (forall i n, nodes_of st' b !! i = Some n -> node_alloc_head st <= Z.of_nat i ->
               n = zero_node) ->
  (forall i p, props_of st' b !! i = Some p -> prop_alloc_head st <= Z.of_nat i ->
               p = zero_prop) ->
  wf b st'.
Proof.
  intros [] [[] ? ? ? ?] Hn Hp. constructor; try congruence; eauto.
  - intros i n Hi Hh. apply (Hn i n Hi). congruence.
  - intros i p Hi Hh. apply (Hp i p Hi). congruence.
Qed.

Lemma wf_write_node (b i : nat) (f : dtb_node -> dtb_node) (st st' : dtb_state) :
  wf b st -> write_node (b, i) f st = Ret st' ->
  Z.of_nat i < node_alloc_head st -> wf b st'.
Proof.
  intros Hwf Hw Hi. apply write_node_spec in Hw as (n & Hn & Hns & Hps & _ & Hto).
  eapply wf_tables_only; eauto.
  - intros j m Hj Hh. rewrite Hns in Hj.
    rewrite list_lookup_insert_ne in Hj by lia. by eapply wf_fresh_nodes.
  - intros j p Hj Hh. rewrite Hps in Hj. by eapply wf_fresh_props.
Qed.

Lemma wf_write_prop (b i : nat) (f : dtb_prop -> dtb_prop) (st st' : dtb_state) :
  wf b st -> write_prop (b, i) f st = Ret st' ->
  Z.of_nat i < prop_alloc_head st -> wf b st'.
Proof.
  intros Hwf Hw Hi. apply write_prop_spec in Hw as (n & Hn & Hps & Hns & _ & Hto).
  eapply wf_tables_only; eauto.
  - intros j m Hj Hh. rewrite Hns in Hj. by eapply wf_fresh_nodes.
  - intros j p Hj Hh. rewrite Hps in Hj.
    rewrite list_lookup_insert_ne in Hj by lia. by eapply wf_fresh_props.
Qed.

Lemma wf_write_handle (b : nat) (h : Z) (node : nodeptr) (st st' : dtb_state) :
  wf b st -> write_handle h node st = Ret st' -> wf b st'.
Proof.
  intros Hwf Hw.
  apply (write_handle_spec b) in Hw as (_ & _ & Hns & Hps & Hto);
    [|by apply wf_handle_lookup].
  eapply wf_tables_only; eauto.
  - intros j m Hj Hh. rewrite Hns in Hj. by eapply wf_fresh_nodes.
  - intros j p Hj Hh. rewrite Hps in Hj. by eapply wf_fresh_props.
Qed.

(** ** Steps of the parser as updates of the tables *)

Lemma table_step_refl (b : nat) (st : dtb_state) : table_step b st st 0 0 id id id.
Proof. constructor; try reflexivity; try lia. apply same_config_refl. Qed.

Lemma table_step_trans (b : nat) (st1 st2 st3 : dtb_state) dn1 dp1 fn1 fp1 fh1
    dn2 dp2 fn2 fp2 fh2 :
  table_step b st1 st2 dn1 dp1 fn1 fp1 fh1 ->
  table_step b st2 st3 dn2 dp2 fn2 fp2 fh2 ->
  table_step b st1 st3 (dn1 + dn2) (dp1 + dp2) (fn2 ∘ fn1) (fp2 ∘ fp1) (fh2 ∘ fh1).
Proof.
  intros [] []. constructor; simpl; try congruence; try lia.
  by eapply same_config_trans.
Qed.

Lemma tables_only_step (b : nat) (st st' : dtb_state) fn fp fh :
  tables_only st st' ->
  nodes_of st' b = fn (nodes_of st b) ->
  props_of st' b = fp (props_of st b) ->
  handles_of st' b = fh (handles_of st b) ->
  table_step b st st' 0 0 fn fp fh.
Proof. intros [] ? ? ?. constructor; try done; lia. Qed.

Lemma alter_insert {A : Type} (f : A -> A) (i : nat) (l : list A) (x : A) :
  l !! i = Some x -> <[i := f x]> l = alter f i l.
Proof.
  intros H. apply list_eq. intros j. destruct (decide (j = i)) as [->|Hne].
  - rewrite list_lookup_insert_eq by (by eapply lookup_lt_Some).
    rewrite list_lookup_alter_eq, H. reflexivity.
  - rewrite list_lookup_insert_ne, list_lookup_alter_ne by done. reflexivity.
Qed.

Lemma write_node_step (b i : nat) (f : dtb_node -> dtb_node) (st st' : dtb_state) :
  write_node (b, i) f st = Ret st' ->
  table_step b st st' 0 0 (alter f i) id id /\ (i < length (nodes_of st b))%nat.
Proof.
  intros H. apply write_node_spec in H as (n & Hn & Hns & Hps & Hhs & Hto).
  split; [|by eapply lookup_lt_Some].
  apply tables_only_step; try done. by rewrite Hns, (alter_insert f i _ n).
Qed.

Lemma write_prop_step (b i : nat) (f : dtb_prop -> dtb_prop) (st st' : dtb_state) :
  write_prop (b, i) f st = Ret st' ->
  table_step b st st' 0 0 id (alter f i) id /\ (i < length (props_of st b))%nat.
Proof.
  intros H. apply write_prop_spec in H as (n & Hn & Hps & Hns & Hhs & Hto).
  split; [|by eapply lookup_lt_Some].
  apply tables_only_step; try done. by rewrite Hps, (alter_insert f i _ n).
Qed.

Lemma write_handle_step (b : nat) (h : Z) (node : nodeptr) (st st' : dtb_state) :
  handle_lookup st = Some b ->
  write_handle h node st = Ret st' ->
  table_step b st st' 0 0 id id (<[Z.to_nat h := Some node]>) /\
  (Z.to_nat h < length (handles_of st b))%nat.
Proof.
  intros Hb H. apply (write_handle_spec b) in H as (Hlt & Hhs & Hns & Hps & Hto);
    [|done].
  split; [|done]. by apply tables_only_step.
Qed.

Lemma call_on_error_step (b : nat) (why : string) (st st' : dtb_state) (u : unit) :
  call_on_error why st = Ret (u, st') -> table_step b st st' 0 0 id id id.
Proof.
  unfold call_on_error. destruct (on_error (ops st)); intros H.
  - assert (st' = set_err_log (err_log st ++ [why]) st) as -> by congruence.
    constructor; try reflexivity; try (simpl; lia). by constructor.
  - assert (st' = st) as -> by congruence. apply table_step_refl.
Qed.

Lemma alloc_node_step (b : nat) (st st' : dtb_state) (p : nodeptr) :
  wf b st ->
  alloc_node st = Ret (Some p, st') ->
  p = (b, Z.to_nat (node_alloc_head st)) /\
  node_alloc_head st + 1 < node_alloc_max st /\
  table_step b st st' 1 0 id id id.
Proof.
  intros Hwf H.
  pose proof (wf_node_head _ _ Hwf) as Hh. pose proof (wf_node_max _ _ Hwf) as Hm.
  unfold alloc_node, bind, gets, modify, ret, fail, call_on_error in H.
  destruct (u32 (node_alloc_head st + 1) <? node_alloc_max st) eqn:Hlt.
  - rewrite (wf_node_buff _ _ Hwf) in H. injection H as <- <-.
    apply Z.ltb_lt in Hlt. rewrite u32_small in Hlt |- * by lia.
    split; [done|]. split; [done|].
    constructor; try reflexivity; try (simpl; lia). by constructor.
  - destruct (on_error (ops st)); discriminate.
Qed.

Lemma alloc_prop_step (b : nat) (st st' : dtb_state) (p : propptr) :
  wf b st ->
  alloc_prop st = Ret (Some p, st') ->
  p = (b, Z.to_nat (prop_alloc_head st)) /\
  prop_alloc_head st + 1 < prop_alloc_max st /\
  table_step b st st' 0 1 id id id.
Proof.
  intros Hwf H.
  pose proof (wf_prop_head _ _ Hwf) as Hh. pose proof (wf_prop_max _ _ Hwf) as Hm.
  unfold alloc_prop, bind, gets, modify, ret, fail, call_on_error in H.
  destruct (u32 (prop_alloc_head st + 1) <? prop_alloc_max st) eqn:Hlt.
  - rewrite (wf_prop_buff _ _ Hwf) in H. injection H as <- <-.
    apply Z.ltb_lt in Hlt. rewrite u32_small in Hlt |- * by lia.
    split; [done|]. split; [done|].
    constructor; try reflexivity; try (simpl; lia). by constructor.
  - destruct (on_error (ops st)); discriminate.
Qed.

(** ** Tokens of the structure block *)

Lemma check_for_special_prop_Ret (node : nodeptr) (prop : propptr)
    (st st' : dtb_state) (u : unit) :
  check_for_special_prop node prop st = Ret (u, st') ->
  exists p,
    read_prop st prop = Ret p /\
    exists kind,
      classify_name (prop_name p) = Ret kind /\
      special_effect kind node prop st st'.
Proof.
  unfold check_for_special_prop. intros H. minv H.
  eexists. split; [eassumption|].
  remember (classify_name (prop_name a)) as cl eqn:Hcl. unfold classify_name in Hcl.
  repeat (use_reads_in Hcl;
          lazymatch type of H with
          | (if ?c then _ else _) _ = _ => destruct c; minv H
          end;
          try (subst cl; eexists; split; [reflexivity|]; simpl; eauto; fail)).
Qed.

Lemma read_cell_token (st : dtb_state) (offset c : Z) :
  read_cell st offset = Ret c -> token_at (cells st) offset = Ret (be32 c).
Proof. unfold read_cell, token_at. by intros ->. Qed.

(** One call of [parse_prop] on a PROP token. *)
Lemma parse_prop_Ret (b : nat) (offset : Z) (st st' : dtb_state)
    (r : option propptr) (offset' : Z) :
  wf b st ->
  token_at (cells st) offset = Ret FDT_PROP ->
  parse_prop offset st = Ret ((r, offset'), st') ->
  exists name len,
    let j := Z.to_nat (prop_alloc_head st) in
    prop_name_at (cells st) (strings st) offset = Ret name /\
    prop_length_at (cells st) offset = Ret len /\
    after_prop (cells st) offset = Ret offset' /\
    r = Some (b, j) /\
    (j < length (props_of st b))%nat /\
    table_step b st st' 0 1 id
               (<[j := Prop_ name (prop_payload_at (cells st) offset) len None]>) id /\
    wf b st'.
Proof.
  intros Hwf Htok H. unfold parse_prop in H. minv H.
  match goal with
  | Hr : read_cell st offset = Ret _ |- _ =>
      apply read_cell_token in Hr; rewrite Htok in Hr; injection Hr as Hc
  end.
  rewrite <- Hc in H. change (negb (FDT_PROP =? FDT_PROP)) with false in H.
  cbv iota in H. minv H.
  match goal with
  | Ha : alloc_prop st = Ret (?o, _) |- _ =>
      destruct o as [prop|]; [|discriminate];
      destruct (alloc_prop_step b _ _ _ Hwf Ha) as (-> & Hlt & Hs0)
  end.
  minv H.
  match goal with
  | Hw : write_prop _ (set_prop_name _) _ = Ret _ |- _ =>
      apply write_prop_step in Hw as [Hs1 Hj]
  end.
  match goal with
  | Hw : write_prop _ (set_first_cell _) _ = Ret _ |- _ =>
      apply write_prop_step in Hw as [Hs2 _]
  end.
  match goal with
  | Hw : write_prop _ (set_prop_length _) _ = Ret _ |- _ =>
      apply write_prop_step in Hw as [Hs3 _]
  end.
  match goal with
  | E : (r, offset') = _ |- _ => injection E as -> ->
  end.
  pose proof (table_step_trans _ _ _ _ _ _ _ _ _ _ _ _ _ _ Hs0 Hs1) as Hs01.
  pose proof (table_step_trans _ _ _ _ _ _ _ _ _ _ _ _ _ _ Hs01 Hs2) as Hs02.
  pose proof (table_step_trans _ _ _ _ _ _ _ _ _ _ _ _ _ _ Hs02 Hs3) as Hs03.
  clear Hs01 Hs02 Hs1 Hs2 Hs3.
  rewrite (ts_props _ _ _ _ _ _ _ _ Hs0) in Hj. unfold id in Hj.
  pose proof (sc_cells _ _ (ts_config _ _ _ _ _ _ _ _ Hs0)) as Hcs.
  pose proof (sc_strings _ _ (ts_config _ _ _ _ _ _ _ _ Hs0)) as Hstr.
  rewrite Hcs, Hstr in *.
  set (j := Z.to_nat (prop_alloc_head st)) in *.
  assert (Hzero : props_of st b !! j = Some zero_prop).
  { destruct (lookup_lt_is_Some_2 _ _ Hj) as [p Hp]. rewrite Hp. f_equal.
    eapply wf_fresh_props; [exact Hwf|exact Hp|].
    pose proof (wf_prop_head _ _ Hwf). unfold j. lia. }
  eexists _, _. cbv zeta.
  unfold prop_name_at, prop_length_at, after_prop, prop_length_at.
  use_reads.
  split; [reflexivity|]. split; [reflexivity|]. split; [reflexivity|].
  split; [reflexivity|]. split; [exact Hj|].
  match goal with
  | Hs : table_step _ _ ?s _ _ _ _ _,
    Hno : load32 (ptr_add (ptr_add _ _) 4) = Ret ?no,
    Hln : load32 (ptr_add (cells st) (4 * u32 (offset + 1))) = Ret ?ln |- _ =>
      assert (Hprops : props_of s b
                   = <[j := Prop_ (ptr_add (strings st) (be32 no))
                                  (prop_payload_at (cells st) offset) (be32 ln) None]>
                       (props_of st b))
  end.
  { rewrite (ts_props _ _ _ _ _ _ _ _ Hs03). unfold compose, id.
    apply list_eq. intros i. destruct (decide (i = j)) as [->|Hne].
    - rewrite list_lookup_insert_eq by done.
      rewrite !list_lookup_alter_eq, Hzero. reflexivity.
    - rewrite list_lookup_insert_ne by done.
      by rewrite !list_lookup_alter_ne. }
  split.
  - destruct Hs03. constructor; try done; try lia.
  - destruct Hwf, Hs03 as [[] ? ? ? Hn ? ?].
    constructor; try congruence; eauto; try lia.
    + intros i n Hi Hh. rewrite Hn in Hi. apply (wf_fresh_nodes0 i n Hi). lia.
    + intros i p Hi Hh. rewrite Hprops in Hi.
      rewrite list_lookup_insert_ne in Hi by (unfold j; lia).
      apply (wf_fresh_props0 i p Hi). lia.
Qed.

(** The part of [parse_node] before its loop: a node is allocated and
    filled in. *)
Lemma enter_node_step (b : nat) (st s0 s1 s2 s3 : dtb_state) (node : nodeptr)
    (name : cptr) (ac sc : Z) :
  wf b st ->
  alloc_node st = Ret (Some node, s0) ->
  write_node node (set_node_name name) s0 = Ret s1 ->
  write_node node (set_addr_cells ac) s1 = Ret s2 ->
  write_node node (set_size_cells sc) s2 = Ret s3 ->
  let k := Z.to_nat (node_alloc_head st) in
  node = (b, k) /\
  (k < length (nodes_of st b))%nat /\
  table_step b st s3 1 0 (<[k := Node None None None None name ac sc]>) id id /\
  wf b s3 /\
  cells s3 = cells st.
Proof.
  intros Hwf Ha H1 H2 H3 k.
  destruct (alloc_node_step b _ _ _ Hwf Ha) as (-> & Hlt & Hs0).
  apply write_node_step in H1 as [Hs1 Hk].
  apply write_node_step in H2 as [Hs2 _].
  apply write_node_step in H3 as [Hs3 _].
  pose proof (table_step_trans _ _ _ _ _ _ _ _ _ _ _ _ _ _ Hs0 Hs1) as Hs01.
  pose proof (table_step_trans _ _ _ _ _ _ _ _ _ _ _ _ _ _ Hs01 Hs2) as Hs02.
  pose proof (table_step_trans _ _ _ _ _ _ _ _ _ _ _ _ _ _ Hs02 Hs3) as Hs03.
  clear Hs01 Hs02 Hs1 Hs2 Hs3.
  rewrite (ts_nodes _ _ _ _ _ _ _ _ Hs0) in Hk. unfold id in Hk.
  fold k in Hk, Hs03.
  assert (Hzero : nodes_of st b !! k = Some zero_node).
  { destruct (lookup_lt_is_Some_2 _ _ Hk) as [p Hp]. rewrite Hp. f_equal.
    eapply wf_fresh_nodes; [exact Hwf|exact Hp|].
    pose proof (wf_node_head _ _ Hwf). unfold k. lia. }
  assert (Hnodes : nodes_of s3 b
                   = <[k := Node None None None None name ac sc]> (nodes_of st b)).
  { rewrite (ts_nodes _ _ _ _ _ _ _ _ Hs03). unfold compose, id.
    apply list_eq. intros i. destruct (decide (i = k)) as [->|Hne].
    - rewrite list_lookup_insert_eq by done.
      rewrite !list_lookup_alter_eq, Hzero. reflexivity.
    - rewrite list_lookup_insert_ne by done.
      by rewrite !list_lookup_alter_ne. }
  split; [done|]. split; [exact Hk|].
  split; [|split; [|apply (sc_cells _ _ (ts_config _ _ _ _ _ _ _ _ Hs03))]].
  - destruct Hs03. constructor; try done; try lia.
  - destruct Hwf, Hs03 as [[] ? ? ? ? Hp ?].
    constructor; try congruence; eauto; try lia.
    + intros i n Hi Hh. rewrite Hnodes in Hi.
      rewrite list_lookup_insert_ne in Hi by (unfold k; lia).
      apply (wf_fresh_nodes0 i n Hi). lia.
    + intros i p Hi Hh. rewrite Hp in Hi. apply (wf_fresh_props0 i p Hi). lia.
Qed.

(** One call of [parse_node]. *)
Lemma parse_node_Ret (b : nat) (fuel : nat) (offset ac sc : Z) (st st' : dtb_state)
    (r : option nodeptr) (offset' : Z) :
  wf b st ->
  parse_node (S fuel) offset ac sc st = Ret ((r, offset'), st') ->
  exists t,
    token_at (cells st) offset = Ret t /\
    ((t <> FDT_BEGIN_NODE /\ r = None /\ offset' = offset /\ st' = st) \/
     (t = FDT_BEGIN_NODE /\
      exists st1 offset1,
        let k := Z.to_nat (node_alloc_head st) in
        after_name (cells st) offset = Ret offset1 /\
        (k < length (nodes_of st b))%nat /\
        table_step b st st1 1 0
          (<[k := Node None None None None (node_name_at (cells st) offset) ac sc]>)
          id id /\
        wf b st1 /\
        parse_node_loop fuel (b, k) offset1 st1 = Ret ((r, offset'), st'))).
Proof.
  intros Hwf H. cbn [parse_node] in H. minv H.
  match goal with
  | Hr : read_cell st offset = Ret _ |- _ => apply read_cell_token in Hr as Htok
  end.
  eexists. split; [exact Htok|].
  match type of H with
  | (if negb (?t =? _) then _ else _) _ = _ => destruct (t =? FDT_BEGIN_NODE) eqn:Ht
  end; cbn [negb] in H.
  2:{ left. apply Z.eqb_neq in Ht. minv H.
      match goal with E : (r, offset') = _ |- _ => injection E as -> -> end. done. }
  right. apply Z.eqb_eq in Ht. split; [exact Ht|].
  minv H.
  match goal with
  | Ha : alloc_node st = Ret (?o, _) |- _ => destruct o as [node|]; [|discriminate]
  end.
  minv H.
  match goal with
  | Ha : alloc_node st = Ret _,
    H1 : write_node _ (set_node_name _) _ = Ret _,
    H2 : write_node _ (set_addr_cells _) _ = Ret _,
    H3 : write_node _ (set_size_cells _) _ = Ret _ |- _ =>
      destruct (enter_node_step b _ _ _ _ _ _ _ _ _ Hwf Ha H1 H2 H3)
        as (-> & Hk & Hs & Hwf1 & Hcs)
  end.
  match goal with
  | Ha : alloc_node st = Ret (_, ?s0) |- _ =>
      assert (Hcs0 : cells s0 = cells st)
        by (destruct (alloc_node_step b _ _ _ Hwf Ha) as (_ & _ & Hs0);
            apply (sc_cells _ _ (ts_config _ _ _ _ _ _ _ _ Hs0)))
  end.
  rewrite Hcs0 in *.
  match type of H with
  | parse_node_loop _ _ ?o ?s = _ => exists s, o
  end.
  cbv zeta. unfold after_name, node_name_at. use_reads.
  split; [reflexivity|]. split; [exact Hk|]. split; [exact Hs|].
  split; [exact Hwf1|]. first [exact H|reflexivity].
Qed.

(** One turn of the loop of [parse_node]. *)
Lemma parse_node_loop_Ret (fuel : nat) (node : nodeptr) (offset : Z)
    (st st' : dtb_state) (r : option nodeptr) (offset' : Z) :
  parse_node_loop (S fuel) node offset st = Ret ((r, offset'), st') ->
  (cell_count st <= offset /\ r = None /\ offset' = offset /\
   exists u, call_on_error "Node has no terminating tag." st = Ret (u, st')) \/
  (offset < cell_count st /\
   exists t,
     token_at (cells st) offset = Ret t /\
     ((t = FDT_END_NODE /\ r = Some node /\ offset' = u32 (offset + 1) /\ st' = st) \/
      (t = FDT_BEGIN_NODE /\
       exists n c o1 st1 st2,
         read_node st node = Ret n /\
         parse_node fuel offset (addr_cells n) (size_cells n) st = Ret ((c, o1), st1) /\
         match c with
         | Some cp => link_child_run node cp st1 st2
         | None => st2 = st1
         end /\
         parse_node_loop fuel node o1 st2 = Ret ((r, offset'), st')) \/
      (t = FDT_PROP /\
       exists pp o1 st1 st2,
         parse_prop offset st = Ret ((pp, o1), st1) /\
         match pp with
         | Some prop =>
             exists st12 u,
               link_prop_run node prop st1 st12 /\
               check_for_special_prop node prop st12 = Ret (u, st2)
         | None => st2 = st1
         end /\
         parse_node_loop fuel node o1 st2 = Ret ((r, offset'), st')) \/
      (t <> FDT_END_NODE /\ t <> FDT_BEGIN_NODE /\ t <> FDT_PROP /\
       parse_node_loop fuel node (u32 (offset + 1)) st = Ret ((r, offset'), st')))).
Proof.
  intros H. cbn [parse_node_loop] in H. minv H.
  destruct (offset <? cell_count st) eqn:Hlt.
  2:{ left. apply Z.ltb_ge in Hlt. minv H.
      match goal with E : (r, offset') = _ |- _ => injection E as -> -> end.
      split; [done|]. split; [done|]. split; [done|]. eauto. }
  right. apply Z.ltb_lt in Hlt. split; [exact Hlt|]. minv H.
  match goal with
  | Hr : read_cell st offset = Ret _ |- _ => apply read_cell_token in Hr as Htok
  end.
  eexists. split; [exact Htok|].
  match type of H with
  | (if ?t =? _ then _ else _) _ = _ => destruct (t =? FDT_END_NODE) eqn:Hend
  end.
  { left. apply Z.eqb_eq in Hend. minv H.
    match goal with E : (r, offset') = _ |- _ => injection E as -> -> end. done. }
  right. apply Z.eqb_neq in Hend.
  match type of H with
  | (if ?t =? _ then _ else _) _ = _ => destruct (t =? FDT_BEGIN_NODE) eqn:Hbeg
  end.
  { left. apply Z.eqb_eq in Hbeg. split; [exact Hbeg|]. minv H.
    match goal with
    | Hp : parse_node _ _ _ _ _ = Ret (?res, _) |- _ => destruct res as [c o1]
    end.
    cbv beta iota in H. destruct c as [cp|].
    - minv H. eexists _, (Some cp), _, _, _.
      split; [eassumption|]. split; [eassumption|]. split; [|exact H].
      eexists _, _, _. eauto.
    - eexists _, None, _, _, _.
      split; [eassumption|]. split; [eassumption|]. split; [reflexivity|exact H]. }
  right. apply Z.eqb_neq in Hbeg.
  match type of H with
  | (if ?t =? _ then _ else _) _ = _ => destruct (t =? FDT_PROP) eqn:Hprop
  end.
  { left. apply Z.eqb_eq in Hprop. split; [exact Hprop|]. minv H.
    match goal with
    | Hp : parse_prop _ _ = Ret (?res, _) |- _ => destruct res as [pp o1]
    end.
    cbv beta iota in H. destruct pp as [prop|].
    - minv H. eexists (Some prop), _, _, _.
      split; [eassumption|]. split; [|exact H].
      eexists _, _. split; [|eassumption]. eexists _, _. eauto.
    - eexists None, _, _, _.
      split; [eassumption|]. split; [reflexivity|exact H]. }
  right. apply Z.eqb_neq in Hprop. done.
Qed.

(** One turn of the scanning loop of [dtb_init]. *)
Lemma dtb_init_loop_Ret (fuel : nat) (i : Z) (st st' : dtb_state) (u : unit) :
  dtb_init_loop (S fuel) i st = Ret (u, st') ->
  (cell_count st <= i /\ st' = st) \/
  (i < cell_count st /\
   exists t,
     token_at (cells st) i = Ret t /\
     ((t <> FDT_BEGIN_NODE /\ dtb_init_loop fuel (u32 (i + 1)) st = Ret (u, st')) \/
      (t = FDT_BEGIN_NODE /\
       exists sub i1 st1 st2,
         parse_node fuel i 2 1 st = Ret ((sub, i1), st1) /\
         match sub with
         | Some sub_root =>
             exists st12,
               write_node sub_root (set_sibling (root st1)) st1 = Ret st12 /\
               st2 = set_root (Some sub_root) st12
         | None => st2 = st1
         end /\
         dtb_init_loop fuel (u32 (i1 + 1)) st2 = Ret (u, st')))).
Proof.
  intros H. cbn [dtb_init_loop] in H. minv H.
  destruct (i <? cell_count st) eqn:Hlt.
  2:{ left. apply Z.ltb_ge in Hlt. minv H. done. }
  right. apply Z.ltb_lt in Hlt. split; [exact Hlt|]. minv H.
  match goal with
  | Hr : read_cell st i = Ret _ |- _ => apply read_cell_token in Hr as Htok
  end.
  eexists. split; [exact Htok|].
  match type of H with
  | (if negb (?t =? _) then _ else _) _ = _ => destruct (t =? FDT_BEGIN_NODE) eqn:Hbeg
  end; cbn [negb] in H.
  2:{ left. apply Z.eqb_neq in Hbeg. done. }
  right. apply Z.eqb_eq in Hbeg. split; [exact Hbeg|]. minv H.
  match goal with
  | Hp : parse_node _ _ _ _ _ = Ret (?res, _) |- _ => destruct res as [sub i1]
  end.
  cbv beta iota in H. destruct sub as [sub_root|].
  - minv H. eexists (Some sub_root), _, _, _.
    split; [eassumption|]. split; [|exact H]. eauto.
  - eexists None, _, _, _. split; [eassumption|]. split; [reflexivity|exact H].
Qed.

(** ** The linking steps on the tables *)

Lemma read_node_nodes_of (st : dtb_state) (b k : nat) (n : dtb_node) :
  read_node st (b, k) = Ret n -> nodes_of st b !! k = Some n.
Proof. intros H. by apply read_node_of in H as [_ ?]. Qed.

Lemma read_prop_props_of (st : dtb_state) (b j : nat) (p : dtb_prop) :
  read_prop st (b, j) = Ret p -> props_of st b !! j = Some p.
Proof. intros H. by apply read_prop_of in H as [_ ?]. Qed.

Lemma wf_read_node (b : nat) (st : dtb_state) (k : nat) (n : dtb_node) :
  wf b st -> nodes_of st b !! k = Some n -> read_node st (b, k) = Ret n.
Proof. intros Hwf H. apply read_node_of. split; [by apply wf_live|done]. Qed.

Lemma wf_read_prop (b : nat) (st : dtb_state) (j : nat) (p : dtb_prop) :
  wf b st -> props_of st b !! j = Some p -> read_prop st (b, j) = Ret p.
Proof. intros Hwf H. apply read_prop_of. split; [by apply wf_live|done]. Qed.

Lemma link_child_step (b k c : nat) (st st' : dtb_state) :
  wf b st ->
  link_child_run (b, k) (b, c) st st' ->
  Z.of_nat k < node_alloc_head st ->
  Z.of_nat c < node_alloc_head st ->
  exists n,
    nodes_of st b !! k = Some n /\
    (c < length (nodes_of st b))%nat /\
    table_step b st st' 0 0
      (alter (set_parent (Some (b, k))) c ∘ alter (set_child (Some (b, c))) k
       ∘ alter (set_sibling (child n)) c) id id /\
    wf b st'.
Proof.
  intros Hwf (n & st1 & st2 & Hn & H1 & H2 & H3) Hk Hc.
  pose proof (wf_write_node _ _ _ _ _ Hwf H1 Hc) as Hwf1.
  apply write_node_step in H1 as [Hs1 Hlen].
  assert (Hk1 : Z.of_nat k < node_alloc_head st1)
    by (rewrite (ts_node_head _ _ _ _ _ _ _ _ Hs1); lia).
  assert (Hc1 : Z.of_nat c < node_alloc_head st1)
    by (rewrite (ts_node_head _ _ _ _ _ _ _ _ Hs1); lia).
  pose proof (wf_write_node _ _ _ _ _ Hwf1 H2 Hk1) as Hwf2.
  apply write_node_step in H2 as [Hs2 _].
  assert (Hc2 : Z.of_nat c < node_alloc_head st2)
    by (rewrite (ts_node_head _ _ _ _ _ _ _ _ Hs2); lia).
  pose proof (wf_write_node _ _ _ _ _ Hwf2 H3 Hc2) as Hwf3.
  apply write_node_step in H3 as [Hs3 _].
  exists n. split; [by apply read_node_nodes_of|]. split; [exact Hlen|].
  split; [|exact Hwf3].
  pose proof (table_step_trans _ _ _ _ _ _ _ _ _ _ _ _ _ _ Hs1 Hs2) as Hs12.
  pose proof (table_step_trans _ _ _ _ _ _ _ _ _ _ _ _ _ _ Hs12 Hs3) as Hs.
  destruct Hs. constructor; try done; lia.
Qed.

Lemma link_prop_step (b k j : nat) (st st' : dtb_state) :
  wf b st ->
  link_prop_run (b, k) (b, j) st st' ->
  Z.of_nat k < node_alloc_head st ->
  Z.of_nat j < prop_alloc_head st ->
  exists n,
    nodes_of st b !! k = Some n /\
    table_step b st st' 0 0
      (alter (set_props (Some (b, j))) k) (alter (set_next (props n)) j) id /\
    wf b st'.
Proof.
  intros Hwf (n & st1 & Hn & H1 & H2) Hk Hj.
  pose proof (wf_write_prop _ _ _ _ _ Hwf H1 Hj) as Hwf1.
  apply write_prop_step in H1 as [Hs1 _].
  assert (Hk1 : Z.of_nat k < node_alloc_head st1)
    by (rewrite (ts_node_head _ _ _ _ _ _ _ _ Hs1); lia).
  pose proof (wf_write_node _ _ _ _ _ Hwf1 H2 Hk1) as Hwf2.
  apply write_node_step in H2 as [Hs2 _].
  exists n. split; [by apply read_node_nodes_of|]. split; [|exact Hwf2].
  pose proof (table_step_trans _ _ _ _ _ _ _ _ _ _ _ _ _ _ Hs1 Hs2) as Hs.
  destruct Hs. constructor; try done; lia.
Qed.

Lemma special_effect_step (kind : special) (b k j : nat) (st st' : dtb_state) :
  wf b st ->
  special_effect kind (b, k) (b, j) st st' ->
  Z.of_nat k < node_alloc_head st ->
  exists fn fh,
    special_update kind b k j st fn fh /\
    table_step b st st' 0 0 fn id fh /\
    wf b st'.
Proof.
  intros Hwf He Hk. destruct kind; simpl in He.
  - subst st'. exists id, id. split; [done|]. split; [apply table_step_refl|done].
  - destruct He as (h & Hh & Hw).
    pose proof (wf_write_handle _ _ _ _ _ Hwf Hw) as Hwf'.
    apply (write_handle_step b) in Hw as [Hs Hlt]; [|by apply wf_handle_lookup].
    eexists _, _. split; [|split; [exact Hs|exact Hwf']].
    exists h. done.
  - destruct He as (v & Hv & Hw).
    pose proof (wf_write_node _ _ _ _ _ Hwf Hw Hk) as Hwf'.
    apply write_node_step in Hw as [Hs _].
    eexists _, _. split; [|split; [exact Hs|exact Hwf']].
    exists v. done.
  - destruct He as (v & Hv & Hw).
    pose proof (wf_write_node _ _ _ _ _ Hwf Hw Hk) as Hwf'.
    apply write_node_step in Hw as [Hs _].
    eexists _, _. split; [|split; [exact Hs|exact Hwf']].
    exists v. done.
Qed.

(** ** What a call of [parse_node] leaves untouched *)

Lemma touches_id {A : Type} (S : nat -> Prop) : touches_only (@id (list A)) S.
Proof. by intros l i _. Qed.

Lemma touches_alter {A : Type} (f : A -> A) (k : nat) (S : nat -> Prop) :
  S k -> touches_only (alter f k) S.
Proof.
  intros Hk l i Hi. apply list_lookup_alter_ne. intros ->. by apply Hi.
Qed.

Lemma touches_insert {A : Type} (x : A) (k : nat) (S : nat -> Prop) :
  S k -> touches_only (<[k := x]>) S.
Proof.
  intros Hk l i Hi. apply list_lookup_insert_ne. intros ->. by apply Hi.
Qed.

Lemma touches_compose {A : Type} (f g : list A -> list A) (S : nat -> Prop) :
  touches_only f S -> touches_only g S -> touches_only (g ∘ f) S.
Proof. intros Hf Hg l i Hi. unfold compose. rewrite Hg, Hf; done. Qed.

Lemma kept_refl (n : dtb_node) : kept n n.
Proof. done. Qed.

Lemma kept_trans (n1 n2 n3 : dtb_node) : kept n1 n2 -> kept n2 n3 -> kept n1 n3.
Proof. intros (? & ? & ?) (? & ? & ?). repeat split; congruence. Qed.

Lemma keeps_id (k : nat) : keeps id k.
Proof. intros l n Hn. exists n. split; [done|apply kept_refl]. Qed.

Lemma keeps_alter (f : dtb_node -> dtb_node) (i k : nat) :
  (i = k -> forall n, kept n (f n)) -> keeps (alter f i) k.
Proof.
  intros Hf l n Hn. destruct (decide (i = k)) as [->|Hne].
  - exists (f n). rewrite list_lookup_alter_eq, Hn. split; [done|by apply Hf].
  - exists n. rewrite list_lookup_alter_ne by done. split; [done|apply kept_refl].
Qed.

Lemma keeps_compose (f g : list dtb_node -> list dtb_node) (k : nat) :
  keeps f k -> keeps g k -> keeps (g ∘ f) k.
Proof.
  intros Hf Hg l n Hn. destruct (Hf l n Hn) as (n1 & H1 & K1).
  destruct (Hg (f l) n1 H1) as (n2 & H2 & K2).
  exists n2. split; [done|by eapply kept_trans].
Qed.

Lemma frame_refl (b k : nat) (bn bp : Z) (st : dtb_state) :
  wf b st -> frame b k bn bp st st.
Proof.
  intros. constructor; try done; try lia; try apply same_config_refl.
  intros n _ Hn. exists n. split; [done|apply kept_refl].
Qed.

Lemma frame_trans (b k : nat) (bn bp : Z) (st1 st2 st3 : dtb_state) :
  frame b k bn bp st1 st2 -> frame b k bn bp st2 st3 -> frame b k bn bp st1 st3.
Proof.
  intros [] []. constructor; try congruence; try lia; try done.
  - by eapply same_config_trans.
  - intros i Hi Hne. rewrite fr_nodes1 by done. by apply fr_nodes0.
  - intros n Hk Hn. destruct (fr_kept0 n Hk Hn) as (n1 & Hn1 & K1).
    destruct (fr_kept1 n1 Hk Hn1) as (n2 & Hn2 & K2).
    exists n2. split; [done|by eapply kept_trans].
  - intros j Hj. rewrite fr_props1 by done. by apply fr_props0.
Qed.

Lemma frame_weaken (b k : nat) (bn bp bn' bp' : Z) (st st' : dtb_state) :
  frame b k bn bp st st' -> bn' <= bn -> bp' <= bp -> frame b k bn' bp' st st'.
Proof.
  intros [] Hn Hp. constructor; try done.
  - intros i Hi Hne. apply fr_nodes0; [lia|done].
  - intros n Hk. apply fr_kept0. lia.
  - intros j Hj. apply fr_props0. lia.
Qed.

Lemma frame_other (b h k : nat) (bn bp : Z) (st st' : dtb_state) :
  frame b h bn bp st st' -> bn <= Z.of_nat h -> frame b k bn bp st st'.
Proof.
  intros [] Hh. constructor; try done.
  - intros i Hi Hne. apply fr_nodes0; [done|lia].
  - intros n Hk Hn. exists n. split; [|apply kept_refl].
    rewrite fr_nodes0; [done|lia|lia].
Qed.

Lemma table_step_frame (b k : nat) (bn bp : Z) (st st' : dtb_state) dn dp fn fp fh :
  table_step b st st' dn dp fn fp fh ->
  0 <= dn -> 0 <= dp ->
  touches_only fn (fun i => i = k \/ bn <= Z.of_nat i) ->
  (Z.of_nat k < bn -> keeps fn k) ->
  touches_only fp (fun j => bp <= Z.of_nat j) ->
  wf b st' ->
  frame b k bn bp st st'.
Proof.
  intros [] Hdn Hdp Hfn Hkeep Hfp Hwf. constructor; try done; try lia.
  - intros i Hi Hne. rewrite ts_nodes0. apply Hfn. lia.
  - intros n Hk Hn. rewrite ts_nodes0. by apply Hkeep.
  - intros j Hj. rewrite ts_props0. apply Hfp. lia.
Qed.

Lemma wf_table_step (b : nat) (st st' : dtb_state) fn fp fh :
  wf b st ->
  table_step b st st' 0 0 fn fp fh ->
  touches_only fn (fun i => Z.of_nat i < node_alloc_head st) ->
  touches_only fp (fun j => Z.of_nat j < prop_alloc_head st) ->
  wf b st'.
Proof.
  intros Hwf [[] ? Hh Hph Hn Hp ?] Hfn Hfp. destruct Hwf.
  constructor; try congruence; eauto; try lia.
  - intros i n Hi Hge. rewrite Hn, Hfn in Hi by lia.
    apply (wf_fresh_nodes0 i n Hi). lia.
  - intros i p Hi Hge. rewrite Hp, Hfp in Hi by lia.
    apply (wf_fresh_props0 i p Hi). lia.
Qed.

Lemma special_update_touches (kind : special) (b k j : nat) (st : dtb_state)
    fn fh (S : nat -> Prop) :
  special_update kind b k j st fn fh -> S k -> touches_only fn S /\ keeps fn k.
Proof.
  intros H Hk. destruct kind; simpl in H.
  - destruct H as [-> _]. split; [apply touches_id|apply keeps_id].
  - destruct H as (h & _ & _ & -> & _). split; [apply touches_id|apply keeps_id].
  - destruct H as (v & _ & -> & _).
    split; [by apply touches_alter|by apply keeps_alter].
  - destruct H as (v & _ & -> & _).
    split; [by apply touches_alter|by apply keeps_alter].
Qed.

(** Every call of [parse_node] and every run of its loop respects the
    frame. *)
Lemma parse_frames (b : nat) :
  forall fuel,
    (forall offset ac sc st r offset' st',
        wf b st ->
        parse_node fuel offset ac sc st = Ret ((r, offset'), st') ->
        call_post b offset st r st') /\
    (forall k offset st r offset' st',
        wf b st -> Z.of_nat k < node_alloc_head st ->
        parse_node_loop fuel (b, k) offset st = Ret ((r, offset'), st') ->
        loop_post b k st r st').
Proof.
  induction fuel as [|fuel [IHcall IHloop]]; [split; intros; discriminate|].
  split.
  - intros offset ac sc st r offset' st' Hwf H.
    destruct (parse_node_Ret b _ _ _ _ _ _ _ _ Hwf H)
      as (t & Htok & [(Ht & -> & -> & ->)
                     |(Ht & st1 & o1 & Hname & Hk & Hs & Hwf1 & Hloop)]).
    { split; [by apply frame_refl|]. intros n [=]. }
    cbv zeta in *. set (k := Z.to_nat (node_alloc_head st)) in *.
    pose proof (wf_node_head _ _ Hwf) as Hh.
    pose proof (ts_node_head _ _ _ _ _ _ _ _ Hs) as Hh1.
    pose proof (ts_prop_head _ _ _ _ _ _ _ _ Hs) as Hp1.
    destruct (IHloop k o1 st1 r offset' st' Hwf1 ltac:(unfold k; lia) Hloop)
      as [Hf Hr].
    assert (Hf0 : frame b k (node_alloc_head st) (prop_alloc_head st) st st1).
    { eapply table_step_frame; eauto; try lia.
      - apply touches_insert. by left.
      - apply touches_id. }
    split.
    + eapply frame_trans; [exact Hf0|].
      eapply frame_weaken; [exact Hf|lia|lia].
    + intros n Hn. split; [by apply Hr|].
      split; [pose proof (fr_node_head _ _ _ _ _ _ Hf); lia|].
      assert (Hk1 : nodes_of st1 b !! k = Some
                (Node None None None None (node_name_at (cells st) offset) ac sc)).
      { rewrite (ts_nodes _ _ _ _ _ _ _ _ Hs). by apply list_lookup_insert_eq. }
      destruct (fr_kept _ _ _ _ _ _ Hf _ ltac:(unfold k; lia) Hk1)
        as (nd & Hnd & Hp & Hsib & Hnm).
      exists nd. done.
  - intros k offset st r offset' st' Hwf Hk H.
    destruct (parse_node_loop_Ret _ _ _ _ _ _ _ H)
      as [(Hge & -> & -> & u & Herr)
         |(Hlt & t & Htok &
           [(Ht & -> & -> & ->)
           |[(Ht & n & c & o1 & st1 & st2 & Hn & Hcall & Hlink & Hrest)
            |[(Ht & pp & o1 & st1 & st2 & Hprop & Hlink & Hrest)
             |(Ht1 & Ht2 & Ht3 & Hrest)]]])].
    + apply (call_on_error_step b) in Herr.
      split; [|intros n [=]].
      eapply table_step_frame; eauto; try lia;
        try apply touches_id; try (intros _; apply keeps_id).
      eapply wf_table_step; eauto; apply touches_id.
    + split; [by apply frame_refl|]. by intros n [= <-].
    + destruct (IHcall _ _ _ _ _ _ _ Hwf Hcall) as [Hf1 Hr1]. cbv zeta in *.
      set (h := Z.to_nat (node_alloc_head st)) in *.
      pose proof (wf_node_head _ _ Hwf) as Hh.
      apply (frame_other b h k) in Hf1; [|unfold h; lia].
      pose proof (fr_wf _ _ _ _ _ _ Hf1) as Hwf1.
      pose proof (fr_node_head _ _ _ _ _ _ Hf1) as Hh1.
      pose proof (fr_prop_head _ _ _ _ _ _ Hf1) as Hp1.
      destruct c as [cp|].
      * destruct (Hr1 cp eq_refl) as (-> & Hlt1 & _).
        destruct (link_child_step b k h st1 st2 Hwf1 Hlink ltac:(lia)
                    ltac:(unfold h; lia)) as (n1 & Hn1 & Hlen & Hs & Hwf2).
        pose proof (ts_node_head _ _ _ _ _ _ _ _ Hs) as Hh2.
        pose proof (ts_prop_head _ _ _ _ _ _ _ _ Hs) as Hp2.
        destruct (IHloop k o1 st2 r offset' st' Hwf2 ltac:(lia) Hrest) as [Hf2 Hr].
        split; [|exact Hr].
        eapply frame_trans; [exact Hf1|].
        eapply frame_trans; [|eapply frame_weaken; [exact Hf2|lia|lia]].
        eapply table_step_frame; eauto; try lia.
        -- apply touches_compose;
             [apply touches_alter|apply touches_compose; apply touches_alter];
             first [by left|right; unfold h; lia].
        -- intros _. apply keeps_compose;
             [apply keeps_alter|apply keeps_compose; apply keeps_alter];
             intros E; first [done|unfold h in E; lia].
        -- apply touches_id.
      * subst st2.
        destruct (IHloop k o1 st1 r offset' st' Hwf1 ltac:(lia) Hrest) as [Hf2 Hr].
        split; [|exact Hr].
        eapply frame_trans; [exact Hf1|].
        eapply frame_weaken; [exact Hf2|lia|lia].
    + rewrite Ht in Htok.
      destruct (parse_prop_Ret b _ _ _ _ _ Hwf Htok Hprop)
        as (name & len & Hname & Hlen & Hafter & -> & Hj & Hs1 & Hwf1).
      cbv zeta in *. set (j := Z.to_nat (prop_alloc_head st)) in *.
      pose proof (wf_prop_head _ _ Hwf) as Hph.
      pose proof (ts_node_head _ _ _ _ _ _ _ _ Hs1) as Hh1.
      pose proof (ts_prop_head _ _ _ _ _ _ _ _ Hs1) as Hp1.
      destruct Hlink as (st12 & u & Hlink & Hcheck).
      destruct (link_prop_step b k j st1 st12 Hwf1 Hlink ltac:(lia)
                  ltac:(unfold j; lia)) as (n1 & Hn1 & Hs2 & Hwf12).
      pose proof (ts_node_head _ _ _ _ _ _ _ _ Hs2) as Hh2.
      pose proof (ts_prop_head _ _ _ _ _ _ _ _ Hs2) as Hp2.
      destruct (check_for_special_prop_Ret _ _ _ _ _ Hcheck)
        as (p & Hp & kind & Hcl & Heff).
      destruct (special_effect_step kind b k j st12 st2 Hwf12 Heff ltac:(lia))
        as (fn & fh & Hupd & Hs3 & Hwf2).
      pose proof (ts_node_head _ _ _ _ _ _ _ _ Hs3) as Hh3.
      pose proof (ts_prop_head _ _ _ _ _ _ _ _ Hs3) as Hp3.
      destruct (special_update_touches kind b k j st12 fn fh
                  (fun i => i = k \/ node_alloc_head st <= Z.of_nat i) Hupd
                  ltac:(by left)) as [Htouch Hkeeps].
      destruct (IHloop k o1 st2 r offset' st' Hwf2 ltac:(lia) Hrest) as [Hf2 Hr].
      split; [|exact Hr].
      eapply frame_trans;
        [|eapply frame_trans;
          [|eapply frame_trans; [|eapply frame_weaken; [exact Hf2|lia|lia]]]].
      * eapply table_step_frame; [exact Hs1|lia|lia| | | |exact Hwf1].
        -- apply touches_id.
        -- intros _. apply keeps_id.
        -- apply touches_insert. unfold j. lia.
      * eapply table_step_frame; [exact Hs2|lia|lia| | | |exact Hwf12].
        -- apply touches_alter. by left.
        -- intros _. by apply keeps_alter.
        -- apply touches_alter. unfold j. lia.
      * eapply table_step_frame; [exact Hs3|lia|lia| | | |exact Hwf2].
        -- exact Htouch.
        -- intros _. exact Hkeeps.
        -- apply touches_id.
    + exact (IHloop k _ st r offset' st' Hwf Hk Hrest).
Qed.

(** ** Chains in the tables *)

Lemma node_chain_bound (b : nat) (ns : list dtb_node) bound c l :
  node_chain b ns bound c l -> Forall (fun i => (i < bound)%nat) l /\ (length l <= bound)%nat.
Proof.
  induction 1 as [|bound i n l Hi Hn _ [IH1 IH2]]; [split; [constructor|simpl; lia]|].
  split; [|simpl; lia].
  constructor; [done|]. eapply Forall_impl; [exact IH1|]. simpl. lia.
Qed.

Lemma prop_chain_bound (b : nat) (ps : list dtb_prop) bound c l :
  prop_chain b ps bound c l -> Forall (fun i => (i < bound)%nat) l /\ (length l <= bound)%nat.
Proof.
  induction 1 as [|bound i n l Hi Hn _ [IH1 IH2]]; [split; [constructor|simpl; lia]|].
  split; [|simpl; lia].
  constructor; [done|]. eapply Forall_impl; [exact IH1|]. simpl. lia.
Qed.

Lemma node_chain_weaken (b : nat) (ns : list dtb_node) bound bound' c l :
  node_chain b ns bound c l -> (bound <= bound')%nat -> node_chain b ns bound' c l.
Proof.
  destruct 1; intros Hle; [constructor|].
  econstructor; eauto. lia.
Qed.

Lemma prop_chain_weaken (b : nat) (ps : list dtb_prop) bound bound' c l :
  prop_chain b ps bound c l -> (bound <= bound')%nat -> prop_chain b ps bound' c l.
Proof.
  destruct 1; intros Hle; [constructor|].
  econstructor; eauto. lia.
Qed.

Lemma node_chain_frame (b : nat) (ns ns' : list dtb_node) bound c l :
  node_chain b ns bound c l ->
  (forall i, (i < bound)%nat -> ns' !! i = ns !! i) ->
  node_chain b ns' bound c l.
Proof.
  induction 1 as [|bound i n l Hi Hn _ IH]; intros Hsame; [constructor|].
  econstructor; [done|by rewrite Hsame|].
  apply IH. intros j Hj. apply Hsame. lia.
Qed.

Lemma prop_chain_frame (b : nat) (ps ps' : list dtb_prop) bound c l :
  prop_chain b ps bound c l ->
  (forall i, (i < bound)%nat -> ps' !! i = ps !! i) ->
  prop_chain b ps' bound c l.
Proof.
  induction 1 as [|bound i n l Hi Hn _ IH]; intros Hsame; [constructor|].
  econstructor; [done|by rewrite Hsame|].
  apply IH. intros j Hj. apply Hsame. lia.
Qed.

Lemma node_chain_det (b : nat) (ns : list dtb_node) bound bound' c l l' :
  node_chain b ns bound c l -> node_chain b ns bound' c l' -> l = l'.
Proof.
  intros H. revert bound' l'.
  induction H as [|bound i n l Hi Hn _ IH]; intros bound' l' H'; inversion H'; subst.
  - reflexivity.
  - f_equal. eapply IH.
    match goal with
    | Hn' : _ !! i = Some ?m, Hc : _ _ _ _ (_ ?m) _ |- _ =>
        replace n with m by congruence; exact Hc
    end.
Qed.

Lemma prop_chain_det (b : nat) (ps : list dtb_prop) bound bound' c l l' :
  prop_chain b ps bound c l -> prop_chain b ps bound' c l' -> l = l'.
Proof.
  intros H. revert bound' l'.
  induction H as [|bound i n l Hi Hn _ IH]; intros bound' l' H'; inversion H'; subst.
  - reflexivity.
  - f_equal. eapply IH.
    match goal with
    | Hn' : _ !! i = Some ?m, Hc : _ _ _ _ (_ ?m) _ |- _ =>
        replace n with m by congruence; exact Hc
    end.
Qed.

(** ** Range of decoded cells *)

Lemma lor_bound (n a b : Z) :
  0 < n -> 0 <= a < 2 ^ n -> 0 <= b < 2 ^ n -> 0 <= Z.lor a b < 2 ^ n.
Proof.
  intros Hn Ha Hb.
  assert (H0 : 0 <= Z.lor a b) by (apply Z.lor_nonneg; lia).
  split; [exact H0|].
  destruct (Z.eq_dec (Z.lor a b) 0) as [E|E]; [rewrite E; lia|].
  apply Z.log2_lt_pow2; [lia|].
  rewrite Z.log2_lor by lia.
  apply Z.max_lub_lt.
  - destruct (Z.eq_dec a 0) as [->|]; [simpl; lia|]. apply Z.log2_lt_pow2; lia.
  - destruct (Z.eq_dec b 0) as [->|]; [simpl; lia|]. apply Z.log2_lt_pow2; lia.
Qed.

Lemma land_mask_bound (k x m : Z) :
  0 < k -> 0 <= m < 2 ^ k -> 0 <= Z.land x m < 2 ^ k.
Proof.
  intros Hk Hm.
  assert (Hnn : 0 <= Z.land x m) by (apply Z.land_nonneg; lia).
  split; [exact Hnn|].
  assert (Hmk : Z.land (Z.ones k) m = m).
  { rewrite Z.land_comm. destruct (Z.eq_dec m 0) as [->|]; [apply Z.land_0_l|].
    apply Z.land_ones_low; [lia|]. apply Z.log2_lt_pow2; lia. }
  assert (E : Z.land x m = Z.land (x mod 2 ^ k) m).
  { rewrite <- Z.land_ones by lia. rewrite <- Z.land_assoc. by rewrite Hmk. }
  rewrite E in *.
  assert (Hx : 0 <= x mod 2 ^ k) by (apply Z.mod_pos_bound; lia).
  destruct (Z.eq_dec (Z.land (x mod 2 ^ k) m) 0) as [->|Hne]; [lia|].
  apply Z.log2_lt_pow2; [lia|].
  eapply Z.le_lt_trans; [apply Z.log2_land; lia|].
  apply Z.min_lt_iff. right.
  destruct (Z.eq_dec m 0) as [->|]; [rewrite Z.land_0_r in Hne; done|].
  apply Z.log2_lt_pow2; lia.
Qed.

Lemma shiftr_bound (k a s : Z) : 0 <= s -> 0 <= a < 2 ^ k -> 0 <= Z.shiftr a s < 2 ^ k.
Proof.
  intros Hs Ha. rewrite Z.shiftr_div_pow2 by lia.
  assert (0 < 2 ^ s) by (apply Z.pow_pos_nonneg; lia).
  split; [apply Z.div_pos; lia|].
  eapply Z.le_lt_trans; [|exact (proj2 Ha)].
  apply Z.div_le_upper_bound; [lia|]. nia.
Qed.

(** Whatever the host word, [be32] yields an unsigned 32-bit value. *)
Lemma be32_range (x : Z) : 0 <= be32 x < 4294967296.
Proof.
  unfold be32. change 4294967296 with (2 ^ 32).
  repeat apply lor_bound; try lia.
  - apply u32_range.
  - apply u32_range.
  - apply shiftr_bound; [lia|]. apply (land_mask_bound 32); lia.
  - apply shiftr_bound; [lia|]. apply (land_mask_bound 32); lia.
Qed.

(** ** Decoding one cell *)

Lemma read_local_cell_decode (st : dtb_state) (prop : propptr) (v : Z) :
  read_local_cell st prop = Ret v <->
  exists p, read_prop st prop = Ret p /\ decode_cell (first_cell p) = Ret v.
Proof.
  unfold read_local_cell, dtb_read_prop_cell_array.
  change (1 =? 0) with false. cbv iota.
  destruct (read_prop st prop) as [p| |]; cbn [rbind].
  2,3: split; [discriminate|intros (p & [=] & _)].
  transitivity (decode_cell (first_cell p) = Ret v);
    [|split; [eauto|by intros (p' & [= <-] & H)]].
  unfold decode_cell.
  destruct (load32 (ptr_add (first_cell p) (-8))) as [len| |]; cbn [rbind];
    [|done..].
  change (u32 (1 * FDT_CELL_SIZE)) with 4. change (4 =? 0) with false. cbv iota.
  destruct (Z.to_nat (be32 len / 4)) as [|[|n]] eqn:Hn.
  - cbn [read_prop_cell_array_loop rbind].
    assert (Hle : be32 len / 4 <= 0) by lia.
    assert (Hge : 0 <= be32 len / 4)
      by (apply Z.div_pos; [apply be32_range|lia]).
    destruct (be32 len / 4 =? 1) eqn:H1; [apply Z.eqb_eq in H1; lia|].
    destruct (be32 len / 4 =? 0) eqn:H0; [done|].
    apply Z.eqb_neq in H0. lia.
  - assert (H1 : be32 len / 4 = 1) by lia. rewrite H1.
    change (1 =? 1) with true. change (1 =? 0) with false. cbv iota.
    cbn [read_prop_cell_array_loop]. change (Z.to_nat 1) with 1%nat.
    cbn [extract_cells].
    change (u32 (0 * 1)) with 0. change (4 * 0) with 0. rewrite !ptr_add_0.
    destruct (load32 (first_cell p)) as [c| |]; cbn [rbind]; [|done..].
    simpl. done.
  - assert (H2 : 2 <= be32 len / 4) by lia.
    destruct (be32 len / 4 =? 1) eqn:H1; [apply Z.eqb_eq in H1; lia|].
    destruct (be32 len / 4 =? 0) eqn:H0; [apply Z.eqb_eq in H0; lia|].
    split; [|done].
    cbn [read_prop_cell_array_loop]. change (Z.to_nat 1) with 1%nat.
    cbn [extract_cells].
    change (u32 (0 * 1)) with 0. change (4 * 0) with 0. rewrite !ptr_add_0.
    destruct (load32 (first_cell p)) as [c| |]; cbn [rbind]; try discriminate.
    simpl.
    match goal with
    | |- context [load32 ?q] => destruct (load32 q); simpl; discriminate
    end.
Qed.

(** ** The phandle table during the parse *)

Lemma decode_cell_nonneg (first : cptr) (h : Z) : decode_cell first = Ret h -> 0 <= h.
Proof.
  unfold decode_cell. destruct (load32 (ptr_add first (-8))); cbn [rbind]; try done.
  destruct (be32 a / 4 =? 1).
  - destruct (load32 first); cbn [rbind]; try done. intros [= <-]. apply be32_range.
  - destruct (be32 a / 4 =? 0); done.
Qed.

Lemma hinv_nodes_step (b : nat) (st st' : dtb_state) dn fn :
  hinv b st ->
  table_step b st st' dn 0 fn id id ->
  0 <= dn ->
  same_props (nodes_of st b) (nodes_of st' b)
             (node_alloc_head st) (node_alloc_head st') ->
  hinv b st'.
Proof.
  intros [Hc Ht Hp Hsz] Hs Hdn [Hfw Hbw].
  pose proof (ts_props _ _ _ _ _ _ _ _ Hs) as Eps.
  pose proof (ts_handles _ _ _ _ _ _ _ _ Hs) as Ehs.
  pose proof (ts_prop_head _ _ _ _ _ _ _ _ Hs) as Eph.
  pose proof (ts_node_head _ _ _ _ _ _ _ _ Hs) as Eh.
  unfold id in Eps, Ehs. rewrite Z.add_0_r in Eph.
  constructor; rewrite ?Eps, ?Ehs, ?Eph.
  - intros k nd' Hk Hnd'. destruct (Hbw k nd' Hk Hnd') as [(Hk0 & nd & Hnd & E)|E].
    + rewrite E. by eapply Hc.
    + rewrite E. eexists. constructor.
  - intros h n Hh. destruct (Ht h n Hh) as (k & nd & ps & j & p & -> & Hk & Hnd & Hch & Hj & Hpj & Hph).
    destruct (Hfw k nd Hk Hnd) as (nd' & Hnd' & E).
    exists k, nd', ps, j, p. rewrite E.
    split; [done|]. split; [lia|]. done.
  - intros k nd' ps j p Hk Hnd' Hch Hj Hpj Hcl.
    destruct (Hbw k nd' Hk Hnd') as [(Hk0 & nd & Hnd & E)|E].
    + rewrite E in Hch. by eapply Hp.
    + rewrite E in Hch. inversion Hch; subst. by apply elem_of_nil in Hj.
  - by rewrite (sc_node_alloc_max _ _ (ts_config _ _ _ _ _ _ _ _ Hs)).
Qed.

Lemma same_props_alter (ns : list dtb_node) (head : Z) (fn : list dtb_node -> list dtb_node) :
  (forall l k nd, l !! k = Some nd ->
                  exists nd', fn l !! k = Some nd' /\ props nd' = props nd) ->
  (forall l k nd', fn l !! k = Some nd' ->
                   exists nd, l !! k = Some nd /\ props nd' = props nd) ->
  same_props ns (fn ns) head head.
Proof.
  intros Hfw Hbw. split.
  - intros k nd _ Hnd. by apply Hfw.
  - intros k nd' Hk Hnd'. left. split; [done|]. by apply Hbw.
Qed.

Lemma alter_props_fw (f : dtb_node -> dtb_node) (i : nat) :
  props_safe f ->
  forall (l : list dtb_node) k nd, l !! k = Some nd ->
    exists nd', alter f i l !! k = Some nd' /\ props nd' = props nd.
Proof.
  intros Hf l k nd Hnd. destruct (decide (k = i)) as [->|Hne].
  - exists (f nd). rewrite list_lookup_alter_eq, Hnd. split; [done|apply Hf].
  - exists nd. by rewrite list_lookup_alter_ne.
Qed.

Lemma alter_props_bw (f : dtb_node -> dtb_node) (i : nat) :
  props_safe f ->
  forall (l : list dtb_node) k nd', alter f i l !! k = Some nd' ->
    exists nd, l !! k = Some nd /\ props nd' = props nd.
Proof.
  intros Hf l k nd' Hnd'. destruct (decide (k = i)) as [->|Hne].
  - rewrite list_lookup_alter_eq in Hnd'.
    destruct (l !! i) as [nd|]; [|discriminate]. injection Hnd' as <-.
    exists nd. split; [done|apply Hf].
  - rewrite list_lookup_alter_ne in Hnd' by done. by exists nd'.
Qed.

Lemma hinv_enter (b : nat) (st st' : dtb_state) (n0 : dtb_node) :
  hinv b st -> wf b st ->
  table_step b st st' 1 0 (<[Z.to_nat (node_alloc_head st) := n0]>) id id ->
  props n0 = None ->
  hinv b st'.
Proof.
  intros Hi Hwf Hs Hn0. eapply hinv_nodes_step; eauto; [lia|].
  pose proof (wf_node_head _ _ Hwf) as Hh.
  rewrite (ts_nodes _ _ _ _ _ _ _ _ Hs), (ts_node_head _ _ _ _ _ _ _ _ Hs).
  split.
  - intros k nd Hk Hnd. exists nd. split; [|done].
    rewrite list_lookup_insert_ne by lia. done.
  - intros k nd' Hk Hnd'.
    destruct (decide (k = Z.to_nat (node_alloc_head st))) as [->|Hne].
    + right. apply list_lookup_insert_Some in Hnd' as [(_ & <- & _)|(? & _)]; done.
    + left. rewrite list_lookup_insert_ne in Hnd' by done.
      split; [lia|]. by exists nd'.
Qed.

Lemma hinv_link_child (b k c : nat) (st st' : dtb_state) (n : dtb_node) :
  hinv b st ->
  table_step b st st' 0 0
    (alter (set_parent (Some (b, k))) c ∘ alter (set_child (Some (b, c))) k
     ∘ alter (set_sibling (child n)) c) id id ->
  hinv b st'.
Proof.
  intros Hi Hs. eapply hinv_nodes_step; eauto; [lia|].
  rewrite (ts_nodes _ _ _ _ _ _ _ _ Hs), (ts_node_head _ _ _ _ _ _ _ _ Hs), Z.add_0_r.
  apply same_props_alter.
  - intros l k0 nd Hnd. unfold compose.
    destruct (alter_props_fw (set_sibling (child n)) c ltac:(done) l k0 nd Hnd)
      as (n1 & H1 & E1).
    destruct (alter_props_fw (set_child (Some (b, c))) k ltac:(done) _ k0 n1 H1)
      as (n2 & H2 & E2).
    destruct (alter_props_fw (set_parent (Some (b, k))) c ltac:(done) _ k0 n2 H2)
      as (n3 & H3 & E3).
    exists n3. split; [done|congruence].
  - intros l k0 nd' Hnd'. unfold compose in Hnd'.
    destruct (alter_props_bw (set_parent (Some (b, k))) c ltac:(done) _ k0 nd' Hnd')
      as (n2 & H2 & E2).
    destruct (alter_props_bw (set_child (Some (b, c))) k ltac:(done) _ k0 n2 H2)
      as (n1 & H1 & E1).
    destruct (alter_props_bw (set_sibling (child n)) c ltac:(done) _ k0 n1 H1)
      as (n0 & H0 & E0).
    exists n0. split; [done|congruence].
Qed.

Lemma hinv_idle (b : nat) (st st' : dtb_state) :
  hinv b st -> table_step b st st' 0 0 id id id -> hinv b st'.
Proof.
  intros Hi Hs. eapply hinv_nodes_step; eauto; [lia|].
  rewrite (ts_nodes _ _ _ _ _ _ _ _ Hs), (ts_node_head _ _ _ _ _ _ _ _ Hs), Z.add_0_r.
  apply same_props_alter; intros l k nd H; by exists nd.
Qed.

Lemma special_update_facts (kind : special) (b k j : nat) (st : dtb_state) fn fh :
  special_update kind b k j st fn fh ->
  (forall (l : list dtb_node) i nd, l !! i = Some nd ->
     exists nd', fn l !! i = Some nd' /\ props nd' = props nd) /\
  (forall (l : list dtb_node) i nd', fn l !! i = Some nd' ->
     exists nd, l !! i = Some nd /\ props nd' = props nd) /\
  (forall (l : list (option nodeptr)) i x, l !! i = Some (Some x) ->
     exists x', fh l !! i = Some (Some x')) /\
  (kind <> SpHandle -> fh = id).
Proof.
  intros H.
  assert (Hid : (forall (l : list dtb_node) i nd, l !! i = Some nd ->
                   exists nd', id l !! i = Some nd' /\ props nd' = props nd) /\
                (forall (l : list dtb_node) i nd', id l !! i = Some nd' ->
                   exists nd, l !! i = Some nd /\ props nd' = props nd)).
  { split; intros l i nd Hnd; by exists nd. }
  assert (Hhid : forall (l : list (option nodeptr)) i x, l !! i = Some (Some x) ->
                   exists x', id l !! i = Some (Some x')).
  { intros l i x Hx. by exists x. }
  destruct kind; simpl in H.
  - destruct H as [-> ->]. destruct Hid. done.
  - destruct H as (h & _ & _ & -> & ->). destruct Hid.
    split; [done|]. split; [done|]. split; [|done].
    intros l i x Hx. destruct (decide (i = Z.to_nat h)) as [->|Hne].
    + eexists. apply list_lookup_insert_eq. by eapply lookup_lt_Some.
    + exists x. by rewrite list_lookup_insert_ne.
  - destruct H as (v & _ & -> & ->).
    split; [by apply alter_props_fw|]. split; [by apply alter_props_bw|]. done.
  - destruct H as (v & _ & -> & ->).
    split; [by apply alter_props_fw|]. split; [by apply alter_props_bw|]. done.
Qed.

(** A PROP token as a whole: the property is allocated and filled, hung on
    its node, and acted on if it is special. *)
Lemma hinv_prop_unit (b k : nat) (st st1 st12 st2 : dtb_state) (n1 : dtb_node)
    (p0 p : dtb_prop) (kind : special) fn fh :
  let j := Z.to_nat (prop_alloc_head st) in
  hinv b st -> wf b st ->
  Z.of_nat k < node_alloc_head st ->
  (j < length (props_of st b))%nat ->
  table_step b st st1 0 1 id (<[j := p0]>) id ->
  nodes_of st1 b !! k = Some n1 ->
  table_step b st1 st12 0 0
    (alter (set_props (Some (b, j))) k) (alter (set_next (props n1)) j) id ->
  read_prop st12 (b, j) = Ret p ->
  classify_name (prop_name p) = Ret kind ->
  special_update kind b k j st12 fn fh ->
  table_step b st12 st2 0 0 fn id fh ->
  hinv b st2.
Proof.
  intros j Hi Hwf Hk Hj Hs1 Hn1 Hs2 Hp Hcl Hupd Hs3.
  destruct (special_update_facts _ _ _ _ _ _ _ Hupd) as (Ffw & Fbw & Fh & Fid).
  pose proof (wf_prop_head _ _ Hwf) as Hph.
  apply read_prop_props_of in Hp.
  (* the tables of the final state *)
  assert (Eh : node_alloc_head st2 = node_alloc_head st).
  { rewrite (ts_node_head _ _ _ _ _ _ _ _ Hs3), (ts_node_head _ _ _ _ _ _ _ _ Hs2),
      (ts_node_head _ _ _ _ _ _ _ _ Hs1). lia. }
  assert (Eph : Z.to_nat (prop_alloc_head st2) = S j).
  { rewrite (ts_prop_head _ _ _ _ _ _ _ _ Hs3), (ts_prop_head _ _ _ _ _ _ _ _ Hs2),
      (ts_prop_head _ _ _ _ _ _ _ _ Hs1). unfold j. lia. }
  assert (En1 : nodes_of st1 b = nodes_of st b)
    by (by rewrite (ts_nodes _ _ _ _ _ _ _ _ Hs1)).
  assert (Ens : nodes_of st2 b = fn (alter (set_props (Some (b, j))) k (nodes_of st b))).
  { by rewrite (ts_nodes _ _ _ _ _ _ _ _ Hs3), (ts_nodes _ _ _ _ _ _ _ _ Hs2), En1. }
  assert (Eps12 : props_of st12 b
                  = alter (set_next (props n1)) j (<[j := p0]> (props_of st b))).
  { by rewrite (ts_props _ _ _ _ _ _ _ _ Hs2), (ts_props _ _ _ _ _ _ _ _ Hs1). }
  assert (Eps : props_of st2 b = props_of st12 b)
    by (by rewrite (ts_props _ _ _ _ _ _ _ _ Hs3)).
  assert (Ehs12 : handles_of st12 b = handles_of st b).
  { by rewrite (ts_handles _ _ _ _ _ _ _ _ Hs2), (ts_handles _ _ _ _ _ _ _ _ Hs1). }
  assert (Ehs : handles_of st2 b = fh (handles_of st b)).
  { by rewrite (ts_handles _ _ _ _ _ _ _ _ Hs3), Ehs12. }
  rewrite En1 in Hn1.
  assert (Hnext : next p = props n1).
  { rewrite Eps12, list_lookup_alter_eq, list_lookup_insert_eq in Hp by done.
    by injection Hp as <-. }
  assert (Hold : forall i, (i < j)%nat -> props_of st2 b !! i = props_of st b !! i).
  { intros i Hlt. rewrite Eps, Eps12.
    rewrite list_lookup_alter_ne, list_lookup_insert_ne by lia. done. }
  rewrite <- Eps in Hp.
  assert (Hmove : forall c l, prop_chain b (props_of st b) j c l ->
                              prop_chain b (props_of st2 b) (S j) c l).
  { intros c l Hc. eapply prop_chain_weaken; [|apply Nat.le_succ_diag_r].
    eapply prop_chain_frame; [exact Hc|exact Hold]. }
  destruct (hi_chains _ _ Hi k n1 Hk Hn1) as (ps & Hps).
  assert (Hnew : prop_chain b (props_of st2 b) (S j) (Some (b, j)) (j :: ps)).
  { econstructor; [lia|exact Hp|]. rewrite Hnext.
    eapply prop_chain_frame; [exact Hps|exact Hold]. }
  (* the node table: entry k now heads the new chain, the others kept theirs *)
  assert (Hk2 : forall nd', nodes_of st2 b !! k = Some nd' -> props nd' = Some (b, j)).
  { intros nd' Hnd'. rewrite Ens in Hnd'.
    destruct (Fbw _ _ _ Hnd') as (nd & Hnd & ->).
    rewrite list_lookup_alter_eq, Hn1 in Hnd. by injection Hnd as <-. }
  assert (Hk2' : exists nd', nodes_of st2 b !! k = Some nd').
  { rewrite Ens.
    destruct (Ffw (alter (set_props (Some (b, j))) k (nodes_of st b)) k
                  (set_props (Some (b, j)) n1)) as (nd' & Hnd' & _).
    - by rewrite list_lookup_alter_eq, Hn1.
    - by exists nd'. }
  assert (Hfw : forall k' nd, k' <> k -> nodes_of st b !! k' = Some nd ->
                  exists nd', nodes_of st2 b !! k' = Some nd' /\ props nd' = props nd).
  { intros k' nd Hne Hnd. rewrite Ens. apply Ffw. by rewrite list_lookup_alter_ne. }
  assert (Hbw : forall k' nd', k' <> k -> nodes_of st2 b !! k' = Some nd' ->
                  exists nd, nodes_of st b !! k' = Some nd /\ props nd' = props nd).
  { intros k' nd' Hne Hnd'. rewrite Ens in Hnd'.
    destruct (Fbw _ _ _ Hnd') as (nd & Hnd & E).
    rewrite list_lookup_alter_ne in Hnd by done. by exists nd. }
  (* an old registration is still one *)
  assert (Hkeep : forall h nn, handles_of st b !! h = Some (Some nn) ->
            exists k' nd ps' j' p',
              nn = (b, k') /\ Z.of_nat k' < node_alloc_head st /\
              nodes_of st2 b !! k' = Some nd /\
              prop_chain b (props_of st2 b) (S j) (props nd) ps' /\
              j' ∈ ps' /\ props_of st2 b !! j' = Some p' /\
              prop_handle p' (Z.of_nat h)).
  { intros h nn Hh.
    destruct (hi_table _ _ Hi h nn Hh)
      as (k' & nd & ps' & j' & p' & -> & Hk' & Hnd & Hch & Hj' & Hpj' & Hph').
    pose proof (proj1 (prop_chain_bound _ _ _ _ _ Hch)) as Hb.
    rewrite Forall_forall in Hb. pose proof (Hb j' Hj') as Hlt. fold j in Hlt.
    destruct (decide (k' = k)) as [->|Hne].
    - destruct Hk2' as (nd' & Hnd'). pose proof (Hk2 nd' Hnd') as E.
      assert (nd = n1) by congruence. subst nd.
      exists k, nd', (j :: ps'), j', p'. rewrite E, Hold by done.
      split; [done|]. split; [done|]. split; [done|].
      split; [|split; [by apply list_elem_of_further|done]].
      econstructor; [lia|exact Hp|]. rewrite Hnext.
      eapply prop_chain_frame; [exact Hch|exact Hold].
    - destruct (Hfw k' nd Hne Hnd) as (nd' & Hnd' & E).
      exists k', nd', ps', j', p'. rewrite E, Hold by done.
      split; [done|]. split; [done|]. split; [done|].
      split; [by apply Hmove|done]. }
  constructor; rewrite ?Eh, ?Eph.
  - intros k' nd' Hk' Hnd'. destruct (decide (k' = k)) as [->|Hne].
    + rewrite (Hk2 nd' Hnd'). by exists (j :: ps).
    + destruct (Hbw k' nd' Hne Hnd') as (nd & Hnd & ->).
      destruct (hi_chains _ _ Hi k' nd Hk' Hnd) as (ps' & Hps').
      exists ps'. by apply Hmove.
  - intros h nn Hh. rewrite Ehs in Hh.
    destruct (decide (kind = SpHandle)) as [->|Hkind].
    2:{ rewrite (Fid Hkind) in Hh. by apply Hkeep. }
    simpl in Hupd. destruct Hupd as (handle & Hread & Hlen & -> & ->).
    destruct (decide (h = Z.to_nat handle)) as [->|Hne].
    2:{ rewrite list_lookup_insert_ne in Hh by done. by apply Hkeep. }
    rewrite Ehs12 in Hlen. rewrite list_lookup_insert_eq in Hh by done.
    injection Hh as <-.
    destruct Hk2' as (nd' & Hnd'). pose proof (Hk2 nd' Hnd') as E.
    exists k, nd', (j :: ps), j, p. rewrite E.
    split; [done|]. split; [done|]. split; [done|]. split; [done|].
    split; [apply list_elem_of_here|]. split; [done|].
    split; [done|].
    apply read_local_cell_decode in Hread as (p' & Hp' & Hdec).
    apply read_prop_props_of in Hp'. rewrite <- Eps in Hp'.
    assert (p' = p) by congruence. subst p'.
    rewrite Z2Nat.id; [done|]. by eapply decode_cell_nonneg.
  - intros k' nd' ps' j' p' Hk' Hnd' Hch Hj' Hpj' Hcl'.
    assert (Hreg : forall k0 nd0 ps0, Z.of_nat k0 < node_alloc_head st ->
              nodes_of st b !! k0 = Some nd0 ->
              prop_chain b (props_of st b) j (props nd0) ps0 -> j' ∈ ps0 ->
              exists h nn, decode_cell (first_cell p') = Ret h /\
                           handles_of st2 b !! Z.to_nat h = Some (Some nn)).
    { intros k0 nd0 ps0 Hk0 Hnd0 Hch0 Hin.
      pose proof (proj1 (prop_chain_bound _ _ _ _ _ Hch0)) as Hb.
      rewrite Forall_forall in Hb. pose proof (Hb j' Hin) as Hlt.
      rewrite Hold in Hpj' by done.
      destruct (hi_props _ _ Hi k0 nd0 ps0 j' p' Hk0 Hnd0 Hch0 Hin Hpj' Hcl')
        as (h & nn & Hdec & Hh).
      rewrite Ehs. destruct (Fh _ _ _ Hh) as (x' & Hx'). by exists h, x'. }
    destruct (decide (k' = k)) as [->|Hne].
    + rewrite (Hk2 nd' Hnd') in Hch.
      pose proof (prop_chain_det _ _ _ _ _ _ _ Hch Hnew) as ->.
      apply elem_of_cons in Hj' as [->|Hin]; [|by eapply (Hreg k n1 ps)].
      assert (p' = p) by congruence. subst p'.
      assert (kind = SpHandle) by congruence. subst kind.
      simpl in Hupd. destruct Hupd as (handle & Hread & Hlen & -> & ->).
      apply read_local_cell_decode in Hread as (p' & Hp' & Hdec).
      apply read_prop_props_of in Hp'. rewrite <- Eps in Hp'.
      assert (p' = p) by congruence. subst p'.
      exists handle, (b, k). split; [done|].
      rewrite Ehs. apply list_lookup_insert_eq. by rewrite <- Ehs12.
    + destruct (Hbw k' nd' Hne Hnd') as (nd & Hnd & E). rewrite E in Hch.
      destruct (hi_chains _ _ Hi k' nd Hk' Hnd) as (ps0 & Hps0).
      pose proof (prop_chain_det _ _ _ _ _ _ _ Hch (Hmove _ _ Hps0)) as ->.
      by eapply (Hreg k' nd ps0).
  - rewrite (sc_handles_len _ _ (ts_config _ _ _ _ _ _ _ _ Hs3)),
      (sc_node_alloc_max _ _ (ts_config _ _ _ _ _ _ _ _ Hs3)),
      (sc_handles_len _ _ (ts_config _ _ _ _ _ _ _ _ Hs2)),
      (sc_node_alloc_max _ _ (ts_config _ _ _ _ _ _ _ _ Hs2)),
      (sc_handles_len _ _ (ts_config _ _ _ _ _ _ _ _ Hs1)),
      (sc_node_alloc_max _ _ (ts_config _ _ _ _ _ _ _ _ Hs1)).
    apply (hi_size _ _ Hi).
Qed.

(** Every call of [parse_node] and every run of its loop keeps the phandle
    table consistent with the property lists. *)
Lemma parse_hinv (b : nat) :
  forall fuel,
    (forall offset ac sc st r offset' st',
        wf b st -> hinv b st ->
        parse_node fuel offset ac sc st = Ret ((r, offset'), st') ->
        hinv b st') /\
    (forall k offset st r offset' st',
        wf b st -> Z.of_nat k < node_alloc_head st -> hinv b st ->
        parse_node_loop fuel (b, k) offset st = Ret ((r, offset'), st') ->
        hinv b st').
Proof.
  induction fuel as [|fuel [IHcall IHloop]]; [split; intros; discriminate|].
  destruct (parse_frames b fuel) as [Fcall Floop].
  split.
  - intros offset ac sc st r offset' st' Hwf Hi H.
    destruct (parse_node_Ret b _ _ _ _ _ _ _ _ Hwf H)
      as (t & Htok & [(Ht & -> & -> & ->)
                     |(Ht & st1 & o1 & Hname & Hk & Hs & Hwf1 & Hloop)]);
      [done|].
    cbv zeta in *.
    pose proof (wf_node_head _ _ Hwf) as Hh.
    pose proof (ts_node_head _ _ _ _ _ _ _ _ Hs) as Hh1.
    eapply IHloop; [exact Hwf1| |by eapply hinv_enter|exact Hloop]. lia.
  - intros k offset st r offset' st' Hwf Hk Hi H.
    destruct (parse_node_loop_Ret _ _ _ _ _ _ _ H)
      as [(Hge & -> & -> & u & Herr)
         |(Hlt & t & Htok &
           [(Ht & -> & -> & ->)
           |[(Ht & n & c & o1 & st1 & st2 & Hn & Hcall & Hlink & Hrest)
            |[(Ht & pp & o1 & st1 & st2 & Hprop & Hlink & Hrest)
             |(Ht1 & Ht2 & Ht3 & Hrest)]]])].
    + apply (call_on_error_step b) in Herr. by eapply hinv_idle.
    + done.
    + destruct (Fcall _ _ _ _ _ _ _ Hwf Hcall) as [Hf1 Hr1]. cbv zeta in *.
      pose proof (IHcall _ _ _ _ _ _ _ Hwf Hi Hcall) as Hi1.
      set (h := Z.to_nat (node_alloc_head st)) in *.
      pose proof (wf_node_head _ _ Hwf) as Hh.
      pose proof (fr_wf _ _ _ _ _ _ Hf1) as Hwf1.
      pose proof (fr_node_head _ _ _ _ _ _ Hf1) as Hh1.
      destruct c as [cp|].
      * destruct (Hr1 cp eq_refl) as (-> & Hlt1 & _).
        destruct (link_child_step b k h st1 st2 Hwf1 Hlink ltac:(lia)
                    ltac:(unfold h; lia)) as (n1 & Hn1 & Hlen & Hs & Hwf2).
        pose proof (ts_node_head _ _ _ _ _ _ _ _ Hs) as Hh2.
        eapply IHloop; [exact Hwf2| |by eapply hinv_link_child|exact Hrest]. lia.
      * subst st2. eapply IHloop; [exact Hwf1| |exact Hi1|exact Hrest]. lia.
    + rewrite Ht in Htok.
      destruct (parse_prop_Ret b _ _ _ _ _ Hwf Htok Hprop)
        as (name & len & Hname & Hlen & Hafter & -> & Hj & Hs1 & Hwf1).
      cbv zeta in *. set (j := Z.to_nat (prop_alloc_head st)) in *.
      pose proof (wf_prop_head _ _ Hwf) as Hph.
      pose proof (ts_node_head _ _ _ _ _ _ _ _ Hs1) as Hh1.
      pose proof (ts_prop_head _ _ _ _ _ _ _ _ Hs1) as Hp1.
      destruct Hlink as (st12 & u & Hlink & Hcheck).
      destruct (link_prop_step b k j st1 st12 Hwf1 Hlink ltac:(lia)
                  ltac:(unfold j; lia)) as (n1 & Hn1 & Hs2 & Hwf12).
      pose proof (ts_node_head _ _ _ _ _ _ _ _ Hs2) as Hh2.
      destruct (check_for_special_prop_Ret _ _ _ _ _ Hcheck)
        as (p & Hp & kind & Hcl & Heff).
      destruct (special_effect_step kind b k j st12 st2 Hwf12 Heff ltac:(lia))
        as (fn & fh & Hupd & Hs3 & Hwf2).
      pose proof (ts_node_head _ _ _ _ _ _ _ _ Hs3) as Hh3.
      eapply IHloop; [exact Hwf2| | |exact Hrest]; [lia|].
      eapply (hinv_prop_unit b k st st1 st12 st2); eauto.
    + by eapply IHloop.
Qed.

(** ** The state [dtb_init] starts the parse from *)

Lemma u32_le (x : Z) : 0 <= x -> u32 x <= x.
Proof. intros Hx. unfold u32. apply Z.mod_le; lia. Qed.

Lemma alloc_buffers_scan_Ret (remaining : nat) :
  forall i st st' u,
    alloc_buffers_scan remaining i st = Ret (u, st') ->
    0 <= node_alloc_max st -> 0 <= prop_alloc_max st ->
    recounted st st' /\
    0 <= node_alloc_max st' <= node_alloc_max st + Z.of_nat remaining /\
    0 <= prop_alloc_max st' <= prop_alloc_max st + Z.of_nat remaining.
Proof.
  induction remaining as [|remaining IH]; intros i st st' u H Hn Hp.
  - cbn [alloc_buffers_scan] in H. minv H. unfold recounted.
    split; [by destruct st|]. lia.
  - cbn [alloc_buffers_scan] in H. minv H.
    match goal with
    | Hs : (if ?c then _ else _) _ = Ret (_, ?s) |- _ =>
        assert (Hone : recounted st s /\
                        0 <= node_alloc_max s <= node_alloc_max st + 1 /\
                        0 <= prop_alloc_max s <= prop_alloc_max st + 1);
        [destruct c; [minv Hs|
           match type of Hs with
           | (if ?d then _ else _) _ = _ => destruct d; minv Hs
           end]|]
    end.
    + split; [by destruct st|]. simpl.
      pose proof (u32_range (node_alloc_max st + 1)).
      pose proof (u32_le (node_alloc_max st + 1)). lia.
    + split; [by destruct st|]. simpl.
      pose proof (u32_range (prop_alloc_max st + 1)).
      pose proof (u32_le (prop_alloc_max st + 1)). lia.
    + split; [by destruct st|]. lia.
    + destruct Hone as (Hr & Hn1 & Hp1).
      destruct (IH _ _ _ _ H ltac:(lia) ltac:(lia)) as (Hr' & Hn' & Hp').
      split; [|lia].
      unfold recounted in *.
      transitivity (set_prop_alloc_max (prop_alloc_max st')
                      (set_node_alloc_max (node_alloc_max st') st0)); [exact Hr'|].
      rewrite Hr. by destruct st.
Qed.

Lemma alloc_buffers_Ret (st st1 : dtb_state) (u : unit) :
  alloc_buffers st = Ret (u, st1) ->
  exists nm pm,
    0 <= nm <= Z.of_nat (Z.to_nat (cell_count st)) /\
    0 <= pm <= Z.of_nat (Z.to_nat (cell_count st)) /\
    st1 = State (cells st) (strings st) (cell_count st) (root st)
                (Some (length (heap st))) (Some (length (heap st))) 0 nm
                (Some (length (heap st))) 0 pm (ops st)
                (heap st ++ [fresh_block nm pm]) (err_log st).
Proof.
  unfold alloc_buffers. intros H. minv H.
  match goal with
  | Hs : alloc_buffers_scan _ _ _ = Ret _ |- _ =>
      apply alloc_buffers_scan_Ret in Hs as (Hr & Hn & Hp); [|simpl; lia|simpl; lia]
  end.
  simpl in Hn, Hp.
  match goal with
  | Hm : host_malloc _ _ _ _ = Ret _ |- _ => unfold host_malloc in Hm
  end.
  match goal with
  | Hm : (if ?c then _ else _) = Ret _ |- _ => destruct c; [discriminate|]
  end.
  match goal with
  | Hm : (if ?c then _ else _) = Ret _ |- _ =>
      destruct c; [discriminate|]; injection Hm as <- <-
  end.
  eexists _, _. split; [exact Hn|]. split; [exact Hp|].
  unfold recounted in Hr. rewrite Hr. by destruct st.
Qed.

Lemma fresh_block_wf (st : dtb_state) (nm pm : Z) :
  let b := length (heap st) in
  let st1 := State (cells st) (strings st) (cell_count st) (root st)
                   (Some b) (Some b) 0 nm (Some b) 0 pm (ops st)
                   (heap st ++ [fresh_block nm pm]) (err_log st) in
  0 <= nm < 4294967295 -> 0 <= pm < 4294967295 ->
  wf b st1 /\ hinv b st1.
Proof.
  intros b st1 Hn Hp.
  assert (Hb : heap st1 !! b = Some (fresh_block nm pm)).
  { unfold st1, b. simpl. by rewrite list_lookup_middle. }
  assert (Hns : nodes_of st1 b = replicate (Z.to_nat nm) zero_node)
    by (unfold nodes_of; by rewrite Hb).
  assert (Hps : props_of st1 b = replicate (Z.to_nat pm) zero_prop)
    by (unfold props_of; by rewrite Hb).
  assert (Hhs : handles_of st1 b = replicate (Z.to_nat nm) None)
    by (unfold handles_of; by rewrite Hb).
  split.
  - constructor; try done; simpl; try lia.
    + by eexists.
    + intros i n Hi _. rewrite Hns in Hi. by apply lookup_replicate in Hi as [-> _].
    + intros i p Hi _. rewrite Hps in Hi. by apply lookup_replicate in Hi as [-> _].
  - constructor.
    + simpl. intros k nd Hk. lia.
    + intros h n Hh. rewrite Hhs in Hh. by apply lookup_replicate in Hh as [? _].
    + simpl. intros k nd ps j p Hk. lia.
    + rewrite Hhs. simpl. apply length_replicate.
Qed.

Lemma call_on_error_tables (why : string) (st st' : dtb_state) (u : unit) :
  call_on_error why st = Ret (u, st') ->
  heap st' = heap st /\ node_buff st' = node_buff st /\ root st' = root st /\
  cell_count st' = cell_count st /\
  node_alloc_head st' = node_alloc_head st /\ prop_alloc_head st' = prop_alloc_head st.
Proof. unfold call_on_error. destruct (on_error (ops st)); by intros [= ? <-]. Qed.

(** [dtb_init] on a parser that was never initialised either stops before
    allocating anything, or runs its scanning loop from freshly zeroed
    tables. *)
Lemma dtb_init_Ret (start : cptr) (o : dtb_ops) (st' : dtb_state) (u : unit) :
  dtb_init start o state0 = Ret (u, st') ->
  (heap st' = [] /\ node_buff st' = None /\ root st' = None /\ cell_count st' = 0 /\
   node_alloc_head st' = 0 /\ prop_alloc_head st' = 0) \/
  exists st1,
    wf 0 st1 /\ hinv 0 st1 /\ root st1 = None /\
    node_alloc_head st1 = 0 /\ prop_alloc_head st1 = 0 /\
    0 <= cell_count st1 < 1073741824 /\
    dtb_init_loop (init_fuel (cell_count st1)) 0 st1 = Ret (u, st').
Proof.
  unfold dtb_init. intros H. minv H.
  destruct (malloc o); cbn [negb] in H.
  2:{ left. by apply call_on_error_tables in H. }
  minv H.
  match type of H with
  | (if negb ?c then _ else _) _ = _ => destruct c; cbn [negb] in H
  end.
  2:{ left. by apply call_on_error_tables in H. }
  minv H. right.
  match goal with
  | Hs : (if _ is Some _ then _ else _) _ = Ret _ |- _ =>
      cbn in Hs; injection Hs as _ <-
  end.
  match goal with
  | Ha : alloc_buffers _ = Ret _ |- _ =>
      apply alloc_buffers_Ret in Ha as (nm & pm & Hn & Hp & ->)
  end.
  simpl in Hn, Hp.
  match goal with
  | Hl : load32 (ptr_add start 36) = Ret ?x |- _ => pose proof (be32_range x) as Hx
  end.
  match type of Hn with
  | _ <= _ <= Z.of_nat (Z.to_nat ?c) =>
      assert (Hc : 0 <= c < 1073741824)
        by (split; [apply Z.div_pos; lia|apply Z.div_lt_upper_bound; lia])
  end.
  match type of H with
  | dtb_init_loop _ _ ?s1 = _ =>
      match s1 with
      | context [heap ?s ++ _] =>
          destruct (fresh_block_wf s nm pm ltac:(lia) ltac:(lia)) as [Hwf Hi]
      end
  end.
  eexists. split; [exact Hwf|]. split; [exact Hi|].
  split; [reflexivity|]. split; [reflexivity|]. split; [reflexivity|].
  split; [exact Hc|exact H].
Qed.

Lemma wf_set_root (b : nat) (r : option nodeptr) (st : dtb_state) :
  wf b st -> wf b (set_root r st).
Proof. intros []. by constructor. Qed.

Lemma hinv_set_root (b : nat) (r : option nodeptr) (st : dtb_state) :
  hinv b st -> hinv b (set_root r st).
Proof. intros []. by constructor. Qed.

(** The store that puts a top-level node in front of the root list. *)
Lemma link_root_step (b k : nat) (st st' : dtb_state) :
  wf b st ->
  write_node (b, k) (set_sibling (root st)) st = Ret st' ->
  Z.of_nat k < node_alloc_head st ->
  table_step b st st' 0 0 (alter (set_sibling (root st)) k) id id /\ wf b st'.
Proof.
  intros Hwf Hw Hk. split; [|by eapply wf_write_node].
  by apply write_node_step in Hw as [Hs _].
Qed.

(** The scanning loop of [dtb_init] keeps the tables well formed and the
    phandle table consistent. *)
Lemma init_loop_hinv (b : nat) :
  forall fuel i st st' u,
    wf b st -> hinv b st ->
    dtb_init_loop fuel i st = Ret (u, st') ->
    wf b st' /\ hinv b st'.
Proof.
  induction fuel as [|fuel IH]; intros i st st' u Hwf Hi H; [discriminate|].
  destruct (dtb_init_loop_Ret _ _ _ _ _ H)
    as [(_ & ->)
       |(Hlt & t & Htok &
         [(Ht & Hrest)
         |(Ht & sub & i1 & st1 & st2 & Hcall & Hlink & Hrest)])].
  - done.
  - by eapply IH.
  - destruct (proj1 (parse_frames b fuel) _ _ _ _ _ _ _ Hwf Hcall) as [Hf1 Hr1].
    pose proof (proj1 (parse_hinv b fuel) _ _ _ _ _ _ _ Hwf Hi Hcall) as Hi1.
    cbv zeta in *.
    pose proof (fr_wf _ _ _ _ _ _ Hf1) as Hwf1.
    destruct sub as [sub_root|].
    + destruct (Hr1 sub_root eq_refl) as (-> & Hlt1 & _).
      destruct Hlink as (st12 & Hw & ->).
      pose proof (wf_node_head _ _ Hwf) as Hh.
      destruct (link_root_step b _ st1 st12 Hwf1 Hw ltac:(lia)) as [Hs Hwf12].
      eapply IH; [| |exact Hrest].
      * by apply wf_set_root.
      * apply hinv_set_root. eapply hinv_nodes_step; [exact Hi1|exact Hs|lia|].
        rewrite (ts_nodes _ _ _ _ _ _ _ _ Hs), (ts_node_head _ _ _ _ _ _ _ _ Hs),
          Z.add_0_r.
        apply same_props_alter; [by apply alter_props_fw|by apply alter_props_bw].
    + subst st2. by eapply IH.
Qed.

(** ** Chains and the query functions *)

Lemma props_of_slots (st : dtb_state) (b : nat) :
  (length (props_of st b) <= prop_slots st)%nat.
Proof.
  unfold props_of, prop_slots. generalize (heap st). intros h. revert b.
  induction h as [|blk h IH]; intros [|b]; simpl; try lia.
  specialize (IH b). destruct (h !! b); simpl in *; lia.
Qed.

Lemma nodes_of_slots (st : dtb_state) (b : nat) :
  (length (nodes_of st b) <= node_slots st)%nat.
Proof.
  unfold nodes_of, node_slots. generalize (heap st). intros h. revert b.
  induction h as [|blk h IH]; intros [|b]; simpl; try lia.
  specialize (IH b). destruct (h !! b); simpl in *; lia.
Qed.

(** A chain is no longer than the table it lives in. *)
Lemma prop_chain_length (b : nat) (ps : list dtb_prop) bound c l :
  prop_chain b ps bound c l -> (length l <= length ps)%nat.
Proof.
  intros H. destruct H as [|bound j p l Hj Hp Hc]; [simpl; lia|].
  apply prop_chain_bound in Hc as [_ Hlen].
  apply lookup_lt_Some in Hp. simpl. lia.
Qed.

Lemma node_chain_length (b : nat) (ns : list dtb_node) bound c l :
  node_chain b ns bound c l -> (length l <= length ns)%nat.
Proof.
  intros H. destruct H as [|bound j p l Hj Hp Hc]; [simpl; lia|].
  apply node_chain_bound in Hc as [_ Hlen].
  apply lookup_lt_Some in Hp. simpl. lia.
Qed.

(** [dtb_get_prop] indexes the chain. *)
Lemma get_prop_loop_chain (st : dtb_state) (b : nat) bound c l :
  prop_chain b (props_of st b) bound c l ->
  is_live st b ->
  Z.of_nat (length l) < 4294967296 ->
  forall fuel i,
    (length l <= fuel)%nat -> (i <= length l)%nat ->
    get_prop_loop fuel st c (Z.of_nat i) = Ret ((fun j => (b, j)) <$> l !! i).
Proof.
  intros Hc Hlive. induction Hc as [|bound j p l Hj Hp Hc IH]; intros Hlen fuel i Hf Hi.
  - simpl in Hi. replace i with O by lia. by destruct fuel.
  - destruct i as [|i]; [by destruct fuel|].
    destruct fuel as [|fuel]; [simpl in Hf; lia|]. cbn [get_prop_loop].
    replace (Z.of_nat (S i) =? 0) with false by (symmetry; apply Z.eqb_neq; lia).
    simpl in Hf, Hi, Hlen.
    rewrite (proj2 (read_prop_of st b j p) (conj Hlive Hp)). cbn [rbind].
    replace (u32 (Z.of_nat (S i) - 1)) with (Z.of_nat i)
      by (rewrite u32_small; lia).
    rewrite IH by lia. done.
Qed.

Lemma get_prop_loop_elem (st : dtb_state) (b : nat) bound c l :
  prop_chain b (props_of st b) bound c l ->
  forall fuel i pp,
    get_prop_loop fuel st c i = Ret (Some pp) ->
    exists j, pp = (b, j) /\ j ∈ l.
Proof.
  induction 1 as [|bound j p l Hj Hp Hc IH]; intros fuel i pp H; [by destruct fuel|].
  assert (Hcase : pp = (b, j) \/
                  exists fuel', fuel = S fuel' /\
                    rbind (read_prop st (b, j))
                      (fun p => get_prop_loop fuel' st (next p) (u32 (i - 1)))
                    = Ret (Some pp)).
  { destruct fuel as [|fuel]; cbn [get_prop_loop] in H; destruct (i =? 0);
      try discriminate; try (left; congruence).
    right. by exists fuel. }
  destruct Hcase as [->|(fuel' & -> & H')].
  - exists j. split; [done|apply list_elem_of_here].
  - clear H. rename H' into H.
    apply rbind_Ret in H as (p' & Hp' & H).
    apply read_prop_props_of in Hp'. assert (p' = p) by congruence. subst p'.
    destruct (IH _ _ _ H) as (j' & -> & Hin).
    exists j'. split; [done|by apply list_elem_of_further].
Qed.

Lemma props_from_chain (st : dtb_state) (b k : nat) (nd : dtb_node) bound l :
  read_node st (b, k) = Ret nd ->
  prop_chain b (props_of st b) bound (props nd) l ->
  is_live st b ->
  Z.of_nat (length l) < 4294967296 ->
  forall d i fuel,
    length l = (i + d)%nat -> (d < fuel)%nat ->
    props_from fuel st (b, k) (Z.of_nat i) = Ret ((fun j => (b, j)) <$> drop i l).
Proof.
  intros Hnd Hc Hlive Hlen.
  assert (Hget : forall i, (i <= length l)%nat ->
            dtb_get_prop st (Some (b, k)) (Z.of_nat i)
            = Ret ((fun j => (b, j)) <$> l !! i)).
  { intros i Hi. unfold dtb_get_prop. rewrite Hnd. cbn [rbind].
    eapply get_prop_loop_chain; eauto.
    pose proof (prop_chain_length _ _ _ _ _ Hc).
    pose proof (props_of_slots st b). lia. }
  induction d as [|d IH]; intros i fuel Hi Hf; (destruct fuel as [|fuel]; [lia|]);
    cbn [props_from]; rewrite Hget by lia.
  - rewrite lookup_ge_None_2 by lia. rewrite drop_ge by lia. done.
  - destruct (lookup_lt_is_Some_2 l i ltac:(lia)) as [j Hj]. rewrite Hj.
    cbn [fmap option_fmap option_map rbind].
    replace (Z.of_nat i + 1) with (Z.of_nat (S i)) by lia.
    rewrite (IH (S i) fuel) by lia. cbn [rbind].
    by rewrite (drop_S _ _ _ Hj).
Qed.

Lemma iter_props_chain (st : dtb_state) (b k : nat) (nd : dtb_node) bound l :
  read_node st (b, k) = Ret nd ->
  prop_chain b (props_of st b) bound (props nd) l ->
  is_live st b ->
  Z.of_nat (length l) < 4294967296 ->
  iter_props st (b, k) = Ret ((fun j => (b, j)) <$> l).
Proof.
  intros Hnd Hc Hlive Hlen. unfold iter_props.
  pose proof (prop_chain_length _ _ _ _ _ Hc).
  pose proof (props_of_slots st b).
  exact (props_from_chain st b k nd bound l Hnd Hc Hlive Hlen
           (length l) O (S (prop_slots st)) eq_refl ltac:(lia)).
Qed.

(** ** Lookup by phandle *)

Lemma is_handle_for_true (p : dtb_prop) (h : Z) :
  is_handle_for p h = Ret true <-> prop_handle p h.
Proof.
  unfold is_handle_for, prop_handle. split.
  - intros H. apply rbind_Ret in H as (kind & Hk & H).
    destruct kind; try discriminate.
    apply rbind_Ret in H as (d & Hd & H). injection H as H.
    apply Z.eqb_eq in H. by subst d.
  - intros [-> ->]. cbn [rbind]. by rewrite Z.eqb_refl.
Qed.

Lemma any_handle_spec (st : dtb_state) (b : nat) (h : Z) (l : list nat) :
  forall r,
    any_handle st ((fun j => (b, j)) <$> l) h = Ret r ->
    (r = true <-> exists j p, j ∈ l /\ props_of st b !! j = Some p /\ prop_handle p h).
Proof.
  induction l as [|j l IH]; intros r H.
  - injection H as <-. split; [done|]. intros (j & p & Hj & _). by apply elem_of_nil in Hj.
  - cbn [fmap list_fmap any_handle] in H.
    apply rbind_Ret in H as (p & Hp & H). apply rbind_Ret in H as (here & Hh & H).
    apply rbind_Ret in H as (others & Ho & H). injection H as <-.
    apply read_prop_props_of in Hp. specialize (IH _ Ho).
    rewrite orb_true_iff, IH. split.
    + intros [->|(j' & p' & Hj' & Hp' & Hh')].
      * exists j, p. split; [apply list_elem_of_here|]. split; [done|].
        by apply is_handle_for_true.
      * exists j', p'. split; [by apply list_elem_of_further|done].
    + intros (j' & p' & Hj' & Hp' & Hh'). apply elem_of_cons in Hj' as [->|Hin].
      * left. assert (p' = p) by congruence. subst p'.
        apply is_handle_for_true in Hh'. congruence.
      * right. by exists j', p'.
Qed.

Lemma registrants_from_spec (st : dtb_state) (b : nat) (h : Z) (remaining : nat) :
  forall k l,
    registrants_from remaining st b k h = Ret l ->
    (forall n, n ∈ l ->
       exists k', n = (b, k') /\ (k <= k' < k + remaining)%nat /\
                  registers st (b, k') h = Ret true) /\
    (forall k', (k <= k' < k + remaining)%nat ->
       exists r, registers st (b, k') h = Ret r /\ (r = true -> (b, k') ∈ l)).
Proof.
  induction remaining as [|remaining IH]; intros k l H.
  - injection H as <-. split; [intros n Hn; by apply elem_of_nil in Hn|]. lia.
  - cbn [registrants_from] in H.
    apply rbind_Ret in H as (here & Hh & H). apply rbind_Ret in H as (rest & Hr & H).
    injection H as <-. destruct (IH _ _ Hr) as [IH1 IH2]. split.
    + intros n Hn.
      assert (Hcase : here = true /\ n = (b, k) \/ n ∈ rest).
      { destruct here; [|by right].
        apply elem_of_cons in Hn as [->|Hin]; [by left|by right]. }
      destruct Hcase as [[-> ->]|Hin].
      * exists k. split; [done|]. split; [lia|done].
      * destruct (IH1 n Hin) as (k' & -> & Hk' & Hreg).
        exists k'. split; [done|]. split; [lia|done].
    + intros k' Hk'. destruct (decide (k' = k)) as [->|Hne].
      * exists here. split; [done|]. intros ->. apply list_elem_of_here.
      * destruct (IH2 k' ltac:(lia)) as (r & Hreg & Hin).
        exists r. split; [done|]. intros Hr'. specialize (Hin Hr').
        destruct here; [by apply list_elem_of_further|done].
Qed.

Lemma iter_props_read (st : dtb_state) (node : nodeptr) (l : list propptr) :
  iter_props st node = Ret l -> exists nd, read_node st node = Ret nd.
Proof.
  unfold iter_props. cbn [props_from]. intros H.
  apply rbind_Ret in H as (r & Hr & _). unfold dtb_get_prop in Hr.
  apply rbind_Ret in Hr as (nd & Hnd & _). by exists nd.
Qed.

Lemma wf_chain_short (b : nat) (st : dtb_state) c l :
  wf b st ->
  prop_chain b (props_of st b) (Z.to_nat (prop_alloc_head st)) c l ->
  Z.of_nat (length l) < 4294967296.
Proof.
  intros Hwf Hc. apply prop_chain_bound in Hc as [_ Hlen].
  pose proof (wf_prop_head _ _ Hwf). pose proof (wf_prop_max _ _ Hwf). lia.
Qed.

Lemma registers_spec (b k : nat) (st : dtb_state) (h : Z) (r : bool) :
  wf b st -> hinv b st ->
  Z.of_nat k < node_alloc_head st ->
  registers st (b, k) h = Ret r ->
  exists nd l,
    nodes_of st b !! k = Some nd /\
    prop_chain b (props_of st b) (Z.to_nat (prop_alloc_head st)) (props nd) l /\
    (r = true <->
     exists j p, j ∈ l /\ props_of st b !! j = Some p /\ prop_handle p h).
Proof.
  intros Hwf Hi Hk H. unfold registers in H.
  apply rbind_Ret in H as (ps & Hps & H).
  destruct (iter_props_read _ _ _ Hps) as (nd & Hnd).
  pose proof (read_node_nodes_of _ _ _ _ Hnd) as Hnd'.
  destruct (hi_chains _ _ Hi k nd Hk Hnd') as (l & Hl).
  rewrite (iter_props_chain st b k nd _ l Hnd Hl (wf_live _ _ Hwf)
             (wf_chain_short _ _ _ _ Hwf Hl)) in Hps.
  injection Hps as <-. exists nd, l. split; [done|]. split; [done|].
  by apply any_handle_spec.
Qed.

(** C3 (as amended).  After a [dtb_init] on a fresh parser that has run
    without a memory fault, so that no handle was stored outside the phandle
    table: if [N] is the only parsed node with a [phandle] or [linux,phandle]
    property of one cell that decodes to [h], and [h] is below
    [node_alloc_max], the number of entries of the phandle table, then
    [dtb_find_phandle h] returns [N].  For a handle at or above
    [node_alloc_max] the lookup gives null, whatever node declares it. *)
Theorem phandle_finds_its_only_node (start : cptr) (o : dtb_ops) (st : dtb_state)
    (N : nodeptr) (h : Z) :
  dtb_init start o state0 = Ret (tt, st) ->
  registrants st h = Ret [N] ->
  (h < node_alloc_max st -> dtb_find_phandle st h = Ret (Some N)) /\
  (node_alloc_max st <= h -> dtb_find_phandle st h = Ret None).
Proof.
  intros Hinit Hreg. split.
  2:{ intros Hge. unfold dtb_find_phandle.
      by replace (h <? node_alloc_max st) with false by (symmetry; apply Z.ltb_ge; lia). }
  intros Hbelow.
  destruct (dtb_init_Ret _ _ _ _ Hinit)
    as [(_ & Hnb & _)|(st1 & Hwf1 & Hi1 & _ & _ & _ & _ & Hloop)].
  { unfold registrants in Hreg. by rewrite Hnb in Hreg. }
  destruct (init_loop_hinv 0 _ _ _ _ _ Hwf1 Hi1 Hloop) as [Hwf Hi].
  unfold registrants in Hreg. rewrite (wf_node_buff _ _ Hwf) in Hreg.
  cbn [of_option rbind] in Hreg.
  destruct (registrants_from_spec _ _ _ _ _ _ Hreg) as [Hsound Hcomplete].
  destruct (Hsound N ltac:(apply list_elem_of_here)) as (k & -> & Hk & Hr).
  pose proof (wf_node_head _ _ Hwf) as Hh.
  destruct (registers_spec 0 k st h true Hwf Hi ltac:(lia) Hr)
    as (nd & l & Hnd & Hl & Htrue).
  destruct (proj1 Htrue eq_refl) as (j & p & Hj & Hp & Hcl & Hdec).
  destruct (hi_props _ _ Hi k nd l j p ltac:(lia) Hnd Hl Hj Hp Hcl)
    as (h' & n' & Hdec' & Hn').
  assert (h' = h) by congruence. subst h'.
  pose proof (decode_cell_nonneg _ _ Hdec) as Hpos.
  destruct (hi_table _ _ Hi _ _ Hn')
    as (k' & nd' & l' & j' & p' & -> & Hk' & Hnd' & Hl' & Hj' & Hp' & Hh').
  rewrite Z2Nat.id in Hh' by done.
  destruct (Hcomplete k' ltac:(lia)) as (r & Hr' & Hin).
  destruct (registers_spec 0 k' st h r Hwf Hi Hk' Hr')
    as (nd2 & l2 & Hnd2 & Hl2 & Htrue2).
  assert (nd2 = nd') by congruence. subst nd2.
  pose proof (prop_chain_det _ _ _ _ _ _ _ Hl2 Hl') as ->.
  assert (r = true) by (apply Htrue2; by exists j', p'). subst r.
  specialize (Hin eq_refl). apply list_elem_of_singleton in Hin.
  injection Hin as ->.
  unfold dtb_find_phandle.
  replace (h <? node_alloc_max st) with true by (symmetry; apply Z.ltb_lt; lia).
  apply (read_handle_of st 0 h _ (wf_handle_lookup _ _ Hwf)).
  split; [by apply wf_live|done].
Qed.

Lemma phandle_finds_its_only_node_witness :
  dtb_init (board 1 2) all_ops state0 = Ret (tt, board_state) /\
  registrants board_state 1 = Ret [(0, 2)%nat] /\
  1 < node_alloc_max board_state /\
  dtb_find_phandle board_state 1 = Ret (Some (0, 2)%nat).
Proof.
  split; [vm_compute; reflexivity|].
  split; [vm_compute; reflexivity|].
  split; [vm_compute; reflexivity|].
  apply (phandle_finds_its_only_node (board 1 2) all_ops board_state (0, 2)%nat 1).
  - vm_compute; reflexivity.
  - vm_compute; reflexivity.
  - vm_compute; reflexivity.
Defined.

(** ** The structure block, token by token *)

Lemma kids_cells_offsets (cs strs : cptr) (items : list item) :
  forall v kc, kids_cells cs strs v items = Ret kc -> kc.*1 = kid_offsets items.
Proof.
  induction items as [|[o|o] items IH]; intros v kc H.
  - by injection H as <-.
  - cbn [kids_cells] in H. apply rbind_Ret in H as (v' & _ & H). simpl. by eapply IH.
  - cbn [kids_cells] in H. apply rbind_Ret in H as (l & Hl & H). injection H as <-.
    simpl. f_equal. by eapply IH.
Qed.

Lemma fdt_node_S (fuel : nat) (cs : cptr) (count offset : Z) :
  fdt_node (S fuel) cs count offset
  = (t <~ token_at cs offset;
     if negb (t =? FDT_BEGIN_NODE) then Ret (None, offset)
     else body <~ after_name cs offset; fdt_body fuel cs count body).
Proof. reflexivity. Qed.

Lemma fdt_body_S (fuel : nat) (cs : cptr) (count offset : Z) :
  fdt_body (S fuel) cs count offset
  = (if offset <? count then
       t <~ token_at cs offset;
       if t =? FDT_END_NODE then Ret (Some [], u32 (offset + 1))
       else if t =? FDT_BEGIN_NODE then
         sub <~ fdt_node fuel cs count offset;
         rest <~ fdt_body fuel cs count sub.2;
         Ret (match sub.1, rest.1 with
              | Some _, Some r => Some (INode offset :: r)
              | None, Some r => Some r
              | _, None => None
              end, rest.2)
       else if t =? FDT_PROP then
         next_offset <~ after_prop cs offset;
         rest <~ fdt_body fuel cs count next_offset;
         Ret (match rest.1 with
              | Some r => Some (IProp offset :: r)
              | None => None
              end, rest.2)
       else fdt_body fuel cs count (u32 (offset + 1))
     else Ret (None, offset)).
Proof. reflexivity. Qed.

Lemma scan_toplevel_S (fuel : nat) (cs : cptr) (count i : Z) :
  scan_toplevel (S fuel) cs count i
  = (if i <? count then
       t <~ token_at cs i;
       if negb (t =? FDT_BEGIN_NODE) then scan_toplevel fuel cs count (u32 (i + 1))
       else
         sub <~ fdt_node fuel cs count i;
         rest <~ scan_toplevel fuel cs count (u32 (sub.2 + 1));
         Ret (match sub.1 with
              | Some _ => i :: rest
              | None => rest
              end)
     else Ret []).
Proof. reflexivity. Qed.

Lemma fdt_mono (cs : cptr) (count : Z) :
  forall fuel,
    (forall offset x, fdt_node fuel cs count offset = Ret x ->
                      fdt_node (S fuel) cs count offset = Ret x) /\
    (forall offset x, fdt_body fuel cs count offset = Ret x ->
                      fdt_body (S fuel) cs count offset = Ret x).
Proof.
  induction fuel as [|fuel [IHn IHb]]; [split; intros; discriminate|].
  split; intros offset x H.
  - rewrite fdt_node_S in H. rewrite fdt_node_S.
    destruct (token_at cs offset) as [t| |]; cbn [rbind] in *; try done.
    destruct (negb (t =? FDT_BEGIN_NODE)); [done|].
    destruct (after_name cs offset) as [o1| |]; cbn [rbind] in *; try done.
    by apply IHb.
  - rewrite fdt_body_S in H. rewrite fdt_body_S.
    destruct (offset <? count); [|done].
    destruct (token_at cs offset) as [t| |]; cbn [rbind] in *; try done.
    destruct (t =? FDT_END_NODE); [done|].
    destruct (t =? FDT_BEGIN_NODE).
    { apply rbind_Ret in H as (sub & Hsub & H). apply rbind_Ret in H as (rest & Hrest & H).
      rewrite (IHn _ _ Hsub). cbn [rbind]. rewrite (IHb _ _ Hrest). done. }
    destruct (t =? FDT_PROP).
    { apply rbind_Ret in H as (o1 & Ho1 & H). apply rbind_Ret in H as (rest & Hrest & H).
      rewrite Ho1. cbn [rbind]. rewrite (IHb _ _ Hrest). done. }
    by apply IHb.
Qed.

Lemma fdt_node_le (cs : cptr) (count : Z) (fuel fuel' : nat) (offset : Z) x :
  (fuel <= fuel')%nat ->
  fdt_node fuel cs count offset = Ret x -> fdt_node fuel' cs count offset = Ret x.
Proof.
  induction 1 as [|fuel' _ IH]; [done|]. intros H. by apply fdt_mono, IH.
Qed.

Lemma fdt_node_det (cs : cptr) (count : Z) (fuel fuel' : nat) (offset : Z) x y :
  fdt_node fuel cs count offset = Ret x ->
  fdt_node fuel' cs count offset = Ret y -> x = y.
Proof.
  intros Hx Hy.
  apply (fdt_node_le _ _ _ (Nat.max fuel fuel')) in Hx; [|lia].
  apply (fdt_node_le _ _ _ (Nat.max fuel fuel')) in Hy; [|lia].
  congruence.
Qed.

(** ** The tree against the token structure *)

Lemma node_name_at_inj (cs : cptr) (o1 o2 : Z) :
  node_name_at cs o1 = node_name_at cs o2 -> o1 = o2.
Proof. unfold node_name_at, ptr_add. intros [= H]. lia. Qed.

(** A chain only depends on the entries it runs through. *)
Lemma node_chain_frame_sib (b : nat) (ns ns' : list dtb_node) bound c l :
  node_chain b ns bound c l ->
  (forall i n, i ∈ l -> ns !! i = Some n ->
               exists n', ns' !! i = Some n' /\ sibling n' = sibling n) ->
  node_chain b ns' bound c l.
Proof.
  induction 1 as [|bound i n l Hi Hn _ IH]; intros Hsame; [constructor|].
  destruct (Hsame i n ltac:(apply list_elem_of_here) Hn) as (n' & Hn' & Hs).
  econstructor; [done|exact Hn'|]. rewrite Hs.
  apply IH. intros j m Hj. apply Hsame. by apply list_elem_of_further.
Qed.

Lemma node_chain_app_bound (b : nat) (ns : list dtb_node) bound c l :
  node_chain b ns bound c l -> forall i, i ∈ l -> (i < bound)%nat.
Proof.
  intros H i Hi. apply node_chain_bound in H as [H _].
  rewrite Forall_forall in H. by apply H.
Qed.

Lemma prop_chain_elem_bound (b : nat) (ps : list dtb_prop) bound c l :
  prop_chain b ps bound c l -> forall i, i ∈ l -> (i < bound)%nat.
Proof.
  intros H i Hi. apply prop_chain_bound in H as [H _].
  rewrite Forall_forall in H. by apply H.
Qed.

Lemma node_chain_lookup (b : nat) (ns : list dtb_node) bound c l :
  node_chain b ns bound c l -> forall i, i ∈ l -> is_Some (ns !! i).
Proof.
  induction 1 as [|bound i n l Hi Hn _ IH]; intros j Hj.
  - by apply elem_of_nil in Hj.
  - apply elem_of_cons in Hj as [->|Hin]; [by eexists|by apply IH].
Qed.

Lemma prop_chain_lookup (b : nat) (ps : list dtb_prop) bound c l :
  prop_chain b ps bound c l -> forall i, i ∈ l -> is_Some (ps !! i).
Proof.
  induction 1 as [|bound i n l Hi Hn _ IH]; intros j Hj.
  - by apply elem_of_nil in Hj.
  - apply elem_of_cons in Hj as [->|Hin]; [by eexists|by apply IH].
Qed.

Lemma settled_refl (b lo : nat) (st : dtb_state) : settled b lo st st.
Proof.
  constructor; try done; try lia; try apply same_config_refl.
  intros i nd _ _ Hnd. by exists nd.
Qed.

Lemma settled_trans (b lo : nat) (st1 st2 st3 : dtb_state) :
  settled b lo st1 st2 -> settled b lo st2 st3 -> settled b lo st1 st3.
Proof.
  intros [] []. constructor; try lia.
  - by eapply same_config_trans.
  - intros i nd Hlo Hi Hnd.
    destruct (sd_nodes0 i nd Hlo Hi Hnd) as (n2 & Hn2 & K2 & E2).
    destruct (sd_nodes1 i n2 Hlo ltac:(lia) Hn2) as (n3 & Hn3 & K3 & E3).
    exists n3. split; [done|]. split.
    + destruct K2 as (? & ? & ? & ? & ?), K3 as (? & ? & ? & ? & ?).
      repeat split; congruence.
    + intros Hlt. rewrite E3, E2; done.
  - intros j Hj. rewrite sd_props1 by lia. by apply sd_props0.
Qed.

Lemma settled_weaken (b lo lo' : nat) (st st' : dtb_state) :
  settled b lo st st' -> (lo <= lo')%nat -> settled b lo' st st'.
Proof.
  intros [] Hle. constructor; try done.
  intros i nd Hlo Hi Hnd.
  destruct (sd_nodes0 i nd ltac:(lia) Hi Hnd) as (n2 & Hn2 & K2 & E2).
  exists n2. split; [done|]. split; [done|]. intros Hlt. apply E2. lia.
Qed.

(** A frame around a node below [lo] leaves everything from [lo] up alone. *)
Lemma frame_settled (b k lo : nat) (st st' : dtb_state) :
  frame b k (node_alloc_head st) (prop_alloc_head st) st st' ->
  (k < lo)%nat ->
  settled b lo st st'.
Proof.
  intros [] Hk. constructor; try done.
  intros i nd Hlo Hi Hnd. exists nd.
  rewrite fr_nodes0 by lia. done.
Qed.

Section Simulation.

Variable b : nat.
Variables cs strs : cptr.
Variable count : Z.

Local Abbreviation cfg := (cfg cs strs count).
Local Abbreviation kid_ok := (kid_ok cs).
Local Abbreviation prop_ok := (prop_ok cs strs).
Local Abbreviation done_ok := (done_ok b cs strs).
Local Abbreviation fin := (fin b cs strs count).
Local Abbreviation fin_range := (fin_range b cs strs count).
Local Abbreviation grows := (grows b cs strs).
Local Abbreviation call_sim := (call_sim b cs strs count).
Local Abbreviation loop_sim := (loop_sim b cs strs count).
Local Abbreviation init_sim := (init_sim b cs strs count).
Local Abbreviation quiet := (quiet b).
Local Abbreviation q_config := (q_config b).
Local Abbreviation q_nodes := (q_nodes b).
Local Abbreviation q_props := (q_props b).

Lemma cfg_same_config (st st' : dtb_state) : cfg st -> same_config st st' -> cfg st'.
Proof. intros (? & ? & ?) []. repeat split; congruence. Qed.

Lemma Forall2_kid_lo (lo : nat) (ns : list dtb_node) inh cl kc :
  Forall2 (kid_ok lo ns inh) cl kc -> forall c, c ∈ cl -> (lo <= c)%nat.
Proof.
  induction 1 as [|c ov cl kc [Hc _] _ IH]; intros c' Hc'.
  - by apply elem_of_nil in Hc'.
  - apply elem_of_cons in Hc' as [->|Hin]; [done|by apply IH].
Qed.

Lemma Forall2_impl_l {A B : Type} (P Q : A -> B -> Prop) (l : list A) (k : list B) :
  Forall2 P l k -> (forall x y, x ∈ l -> P x y -> Q x y) -> Forall2 Q l k.
Proof.
  induction 1 as [|x y l k Hxy _ IH]; intros Himp; constructor.
  - apply Himp; [apply list_elem_of_here|done].
  - apply IH. intros x' y' Hin. apply Himp. by apply list_elem_of_further.
Qed.

Lemma fin_settled (inh inh' : nat -> Z * Z) (lo k : nat) (st st' : dtb_state) :
  fin inh st k ->
  settled b lo st st' ->
  (lo <= k)%nat -> Z.of_nat k < node_alloc_head st ->
  0 <= prop_alloc_head st ->
  (forall c, (k <= c)%nat -> Z.of_nat c < node_alloc_head st -> inh' c = inh c) ->
  fin inh' st' k.
Proof.
  intros Hfin Hsd Hlo Hk Hph Hinh nd' offset fuel items offset' Hnd' Hname Hspec.
  assert (exists nd, nodes_of st b !! k = Some nd) as [nd Hnd].
  { apply lookup_lt_is_Some_2.
    rewrite <- (sc_nodes_len _ _ (sd_config _ _ _ _ Hsd)). by eapply lookup_lt_Some. }
  destruct (sd_nodes _ _ _ _ Hsd k nd Hlo Hk Hnd)
    as (nd2 & Hnd2 & (Ec & Ep & En & Ea & Es) & _).
  assert (nd2 = nd') by congruence. subst nd2.
  rewrite En in Hname.
  destruct (Hfin nd offset fuel items offset' Hnd Hname Hspec)
    as [(cl & kc & Hcl & Hkc & Hkids) (pl & Hpl & Hprops) Hcells].
  pose proof (sd_node_head _ _ _ _ Hsd) as Hh.
  pose proof (sd_prop_head _ _ _ _ Hsd) as Hp.
  assert (Hsame : forall c, c ∈ cl -> nodes_of st' b !! c = nodes_of st b !! c).
  { intros c Hc.
    pose proof (Forall2_kid_lo _ _ _ _ _ Hkids c Hc) as Hlt.
    pose proof (node_chain_app_bound _ _ _ _ _ Hcl c Hc) as Hub.
    destruct (node_chain_lookup _ _ _ _ _ Hcl c Hc) as [n Hn].
    destruct (sd_nodes _ _ _ _ Hsd c n ltac:(lia) ltac:(lia) Hn) as (n' & Hn' & _ & E).
    rewrite Hn', Hn, E by lia. done. }
  constructor.
  - exists cl, kc. rewrite Hinh by lia. rewrite Ec. split; [|split; [done|]].
    + apply (node_chain_weaken _ _ (Z.to_nat (node_alloc_head st))); [|lia].
      eapply node_chain_frame_sib; [exact Hcl|].
      intros c n Hc Hn. exists n. by rewrite Hsame.
    + eapply Forall2_impl_l; [exact Hkids|].
      intros c ov Hc (Hc1 & n & Hn & Hnm & Hi). split; [done|].
      exists n. rewrite Hsame by done. split; [done|]. split; [done|].
      rewrite Hinh; [done|lia|].
      pose proof (node_chain_app_bound _ _ _ _ _ Hcl c Hc). lia.
  - exists pl. rewrite Ep. split.
    + apply (prop_chain_weaken _ _ (Z.to_nat (prop_alloc_head st))); [|lia].
      eapply prop_chain_frame; [exact Hpl|].
      intros j Hj. apply (sd_props _ _ _ _ Hsd). lia.
    + eapply Forall2_impl_l; [exact Hprops|].
      intros j o Hj (p & Hpj & Hrest). exists p. split; [|done].
      rewrite (sd_props _ _ _ _ Hsd); [done|].
      pose proof (prop_chain_elem_bound _ _ _ _ _ Hpl j Hj). lia.
  - rewrite Hinh by lia. by rewrite Ea, Es.
Qed.

Lemma kid_ok_weaken (lo lo' : nat) (ns : list dtb_node) inh cl kc :
  Forall2 (kid_ok lo ns inh) cl kc -> (lo' <= lo)%nat ->
  Forall2 (kid_ok lo' ns inh) cl kc.
Proof.
  intros H Hle. eapply Forall2_impl; [exact H|].
  intros c ov (Hc & Hrest). split; [lia|done].
Qed.

Lemma grows_end (inh : nat -> Z * Z) (st : dtb_state) (k : nat) (nd : dtb_node) :
  nodes_of st b !! k = Some nd -> grows inh st st k nd [].
Proof.
  intros Hnd. exists nd. split; [done|]. split; [|split; [|done]].
  - intros cl Hcl. exists [], []. split; [done|]. split; [done|constructor].
  - intros pl Hpl. exists []. split; [done|constructor].
Qed.

(** A BEGIN_NODE token in the body of node [k]: the child is parsed in a
    call, hung in front of the children, and the loop goes on. *)
Lemma grows_child (inh : nat -> Z * Z) (st st1 st2 st' : dtb_state) (k : nat)
    (nd ndh n1 : dtb_node) (offset : Z) (rest : list item) :
  let h := Z.to_nat (node_alloc_head st) in
  0 <= node_alloc_head st ->
  Z.of_nat k < node_alloc_head st ->
  nodes_of st b !! k = Some nd ->
  frame b h (node_alloc_head st) (prop_alloc_head st) st st1 ->
  node_alloc_head st < node_alloc_head st1 ->
  nodes_of st1 b !! h = Some ndh ->
  node_name ndh = node_name_at cs offset ->
  nodes_of st1 b !! k = Some n1 ->
  table_step b st1 st2 0 0
    (alter (set_parent (Some (b, k))) h ∘ alter (set_child (Some (b, h))) k
     ∘ alter (set_sibling (child n1)) h) id id ->
  frame b k (node_alloc_head st2) (prop_alloc_head st2) st2 st' ->
  inh h = (addr_cells nd, size_cells nd) ->
  (forall nd2, nodes_of st2 b !! k = Some nd2 -> grows inh st2 st' k nd2 rest) ->
  grows inh st st' k nd (INode offset :: rest).
Proof.
  intros h Hh0 Hk Hnd Hf1 Hlt1 Hndh Hname Hn1 Hs Hf2 Hinh Hg.
  assert (Hkh : k <> h) by (unfold h; lia).
  assert (n1 = nd).
  { rewrite (fr_nodes _ _ _ _ _ _ Hf1 k Hk Hkh) in Hn1. congruence. }
  subst n1.
  pose proof (ts_nodes _ _ _ _ _ _ _ _ Hs) as Ens. unfold compose in Ens.
  pose proof (ts_props _ _ _ _ _ _ _ _ Hs) as Eps. unfold id in Eps.
  pose proof (ts_node_head _ _ _ _ _ _ _ _ Hs) as Eh. rewrite Z.add_0_r in Eh.
  pose proof (ts_prop_head _ _ _ _ _ _ _ _ Hs) as Eph. rewrite Z.add_0_r in Eph.
  pose proof (fr_prop_head _ _ _ _ _ _ Hf1) as Hp1.
  assert (Hk2 : nodes_of st2 b !! k = Some (set_child (Some (b, h)) nd)).
  { rewrite Ens, list_lookup_alter_ne, list_lookup_alter_eq, list_lookup_alter_ne
      by done. by rewrite Hn1. }
  assert (Hh2 : nodes_of st2 b !! h
                = Some (set_parent (Some (b, k)) (set_sibling (child nd) ndh))).
  { rewrite Ens, list_lookup_alter_eq, list_lookup_alter_ne, list_lookup_alter_eq
      by done. by rewrite Hndh. }
  destruct (Hg _ Hk2) as (nd' & Hnd' & Gk & Gp & Gc).
  exists nd'. split; [exact Hnd'|]. split; [|split].
  - intros cl Hcl.
    assert (Hcl2 : node_chain b (nodes_of st2 b) (Z.to_nat (node_alloc_head st2))
                     (child (set_child (Some (b, h)) nd)) (h :: cl)).
    { simpl. econstructor; [unfold h; lia|exact Hh2|]. simpl.
      eapply node_chain_frame_sib; [exact Hcl|].
      intros i n Hi Hn.
      pose proof (node_chain_app_bound _ _ _ _ _ Hcl i Hi) as Hib.
      destruct (decide (i = k)) as [->|Hik].
      - eexists. split; [exact Hk2|]. assert (n = nd) by congruence. by subst n.
      - exists n. split; [|done].
        rewrite Ens, !list_lookup_alter_ne by (unfold h in *; lia).
        rewrite (fr_nodes _ _ _ _ _ _ Hf1 i); [done|lia|unfold h; lia]. }
    destruct (Gk _ Hcl2) as (ncl & kc & Hchain & Hkc & Hall).
    exists (ncl ++ [h]), ((offset, (addr_cells nd, size_cells nd)) :: kc).
    split; [by rewrite <- app_assoc|]. split.
    + cbn [kids_cells]. simpl in Hkc. by rewrite Hkc.
    + simpl. apply Forall2_app.
      * eapply kid_ok_weaken; [exact Hall|]. lia.
      * constructor; [|constructor]. split; [done|].
        exists (set_parent (Some (b, k)) (set_sibling (child nd) ndh)).
        split; [|split; [done|done]].
        rewrite (fr_nodes _ _ _ _ _ _ Hf2 h); [done|unfold h; lia|done].
  - intros pl Hpl.
    assert (Hpl2 : prop_chain b (props_of st2 b) (Z.to_nat (prop_alloc_head st2))
                     (props (set_child (Some (b, h)) nd)) pl).
    { simpl. apply (prop_chain_weaken _ _ (Z.to_nat (prop_alloc_head st))); [|lia].
      eapply prop_chain_frame; [exact Hpl|].
      intros j Hj. rewrite Eps. apply (fr_props _ _ _ _ _ _ Hf1). lia. }
    destruct (Gp _ Hpl2) as (npl & Hchain & Hall).
    exists npl. split; done.
  - exact Gc.
Qed.

(** The update [check_for_special_prop] makes to the node, as a function of
    the property's token. *)
Lemma special_cells (kind : special) (k j : nat) (st12 : dtb_state) fn fh
    (p : dtb_prop) (offset : Z) :
  special_update kind b k j st12 fn fh ->
  read_prop st12 (b, j) = Ret p ->
  classify_name (prop_name p) = Ret kind ->
  first_cell p = prop_payload_at cs offset ->
  prop_name_at cs strs offset = Ret (prop_name p) ->
  exists g : dtb_node -> dtb_node,
    (forall l : list dtb_node, fn l = alter g k l) /\
    (forall n, child (g n) = child n /\ props (g n) = props n /\
               sibling (g n) = sibling n /\ node_name (g n) = node_name n) /\
    (forall n, prop_cells cs strs (addr_cells n, size_cells n) offset
               = Ret (addr_cells (g n), size_cells (g n))).
Proof.
  intros Hupd Hp Hcl Hfirst Hname.
  assert (Hdec : forall v, read_local_cell st12 (b, j) = Ret v ->
                           decode_cell (prop_payload_at cs offset) = Ret v).
  { intros v Hv. apply read_local_cell_decode in Hv as (p' & Hp' & Hv).
    assert (p' = p) by congruence. subst p'. by rewrite <- Hfirst. }
  unfold prop_cells. rewrite Hname. cbn [rbind]. rewrite Hcl. cbn [rbind].
  destruct kind; simpl in Hupd.
  - destruct Hupd as [-> _]. exists id. split; [|done].
    intros l. symmetry. by apply list_alter_id.
  - destruct Hupd as (v & _ & _ & -> & _). exists id. split; [|done].
    intros l. symmetry. by apply list_alter_id.
  - destruct Hupd as (v & Hv & -> & _). exists (set_addr_cells (u8 v)).
    split; [done|]. split; [done|]. intros n. by rewrite (Hdec v Hv).
  - destruct Hupd as (v & Hv & -> & _). exists (set_size_cells (u8 v)).
    split; [done|]. split; [done|]. intros n. by rewrite (Hdec v Hv).
Qed.

(** A PROP token in the body of node [k]. *)
Lemma grows_prop (inh : nat -> Z * Z) (st st1 st12 st2 st' : dtb_state) (k : nat)
    (nd n1 : dtb_node) (p : dtb_prop) (name : cptr) (len : Z) (kind : special) fn fh
    (offset : Z) (rest : list item) :
  let j := Z.to_nat (prop_alloc_head st) in
  0 <= prop_alloc_head st ->
  nodes_of st b !! k = Some nd ->
  (j < length (props_of st b))%nat ->
  prop_name_at cs strs offset = Ret name ->
  prop_length_at cs offset = Ret len ->
  table_step b st st1 0 1 id
             (<[j := Prop_ name (prop_payload_at cs offset) len None]>) id ->
  nodes_of st1 b !! k = Some n1 ->
  table_step b st1 st12 0 0
    (alter (set_props (Some (b, j))) k) (alter (set_next (props n1)) j) id ->
  read_prop st12 (b, j) = Ret p ->
  classify_name (prop_name p) = Ret kind ->
  special_update kind b k j st12 fn fh ->
  table_step b st12 st2 0 0 fn id fh ->
  frame b k (node_alloc_head st2) (prop_alloc_head st2) st2 st' ->
  (forall nd2, nodes_of st2 b !! k = Some nd2 -> grows inh st2 st' k nd2 rest) ->
  grows inh st st' k nd (IProp offset :: rest).
Proof.
  intros j Hp0 Hnd Hj Hname Hlen Hs1 Hn1 Hs2 Hp Hcl Hupd Hs3 Hf2 Hg.
  assert (En1 : nodes_of st1 b = nodes_of st b)
    by (by rewrite (ts_nodes _ _ _ _ _ _ _ _ Hs1)).
  rewrite En1 in Hn1. assert (n1 = nd) by congruence. subst n1.
  assert (Eps12 : props_of st12 b
                  = alter (set_next (props nd)) j
                      (<[j := Prop_ name (prop_payload_at cs offset) len None]>
                         (props_of st b))).
  { by rewrite (ts_props _ _ _ _ _ _ _ _ Hs2), (ts_props _ _ _ _ _ _ _ _ Hs1). }
  assert (Eps : props_of st2 b = props_of st12 b)
    by (by rewrite (ts_props _ _ _ _ _ _ _ _ Hs3)).
  assert (Eh : node_alloc_head st2 = node_alloc_head st).
  { rewrite (ts_node_head _ _ _ _ _ _ _ _ Hs3), (ts_node_head _ _ _ _ _ _ _ _ Hs2),
      (ts_node_head _ _ _ _ _ _ _ _ Hs1). lia. }
  assert (Eph : prop_alloc_head st2 = prop_alloc_head st + 1).
  { rewrite (ts_prop_head _ _ _ _ _ _ _ _ Hs3), (ts_prop_head _ _ _ _ _ _ _ _ Hs2),
      (ts_prop_head _ _ _ _ _ _ _ _ Hs1). lia. }
  pose proof (read_prop_props_of _ _ _ _ Hp) as Hpj.
  assert (p = Prop_ name (prop_payload_at cs offset) len (props nd)).
  { rewrite Eps12, list_lookup_alter_eq, list_lookup_insert_eq in Hpj by done.
    by injection Hpj as <-. }
  subst p.
  destruct (special_cells kind k j st12 fn fh _ offset Hupd Hp Hcl eq_refl Hname)
    as (g & Hfn & Hg1 & Hg2).
  assert (Ens : nodes_of st2 b = alter g k (alter (set_props (Some (b, j))) k
                                              (nodes_of st b))).
  { by rewrite (ts_nodes _ _ _ _ _ _ _ _ Hs3), (ts_nodes _ _ _ _ _ _ _ _ Hs2),
      Hfn, En1. }
  assert (Hk2 : nodes_of st2 b !! k = Some (g (set_props (Some (b, j)) nd))).
  { by rewrite Ens, !list_lookup_alter_eq, Hnd. }
  destruct (Hg1 (set_props (Some (b, j)) nd)) as (Gc1 & Gp1 & Gs1 & Gn1).
  simpl in Gc1, Gp1, Gs1, Gn1.
  destruct (Hg _ Hk2) as (nd' & Hnd' & Gk & Gp & Gc).
  pose proof (Hg2 (set_props (Some (b, j)) nd)) as Hpc. simpl in Hpc.
  exists nd'. split; [exact Hnd'|]. split; [|split].
  - intros cl Hcl'.
    assert (Hcl2 : node_chain b (nodes_of st2 b) (Z.to_nat (node_alloc_head st2))
                     (child (g (set_props (Some (b, j)) nd))) cl).
    { rewrite Gc1, Eh. eapply node_chain_frame_sib; [exact Hcl'|].
      intros i n Hi Hn. destruct (decide (i = k)) as [->|Hik].
      - eexists. split; [exact Hk2|]. assert (n = nd) by congruence. by subst n.
      - exists n. split; [|done]. by rewrite Ens, !list_lookup_alter_ne. }
    destruct (Gk _ Hcl2) as (ncl & kc & Hchain & Hkc & Hall).
    exists ncl, kc. split; [done|]. split.
    + cbn [kids_cells]. rewrite Hpc. cbn [rbind]. exact Hkc.
    + by rewrite <- Eh.
  - intros pl Hpl.
    assert (Hpl2 : prop_chain b (props_of st2 b) (Z.to_nat (prop_alloc_head st2))
                     (props (g (set_props (Some (b, j)) nd))) (j :: pl)).
    { rewrite Gp1. econstructor; [lia| |].
      - rewrite Eps, Eps12, list_lookup_alter_eq, list_lookup_insert_eq by done.
        reflexivity.
      - simpl. eapply prop_chain_frame; [exact Hpl|].
        intros i Hi. rewrite Eps, Eps12.
        rewrite list_lookup_alter_ne, list_lookup_insert_ne by (unfold j in *; lia).
        done. }
    destruct (Gp _ Hpl2) as (npl & Hchain & Hall).
    exists (npl ++ [j]). split; [by rewrite <- app_assoc|].
    simpl. apply Forall2_app; [exact Hall|].
    constructor; [|constructor].
    exists (Prop_ name (prop_payload_at cs offset) len (props nd)).
    split; [|done].
    rewrite (fr_props _ _ _ _ _ _ Hf2 j) by lia.
    rewrite Eps, Eps12, list_lookup_alter_eq, list_lookup_insert_eq by done.
    reflexivity.
  - cbn [cells_after]. rewrite Hpc. cbn [rbind]. exact Gc.
Qed.

(** A step before the loop goes on that leaves node [k] and everything that
    existed alone. *)
Lemma grows_pre (inh : nat -> Z * Z) (st st1 st' : dtb_state) (k : nat)
    (nd : dtb_node) (rest : list item) :
  let h := Z.to_nat (node_alloc_head st) in
  0 <= node_alloc_head st ->
  Z.of_nat k < node_alloc_head st ->
  nodes_of st b !! k = Some nd ->
  frame b h (node_alloc_head st) (prop_alloc_head st) st st1 ->
  (forall nd1, nodes_of st1 b !! k = Some nd1 -> grows inh st1 st' k nd1 rest) ->
  grows inh st st' k nd rest.
Proof.
  intros h Hh0 Hk Hnd Hf1 Hg.
  assert (Hkh : k <> h) by (unfold h; lia).
  assert (Hk1 : nodes_of st1 b !! k = Some nd).
  { by rewrite (fr_nodes _ _ _ _ _ _ Hf1 k Hk Hkh). }
  pose proof (fr_node_head _ _ _ _ _ _ Hf1) as Hh1.
  pose proof (fr_prop_head _ _ _ _ _ _ Hf1) as Hp1.
  destruct (Hg _ Hk1) as (nd' & Hnd' & Gk & Gp & Gc).
  exists nd'. split; [exact Hnd'|]. split; [|split; [|exact Gc]].
  - intros cl Hcl.
    assert (Hcl1 : node_chain b (nodes_of st1 b) (Z.to_nat (node_alloc_head st1))
                     (child nd) cl).
    { apply (node_chain_weaken _ _ (Z.to_nat (node_alloc_head st))); [|lia].
      eapply node_chain_frame; [exact Hcl|].
      intros i Hi. apply (fr_nodes _ _ _ _ _ _ Hf1); [lia|unfold h; lia]. }
    destruct (Gk _ Hcl1) as (ncl & kc & Hchain & Hkc & Hall).
    exists ncl, kc. split; [done|]. split; [done|].
    eapply kid_ok_weaken; [exact Hall|lia].
  - intros pl Hpl.
    assert (Hpl1 : prop_chain b (props_of st1 b) (Z.to_nat (prop_alloc_head st1))
                     (props nd) pl).
    { apply (prop_chain_weaken _ _ (Z.to_nat (prop_alloc_head st))); [|lia].
      eapply prop_chain_frame; [exact Hpl|].
      intros j Hj. apply (fr_props _ _ _ _ _ _ Hf1). lia. }
    exact (Gp _ Hpl1).
Qed.

(** Hanging node [h] under [k] settles everything from [h] up. *)
Lemma link_settled (st1 st2 : dtb_state) (k h : nat) (c : option nodeptr) :
  (k < h)%nat ->
  table_step b st1 st2 0 0
    (alter (set_parent (Some (b, k))) h ∘ alter (set_child (Some (b, h))) k
     ∘ alter (set_sibling c) h) id id ->
  settled b h st1 st2.
Proof.
  intros Hkh Hs.
  pose proof (ts_nodes _ _ _ _ _ _ _ _ Hs) as Ens. unfold compose in Ens.
  pose proof (ts_props _ _ _ _ _ _ _ _ Hs) as Eps. unfold id in Eps.
  pose proof (ts_node_head _ _ _ _ _ _ _ _ Hs) as Eh.
  pose proof (ts_prop_head _ _ _ _ _ _ _ _ Hs) as Eph.
  constructor; try lia.
  - apply (ts_config _ _ _ _ _ _ _ _ Hs).
  - intros i nd Hlo Hi Hnd. destruct (decide (i = h)) as [->|Hih].
    + exists (set_parent (Some (b, k)) (set_sibling c nd)).
      rewrite Ens, list_lookup_alter_eq, list_lookup_alter_ne, list_lookup_alter_eq,
        Hnd by lia.
      split; [done|]. split; [done|lia].
    + exists nd. rewrite Ens, !list_lookup_alter_ne by lia. done.
  - intros j Hj. by rewrite Eps.
Qed.

(** Putting a top-level node in front of the root list settles everything
    from it up. *)
Lemma root_link_settled (st1 st2 : dtb_state) (h : nat) (c r : option nodeptr) :
  table_step b st1 st2 0 0 (alter (set_sibling c) h) id id ->
  settled b h st1 (set_root r st2).
Proof.
  intros Hs.
  pose proof (ts_nodes _ _ _ _ _ _ _ _ Hs) as Ens.
  pose proof (ts_props _ _ _ _ _ _ _ _ Hs) as Eps. unfold id in Eps.
  pose proof (ts_node_head _ _ _ _ _ _ _ _ Hs) as Eh.
  pose proof (ts_prop_head _ _ _ _ _ _ _ _ Hs) as Eph.
  constructor; simpl; try lia.
  - destruct (ts_config _ _ _ _ _ _ _ _ Hs). by constructor.
  - intros i nd Hlo Hi Hnd. change (nodes_of (set_root r st2) b) with (nodes_of st2 b).
    destruct (decide (i = h)) as [->|Hih].
    + exists (set_sibling c nd). rewrite Ens, list_lookup_alter_eq, Hnd.
      split; [done|]. split; [done|lia].
    + exists nd. rewrite Ens, !list_lookup_alter_ne by lia. done.
  - intros j Hj. change (props_of (set_root r st2) b) with (props_of st2 b).
    by rewrite Eps.
Qed.

Lemma call_sim_step (fuel : nat) : loop_sim fuel -> call_sim (S fuel).
Proof.
  intros IHloop offset ac sc st r offset' st' Hwf Hcfg H.
  destruct (parse_frames b fuel) as [_ Floop].
  pose proof Hcfg as (Hcs & Hstrs & Hcount).
  destruct (parse_node_Ret b _ _ _ _ _ _ _ _ Hwf H)
    as (t & Htok & [(Ht & -> & -> & ->)
                   |(Ht & st1 & o1 & Hname & Hk & Hs & Hwf1 & Hloop)]);
    rewrite Hcs in Htok.
  { exists None. rewrite fdt_node_S, Htok. cbn [rbind].
    replace (t =? FDT_BEGIN_NODE) with false by (symmetry; by apply Z.eqb_neq).
    split; [done|]. split; [done|]. intros inh. exists inh.
    split; [done|]. split; [done|]. intros k Hk. lia. }
  cbv zeta in *. rewrite Hcs in *.
  set (k0 := Z.to_nat (node_alloc_head st)) in *.
  pose proof (wf_node_head _ _ Hwf) as Hh.
  pose proof (ts_node_head _ _ _ _ _ _ _ _ Hs) as Hh1.
  pose proof (ts_prop_head _ _ _ _ _ _ _ _ Hs) as Hp1.
  assert (Hcfg1 : cfg st1) by (eapply cfg_same_config; [exact Hcfg|apply Hs]).
  assert (Hk01 : Z.of_nat k0 < node_alloc_head st1) by (unfold k0; lia).
  destruct (IHloop k0 o1 st1 r offset' st' Hwf1 Hcfg1 Hk01 Hloop)
    as (ritems & Hbody & Hiff & Hghost).
  destruct (Floop k0 o1 st1 r offset' st' Hwf1 Hk01 Hloop) as [Hf _].
  assert (Hnode : fdt_node (S fuel) cs count offset = Ret (ritems, offset')).
  { rewrite fdt_node_S, Htok. cbn [rbind].
    replace (t =? FDT_BEGIN_NODE) with true by (symmetry; by apply Z.eqb_eq).
    cbn [negb]. rewrite Hname. exact Hbody. }
  exists ritems. split; [exact Hnode|]. split; [exact Hiff|].
  intros inh.
  destruct (Hghost (fun i => if decide (i = k0) then (ac, sc) else inh i))
    as (inh' & Hag & Hfin & Hgrow).
  assert (Hinh0 : inh' k0 = (ac, sc)).
  { rewrite Hag by lia. by rewrite decide_True. }
  exists inh'. split; [|split; [done|]].
  { intros i Hi. rewrite Hag by lia. rewrite decide_False; [done|unfold k0; lia]. }
  intros k Hkr. destruct (decide (k = k0)) as [->|Hne].
  2:{ apply Hfin. unfold k0 in Hne. lia. }
  intros nd' offset2 fuel2 items2 offset2' Hnd' Hname2 Hspec.
  set (N0 := Node None None None None (node_name_at cs offset) ac sc) in *.
  assert (Hk1 : nodes_of st1 b !! k0 = Some N0).
  { rewrite (ts_nodes _ _ _ _ _ _ _ _ Hs). by apply list_lookup_insert_eq. }
  destruct (fr_kept _ _ _ _ _ _ Hf _ Hk01 Hk1) as (nd2 & Hnd2 & _ & _ & Hnm).
  assert (nd2 = nd') by congruence. subst nd2. simpl in Hnm.
  rewrite Hnm in Hname2. apply node_name_at_inj in Hname2. subst offset2.
  pose proof (fdt_node_det _ _ _ _ _ _ _ Hnode Hspec) as [= -> _].
  destruct (Hgrow items2 N0 eq_refl Hk1) as (nd2 & Hnd2' & Gk & Gp & Gc).
  assert (nd2 = nd') by congruence. subst nd2. simpl in Gk, Gp, Gc.
  constructor.
  - destruct (Gk [] ltac:(constructor)) as (ncl & kc & Hchain & Hkc & Hall).
    rewrite app_nil_r in Hchain. exists ncl, kc. rewrite Hinh0.
    split; [done|]. split; [done|].
    eapply kid_ok_weaken; [exact Hall|]. unfold k0. lia.
  - destruct (Gp [] ltac:(constructor)) as (npl & Hchain & Hall).
    rewrite app_nil_r in Hchain. by exists npl.
  - by rewrite Hinh0.
Qed.

Lemma loop_sim_step (fuel : nat) : call_sim fuel -> loop_sim fuel -> loop_sim (S fuel).
Proof.
  intros IHcall IHloop k offset st r offset' st' Hwf Hcfg Hk H.
  destruct (parse_frames b fuel) as [Fcall Floop].
  pose proof Hcfg as (Hcs & Hstrs & Hcount).
  pose proof (wf_node_head _ _ Hwf) as Hh.
  pose proof (wf_prop_head _ _ Hwf) as Hph.
  destruct (parse_node_loop_Ret _ _ _ _ _ _ _ H)
    as [(Hge & -> & -> & u & Herr)
       |(Hlt & t & Htok &
         [(Ht & -> & -> & ->)
         |[(Ht & n & c & o1 & st1 & st2 & Hn & Hcall & Hlink & Hrest)
          |[(Ht & pp & o1 & st1 & st2 & Hprop & Hlink & Hrest)
           |(Ht1 & Ht2 & Ht3 & Hrest)]]])].
  - (* the block ends inside the node *)
    apply (call_on_error_step b) in Herr.
    pose proof (ts_node_head _ _ _ _ _ _ _ _ Herr) as Eh.
    exists None. rewrite fdt_body_S.
    replace (offset <? count) with false by (symmetry; apply Z.ltb_ge; lia).
    split; [done|]. split; [done|]. intros inh. exists inh.
    split; [done|]. split; [|done]. intros i Hi. lia.
  - (* END_NODE *)
    rewrite Hcs in Htok. exists (Some []). rewrite fdt_body_S, Htok.
    replace (offset <? count) with true by (symmetry; apply Z.ltb_lt; lia).
    cbn [rbind]. rewrite Ht. change (FDT_END_NODE =? FDT_END_NODE) with true.
    cbv iota. split; [done|]. split; [done|]. intros inh. exists inh.
    split; [done|]. split; [intros i Hi; lia|].
    intros rest nd [= <-] Hnd. by apply grows_end.
  - (* BEGIN_NODE *)
    rewrite Hcs in Htok.
    pose proof (read_node_nodes_of _ _ _ _ Hn) as Hn'.
    destruct (Fcall _ _ _ _ _ _ _ Hwf Hcall) as [Hf1 Hr1]. cbv zeta in *.
    destruct (IHcall _ _ _ _ _ _ _ Hwf Hcfg Hcall)
      as (citems & Hnode & Hiff1 & Hghost1).
    set (h := Z.to_nat (node_alloc_head st)) in *.
    pose proof (fr_wf _ _ _ _ _ _ Hf1) as Hwf1.
    pose proof (fr_node_head _ _ _ _ _ _ Hf1) as Hh1.
    pose proof (fr_prop_head _ _ _ _ _ _ Hf1) as Hp1.
    assert (Hcfg1 : cfg st1)
      by (eapply cfg_same_config; [exact Hcfg|apply (fr_config _ _ _ _ _ _ Hf1)]).
    assert (Hbody1 : forall ritems,
              fdt_body fuel cs count o1 = Ret (ritems, offset') ->
              fdt_body (S fuel) cs count offset
              = Ret (match citems, ritems with
                     | Some _, Some r => Some (INode offset :: r)
                     | None, Some r => Some r
                     | _, None => None
                     end, offset')).
    { intros ritems Hbody. rewrite fdt_body_S, Htok.
      replace (offset <? count) with true by (symmetry; apply Z.ltb_lt; lia).
      cbn [rbind]. rewrite Ht.
      change (FDT_BEGIN_NODE =? FDT_END_NODE) with false.
      change (FDT_BEGIN_NODE =? FDT_BEGIN_NODE) with true. cbv iota.
      rewrite Hnode. cbn [rbind fst snd]. rewrite Hbody. done. }
    destruct c as [cp|].
    + destruct (Hr1 cp eq_refl) as (-> & Hlt1 & ndh & Hndh & _ & _ & Hnmh).
      rewrite Hcs in Hnmh.
      destruct (link_child_step b k h st1 st2 Hwf1 Hlink ltac:(lia)
                  ltac:(unfold h; lia)) as (n1 & Hn1 & Hlen & Hs & Hwf2).
      pose proof (ts_node_head _ _ _ _ _ _ _ _ Hs) as Hh2.
      pose proof (ts_prop_head _ _ _ _ _ _ _ _ Hs) as Hp2.
      assert (Hcfg2 : cfg st2) by (eapply cfg_same_config; [exact Hcfg1|apply Hs]).
      destruct (IHloop k o1 st2 r offset' st' Hwf2 Hcfg2 ltac:(lia) Hrest)
        as (ritems & Hbody & Hiff2 & Hghost2).
      destruct (Floop k o1 st2 r offset' st' Hwf2 ltac:(lia) Hrest) as [Hf2 _].
      destruct citems as [ci|]; [|by destruct Hiff1 as [Hx _]; specialize (Hx eq_refl)].
      eexists. split; [exact (Hbody1 _ Hbody)|]. split.
      { destruct ritems; [|done]. split; [done|]. intros Hr. by apply Hiff2 in Hr. }
      intros inh.
      destruct (Hghost1 inh) as (inh1 & Hag1 & Hinh1 & Hfin1).
      destruct (Hghost2 inh1) as (inh2 & Hag2 & Hfin2 & Hgrow2).
      exists inh2. split; [|split].
      * intros i Hi. rewrite Hag2 by lia. by apply Hag1.
      * intros i Hi. destruct (decide (Z.of_nat i < node_alloc_head st1)) as [Hi1|Hi1].
        -- apply (fin_settled inh1 inh2 h i st1 st').
           ++ apply Hfin1. lia.
           ++ eapply settled_trans.
              ** eapply link_settled; [|exact Hs]. unfold h. lia.
              ** apply (frame_settled b k); [exact Hf2|unfold h; lia].
           ++ unfold h. lia.
           ++ done.
           ++ lia.
           ++ intros c' _ Hc'. apply Hag2. lia.
        -- apply Hfin2. lia.
      * intros rest nd Hrest' Hnd. destruct ritems as [r'|]; [|done].
        injection Hrest' as <-. assert (n = nd) by congruence. subst n.
        eapply (grows_child inh2 st st1 st2 st' k nd ndh n1); eauto.
        -- lia.
        -- rewrite Hag2 by (fold h; lia). by apply Hinh1.
    + subst st2.
      destruct (IHloop k o1 st1 r offset' st' Hwf1 Hcfg1 ltac:(lia) Hrest)
        as (ritems & Hbody & Hiff2 & Hghost2).
      destruct (Floop k o1 st1 r offset' st' Hwf1 ltac:(lia) Hrest) as [Hf2 _].
      destruct citems as [ci|]; [by destruct Hiff1 as [_ Hx]; specialize (Hx eq_refl)|].
      eexists. split; [exact (Hbody1 _ Hbody)|]. split.
      { destruct ritems; [|done]. split; [done|]. intros Hr. by apply Hiff2 in Hr. }
      intros inh.
      destruct (Hghost1 inh) as (inh1 & Hag1 & Hinh1 & Hfin1).
      destruct (Hghost2 inh1) as (inh2 & Hag2 & Hfin2 & Hgrow2).
      exists inh2. split; [|split].
      * intros i Hi. rewrite Hag2 by lia. by apply Hag1.
      * intros i Hi. destruct (decide (Z.of_nat i < node_alloc_head st1)) as [Hi1|Hi1].
        -- apply (fin_settled inh1 inh2 h i st1 st').
           ++ apply Hfin1. lia.
           ++ apply (frame_settled b k); [exact Hf2|unfold h; lia].
           ++ unfold h. lia.
           ++ done.
           ++ lia.
           ++ intros c' _ Hc'. apply Hag2. lia.
        -- apply Hfin2. lia.
      * intros rest nd Hrest' Hnd. destruct ritems as [r'|]; [|done].
        injection Hrest' as <-.
        eapply (grows_pre inh2 st st1 st' k nd); eauto. lia.
  - (* PROP *)
    rewrite Ht in Htok.
    destruct (parse_prop_Ret b _ _ _ _ _ Hwf Htok Hprop)
      as (name & len & Hname & Hlen & Hafter & -> & Hj & Hs1 & Hwf1).
    cbv zeta in *. rewrite Hcs in *. rewrite Hstrs in *.
    set (j := Z.to_nat (prop_alloc_head st)) in *.
    pose proof (ts_node_head _ _ _ _ _ _ _ _ Hs1) as Hh1.
    pose proof (ts_prop_head _ _ _ _ _ _ _ _ Hs1) as Hp1.
    destruct Hlink as (st12 & u & Hlink & Hcheck).
    destruct (link_prop_step b k j st1 st12 Hwf1 Hlink ltac:(lia)
                ltac:(unfold j; lia)) as (n1 & Hn1 & Hs2 & Hwf12).
    pose proof (ts_node_head _ _ _ _ _ _ _ _ Hs2) as Hh2.
    pose proof (ts_prop_head _ _ _ _ _ _ _ _ Hs2) as Hp2.
    destruct (check_for_special_prop_Ret _ _ _ _ _ Hcheck)
      as (p & Hp & kind & Hcl & Heff).
    destruct (special_effect_step kind b k j st12 st2 Hwf12 Heff ltac:(lia))
      as (fn & fh & Hupd & Hs3 & Hwf2).
    pose proof (ts_node_head _ _ _ _ _ _ _ _ Hs3) as Hh3.
    pose proof (ts_prop_head _ _ _ _ _ _ _ _ Hs3) as Hp3.
    assert (Hcfg2 : cfg st2).
    { eapply cfg_same_config; [|apply Hs3].
      eapply cfg_same_config; [|apply Hs2].
      eapply cfg_same_config; [exact Hcfg|apply Hs1]. }
    destruct (IHloop k o1 st2 r offset' st' Hwf2 Hcfg2 ltac:(lia) Hrest)
      as (ritems & Hbody & Hiff2 & Hghost2).
    destruct (Floop k o1 st2 r offset' st' Hwf2 ltac:(lia) Hrest) as [Hf2 _].
    exists (match ritems with Some r => Some (IProp offset :: r) | None => None end).
    split.
    { rewrite fdt_body_S, Htok.
      replace (offset <? count) with true by (symmetry; apply Z.ltb_lt; lia).
      cbn [rbind].
      change (FDT_PROP =? FDT_END_NODE) with false.
      change (FDT_PROP =? FDT_BEGIN_NODE) with false.
      change (FDT_PROP =? FDT_PROP) with true. cbv iota.
      rewrite Hafter. cbn [rbind]. rewrite Hbody. done. }
    split.
    { destruct ritems; [|done]. split; [done|]. intros Hr. by apply Hiff2 in Hr. }
    intros inh. destruct (Hghost2 inh) as (inh2 & Hag2 & Hfin2 & Hgrow2).
    exists inh2. split; [|split].
    + intros i Hi. apply Hag2. lia.
    + intros i Hi. apply Hfin2. lia.
    + intros rest nd Hrest' Hnd. destruct ritems as [r'|]; [|done].
      injection Hrest' as <-.
      eapply (grows_prop inh2 st st1 st12 st2 st' k nd n1 p name len kind fn fh);
        eauto.
      lia.
  - (* any other token *)
    rewrite Hcs in Htok.
    destruct (IHloop k _ st r offset' st' Hwf Hcfg Hk Hrest)
      as (ritems & Hbody & Hiff & Hghost).
    exists ritems. split; [|done].
    rewrite fdt_body_S, Htok.
    replace (offset <? count) with true by (symmetry; apply Z.ltb_lt; lia).
    cbn [rbind].
    replace (t =? FDT_END_NODE) with false by (symmetry; by apply Z.eqb_neq).
    replace (t =? FDT_BEGIN_NODE) with false by (symmetry; by apply Z.eqb_neq).
    replace (t =? FDT_PROP) with false by (symmetry; by apply Z.eqb_neq).
    exact Hbody.
Qed.

Lemma parse_sim : forall fuel, call_sim fuel /\ loop_sim fuel.
Proof.
  induction fuel as [|fuel [IHcall IHloop]].
  - split.
    + intros offset ac sc st r offset' st' _ _ H. discriminate H.
    + intros k offset st r offset' st' _ _ _ H. discriminate H.
  - split; [by apply call_sim_step|by apply loop_sim_step].
Qed.

Lemma quiet_refl (bn bp : Z) (st : dtb_state) : quiet bn bp st st.
Proof. constructor; try done; try lia; try apply same_config_refl. Qed.

Lemma quiet_trans (bn bp : Z) (st1 st2 st3 : dtb_state) :
  quiet bn bp st1 st2 -> quiet bn bp st2 st3 -> quiet bn bp st1 st3.
Proof.
  intros [Hc1 Hn1 Hp1 Hns1 Hps1] [Hc2 Hn2 Hp2 Hns2 Hps2]. constructor; try lia.
  - by eapply same_config_trans.
  - intros i Hi. rewrite Hns2 by done. by apply Hns1.
  - intros j Hj. rewrite Hps2 by done. by apply Hps1.
Qed.

Lemma quiet_weaken (bn bp bn' bp' : Z) (st st' : dtb_state) :
  quiet bn bp st st' -> bn' <= bn -> bp' <= bp -> quiet bn' bp' st st'.
Proof.
  intros [Hc Hn Hp Hns Hps] Hn' Hp'. constructor; try done.
  - intros i Hi. apply Hns. lia.
  - intros j Hj. apply Hps. lia.
Qed.

Lemma frame_quiet (h : nat) (bn bp : Z) (st st' : dtb_state) :
  frame b h bn bp st st' -> bn <= Z.of_nat h -> quiet bn bp st st'.
Proof.
  intros [] Hh. constructor; try done.
  intros i Hi. apply fr_nodes0; lia.
Qed.

Lemma quiet_settled (lo : nat) (st st' : dtb_state) :
  quiet (node_alloc_head st) (prop_alloc_head st) st st' -> settled b lo st st'.
Proof.
  intros [Hc Hn Hp Hns Hps]. constructor; try done.
  intros i nd _ Hi Hnd. exists nd. rewrite Hns by done. done.
Qed.

Lemma root_link_quiet (st1 st2 : dtb_state) (h : nat) (c r : option nodeptr) :
  table_step b st1 st2 0 0 (alter (set_sibling c) h) id id ->
  quiet (Z.of_nat h) (prop_alloc_head st1) st1 (set_root r st2).
Proof.
  intros Hs.
  pose proof (ts_nodes _ _ _ _ _ _ _ _ Hs) as Ens.
  pose proof (ts_props _ _ _ _ _ _ _ _ Hs) as Eps. unfold id in Eps.
  pose proof (ts_node_head _ _ _ _ _ _ _ _ Hs) as Eh.
  pose proof (ts_prop_head _ _ _ _ _ _ _ _ Hs) as Eph.
  constructor; simpl; try lia.
  - destruct (ts_config _ _ _ _ _ _ _ _ Hs). by constructor.
  - intros i Hi. change (nodes_of (set_root r st2) b) with (nodes_of st2 b).
    rewrite Ens, list_lookup_alter_ne by lia. done.
  - intros j Hj. change (props_of (set_root r st2) b) with (props_of st2 b).
    by rewrite Eps.
Qed.

Lemma init_sim_all : forall fuel, init_sim fuel.
Proof.
  induction fuel as [|fuel IH]; intros i st st' u Hwf Hcfg H; [discriminate|].
  pose proof Hcfg as (Hcs & Hstrs & Hcount).
  pose proof (wf_node_head _ _ Hwf) as Hh.
  pose proof (wf_prop_head _ _ Hwf) as Hph.
  destruct (dtb_init_loop_Ret _ _ _ _ _ H)
    as [(Hge & ->)
       |(Hlt & t & Htok &
         [(Ht & Hrest)
         |(Ht & sub & i1 & st1 & st2 & Hcall & Hlink & Hrest)])].
  - split; [done|]. split; [apply quiet_refl|]. exists [].
    rewrite scan_toplevel_S.
    replace (i <? count) with false by (symmetry; apply Z.ltb_ge; lia).
    split; [done|]. intros inh. exists inh.
    split; [done|]. split; [intros k Hk; lia|].
    intros rl Hrl. exists []. split; [done|constructor].
  - rewrite Hcs in Htok.
    destruct (IH _ _ _ _ Hwf Hcfg Hrest) as (Hwf' & Hq & tl & Htl & Hghost).
    split; [done|]. split; [done|]. exists tl. split; [|done].
    rewrite scan_toplevel_S, Htok.
    replace (i <? count) with true by (symmetry; apply Z.ltb_lt; lia).
    cbn [rbind].
    replace (t =? FDT_BEGIN_NODE) with false by (symmetry; by apply Z.eqb_neq).
    exact Htl.
  - rewrite Hcs in Htok.
    destruct (proj1 (parse_frames b fuel) _ _ _ _ _ _ _ Hwf Hcall) as [Hf1 Hr1].
    destruct (proj1 (parse_sim fuel) _ _ _ _ _ _ _ Hwf Hcfg Hcall)
      as (citems & Hnode & Hiff1 & Hghost1).
    cbv zeta in *. set (h := Z.to_nat (node_alloc_head st)) in *.
    pose proof (fr_wf _ _ _ _ _ _ Hf1) as Hwf1.
    pose proof (fr_node_head _ _ _ _ _ _ Hf1) as Hh1.
    pose proof (fr_prop_head _ _ _ _ _ _ Hf1) as Hp1.
    pose proof (fr_root _ _ _ _ _ _ Hf1) as Hroot1.
    assert (Hq1 : quiet (node_alloc_head st) (prop_alloc_head st) st st1).
    { apply (frame_quiet h); [exact Hf1|unfold h; lia]. }
    assert (Hcfg1 : cfg st1)
      by (eapply cfg_same_config; [exact Hcfg|apply (fr_config _ _ _ _ _ _ Hf1)]).
    assert (Htop : forall tl,
              scan_toplevel fuel cs count (u32 (i1 + 1)) = Ret tl ->
              scan_toplevel (S fuel) cs count i
              = Ret (match citems with Some _ => i :: tl | None => tl end)).
    { intros tl Htl. rewrite scan_toplevel_S, Htok.
      replace (i <? count) with true by (symmetry; apply Z.ltb_lt; lia).
      cbn [rbind]. rewrite Ht.
      change (FDT_BEGIN_NODE =? FDT_BEGIN_NODE) with true. cbn [negb].
      rewrite Hnode. cbn [rbind fst snd]. rewrite Htl. done. }
    destruct sub as [sub_root|].
    + destruct (Hr1 sub_root eq_refl) as (-> & Hlt1 & ndh & Hndh & _ & _ & Hnmh).
      rewrite Hcs in Hnmh.
      destruct Hlink as (st12 & Hw & ->).
      destruct (link_root_step b h st1 st12 Hwf1 Hw ltac:(unfold h; lia))
        as [Hs Hwf12].
      pose proof (ts_node_head _ _ _ _ _ _ _ _ Hs) as Hh2.
      pose proof (ts_prop_head _ _ _ _ _ _ _ _ Hs) as Hp2.
      assert (Hwf2 : wf b (set_root (Some (b, h)) st12)) by (by apply wf_set_root).
      assert (Hq12 : quiet (Z.of_nat h) (prop_alloc_head st1) st1
                           (set_root (Some (b, h)) st12))
        by (eapply root_link_quiet; exact Hs).
      assert (Hcfg2 : cfg (set_root (Some (b, h)) st12))
        by (eapply cfg_same_config; [exact Hcfg1|apply Hq12]).
      destruct (IH _ _ _ _ Hwf2 Hcfg2 Hrest) as (Hwf' & Hq2 & tl & Htl & Hghost2).
      simpl in Hq2.
      split; [done|]. split.
      { eapply quiet_trans; [exact Hq1|].
        eapply quiet_trans.
        - eapply quiet_weaken; [exact Hq12|unfold h; lia|lia].
        - eapply quiet_weaken; [exact Hq2|lia|lia]. }
      destruct citems as [ci|]; [|by destruct Hiff1 as [Hx _]; specialize (Hx eq_refl)].
      eexists. split; [exact (Htop _ Htl)|].
      intros inh.
      destruct (Hghost1 inh) as (inh1 & Hag1 & Hinh1 & Hfin1).
      destruct (Hghost2 inh1) as (inh2 & Hag2 & Hfin2 & Hgrow2).
      simpl in Hag2, Hfin2, Hgrow2.
      exists inh2. split; [|split].
      * intros k Hk. rewrite Hag2 by lia. by apply Hag1.
      * intros k Hk. destruct (decide (Z.of_nat k < node_alloc_head st1)) as [Hk1|Hk1].
        -- apply (fin_settled inh1 inh2 h k st1 st').
           ++ apply Hfin1. lia.
           ++ eapply settled_trans.
              ** eapply root_link_settled. exact Hs.
              ** apply quiet_settled. exact Hq2.
           ++ unfold h. lia.
           ++ done.
           ++ lia.
           ++ intros c' _ Hc'. apply Hag2. lia.
        -- apply Hfin2. lia.
      * intros rl Hrl.
        assert (Hh2' : nodes_of st12 b !! h = Some (set_sibling (root st1) ndh)).
        { by rewrite (ts_nodes _ _ _ _ _ _ _ _ Hs), list_lookup_alter_eq, Hndh. }
        assert (Hrl2 : node_chain b (nodes_of st12 b) (Z.to_nat (node_alloc_head st12))
                         (Some (b, h)) (h :: rl)).
        { econstructor; [unfold h; lia|exact Hh2'|]. simpl. rewrite Hroot1.
          eapply node_chain_frame; [exact Hrl|].
          intros k Hk. fold h in Hk.
          rewrite (ts_nodes _ _ _ _ _ _ _ _ Hs), list_lookup_alter_ne by lia.
          apply (q_nodes _ _ _ _ Hq1). unfold h in Hk. lia. }
        destruct (Hgrow2 _ Hrl2) as (nrl & Hchain & Hall).
        exists (nrl ++ [h]). split; [by rewrite <- app_assoc|].
        unfold top_pairs. cbn [fmap list_fmap rev]. apply Forall2_app.
        -- eapply kid_ok_weaken; [exact Hall|]. lia.
        -- constructor; [|constructor]. split; [done|].
           exists (set_sibling (root st1) ndh). split; [|split; [done|]].
           ++ rewrite (q_nodes _ _ _ _ Hq2 h); [done|]. simpl. unfold h. lia.
           ++ rewrite Hag2 by (simpl; unfold h; lia). by apply Hinh1.
    + subst st2.
      destruct (IH _ _ _ _ Hwf1 Hcfg1 Hrest) as (Hwf' & Hq2 & tl & Htl & Hghost2).
      split; [done|]. split.
      { eapply quiet_trans; [exact Hq1|].
        eapply quiet_weaken; [exact Hq2|lia|lia]. }
      destruct citems as [ci|]; [by destruct Hiff1 as [_ Hx]; specialize (Hx eq_refl)|].
      eexists. split; [exact (Htop _ Htl)|].
      intros inh.
      destruct (Hghost1 inh) as (inh1 & Hag1 & Hinh1 & Hfin1).
      destruct (Hghost2 inh1) as (inh2 & Hag2 & Hfin2 & Hgrow2).
      exists inh2. split; [|split].
      * intros k Hk. rewrite Hag2 by lia. by apply Hag1.
      * intros k Hk. destruct (decide (Z.of_nat k < node_alloc_head st1)) as [Hk1|Hk1].
        -- apply (fin_settled inh1 inh2 h k st1 st').
           ++ apply Hfin1. lia.
           ++ apply quiet_settled. exact Hq2.
           ++ unfold h. lia.
           ++ done.
           ++ lia.
           ++ intros c' _ Hc'. apply Hag2. lia.
        -- apply Hfin2. lia.
      * intros rl Hrl.
        assert (Hrl1 : node_chain b (nodes_of st1 b) (Z.to_nat (node_alloc_head st1))
                         (root st1) rl).
        { rewrite Hroot1.
          apply (node_chain_weaken _ _ (Z.to_nat (node_alloc_head st))); [|lia].
          eapply node_chain_frame; [exact Hrl|].
          intros k Hk. apply (q_nodes _ _ _ _ Hq1). lia. }
        destruct (Hgrow2 _ Hrl1) as (nrl & Hchain & Hall).
        exists nrl. split; [done|].
        eapply kid_ok_weaken; [exact Hall|]. lia.
Qed.

End Simulation.

(** ** The tree after [dtb_init] *)

(** [dtb_get_sibling] follows the chain. *)
Lemma siblings_from_chain (st : dtb_state) (b : nat) bound c l :
  node_chain b (nodes_of st b) bound c l ->
  is_live st b ->
  forall fuel, (length l <= fuel)%nat ->
    siblings_from fuel st c = Ret ((fun i => (b, i)) <$> l).
Proof.
  intros Hc Hlive. induction Hc as [|bound i n l Hi Hn Hc IH]; intros fuel Hf.
  - by destruct fuel.
  - destruct fuel as [|fuel]; [simpl in Hf; lia|]. cbn [siblings_from dtb_get_sibling].
    rewrite (proj2 (read_node_of st b i n) (conj Hlive Hn)). cbn [rbind].
    rewrite IH by (simpl in Hf; lia). done.
Qed.

Lemma iter_children_chain (st : dtb_state) (b k : nat) (nd : dtb_node) bound l :
  read_node st (b, k) = Ret nd ->
  node_chain b (nodes_of st b) bound (child nd) l ->
  is_live st b ->
  iter_children st (b, k) = Ret ((fun i => (b, i)) <$> l).
Proof.
  intros Hnd Hc Hlive. unfold iter_children, dtb_get_child. rewrite Hnd. cbn [rbind].
  eapply siblings_from_chain; eauto.
  pose proof (node_chain_length _ _ _ _ _ Hc). pose proof (nodes_of_slots st b). lia.
Qed.

(** The state [dtb_init] leaves behind on a fresh parser: unless it stopped
    early, every parsed node is parsed to its end and the root list holds the
    top-level nodes, last one first. *)
Lemma init_tree (start : cptr) (o : dtb_ops) (st : dtb_state) :
  dtb_init start o state0 = Ret (tt, st) ->
  (node_buff st = None /\ root st = None /\ cell_count st = 0 /\
   node_alloc_head st = 0 /\ prop_alloc_head st = 0) \/
  (wf 0 st /\ hinv 0 st /\
   exists tl inh rl,
     scan_toplevel (init_fuel (cell_count st)) (cells st) (cell_count st) 0 = Ret tl /\
     fin_range 0 (cells st) (strings st) (cell_count st) inh st 0
               (node_alloc_head st) /\
     node_chain 0 (nodes_of st 0) (Z.to_nat (node_alloc_head st)) (root st) rl /\
     Forall2 (kid_ok (cells st) 0 (nodes_of st 0) inh) rl (rev (top_pairs tl))).
Proof.
  intros Hinit.
  destruct (dtb_init_Ret _ _ _ _ Hinit)
    as [(_ & Hnb & Hr & Hc & Hh0 & Hp0)
       |(st1 & Hwf1 & Hi1 & Hroot & Hh & Hp & Hcnt & Hloop)];
    [by left|right].
  destruct (init_loop_hinv 0 _ _ _ _ _ Hwf1 Hi1 Hloop) as [Hwf Hi].
  split; [done|]. split; [done|].
  destruct (init_sim_all 0 (cells st1) (strings st1) (cell_count st1)
              _ _ _ _ _ Hwf1 ltac:(done) Hloop) as (_ & Hq & tl & Htl & Hghost).
  destruct (Hghost (fun _ => (0, 0))) as (inh & _ & Hfin & Hgrow).
  destruct (Hgrow [] ltac:(rewrite Hroot; constructor)) as (rl & Hrl & Hall).
  rewrite app_nil_r in Hrl. rewrite Hh in Hfin, Hall. simpl in Hall.
  pose proof (sc_cells _ _ (q_config _ _ _ _ _ Hq)) as Ec.
  pose proof (sc_strings _ _ (q_config _ _ _ _ _ Hq)) as Es.
  pose proof (sc_cell_count _ _ (q_config _ _ _ _ _ Hq)) as Ecc.
  exists tl, inh, rl. rewrite Ec, Es, Ecc. done.
Qed.

(** X1.  The bump allocators never hand out the last slot the pre-scan counted:
    after [dtb_init] on a fresh parser fewer nodes, and fewer properties, are
    in use than were counted, unless none is. *)
Lemma last_slot_is_never_handed_out (start : cptr) (o : dtb_ops) (st : dtb_state) :
  dtb_init start o state0 = Ret (tt, st) ->
  (node_alloc_head st = 0 \/ node_alloc_head st < node_alloc_max st) /\
  (prop_alloc_head st = 0 \/ prop_alloc_head st < prop_alloc_max st).
Proof.
  intros Hinit.
  destruct (init_tree _ _ _ Hinit) as [(_ & _ & _ & Hh & Hp)|(Hwf & _)].
  - split; by left.
  - split; [apply (wf_node_room _ _ Hwf)|apply (wf_prop_room _ _ Hwf)].
Qed.

Lemma last_slot_is_never_handed_out_witness :
  (node_alloc_head board_state = 0 \/
   node_alloc_head board_state < node_alloc_max board_state) /\
  (prop_alloc_head board_state = 0 \/
   prop_alloc_head board_state < prop_alloc_max board_state).
Proof.
  apply (last_slot_is_never_handed_out (board 1 2) all_ops board_state).
  vm_compute; reflexivity.
Defined.

Lemma rev_fmap {A B : Type} (f : A -> B) (l : list A) : rev (f <$> l) = f <$> rev l.
Proof.
  induction l as [|x l IH]; [done|].
  change (rev (f <$> l) ++ [f x] = f <$> (rev l ++ [x])).
  by rewrite IH, fmap_app.
Qed.

Lemma parsed_done (st : dtb_state) (inh : nat -> Z * Z) (N : nodeptr) (nd : dtb_node)
    (offset : Z) (fuel : nat) (items : list item) (offset' : Z) :
  wf 0 st ->
  fin_range 0 (cells st) (strings st) (cell_count st) inh st 0 (node_alloc_head st) ->
  parsed st N ->
  read_node st N = Ret nd ->
  node_name nd = node_name_at (cells st) offset ->
  fdt_node fuel (cells st) (cell_count st) offset = Ret (Some items, offset') ->
  exists k, N = (0%nat, k) /\
            done_ok 0 (cells st) (strings st) inh st k nd items.
Proof.
  intros Hwf Hfin [Hb Hk] Hnd Hname Hspec. destruct N as [b k]. simpl in Hb, Hk.
  rewrite (wf_node_buff _ _ Hwf) in Hb. injection Hb as <-.
  exists k. split; [done|].
  eapply (Hfin k); eauto; [lia|]. by apply read_node_nodes_of.
Qed.

Lemma done_children (st : dtb_state) (inh : nat -> Z * Z) (k : nat) (nd : dtb_node)
    (items : list item) :
  wf 0 st ->
  read_node st (0%nat, k) = Ret nd ->
  done_ok 0 (cells st) (strings st) inh st k nd items ->
  exists cl kc,
    iter_children st (0%nat, k) = Ret ((fun i => (0%nat, i)) <$> cl) /\
    kids_cells (cells st) (strings st) (inh k) items = Ret kc /\
    Forall2 (fun c ov => node_of_token st (0%nat, c) ov.1 /\ inh c = ov.2) cl (rev kc).
Proof.
  intros Hwf Hnd [(cl & kc & Hcl & Hkc & Hall) _ _].
  exists cl, kc. split; [|split; [done|]].
  - eapply iter_children_chain; eauto. by apply wf_live.
  - eapply Forall2_impl; [exact Hall|].
    intros c ov (_ & n & Hn & Hnm & Hi). split; [|done].
    exists n. split; [by apply wf_read_node|done].
Qed.

Lemma done_props (st : dtb_state) (inh : nat -> Z * Z) (k : nat) (nd : dtb_node)
    (items : list item) :
  wf 0 st ->
  read_node st (0%nat, k) = Ret nd ->
  done_ok 0 (cells st) (strings st) inh st k nd items ->
  exists pl,
    iter_props st (0%nat, k) = Ret ((fun j => (0%nat, j)) <$> pl) /\
    Forall2 (fun j o => prop_of_token st (0%nat, j) o) pl (rev (prop_offsets items)).
Proof.
  intros Hwf Hnd [_ (pl & Hpl & Hall) _].
  exists pl. split.
  - eapply iter_props_chain; eauto; [by apply wf_live|by eapply wf_chain_short].
  - eapply Forall2_impl; [exact Hall|].
    intros j o (p & Hp & Hrest). exists p. split; [by apply wf_read_prop|done].
Qed.

(** C7.  After [dtb_init] on a fresh parser, take a parsed node [N], made for
    the BEGIN_NODE token at [offset] whose body, up to its END_NODE, is
    [items].  Walking its children with [dtb_get_child] and then
    [dtb_get_sibling] gives exactly the nodes of the child tokens of [items],
    last token first; asking [dtb_get_prop] for index 0, 1, 2, ... gives
    exactly the properties of the PROP tokens of [items], last token first. *)
Theorem lists_are_in_reverse_blob_order (start : cptr) (o : dtb_ops) (st : dtb_state)
    (N : nodeptr) (nd : dtb_node) (offset : Z) (fuel : nat) (items : list item)
    (offset' : Z) :
  dtb_init start o state0 = Ret (tt, st) ->
  parsed st N ->
  read_node st N = Ret nd ->
  node_name nd = node_name_at (cells st) offset ->
  fdt_node fuel (cells st) (cell_count st) offset = Ret (Some items, offset') ->
  exists kids props,
    iter_children st N = Ret kids /\
    Forall2 (node_of_token st) kids (rev (kid_offsets items)) /\
    iter_props st N = Ret props /\
    Forall2 (prop_of_token st) props (rev (prop_offsets items)).
Proof.
  intros Hinit Hparsed Hnd Hname Hspec.
  destruct (init_tree _ _ _ Hinit)
    as [(Hnb & _)|(Hwf & _ & tl & inh & rl & _ & Hfin & _)].
  { destruct Hparsed as [Hb _]. congruence. }
  destruct (parsed_done st inh N nd offset fuel items offset' Hwf Hfin Hparsed Hnd
              Hname Hspec) as (k & -> & Hdone).
  destruct (done_children st inh k nd items Hwf Hnd Hdone) as (cl & kc & Hkids & Hkc & Hall).
  destruct (done_props st inh k nd items Hwf Hnd Hdone) as (pl & Hprops & Hpall).
  eexists _, _. split; [exact Hkids|]. split; [|split; [exact Hprops|]].
  - rewrite <- (kids_cells_offsets _ _ _ _ _ Hkc), rev_fmap.
    apply Forall2_fmap. eapply Forall2_impl; [exact Hall|].
    by intros c ov [H _].
  - apply Forall2_fmap_l. exact Hpall.
Qed.

Lemma lists_are_in_reverse_blob_order_witness :
  dtb_init (board 1 2) all_ops state0 = Ret (tt, board_state) /\
  fdt_node 50 (cells board_state) (cell_count board_state) 10
  = Ret (Some [IProp 13; IProp 17; INode 21; INode 33], 46) /\
  exists kids props,
    iter_children board_state (0, 1)%nat = Ret kids /\
    Forall2 (node_of_token board_state) kids [33; 21] /\
    iter_props board_state (0, 1)%nat = Ret props /\
    Forall2 (prop_of_token board_state) props [17; 13].
Proof.
  split; [vm_compute; reflexivity|]. split; [vm_compute; reflexivity|].
  apply (lists_are_in_reverse_blob_order (board 1 2) all_ops board_state (0, 1)%nat
           board_cpus 10 50 [IProp 13; IProp 17; INode 21; INode 33] 46).
  - vm_compute; reflexivity.
  - split; [reflexivity|vm_compute; reflexivity].
  - vm_compute; reflexivity.
  - vm_compute; reflexivity.
  - vm_compute; reflexivity.
Defined.

Lemma Forall2_Forall_left {A B : Type} (P : A -> B -> Prop) (Q : B -> Prop)
    (R : A -> Prop) (l : list A) (k : list B) :
  Forall2 P l k -> Forall Q k -> (forall x y, P x y -> Q y -> R x) -> Forall R l.
Proof.
  induction 1 as [|x y l k Hxy _ IH]; intros Hk Himp; [constructor|].
  inversion Hk; subst. constructor; [by eapply Himp|by apply IH].
Qed.

Lemma top_pairs_default (tl : list Z) :
  Forall (fun ov : Z * (Z * Z) => ov.2 = (2, 1)) (rev (top_pairs tl)).
Proof.
  unfold top_pairs. rewrite rev_fmap. apply Forall_fmap, Forall_forall. done.
Qed.


(** C8.  After [dtb_init] on a fresh parser every node's addr_cells and
    size_cells are the values its parent held when the node's BEGIN_NODE was
    reached (2 and 1 for a top-level node), overridden by the node's own
    [#address-cells] and [#size-cells] properties: there is a record of the
    pairs the nodes were made with that satisfies [inherits]. *)
Theorem cells_are_inherited_then_overridden (start : cptr) (o : dtb_ops)
    (st : dtb_state) :
  dtb_init start o state0 = Ret (tt, st) ->
  exists inh : nodeptr -> Z * Z, inherits st inh.
Proof.
  intros Hinit.
  destruct (init_tree _ _ _ Hinit)
    as [(Hnb & Hroot & _)|(Hwf & _ & tl & inh & rl & Htl & Hfin & Hrl & Htops)].
  { exists (fun _ => (2, 1)). split.
    - exists []. rewrite Hroot. split; [done|constructor].
    - intros N nd offset fuel items offset' [Hb _]. congruence. }
  exists (fun N => inh N.2). split.
  - exists ((fun i => (0%nat, i)) <$> rl). split.
    + eapply siblings_from_chain; [exact Hrl|by apply wf_live|].
      pose proof (node_chain_length _ _ _ _ _ Hrl).
      pose proof (nodes_of_slots st 0). lia.
    + apply Forall_fmap.
      eapply Forall2_Forall_left; [exact Htops|apply top_pairs_default|].
      intros c ov (_ & n & _ & _ & Hi) Hov. simpl. congruence.
  - intros N nd offset fuel items offset' Hparsed Hnd Hname Hspec.
    destruct (parsed_done st inh N nd offset fuel items offset' Hwf Hfin Hparsed Hnd
                Hname Hspec) as (k & -> & Hdone).
    split; [apply (dk_cells _ _ _ _ _ _ _ _ Hdone)|].
    destruct (done_children st inh k nd items Hwf Hnd Hdone)
      as (cl & kc & Hkids & Hkc & Hall).
    eexists _, kc. split; [exact Hkids|]. split; [exact Hkc|].
    apply Forall2_fmap_l. exact Hall.
Qed.









Lemma cells_are_inherited_then_overridden_witness :
  dtb_init (board 1 2) all_ops state0 = Ret (tt, board_state) /\
  exists inh : nodeptr -> Z * Z, inherits board_state inh.
Proof.
  split; [vm_compute; reflexivity|].
  apply (cells_are_inherited_then_overridden (board 1 2) all_ops board_state).
  vm_compute; reflexivity.
Defined.


(** The names [check_for_special_prop] acts on. *)
Lemma classify_name_examples :
  classify_name (cstr "phandle") = Ret SpHandle /\
  classify_name (cstr "linux,phandle") = Ret SpHandle /\
  classify_name (cstr "#address-cells") = Ret SpAddrCells /\
  classify_name (cstr "#size-cells") = Ret SpSizeCells /\
  classify_name (cstr "reg") = Ret SpNone /\
  classify_name (cstr "phandles") = Ret SpNone /\
  classify_name (cstr "#size-cell") = Ret SpNone.
Proof. repeat split; vm_compute; reflexivity. Qed.

(** ** Fuel

    The fuel [dtb_init] gives its scanning loop is enough for any blob: the
    parser may fault, but if it does not it returns. *)

Lemma rbind_Fuel {A B : Type} (m : res A) (k : A -> res B) :
  rbind m k = OutOfFuel -> m = OutOfFuel \/ exists a, m = Ret a /\ k a = OutOfFuel.
Proof. destruct m; simpl; try discriminate; eauto. Qed.

Lemma bind_Fuel {A B : Type} (m : M A) (k : A -> M B) (st : dtb_state) :
  bind m k st = OutOfFuel ->
  m st = OutOfFuel \/ exists a st1, m st = Ret (a, st1) /\ k a st1 = OutOfFuel.
Proof.
  unfold bind. destruct (m st) as [[a st1]| |]; try discriminate; eauto.
Qed.

Lemma of_option_Fuel {A : Type} (f : fault) (o : option A) : of_option f o <> OutOfFuel.
Proof. by destruct o. Qed.

Lemma load8_Fuel (p : cptr) : load8 p <> OutOfFuel.
Proof. unfold load8. by destruct (bytes_from p). Qed.

Lemma load32_Fuel (p : cptr) : load32 p <> OutOfFuel.
Proof. unfold load32. by destruct (bytes_from p) as [|? [|? [|? [|? ?]]]]. Qed.

Lemma bytes_from_length (p : cptr) : (length (bytes_from p) <= length (mem p))%nat.
Proof.
  unfold bytes_from. destruct (off p <? 0); [simpl; lia|].
  rewrite length_drop. lia.
Qed.

(** The counter of a scan does not wrap on an object of less than 4 GiB. *)
Lemma string_len_from_Fuel (l : list Z) :
  forall n, n + Z.of_nat (length l) <= 4294967295 -> string_len_from l n <> OutOfFuel.
Proof.
  induction l as [|c l IH]; intros n Hn; [discriminate|].
  simpl in *. destruct (c =? 0); [discriminate|].
  replace (n =? 4294967295) with false by (symmetry; apply Z.eqb_neq; lia).
  apply IH. lia.
Qed.

Lemma string_len_Fuel (p : cptr) :
  Z.of_nat (length (mem p)) < 4294967296 -> string_len p <> OutOfFuel.
Proof.
  intros Hp. unfold string_len. apply string_len_from_Fuel.
  pose proof (bytes_from_length p). lia.
Qed.

Lemma strings_eq_from_Fuel (l m : list Z) :
  forall n, n + Z.of_nat (length m) <= 4294967295 -> strings_eq_from l m n <> OutOfFuel.
Proof.
  revert m. induction l as [|c l IH]; intros [|d m] n Hn; simpl in *; try discriminate.
  destruct (c =? d); [|discriminate]. destruct (c =? 0); [discriminate|].
  replace (n =? 4294967295) with false by (symmetry; apply Z.eqb_neq; lia).
  apply IH. lia.
Qed.

Lemma strings_eq_Fuel (p q : cptr) :
  Z.of_nat (length (mem q)) < 4294967296 -> strings_eq p q <> OutOfFuel.
Proof.
  intros Hq. unfold strings_eq. apply strings_eq_from_Fuel.
  pose proof (bytes_from_length q). lia.
Qed.

Lemma same_name_Fuel (n : Z) (p q : cptr) :
  Z.of_nat (length (mem q)) < 4294967296 -> same_name n p q <> OutOfFuel.
Proof.
  intros Hq. unfold same_name. intros H. apply rbind_Fuel in H as [H|(len & _ & H)].
  - by apply string_len_Fuel in H.
  - destruct (n =? len); [by apply strings_eq_Fuel in H|discriminate].
Qed.

Lemma read_block_Fuel (st : dtb_state) (b : nat) : read_block st b <> OutOfFuel.
Proof. unfold read_block. destruct (heap st !! b) as [blk|]; [by destruct (live blk)|done]. Qed.

Lemma read_node_Fuel (st : dtb_state) (p : nodeptr) : read_node st p <> OutOfFuel.
Proof.
  unfold read_node. intros H. apply rbind_Fuel in H as [H|(blk & _ & H)].
  - by apply read_block_Fuel in H.
  - by apply of_option_Fuel in H.
Qed.

Lemma read_prop_Fuel (st : dtb_state) (p : propptr) : read_prop st p <> OutOfFuel.
Proof.
  unfold read_prop. intros H. apply rbind_Fuel in H as [H|(blk & _ & H)].
  - by apply read_block_Fuel in H.
  - by apply of_option_Fuel in H.
Qed.

Lemma write_node_Fuel (p : nodeptr) f (st : dtb_state) : write_node p f st <> OutOfFuel.
Proof.
  unfold write_node. intros H. apply rbind_Fuel in H as [H|(blk & _ & H)].
  - by apply read_block_Fuel in H.
  - apply rbind_Fuel in H as [H|(n & _ & H)]; [by apply of_option_Fuel in H|done].
Qed.

Lemma write_prop_Fuel (p : propptr) f (st : dtb_state) : write_prop p f st <> OutOfFuel.
Proof.
  unfold write_prop. intros H. apply rbind_Fuel in H as [H|(blk & _ & H)].
  - by apply read_block_Fuel in H.
  - apply rbind_Fuel in H as [H|(n & _ & H)]; [by apply of_option_Fuel in H|done].
Qed.

Lemma write_handle_Fuel (h : Z) (n : nodeptr) (st : dtb_state) :
  write_handle h n st <> OutOfFuel.
Proof.
  unfold write_handle. intros H. apply rbind_Fuel in H as [H|(b & _ & H)].
  - by apply of_option_Fuel in H.
  - apply rbind_Fuel in H as [H|(blk & _ & H)]; [by apply read_block_Fuel in H|].
    apply rbind_Fuel in H as [H|(x & _ & H)]; [by apply of_option_Fuel in H|done].
Qed.

Lemma extract_cells_Fuel (remaining : nat) :
  forall cells i vals vbase, extract_cells remaining cells i vals vbase <> OutOfFuel.
Proof.
  induction remaining as [|remaining IH]; intros cells i vals vbase; [discriminate|].
  cbn [extract_cells]. intros H. apply rbind_Fuel in H as [H|(c & _ & H)].
  - by apply load32_Fuel in H.
  - apply rbind_Fuel in H as [H|(x & _ & H)]; [by apply of_option_Fuel in H|].
    by apply IH in H.
Qed.

Lemma read_prop_cell_array_loop_Fuel (remaining : nat) :
  forall first i cell_count vals,
    read_prop_cell_array_loop remaining first i cell_count vals <> OutOfFuel.
Proof.
  induction remaining as [|remaining IH]; intros first i cc vals; [discriminate|].
  cbn [read_prop_cell_array_loop]. intros H. apply rbind_Fuel in H as [H|(v & _ & H)].
  - by apply extract_cells_Fuel in H.
  - by apply IH in H.
Qed.

Lemma dtb_read_prop_cell_array_Fuel (st : dtb_state) prop cell_count vals :
  dtb_read_prop_cell_array st prop cell_count vals <> OutOfFuel.
Proof.
  unfold dtb_read_prop_cell_array. destruct prop as [prop|]; [|discriminate].
  destruct (cell_count =? 0); [discriminate|]. intros H.
  apply rbind_Fuel in H as [H|(p & _ & H)]; [by apply read_prop_Fuel in H|].
  apply rbind_Fuel in H as [H|(len & _ & H)]; [by apply load32_Fuel in H|].
  destruct (u32 (cell_count * FDT_CELL_SIZE) =? 0); [discriminate|].
  destruct vals as [buf|]; [|discriminate].
  apply rbind_Fuel in H as [H|(buf' & _ & H)]; [|discriminate].
  by apply read_prop_cell_array_loop_Fuel in H.
Qed.

Lemma read_local_cell_Fuel (st : dtb_state) (prop : propptr) :
  read_local_cell st prop <> OutOfFuel.
Proof.
  unfold read_local_cell. intros H. apply rbind_Fuel in H as [H|([count vals] & _ & H)].
  - by apply dtb_read_prop_cell_array_Fuel in H.
  - destruct (count =? 0); [discriminate|]. by destruct vals as [[|x l]|].
Qed.

(** Closes a goal with a hypothesis that says a function without fuel ran
    out of it. *)
Ltac fuel_absurd :=
  match goal with
  | H : ?x = OutOfFuel |- _ =>
      first [ discriminate H
            | by apply load32_Fuel in H
            | by apply load8_Fuel in H
            | by (exfalso; eapply same_name_Fuel; [|exact H]; vm_compute; reflexivity)
            | by apply of_option_Fuel in H
            | by apply read_node_Fuel in H
            | by apply read_prop_Fuel in H
            | by apply write_node_Fuel in H
            | by apply write_prop_Fuel in H
            | by apply write_handle_Fuel in H
            | by apply read_local_cell_Fuel in H
            | by (unfold read_cell in H; apply load32_Fuel in H) ]
  end.

(** Splits a hypothesis [m st = OutOfFuel] along the binds of [m]. *)
Ltac finv H :=
  lazymatch type of H with
  | bind _ _ _ = OutOfFuel =>
      let a := fresh "a" in
      let s := fresh "st" in
      let H1 := fresh "Hstep" in
      apply bind_Fuel in H; destruct H as [H|(a & s & H1 & H)];
      [finv H|minv H1; cbv beta in H; finv H]
  | gets _ _ = OutOfFuel => discriminate H
  | modify _ _ = OutOfFuel => discriminate H
  | ret _ _ = OutOfFuel => discriminate H
  | fail _ _ = OutOfFuel => discriminate H
  | reads _ _ = OutOfFuel =>
      unfold reads in H; apply rbind_Fuel in H;
      destruct H as [H|(? & ? & H)]; [try fuel_absurd|discriminate H]
  | update _ _ = OutOfFuel =>
      unfold update in H; apply rbind_Fuel in H;
      destruct H as [H|(? & ? & H)]; [try fuel_absurd|discriminate H]
  | lift _ _ = OutOfFuel =>
      unfold lift in H; apply rbind_Fuel in H;
      destruct H as [H|(? & ? & H)]; [try fuel_absurd|discriminate H]
  | call_on_error _ _ = OutOfFuel =>
      unfold call_on_error in H;
      match type of H with
      | (if ?c then _ else _) = _ => destruct c; discriminate H
      end
  | _ => idtac
  end.

Lemma alloc_node_Fuel (st : dtb_state) : alloc_node st <> OutOfFuel.
Proof.
  unfold alloc_node. intros H. finv H.
  destruct (u32 (node_alloc_head st + 1) <? node_alloc_max st); finv H.
  destruct (node_buff st); finv H.
Qed.

Lemma alloc_prop_Fuel (st : dtb_state) : alloc_prop st <> OutOfFuel.
Proof.
  unfold alloc_prop. intros H. finv H.
  destruct (u32 (prop_alloc_head st + 1) <? prop_alloc_max st); finv H.
  destruct (prop_buff st); finv H.
Qed.

Lemma check_for_special_prop_Fuel (node : nodeptr) (prop : propptr) (st : dtb_state) :
  (forall p, read_prop st prop = Ret p ->
             Z.of_nat (length (mem (prop_name p))) < 4294967296) ->
  check_for_special_prop node prop st <> OutOfFuel.
Proof.
  intros Hname. unfold check_for_special_prop. intros H. finv H.
  repeat (lazymatch type of H with
          | (if ?c then _ else _) _ = _ => destruct c
          end; finv H).
  all: exfalso; eapply string_len_Fuel; [|exact H]; by apply Hname.
Qed.

Lemma parse_prop_Fuel (offset : Z) (st : dtb_state) : parse_prop offset st <> OutOfFuel.
Proof.
  unfold parse_prop. intros H. finv H.
  match type of H with
  | (if ?c then _ else _) _ = _ => destruct c
  end; finv H.
  - by apply alloc_prop_Fuel in H.
  - match type of H with
    | match ?p with _ => _ end _ = _ => destruct p
    end; finv H.
Qed.

(** A call of [parse_node] that runs out of fuel does so in its loop. *)
Lemma parse_node_Fuel (b : nat) (fuel : nat) (offset ac sc : Z) (st : dtb_state) :
  wf b st ->
  Z.of_nat (length (mem (cells st))) < 4294967296 ->
  parse_node (S fuel) offset ac sc st = OutOfFuel ->
  token_at (cells st) offset = Ret FDT_BEGIN_NODE /\
  exists st1 offset1,
    let k := Z.to_nat (node_alloc_head st) in
    after_name (cells st) offset = Ret offset1 /\
    table_step b st st1 1 0
      (<[k := Node None None None None (node_name_at (cells st) offset) ac sc]>)
      id id /\
    wf b st1 /\
    parse_node_loop fuel (b, k) offset1 st1 = OutOfFuel.
Proof.
  intros Hwf Hmem H. cbn [parse_node] in H. finv H.
  match goal with
  | Hr : read_cell st offset = Ret _ |- _ => apply read_cell_token in Hr as Htok
  end.
  match type of H with
  | (if negb (?t =? _) then _ else _) _ = _ => destruct (t =? FDT_BEGIN_NODE) eqn:Ht
  end; cbn [negb] in H; [|finv H].
  apply Z.eqb_eq in Ht. rewrite Ht in Htok. split; [exact Htok|].
  finv H; [by apply alloc_node_Fuel in H|].
  match goal with
  | Ha : alloc_node st = Ret (?o, _) |- _ => destruct o as [node|]; [|discriminate]
  end.
  match goal with
  | Ha : alloc_node st = Ret (_, ?s0) |- _ =>
      assert (Hcs0 : cells s0 = cells st)
        by (destruct (alloc_node_step b _ _ _ Hwf Ha) as (_ & _ & Hs0);
            apply (sc_cells _ _ (ts_config _ _ _ _ _ _ _ _ Hs0)))
  end.
  finv H.
  { exfalso. eapply string_len_Fuel; [|exact H]. simpl. by rewrite Hcs0. }
  match goal with
  | Ha : alloc_node st = Ret _,
    H1 : write_node _ (set_node_name _) _ = Ret _,
    H2 : write_node _ (set_addr_cells _) _ = Ret _,
    H3 : write_node _ (set_size_cells _) _ = Ret _ |- _ =>
      destruct (enter_node_step b _ _ _ _ _ _ _ _ _ Hwf Ha H1 H2 H3)
        as (-> & Hk & Hs & Hwf1 & Hcs)
  end.
  rewrite Hcs0 in *.
  match type of H with
  | parse_node_loop _ _ ?o ?s = _ => exists s, o
  end.
  cbv zeta. unfold after_name, node_name_at. use_reads.
  split; [reflexivity|]. split; [exact Hs|]. split; [exact Hwf1|exact H].
Qed.

(** A run of the loop that runs out of fuel does so in a call it makes or
    in its next turn. *)
Lemma parse_node_loop_Fuel (fuel : nat) (node : nodeptr) (offset : Z) (st : dtb_state) :
  parse_node_loop (S fuel) node offset st = OutOfFuel ->
  offset < cell_count st /\
  exists t,
    token_at (cells st) offset = Ret t /\
    ((t = FDT_BEGIN_NODE /\
      exists n,
        read_node st node = Ret n /\
        (parse_node fuel offset (addr_cells n) (size_cells n) st = OutOfFuel \/
         exists c o1 st1 st2,
           parse_node fuel offset (addr_cells n) (size_cells n) st
           = Ret ((c, o1), st1) /\
           match c with
           | Some cp => link_child_run node cp st1 st2
           | None => st2 = st1
           end /\
           parse_node_loop fuel node o1 st2 = OutOfFuel)) \/
     (t = FDT_PROP /\
      exists pp o1 st1,
        parse_prop offset st = Ret ((pp, o1), st1) /\
        ((exists prop st12,
            pp = Some prop /\ link_prop_run node prop st1 st12 /\
            check_for_special_prop node prop st12 = OutOfFuel) \/
         exists st2,
           match pp with
           | Some prop =>
               exists st12 u,
                 link_prop_run node prop st1 st12 /\
                 check_for_special_prop node prop st12 = Ret (u, st2)
           | None => st2 = st1
           end /\
           parse_node_loop fuel node o1 st2 = OutOfFuel)) \/
     (t <> FDT_END_NODE /\ t <> FDT_BEGIN_NODE /\ t <> FDT_PROP /\
      parse_node_loop fuel node (u32 (offset + 1)) st = OutOfFuel)).
Proof.
  intros H. cbn [parse_node_loop] in H. finv H.
  destruct (offset <? cell_count st) eqn:Hlt; [|finv H].
  apply Z.ltb_lt in Hlt. split; [exact Hlt|]. finv H.
  match goal with
  | Hr : read_cell st offset = Ret _ |- _ => apply read_cell_token in Hr as Htok
  end.
  eexists. split; [exact Htok|].
  match type of H with
  | (if ?t =? _ then _ else _) _ = _ => destruct (t =? FDT_END_NODE) eqn:Hend
  end; [finv H|].
  apply Z.eqb_neq in Hend.
  match type of H with
  | (if ?t =? _ then _ else _) _ = _ => destruct (t =? FDT_BEGIN_NODE) eqn:Hbeg
  end.
  { left. apply Z.eqb_eq in Hbeg. split; [exact Hbeg|]. finv H.
    - eexists. split; [eassumption|]. by left.
    - match goal with
      | Hp : parse_node _ _ _ _ _ = Ret (?res, _) |- _ => destruct res as [c o1]
      end.
      cbv beta iota in H. eexists. split; [eassumption|]. right.
      destruct c as [cp|].
      + finv H. eexists (Some cp), _, _, _.
        split; [eassumption|]. split; [|exact H].
        eexists _, _, _. eauto.
      + eexists None, _, _, _.
        split; [eassumption|]. split; [reflexivity|exact H]. }
  apply Z.eqb_neq in Hbeg. right.
  match type of H with
  | (if ?t =? _ then _ else _) _ = _ => destruct (t =? FDT_PROP) eqn:Hprop
  end.
  { left. apply Z.eqb_eq in Hprop. split; [exact Hprop|]. finv H.
    - by apply parse_prop_Fuel in H.
    - match goal with
      | Hp : parse_prop _ _ = Ret (?res, _) |- _ => destruct res as [pp o1]
      end.
      cbv beta iota in H. destruct pp as [prop|].
      + finv H.
        * eexists (Some prop), _, _. split; [eassumption|]. left.
          eexists prop, _. split; [reflexivity|]. split; [|exact H].
          eexists _, _. eauto.
        * eexists (Some prop), _, _. split; [eassumption|]. right.
          eexists. split; [|exact H].
          eexists _, _. split; [|eassumption]. eexists _, _. eauto.
      + eexists None, _, _. split; [eassumption|]. right.
        eexists. split; [reflexivity|exact H]. }
  right. apply Z.eqb_neq in Hprop. done.
Qed.

Lemma dtb_init_loop_Fuel (fuel : nat) (i : Z) (st : dtb_state) :
  dtb_init_loop (S fuel) i st = OutOfFuel ->
  i < cell_count st /\
  exists t,
    token_at (cells st) i = Ret t /\
    ((t <> FDT_BEGIN_NODE /\ dtb_init_loop fuel (u32 (i + 1)) st = OutOfFuel) \/
     (t = FDT_BEGIN_NODE /\
      (parse_node fuel i 2 1 st = OutOfFuel \/
       exists sub i1 st1 st2,
         parse_node fuel i 2 1 st = Ret ((sub, i1), st1) /\
         match sub with
         | Some sub_root =>
             exists st12,
               write_node sub_root (set_sibling (root st1)) st1 = Ret st12 /\
               st2 = set_root (Some sub_root) st12
         | None => st2 = st1
         end /\
         dtb_init_loop fuel (u32 (i1 + 1)) st2 = OutOfFuel))).
Proof.
  intros H. cbn [dtb_init_loop] in H. finv H.
  destruct (i <? cell_count st) eqn:Hlt; [|finv H].
  apply Z.ltb_lt in Hlt. split; [exact Hlt|]. finv H.
  match goal with
  | Hr : read_cell st i = Ret _ |- _ => apply read_cell_token in Hr as Htok
  end.
  eexists. split; [exact Htok|].
  match type of H with
  | (if negb (?t =? _) then _ else _) _ = _ => destruct (t =? FDT_BEGIN_NODE) eqn:Hbeg
  end; cbn [negb] in H.
  2:{ left. apply Z.eqb_neq in Hbeg. done. }
  right. apply Z.eqb_eq in Hbeg. split; [exact Hbeg|]. finv H; [by left|].
  match goal with
  | Hp : parse_node _ _ _ _ _ = Ret (?res, _) |- _ => destruct res as [sub i1]
  end.
  cbv beta iota in H. right. destruct sub as [sub_root|].
  - finv H. eexists (Some sub_root), _, _, _.
    split; [eassumption|]. split; [|exact H]. eauto.
  - eexists None, _, _, _. split; [eassumption|]. split; [reflexivity|exact H].
Qed.

Lemma string_len_from_range (l : list Z) :
  forall c n, string_len_from l c = Ret n -> c <= n < c + Z.of_nat (length l).
Proof.
  induction l as [|x l IH]; intros c n H; [discriminate|].
  simpl in H. destruct (x =? 0).
  - injection H as <-. simpl. lia.
  - destruct (c =? 4294967295); [discriminate|]. apply IH in H. simpl. lia.
Qed.

Lemma string_len_range (p : cptr) (n : Z) :
  string_len p = Ret n -> 0 <= n < Z.of_nat (length (mem p)).
Proof.
  unfold string_len. intros H. apply string_len_from_range in H.
  pose proof (bytes_from_length p). lia.
Qed.

Lemma align_cells_range (x : Z) : 0 <= dtb_align_up x 4 / 4 < 1073741824.
Proof.
  unfold dtb_align_up.
  match goal with |- context [u32 ?y / 4] => pose proof (u32_range y) end.
  split; [apply Z.div_pos; lia|apply Z.div_lt_upper_bound; lia].
Qed.

Lemma align_cells_pos (x : Z) : 1 <= x <= 2147483648 -> 1 <= dtb_align_up x 4 / 4.
Proof.
  intros Hx. unfold dtb_align_up.
  rewrite (u32_small (x + 4)) by lia.
  rewrite (u32_small (x + 4 - 1)) by lia.
  assert (0 <= (x + 4 - 1) / 4 * 4 <= x + 3).
  { pose proof (Z.mul_div_le (x + 4 - 1) 4 ltac:(lia)).
    pose proof (Z.div_pos (x + 4 - 1) 4 ltac:(lia) ltac:(lia)). lia. }
  rewrite u32_small by lia.
  rewrite Z.div_mul by lia.
  apply Z.div_le_lower_bound; lia.
Qed.

Lemma after_name_progress (cs : cptr) (offset o1 : Z) :
  after_name cs offset = Ret o1 ->
  0 <= offset <= 1073741824 ->
  Z.of_nat (length (mem cs)) < 2147483648 ->
  offset + 2 <= o1 <= offset + 1073741825.
Proof.
  unfold after_name. intros H Hoff Hmem.
  apply rbind_Ret in H as (len & Hlen & H). injection H as <-.
  apply string_len_range in Hlen. simpl in Hlen.
  rewrite (u32_small (len + 1)) by lia. unfold FDT_CELL_SIZE.
  pose proof (align_cells_range (len + 1)).
  pose proof (align_cells_pos (len + 1) ltac:(lia)).
  rewrite (u32_small (dtb_align_up (len + 1) 4 / 4 + 1)) by lia.
  rewrite u32_small by lia. lia.
Qed.

Lemma after_prop_progress (cs : cptr) (offset o1 : Z) :
  after_prop cs offset = Ret o1 ->
  0 <= offset <= 1073741824 ->
  offset + 3 <= o1 <= offset + 1073741827.
Proof.
  unfold after_prop. intros H Hoff.
  apply rbind_Ret in H as (len & Hlen & H). injection H as <-.
  unfold FDT_CELL_SIZE. pose proof (align_cells_range len).
  rewrite (u32_small (offset + 1)) by lia.
  rewrite (u32_small (dtb_align_up len 4 / 4 + 2)) by lia.
  rewrite u32_small by lia. lia.
Qed.

Section Fuel.

Variable b : nat.
Variables cs strs : cptr.
Variable count : Z.
Hypothesis Hcount : 0 <= count <= 1073741824.
Hypothesis Hmem : Z.of_nat (length (mem cs)) < 2147483648.
Hypothesis Hmem_strs : Z.of_nat (length (mem strs)) < 2147483648.

(** The cursor only moves forward, and a node takes at least two cells. *)
Lemma fdt_progress :
  forall fuel,
    (forall offset x offset',
        fdt_node fuel cs count offset = Ret (x, offset') ->
        0 <= offset < count ->
        offset <= offset' <= far /\
        (token_at cs offset = Ret FDT_BEGIN_NODE -> offset + 2 <= offset')) /\
    (forall offset x offset',
        fdt_body fuel cs count offset = Ret (x, offset') ->
        0 <= offset <= far ->
        offset <= offset' <= far).
Proof.
  unfold far.
  induction fuel as [|fuel [IHn IHb]]; [split; intros; discriminate|].
  split; intros offset x offset' H Hoff.
  - rewrite fdt_node_S in H. apply rbind_Ret in H as (t & Ht & H).
    destruct (t =? FDT_BEGIN_NODE) eqn:Hbeg; cbn [negb] in H.
    + apply rbind_Ret in H as (o1 & Ho1 & H).
      apply after_name_progress in Ho1; [|lia|done].
      apply IHb in H; lia.
    + injection H as _ <-. split; [lia|]. intros Ht'.
      apply Z.eqb_neq in Hbeg. congruence.
  - rewrite fdt_body_S in H. destruct (offset <? count) eqn:Hlt.
    2:{ injection H as _ <-. lia. }
    apply Z.ltb_lt in Hlt. apply rbind_Ret in H as (t & Ht & H).
    destruct (t =? FDT_END_NODE).
    { injection H as _ <-. rewrite u32_small by lia. lia. }
    destruct (t =? FDT_BEGIN_NODE).
    { apply rbind_Ret in H as ([c o1] & Hsub & H).
      apply rbind_Ret in H as ([r o2] & Hrest & H). injection H as _ <-.
      apply IHn in Hsub as [Hsub _]; [|lia]. simpl in Hrest.
      apply IHb in Hrest; simpl; lia. }
    destruct (t =? FDT_PROP).
    { apply rbind_Ret in H as (o1 & Ho1 & H).
      apply rbind_Ret in H as ([r o2] & Hrest & H). injection H as _ <-.
      apply after_prop_progress in Ho1; [|lia].
      apply IHb in Hrest; simpl; lia. }
    apply IHb in H; rewrite u32_small in *; lia.
Qed.

(** With fuel for every cell that is left, neither [parse_node] nor its loop
    runs out. *)
Lemma parse_total :
  forall fuel,
    (forall offset ac sc st,
        wf b st -> cfg cs strs count st ->
        0 <= offset < count -> count - offset + 1 <= Z.of_nat fuel ->
        parse_node fuel offset ac sc st <> OutOfFuel) /\
    (forall k offset st,
        wf b st -> cfg cs strs count st -> Z.of_nat k < node_alloc_head st ->
        0 <= offset <= far -> Z.max 1 (count - offset + 2) <= Z.of_nat fuel ->
        parse_node_loop fuel (b, k) offset st <> OutOfFuel).
Proof.
  induction fuel as [|fuel [IHcall IHloop]]; [split; intros; lia|].
  destruct (parse_frames b fuel) as [Fcall Floop].
  destruct (parse_sim b cs strs count fuel) as [Scall _].
  split.
  - intros offset ac sc st Hwf Hcfg Hoff Hfuel H.
    pose proof Hcfg as (Hcs & _ & _).
    destruct (parse_node_Fuel b _ _ _ _ _ Hwf ltac:(rewrite Hcs; lia) H)
      as (Htok & st1 & o1 & Hname & Hs & Hwf1 & Hloop).
    cbv zeta in *. rewrite Hcs in *.
    apply after_name_progress in Hname; [|lia|done].
    pose proof (wf_node_head _ _ Hwf) as Hh.
    pose proof (ts_node_head _ _ _ _ _ _ _ _ Hs) as Hh1.
    eapply IHloop; [exact Hwf1| | | | |exact Hloop].
    + eapply cfg_same_config; [exact Hcfg|apply Hs].
    + lia.
    + unfold far. lia.
    + lia.
  - intros k offset st Hwf Hcfg Hk Hoff Hfuel H.
    pose proof Hcfg as (Hcs & Hstrs0 & Hcnt).
    pose proof (wf_node_head _ _ Hwf) as Hh.
    pose proof (wf_prop_head _ _ Hwf) as Hph.
    destruct (parse_node_loop_Fuel _ _ _ _ H)
      as (Hlt & t & Htok &
          [(Ht & n & Hn & [Hcall|(c & o1 & st1 & st2 & Hcall & Hlink & Hrest)])
          |[(Ht & pp & o1 & st1 & Hprop &
             [(prop & st12 & -> & Hlink & Hcheck)|(st2 & Hlink & Hrest)])
           |(Ht1 & Ht2 & Ht3 & Hrest)]]);
      rewrite Hcnt in Hlt.
    + eapply IHcall; [exact Hwf|exact Hcfg| | |exact Hcall]; lia.
    + destruct (Fcall _ _ _ _ _ _ _ Hwf Hcall) as [Hf1 Hr1]. cbv zeta in *.
      destruct (Scall _ _ _ _ _ _ _ Hwf Hcfg Hcall) as (citems & Hnode & _).
      rewrite Hcs, Ht in Htok.
      destruct (proj1 (fdt_progress fuel) _ _ _ Hnode ltac:(lia)) as [Hb1 Hb2].
      specialize (Hb2 Htok).
      pose proof (fr_wf _ _ _ _ _ _ Hf1) as Hwf1.
      pose proof (fr_node_head _ _ _ _ _ _ Hf1) as Hh1.
      assert (Hcfg1 : cfg cs strs count st1)
        by (eapply cfg_same_config; [exact Hcfg|apply (fr_config _ _ _ _ _ _ Hf1)]).
      destruct c as [cp|].
      * destruct (Hr1 cp eq_refl) as (-> & Hlt1 & _).
        destruct (link_child_step b k _ st1 st2 Hwf1 Hlink ltac:(lia) ltac:(lia))
          as (n1 & Hn1 & Hlen & Hs & Hwf2).
        pose proof (ts_node_head _ _ _ _ _ _ _ _ Hs) as Hh2.
        eapply IHloop; [exact Hwf2| | | | |exact Hrest]; try lia.
        eapply cfg_same_config; [exact Hcfg1|apply Hs].
      * subst st2. eapply IHloop; [exact Hwf1|exact Hcfg1| | | |exact Hrest]; lia.
    + rewrite Ht in Htok.
      destruct (parse_prop_Ret b _ _ _ _ _ Hwf Htok Hprop)
        as (name & len & Hname & Hlen & Hafter & [= ->] & Hj & Hs1 & Hwf1).
      cbv zeta in *.
      pose proof (ts_node_head _ _ _ _ _ _ _ _ Hs1) as Hh1.
      pose proof (ts_prop_head _ _ _ _ _ _ _ _ Hs1) as Hp1.
      destruct (link_prop_step b k _ st1 st12 Hwf1 Hlink ltac:(lia) ltac:(lia))
        as (n1 & Hn1 & Hs2 & Hwf12).
      apply check_for_special_prop_Fuel in Hcheck; [done|].
      intros p Hp. apply read_prop_props_of in Hp.
      rewrite (ts_props _ _ _ _ _ _ _ _ Hs2), (ts_props _ _ _ _ _ _ _ _ Hs1) in Hp.
      rewrite list_lookup_alter_eq, list_lookup_insert_eq in Hp by exact Hj.
      injection Hp as <-. simpl.
      unfold prop_name_at in Hname. apply rbind_Ret in Hname as (no & _ & Hname).
      injection Hname as <-. simpl. rewrite Hstrs0. lia.
    + rewrite Ht in Htok.
      destruct (parse_prop_Ret b _ _ _ _ _ Hwf Htok Hprop)
        as (name & len & Hname & Hlen & Hafter & -> & Hj & Hs1 & Hwf1).
      cbv zeta in *. rewrite Hcs in *.
      apply after_prop_progress in Hafter; [|lia].
      pose proof (ts_node_head _ _ _ _ _ _ _ _ Hs1) as Hh1.
      pose proof (ts_prop_head _ _ _ _ _ _ _ _ Hs1) as Hp1.
      destruct Hlink as (st12 & u & Hlink & Hcheck).
      destruct (link_prop_step b k _ st1 st12 Hwf1 Hlink ltac:(lia) ltac:(lia))
        as (n1 & Hn1 & Hs2 & Hwf12).
      pose proof (ts_node_head _ _ _ _ _ _ _ _ Hs2) as Hh2.
      destruct (check_for_special_prop_Ret _ _ _ _ _ Hcheck)
        as (p & Hp & kind & Hcl & Heff).
      destruct (special_effect_step kind b k _ st12 st2 Hwf12 Heff ltac:(lia))
        as (fn & fh & Hupd & Hs3 & Hwf2).
      pose proof (ts_node_head _ _ _ _ _ _ _ _ Hs3) as Hh3.
      eapply IHloop; [exact Hwf2| | | | |exact Hrest]; try (unfold far; lia).
      eapply cfg_same_config; [|apply Hs3].
      eapply cfg_same_config; [|apply Hs2].
      eapply cfg_same_config; [exact Hcfg|apply Hs1].
    + rewrite u32_small in Hrest by lia.
      eapply IHloop; [exact Hwf|exact Hcfg|exact Hk| | |exact Hrest]; unfold far; lia.
Qed.

Lemma init_total :
  forall fuel i st,
    wf b st -> cfg cs strs count st ->
    0 <= i <= far + 1 -> Z.max 1 (count - i + 2) <= Z.of_nat fuel ->
    dtb_init_loop fuel i st <> OutOfFuel.
Proof.
  induction fuel as [|fuel IH]; intros i st Hwf Hcfg Hi Hfuel H; [lia|].
  pose proof Hcfg as (Hcs & Hstrs & Hcnt).
  pose proof (wf_node_head _ _ Hwf) as Hh.
  destruct (dtb_init_loop_Fuel _ _ _ H)
    as (Hlt & t & Htok &
        [(Ht & Hrest)
        |(Ht & [Hcall|(sub & i1 & st1 & st2 & Hcall & Hlink & Hrest)])]);
    rewrite Hcnt in Hlt.
  - rewrite u32_small in Hrest by lia.
    eapply IH; [exact Hwf|exact Hcfg| | |exact Hrest]; unfold far; lia.
  - eapply (proj1 (parse_total fuel)); [exact Hwf|exact Hcfg| | |exact Hcall]; lia.
  - destruct (proj1 (parse_frames b fuel) _ _ _ _ _ _ _ Hwf Hcall) as [Hf1 Hr1].
    destruct (proj1 (parse_sim b cs strs count fuel) _ _ _ _ _ _ _ Hwf Hcfg Hcall)
      as (citems & Hnode & _).
    cbv zeta in *. rewrite Hcs, Ht in Htok.
    destruct (proj1 (fdt_progress fuel) _ _ _ Hnode ltac:(lia)) as [Hb1 Hb2].
    specialize (Hb2 Htok). unfold far in *.
    rewrite u32_small in Hrest by lia.
    pose proof (fr_wf _ _ _ _ _ _ Hf1) as Hwf1.
    assert (Hcfg1 : cfg cs strs count st1)
      by (eapply cfg_same_config; [exact Hcfg|apply (fr_config _ _ _ _ _ _ Hf1)]).
    destruct sub as [sub_root|].
    + destruct (Hr1 sub_root eq_refl) as (-> & Hlt1 & _).
      destruct Hlink as (st12 & Hw & ->).
      destruct (link_root_step b _ st1 st12 Hwf1 Hw ltac:(lia)) as [Hs Hwf12].
      eapply IH; [| | | |exact Hrest]; try lia.
      * by apply wf_set_root.
      * destruct Hcfg1 as (? & ? & ?).
        pose proof (ts_config _ _ _ _ _ _ _ _ Hs) as [].
        repeat split; simpl; congruence.
    + subst st2. eapply IH; [exact Hwf1|exact Hcfg1| | |exact Hrest]; lia.
Qed.

End Fuel.

Lemma host_free_Fuel (ptr : option nat) (st : dtb_state) : host_free ptr st <> OutOfFuel.
Proof.
  unfold host_free. destruct ptr as [p|]; [|discriminate].
  destruct (heap st !! p) as [blk|]; [by destruct (live blk)|discriminate].
Qed.

Lemma free_buffers_Fuel (st : dtb_state) : free_buffers st <> OutOfFuel.
Proof.
  unfold free_buffers. intros H. finv H.
  match type of H with
  | (if ?c then _ else _) _ = _ => destruct c
  end; finv H.
  by apply host_free_Fuel in H.
Qed.

Lemma free_buffers_config (st st' : dtb_state) (u : unit) :
  free_buffers st = Ret (u, st') ->
  cells st' = cells st /\ cell_count st' = cell_count st /\ strings st' = strings st.
Proof.
  unfold free_buffers. intros H. minv H.
  match type of H with
  | (if ?c then _ else _) _ = _ => destruct c
  end.
  - unfold call_on_error in H. destruct (on_error (ops st)); by injection H as _ <-.
  - minv H. simpl.
    match goal with
    | Hf : host_free _ _ = _ |- _ => rename Hf into Hfree
    end.
    unfold host_free in Hfree. destruct (node_buff st) as [q|].
    + destruct (heap st !! q) as [blk|]; [|discriminate].
      destruct (live blk); [|discriminate]. by injection Hfree as _ <-.
    + by injection Hfree as _ <-.
Qed.

Lemma alloc_buffers_scan_Fuel (remaining : nat) :
  forall i st, alloc_buffers_scan remaining i st <> OutOfFuel.
Proof.
  induction remaining as [|remaining IH]; intros i st; [discriminate|].
  cbn [alloc_buffers_scan]. intros H. finv H.
  - match goal with
    | Hs : (if ?c then _ else _) _ = OutOfFuel |- _ =>
        destruct c; [discriminate|];
        match type of Hs with
        | (if ?d then _ else _) _ = _ => destruct d; discriminate
        end
    end.
  - by apply IH in H.
Qed.

Lemma alloc_buffers_Fuel (st : dtb_state) : alloc_buffers st <> OutOfFuel.
Proof.
  unfold alloc_buffers. intros H. finv H.
  - by apply alloc_buffers_scan_Fuel in H.
  - unfold host_malloc in H.
    match type of H with
    | (if ?c then _ else _) = _ => destruct c; [discriminate|]
    end.
    match type of H with
    | (if ?c then _ else _) = _ => destruct c; discriminate
    end.
Qed.

(** X2.  [dtb_init] on a blob smaller than 2 GiB returns or faults: the fuel of
    its scanning loop is never used up. *)
Theorem dtb_init_fuel_suffices (start : cptr) (o : dtb_ops) (st : dtb_state) :
  Z.of_nat (length (mem start)) < 2147483648 ->
  dtb_init start o st <> OutOfFuel.
Proof.
  intros Hmem H. unfold dtb_init in H. finv H.
  destruct (malloc o); cbn [negb] in H; [|finv H].
  finv H.
  match type of H with
  | (if negb ?c then _ else _) _ = _ => destruct c; cbn [negb] in H; [|finv H]
  end.
  finv H.
  - match goal with
    | Hs : (if ?x is Some _ then _ else _) _ = OutOfFuel |- _ =>
        destruct x; [by apply free_buffers_Fuel in Hs|discriminate]
    end.
  - by apply alloc_buffers_Fuel in H.
  - match goal with
    | Hs : (if ?x is Some _ then _ else _) ?s0 = Ret (_, ?s) |- _ =>
        assert (Hcfg0 : cells s = cells s0 /\ cell_count s = cell_count s0 /\
                        strings s = strings s0);
        [destruct x; [by eapply free_buffers_config|by injection Hs as _ <-]|]
    end.
    destruct Hcfg0 as (Hcs & Hcc & Hss). simpl in Hcs, Hcc, Hss.
    match goal with
    | Ha : alloc_buffers _ = Ret _ |- _ =>
        apply alloc_buffers_Ret in Ha as (nm & pm & Hn & Hp & ->)
    end.
    cbn [cell_count] in H. rewrite Hcc in Hn, Hp.
    match goal with
    | Hl : load32 (ptr_add start 36) = Ret ?x |- _ => pose proof (be32_range x) as Hx
    end.
    assert (Hc : 0 <= cell_count st0 < 1073741824).
    { rewrite Hcc. split; [apply Z.div_pos; lia|apply Z.div_lt_upper_bound; lia]. }
    rewrite <- Hcc in Hn, Hp.
    destruct (fresh_block_wf st0 nm pm ltac:(lia) ltac:(lia)) as [Hwf _].
    cbv zeta in Hwf.
    assert (Hmem' : Z.of_nat (length (mem (cells st0))) < 2147483648)
      by (by rewrite Hcs).
    assert (Hmem'' : Z.of_nat (length (mem (strings st0))) < 2147483648)
      by (by rewrite Hss).
    eapply (init_total (length (heap st0)) (cells st0) (strings st0) (cell_count st0)
              ltac:(lia) Hmem' Hmem'' _ _ _ Hwf); [| | |exact H].
    + repeat split; reflexivity.
    + unfold far. lia.
    + unfold init_fuel. lia.
Qed.

Lemma dtb_init_fuel_suffices_witness :
  Z.of_nat (length (mem (board 1 2))) < 2147483648 /\
  dtb_init (board 1 2) all_ops state0 <> OutOfFuel.
Proof.
  split; [vm_compute; reflexivity|].
  apply (dtb_init_fuel_suffices (board 1 2) all_ops state0).
  vm_compute; reflexivity.
Defined.

(** * Further properties of the code *)

(** ** Byte order and alignment *)

Lemma testbit_mask (lo hi n : Z) :
  0 <= lo <= hi -> 0 <= n ->
  Z.testbit (Z.shiftl (Z.ones (hi - lo)) lo) n = (lo <=? n) && (n <? hi).
Proof.
  intros Hl Hn. rewrite Z.shiftl_spec by lia.
  destruct (lo <=? n) eqn:E1; cbn [andb].
  - apply Z.leb_le in E1. destruct (n <? hi) eqn:E2.
    + apply Z.ltb_lt in E2. apply Z.ones_spec_low. lia.
    + apply Z.ltb_ge in E2. apply Z.ones_spec_high. lia.
  - apply Z.leb_gt in E1. apply Z.testbit_neg_r. lia.
Qed.

Ltac cmp_by_lia :=
  repeat match goal with
    | |- context [?a <=? ?b] =>
        first [ replace (a <=? b) with true by (symmetry; apply Z.leb_le; lia)
              | replace (a <=? b) with false by (symmetry; apply Z.leb_gt; lia) ]
    | |- context [?a <? ?b] =>
        first [ replace (a <? b) with true by (symmetry; apply Z.ltb_lt; lia)
              | replace (a <? b) with false by (symmetry; apply Z.ltb_ge; lia) ]
    end.

Lemma be32_testbit (x n : Z) :
  0 <= n ->
  Z.testbit (be32 x) n =
    if n <? 8 then Z.testbit x (n + 24)
    else if n <? 16 then Z.testbit x (n + 8)
    else if n <? 24 then Z.testbit x (n - 8)
    else if n <? 32 then Z.testbit x (n - 24)
    else false.
Proof.
  intros Hn. unfold be32, u32.
  change 4294967296 with (2 ^ 32).
  change 0xFF with (Z.shiftl (Z.ones (8 - 0)) 0).
  change 0xFF00 with (Z.shiftl (Z.ones (16 - 8)) 8).
  change 0xFF0000 with (Z.shiftl (Z.ones (24 - 16)) 16).
  change 0xFF000000 with (Z.shiftl (Z.ones (32 - 24)) 24).
  rewrite !Z.lor_spec, Z.bits_0, !Z.shiftr_spec by lia.
  rewrite !Z.land_spec, !testbit_mask by lia.
  cbn [orb].
  assert (Hlow : forall y k, n < 32 ->
            Z.testbit (Z.shiftl (Z.land x y) k mod 2 ^ 32) n
            = Z.testbit (Z.shiftl (Z.land x y) k) n).
  { intros y k Hlt. apply Z.mod_pow2_bits_low. lia. }
  assert (Hhigh : forall y, 32 <= n -> Z.testbit (y mod 2 ^ 32) n = false).
  { intros y Hge. apply Z.mod_pow2_bits_high. lia. }
  assert (Hcases : n < 8 \/ 8 <= n < 16 \/ 16 <= n < 24 \/ 24 <= n < 32 \/ 32 <= n) by lia.
  destruct Hcases as [H|[H|[H|[H|H]]]].
  1-4: rewrite !Hlow by lia; rewrite !Z.shiftl_spec by lia;
       try rewrite !(Z.testbit_neg_r _ (n - 24)) by lia;
       try rewrite !(Z.testbit_neg_r _ (n - 8)) by lia;
       rewrite ?Z.land_spec;
       try rewrite !testbit_mask by lia;
       cmp_by_lia; cbn [andb orb];
       rewrite ?andb_false_r, ?andb_true_r, ?orb_false_r; cbn [orb]; reflexivity.
  rewrite !Hhigh by lia. cmp_by_lia. cbn [andb orb].
  by rewrite ?andb_false_r.
Qed.

Lemma be32_involutive (x : Z) : 0 <= x < 4294967296 -> be32 (be32 x) = x.
Proof.
  intros Hx. apply Z.bits_inj'. intros n Hn.
  rewrite be32_testbit by done.
  assert (Hcases : n < 8 \/ 8 <= n < 16 \/ 16 <= n < 24 \/ 24 <= n < 32 \/ 32 <= n) by lia.
  destruct Hcases as [H|[H|[H|[H|H]]]].
  1-4: cmp_by_lia; rewrite be32_testbit by lia; cmp_by_lia; f_equal; lia.
  cmp_by_lia. symmetry.
  destruct (Z.eq_dec x 0) as [->|Hx0]; [apply Z.bits_0|].
  apply Z.bits_above_log2; [lia|].
  apply Z.log2_lt_pow2; [lia|]. change (2 ^ 32) with 4294967296 in *. 
  assert (2 ^ n >= 2 ^ 32) by (apply Z.le_ge, Z.pow_le_mono_r; lia).
  change (2 ^ 32) with 4294967296 in *. lia.
Qed.

Lemma testbit_byte (a y n : Z) :
  0 <= a < 256 -> 0 <= n ->
  Z.testbit (a + 256 * y) n = if n <? 8 then Z.testbit a n else Z.testbit y (n - 8).
Proof.
  intros Ha Hn. destruct (n <? 8) eqn:E; [apply Z.ltb_lt in E|apply Z.ltb_ge in E].
  - rewrite <- (Z.mod_pow2_bits_low (a + 256 * y) 8 n) by lia.
    change (2 ^ 8) with 256. f_equal.
    rewrite (Z.mul_comm 256 y), Z.mod_add by lia. apply Z.mod_small. lia.
  - replace n with ((n - 8) + 8) at 1 by lia.
    rewrite <- Z.div_pow2_bits by lia. change (2 ^ 8) with 256. f_equal.
    rewrite (Z.mul_comm 256 y), Z.div_add by lia.
    rewrite (Z.div_small a) by lia. lia.
Qed.

Lemma byte_high (a n : Z) : 0 <= a < 256 -> 8 <= n -> Z.testbit a n = false.
Proof.
  intros Ha Hn. rewrite <- (Z.mod_small a (2 ^ 8)) by (change (2 ^ 8) with 256; lia).
  apply Z.mod_pow2_bits_high. lia.
Qed.

Lemma be32_bytes (b0 b1 b2 b3 : Z) :
  0 <= b0 < 256 -> 0 <= b1 < 256 -> 0 <= b2 < 256 -> 0 <= b3 < 256 ->
  be32 (b0 + b1 * 256 + b2 * 65536 + b3 * 16777216)
  = b0 * 16777216 + b1 * 65536 + b2 * 256 + b3.
Proof.
  intros H0 H1 H2 H3.
  replace (b0 + b1 * 256 + b2 * 65536 + b3 * 16777216)
    with (b0 + 256 * (b1 + 256 * (b2 + 256 * (b3 + 256 * 0)))) by lia.
  replace (b0 * 16777216 + b1 * 65536 + b2 * 256 + b3)
    with (b3 + 256 * (b2 + 256 * (b1 + 256 * (b0 + 256 * 0)))) by lia.
  apply Z.bits_inj'. intros n Hn.
  rewrite be32_testbit by done.
  assert (Hcases : n < 8 \/ 8 <= n < 16 \/ 16 <= n < 24 \/ 24 <= n < 32 \/ 32 <= n) by lia.
  destruct Hcases as [H|[H|[H|[H|H]]]].
  all: cmp_by_lia; repeat (rewrite testbit_byte by lia; cmp_by_lia);
    rewrite ?Z.bits_0; try reflexivity; f_equal; lia.
Qed.

(** X3.  A 32-bit load followed by [be32] reads four bytes most significant
    first: on the bytes b0 b1 b2 b3 it gives b0 * 2^24 + b1 * 2^16 + b2 * 2^8 + b3. *)
Theorem be32_reads_big_endian (p : cptr) (b0 b1 b2 b3 : Z) (rest : list Z) :
  bytes_from p = b0 :: b1 :: b2 :: b3 :: rest ->
  0 <= b0 < 256 -> 0 <= b1 < 256 -> 0 <= b2 < 256 -> 0 <= b3 < 256 ->
  (c <~ load32 p; Ret (be32 c)) = Ret (b0 * 16777216 + b1 * 65536 + b2 * 256 + b3).
Proof.
  intros Hb H0 H1 H2 H3. unfold load32. rewrite Hb. cbn [rbind].
  by rewrite be32_bytes.
Qed.

Lemma be32_reads_big_endian_witness :
  (c <~ load32 (CPtr [0; 208; 13; 254; 237; 7] 1); Ret (be32 c)) = Ret 0xD00DFEED.
Proof.
  apply (be32_reads_big_endian (CPtr [0; 208; 13; 254; 237; 7] 1) 208 13 254 237 [7]);
    [reflexivity|lia..].
Defined.

(** X4.  [be32] maps 32-bit values to 32-bit values and undoes itself. *)
Theorem be32_is_an_involution (x : Z) :
  0 <= x < 4294967296 -> 0 <= be32 x < 4294967296 /\ be32 (be32 x) = x.
Proof. intros Hx. split; [apply be32_range|by apply be32_involutive]. Qed.

Lemma be32_is_an_involution_witness :
  0 <= be32 0x12345678 < 4294967296 /\ be32 (be32 0x12345678) = 0x12345678.
Proof. apply (be32_is_an_involution 0x12345678). lia. Defined.

(** X5.  [dtb_align_up] with alignment 4 rounds a 32-bit value up to the next
    multiple of 4, adding less than 4; above 0xFFFFFFFC the 32-bit sum wraps
    around and the result is 0. *)
Theorem dtb_align_up_rounds_to_cells (input : Z) :
  0 <= input < 4294967296 ->
  (input <= 4294967292 ->
   input <= dtb_align_up input 4 < input + 4 /\ dtb_align_up input 4 mod 4 = 0) /\
  (4294967292 < input -> dtb_align_up input 4 = 0).
Proof.
  intros Hi. unfold dtb_align_up, u32. split; intros H.
  - destruct (Z.eq_dec input 4294967292) as [->|Hne]; [by vm_compute|].
    rewrite (Z.mod_small (input + 4)) by lia.
    rewrite (Z.mod_small (input + 4 - 1)) by lia.
    assert (0 <= (input + 4 - 1) / 4 * 4 <= input + 3).
    { pose proof (Z.mul_div_le (input + 4 - 1) 4 ltac:(lia)). 
      pose proof (Z.div_pos (input + 4 - 1) 4 ltac:(lia) ltac:(lia)). lia. }
    rewrite (Z.mod_small ((input + 4 - 1) / 4 * 4)) by lia.
    split; [|by rewrite Z.mod_mul by lia].
    pose proof (Z.mod_pos_bound (input + 4 - 1) 4 ltac:(lia)).
    pose proof (Z.div_mod (input + 4 - 1) 4 ltac:(lia)). lia.
  - assert (input = 4294967293 \/ input = 4294967294 \/ input = 4294967295) as [->|[->| ->]]
      by lia; reflexivity.
Qed.

Lemma dtb_align_up_rounds_to_cells_witness :
  (9 <= 4294967292 -> 9 <= dtb_align_up 9 4 < 9 + 4 /\ dtb_align_up 9 4 mod 4 = 0) /\
  (4294967292 < 9 -> dtb_align_up 9 4 = 0).
Proof. apply (dtb_align_up_rounds_to_cells 9). lia. Defined.

(** ** The string helpers *)

Lemma cstring_from_split (bytes t : list Z) :
  cstring_from bytes = Ret t ->
  exists rest, bytes = t ++ 0 :: rest /\ Forall (fun c => c <> 0) t.
Proof.
  revert t. induction bytes as [|c bytes IH]; intros t H; [done|].
  simpl in H. destruct (c =? 0) eqn:E.
  - injection H as <-. apply Z.eqb_eq in E. subst c. by exists bytes.
  - destruct (cstring_from bytes) as [t'| |]; try done. simpl in H. injection H as <-.
    destruct (IH t' eq_refl) as (rest & -> & Hall). exists rest. split; [done|].
    constructor; [by apply Z.eqb_neq|done].
Qed.

Lemma cstring_from_app (t rest : list Z) :
  Forall (fun c => c <> 0) t -> cstring_from (t ++ 0 :: rest) = Ret t.
Proof.
  induction 1 as [|c t Hc _ IH]; [done|].
  simpl. apply Z.eqb_neq in Hc. rewrite Hc, IH. done.
Qed.

Lemma string_len_from_text (t rest : list Z) (count : Z) :
  Forall (fun c => c <> 0) t ->
  count + Z.of_nat (length t) <= 4294967295 ->
  string_len_from (t ++ 0 :: rest) count = Ret (count + Z.of_nat (length t)).
Proof.
  intros H. revert count. induction H as [|c t Hc _ IH]; intros count Hfit.
  - simpl. f_equal. lia.
  - cbn [app string_len_from]. apply Z.eqb_neq in Hc. rewrite Hc.
    simpl length in Hfit.
    replace (count =? 4294967295) with false by (symmetry; apply Z.eqb_neq; lia).
    rewrite IH by lia. f_equal. simpl length. lia.
Qed.

Lemma string_find_char_from_text (t rest : list Z) (target i : Z) :
  Forall (fun c => c <> 0) t -> target <> 0 ->
  i + Z.of_nat (length t) <= 4294967295 ->
  string_find_char_from (t ++ 0 :: rest) target i
  = Ret (match index_of target t with
         | Some k => i + Z.of_nat k
         | None => NOT_FOUND
         end).
Proof.
  intros H Ht. revert i. induction H as [|c t Hc _ IH]; intros i Hfit.
  - cbn [app string_find_char_from index_of].
    destruct (0 =? target) eqn:E; [apply Z.eqb_eq in E; lia|done].
  - cbn [app string_find_char_from index_of]. destruct (c =? target) eqn:E.
    + f_equal. simpl. lia.
    + apply Z.eqb_neq in Hc. rewrite Hc. simpl length in Hfit.
      replace (i =? 4294967295) with false by (symmetry; apply Z.eqb_neq; lia).
      rewrite IH by lia.
      destruct (index_of target t) as [k|]; simpl; [|done]. f_equal. lia.
Qed.

Lemma string_find_char_from_zero (t rest : list Z) (i : Z) :
  Forall (fun c => c <> 0) t ->
  i + Z.of_nat (length t) <= 4294967295 ->
  string_find_char_from (t ++ 0 :: rest) 0 i = Ret (i + Z.of_nat (length t)).
Proof.
  intros H. revert i. induction H as [|c t Hc _ IH]; intros i Hfit.
  - cbn. f_equal. lia.
  - cbn [app string_find_char_from]. apply Z.eqb_neq in Hc. rewrite Hc.
    simpl length in Hfit.
    replace (i =? 4294967295) with false by (symmetry; apply Z.eqb_neq; lia).
    rewrite IH by lia. f_equal. simpl length. lia.
Qed.

Lemma string_len_of_text (p : cptr) (t : list Z) :
  cstring p = Ret t -> Z.of_nat (length t) < 4294967296 ->
  string_len p = Ret (Z.of_nat (length t)).
Proof.
  unfold cstring, string_len. intros Hc Hfit.
  destruct (cstring_from_split _ _ Hc) as (rest & -> & Hall).
  by rewrite string_len_from_text by (done || lia).
Qed.

Lemma string_find_char_of_text (p : cptr) (t : list Z) (target : Z) :
  cstring p = Ret t -> target <> 0 -> Z.of_nat (length t) < 4294967296 ->
  string_find_char p target
  = Ret (match index_of target t with
         | Some k => Z.of_nat k
         | None => NOT_FOUND
         end).
Proof.
  unfold cstring, string_find_char. intros Hc Ht Hfit.
  destruct (cstring_from_split _ _ Hc) as (rest & -> & Hall).
  rewrite string_find_char_from_text by (done || lia). by destruct (index_of target t).
Qed.

(** X6.  On a NUL-terminated text [t] of fewer than 2^32 bytes, which the
    [uint32_t] index reaches without wrapping, [string_len] gives the length
    of [t]; [string_find_char] with a target other than NUL gives the index
    of its first occurrence in [t], or [NOT_FOUND] when [t] has none, so that
    nothing past the terminator is looked at; and with NUL as the target it
    gives the length of [t]. *)
Theorem string_scans_stop_at_the_terminator (p : cptr) (t : list Z) (target : Z) :
  cstring p = Ret t -> target <> 0 ->
  Z.of_nat (length t) < 4294967296 ->
  string_len p = Ret (Z.of_nat (length t)) /\
  string_find_char p target
  = Ret (match index_of target t with
         | Some k => Z.of_nat k
         | None => NOT_FOUND
         end) /\
  string_find_char p 0 = Ret (Z.of_nat (length t)).
Proof.
  intros Hc Ht Hfit.
  split; [by apply string_len_of_text|]. split; [by apply string_find_char_of_text|].
  revert Hc. unfold cstring, string_find_char. intros Hc.
  destruct (cstring_from_split _ _ Hc) as (rest & -> & Hall).
  by rewrite string_find_char_from_zero by (done || lia).
Qed.

Lemma string_scans_stop_at_the_terminator_witness :
  string_len (cstr "cpu@0") = Ret 5 /\
  string_find_char (cstr "cpu@0") 64 = Ret 3 /\
  string_find_char (cstr "cpu@0") 0 = Ret 5.
Proof.
  apply (string_scans_stop_at_the_terminator (cstr "cpu@0") [99; 112; 117; 64; 48] 64);
    [reflexivity|lia|simpl; lia].
Defined.

Lemma strings_eq_from_text (ta tb ra rb : list Z) (n : Z) :
  Forall (fun c => c <> 0) ta -> Forall (fun c => c <> 0) tb ->
  n + Z.of_nat (Nat.min (length ta) (length tb)) <= 4294967295 ->
  strings_eq_from (ta ++ 0 :: ra) (tb ++ 0 :: rb) n = Ret (bool_decide (ta = tb)).
Proof.
  intros Ha. revert tb n. induction Ha as [|ca ta Hca Ha IH]; intros tb n Hb Hfit.
  - destruct Hb as [|cb tb Hcb Hb]; cbn [app strings_eq_from].
    + done.
    + destruct (0 =? cb) eqn:E; [apply Z.eqb_eq in E; lia|].
      by rewrite bool_decide_eq_false_2.
  - destruct Hb as [|cb tb Hcb Hb]; cbn [app strings_eq_from].
    + destruct (ca =? 0) eqn:E; [apply Z.eqb_eq in E; lia|].
      by rewrite bool_decide_eq_false_2.
    + destruct (ca =? cb) eqn:E.
      * apply Z.eqb_eq in E. subst cb. apply Z.eqb_neq in Hca. rewrite Hca.
        simpl length in Hfit.
        replace (n =? 4294967295) with false by (symmetry; apply Z.eqb_neq; lia).
        rewrite IH by (done || lia).
        f_equal. apply bool_decide_ext. split; [by intros ->|by intros [=]].
      * apply Z.eqb_neq in E. rewrite bool_decide_eq_false_2; [done|]. by intros [=].
Qed.

Lemma strings_eq_of_text (a b : cptr) (ta tb : list Z) :
  cstring a = Ret ta -> cstring b = Ret tb ->
  Z.of_nat (Nat.min (length ta) (length tb)) < 4294967296 ->
  strings_eq a b = Ret (bool_decide (ta = tb)).
Proof.
  unfold cstring, strings_eq. intros Ha Hb Hfit.
  destruct (cstring_from_split _ _ Ha) as (ra & -> & Hta).
  destruct (cstring_from_split _ _ Hb) as (rb & -> & Htb).
  apply strings_eq_from_text; (done || lia).
Qed.

(** X7.  [strings_eq] on two NUL-terminated texts, the shorter of fewer than
    2^32 bytes so that the [uint32_t] index does not wrap, is true exactly
    when the texts are equal. *)
Theorem strings_eq_decides_equality (a b : cptr) (ta tb : list Z) :
  cstring a = Ret ta -> cstring b = Ret tb ->
  Z.of_nat (Nat.min (length ta) (length tb)) < 4294967296 ->
  strings_eq a b = Ret (bool_decide (ta = tb)).
Proof. apply strings_eq_of_text. Qed.

Lemma strings_eq_decides_equality_witness :
  strings_eq (cstr "phandle") (ptr_add (cstr "linux,phandle") 6) = Ret true.
Proof.
  apply (strings_eq_decides_equality (cstr "phandle") (ptr_add (cstr "linux,phandle") 6)
           (bytes_of_string "phandle") (bytes_of_string "phandle"));
    [reflexivity|reflexivity|simpl; lia].
Defined.

Lemma strings_eq_bounded_from_text (n : nat) (ta tb ra rb : list Z) :
  Forall (fun c => c <> 0) ta -> Forall (fun c => c <> 0) tb ->
  strings_eq_bounded_from (ta ++ 0 :: ra) (tb ++ 0 :: rb) n
  = Ret (bool_decide (take n ta = take n tb)).
Proof.
  revert ta tb. induction n as [|n IH]; intros ta tb Ha Hb; [done|].
  destruct Ha as [|ca ta Hca Ha], Hb as [|cb tb Hcb Hb];
    cbn [app strings_eq_bounded_from take].
  - done.
  - assert (E : (cb =? 0) = false) by (by apply Z.eqb_neq).
    assert (E' : (0 =? cb) = false) by (apply Z.eqb_neq; lia).
    change (0 =? 0) with true. rewrite ?E, ?E'. cbn [andb negb].
    by rewrite bool_decide_eq_false_2.
  - assert (E : (ca =? 0) = false) by (by apply Z.eqb_neq).
    rewrite ?E. cbn [andb negb]. by rewrite bool_decide_eq_false_2.
  - assert (E : (ca =? 0) = false) by (by apply Z.eqb_neq).
    rewrite ?E. cbn [andb].
    destruct (ca =? cb) eqn:E'; cbn [negb].
    + apply Z.eqb_eq in E'. subst cb. rewrite IH by done. f_equal.
      apply bool_decide_ext. split; [by intros ->|by intros [=]].
    + apply Z.eqb_neq in E'. rewrite bool_decide_eq_false_2; [done|]. by intros [=].
Qed.

Lemma strings_eq_bounded_of_text (a b : cptr) (ta tb : list Z) (len : Z) :
  cstring a = Ret ta -> cstring b = Ret tb ->
  strings_eq_bounded a b len
  = Ret (bool_decide (take (Z.to_nat len) ta = take (Z.to_nat len) tb)).
Proof.
  unfold cstring, strings_eq_bounded. intros Ha Hb.
  destruct (cstring_from_split _ _ Ha) as (ra & -> & Hta).
  destruct (cstring_from_split _ _ Hb) as (rb & -> & Htb).
  by apply strings_eq_bounded_from_text.
Qed.

(** X8.  [strings_eq_bounded] on two NUL-terminated texts is true exactly when
    their first [len] bytes agree, a text shorter than [len] counting as a
    whole. *)
Theorem strings_eq_bounded_compares_prefixes (a b : cptr) (ta tb : list Z) (len : Z) :
  cstring a = Ret ta -> cstring b = Ret tb ->
  strings_eq_bounded a b len
  = Ret (bool_decide (take (Z.to_nat len) ta = take (Z.to_nat len) tb)).
Proof. apply strings_eq_bounded_of_text. Qed.

Lemma strings_eq_bounded_compares_prefixes_witness :
  strings_eq_bounded (cstr "cpu@0") (cstr "cpus") 3 = Ret true.
Proof.
  apply (strings_eq_bounded_compares_prefixes (cstr "cpu@0") (cstr "cpus")
           (bytes_of_string "cpu@0") (bytes_of_string "cpus") 3);
    reflexivity.
Defined.

(** ** Lookup of a child by name *)

Lemma index_of_Some (target : Z) (t : list Z) (k : nat) :
  index_of target t = Some k ->
  (k < length t)%nat /\ ~ In target (take k t) /\ t !! k = Some target.
Proof.
  revert k. induction t as [|c t IH]; intros k H; [done|].
  cbn [index_of] in H. destruct (c =? target) eqn:E.
  - injection H as <-. apply Z.eqb_eq in E. subst c. simpl. split; [lia|]. split; [tauto|done].
  - destruct (index_of target t) as [k'|]; [|done]. injection H as <-.
    destruct (IH k' eq_refl) as (Hlt & Hnin & Hk). split; [simpl; lia|]. split; [|done].
    cbn [take]. intros [Hc|Hc]; [apply Z.eqb_neq in E; lia|done].
Qed.

Lemma index_of_None (target : Z) (t : list Z) : index_of target t = None -> ~ In target t.
Proof.
  induction t as [|c t IH]; intros H; [tauto|].
  cbn [index_of] in H. destruct (c =? target) eqn:E; [done|].
  destruct (index_of target t); [done|].
  intros [Hc|Hc]; [apply Z.eqb_neq in E; lia|by apply IH].
Qed.

Lemma stem_spec (t : list Z) :
  ~ In 64 (stem t) /\ stem t = take (length (stem t)) t /\
  (length (stem t) <= length t)%nat.
Proof.
  unfold stem. destruct (index_of 64 t) as [k|] eqn:E.
  - destruct (index_of_Some _ _ _ E) as (Hlt & Hnin & _).
    rewrite length_take, Nat.min_l by lia. split; [done|]. split; [done|lia].
  - split; [by apply index_of_None|]. by rewrite firstn_all.
Qed.

Lemma stem_eq (t seg : list Z) :
  stem t = seg <->
  length (stem t) = length seg /\ take (length seg) t = take (length seg) seg.
Proof.
  destruct (stem_spec t) as (_ & Hs & _). rewrite firstn_all. split.
  - intros <-. by rewrite <- Hs.
  - intros [Hl Ht]. rewrite Hs, Hl. done.
Qed.

Lemma find_child_loop_spec (st : dtb_state) (name : cptr) (seg : list Z) :
  cstring name = Ret seg ->
  forall fuel scan kids names,
    siblings_from fuel st scan = Ret kids ->
    node_names st kids = Ret names ->
    Forall (fun t => Z.of_nat (length t) < NOT_FOUND) names ->
    find_child_loop fuel st scan name (Z.of_nat (length seg))
    = Ret (first_labelled kids (stem <$> names) seg).
Proof.
  intros Hname. induction fuel as [|fuel IH]; intros scan kids names Hs Hn Hlen.
  { destruct scan; [done|]. injection Hs as <-. done. }
  destruct scan as [sc|]; [|injection Hs as <-; done].
  cbn [siblings_from dtb_get_sibling] in Hs. cbn [find_child_loop].
  destruct (read_node st sc) as [n| |] eqn:Hr; cbn [rbind] in Hs |- *; try done.
  destruct (siblings_from fuel st (sibling n)) as [rest| |] eqn:Hrest;
    cbn [rbind] in Hs; try done.
  injection Hs as <-. cbn [node_names] in Hn. rewrite Hr in Hn. cbn [rbind] in Hn.
  destruct (cstring (node_name n)) as [t| |] eqn:Ht; cbn [rbind] in Hn; try done.
  destruct (node_names st rest) as [ts| |] eqn:Hts; cbn [rbind] in Hn; try done.
  injection Hn as <-. inversion Hlen as [|? ? Hlt Hlen']; subst.
  assert (Hfit : Z.of_nat (length t) < 4294967296) by (unfold NOT_FOUND in Hlt; lia).
  pose proof (string_len_of_text _ _ Ht Hfit) as Hsl.
  pose proof (string_find_char_of_text _ _ 64 Ht ltac:(lia) Hfit) as Hfc.
  rewrite Hfc. cbn [rbind].
  assert (Hcl : (if match index_of 64 t with
                     | Some k => Z.of_nat k
                     | None => NOT_FOUND
                     end =? NOT_FOUND
                 then string_len (node_name n)
                 else Ret match index_of 64 t with
                          | Some k => Z.of_nat k
                          | None => NOT_FOUND
                          end) = Ret (Z.of_nat (length (stem t)))).
  { unfold stem. destruct (index_of 64 t) as [k|] eqn:E.
    - destruct (index_of_Some _ _ _ E) as (Hk & _).
      destruct (Z.of_nat k =? NOT_FOUND) eqn:E'; [apply Z.eqb_eq in E'; lia|].
      rewrite length_take, Nat.min_l by lia. done.
    - change (NOT_FOUND =? NOT_FOUND) with true. cbv iota. exact Hsl. }
  rewrite Hcl. cbn [rbind].
  rewrite (strings_eq_bounded_of_text _ _ _ _ _ Ht Hname), Nat2Z.id.
  cbn [fmap list_fmap first_labelled].
  assert (Hm : (if Z.of_nat (length (stem t)) =? Z.of_nat (length seg)
                then Ret (bool_decide (take (length seg) t = take (length seg) seg))
                else Ret false) = Ret (bool_decide (stem t = seg))).
  { destruct (Z.of_nat (length (stem t)) =? Z.of_nat (length seg)) eqn:E.
    - apply Z.eqb_eq in E. f_equal. apply bool_decide_ext. rewrite stem_eq. split.
      + intros H. split; [lia|done].
      + by intros [_ H].
    - apply Z.eqb_neq in E. f_equal. symmetry. apply bool_decide_eq_false_2.
      intros <-. lia. }
  rewrite Hm. cbn [rbind]. destruct (bool_decide (stem t = seg)); [done|].
  by apply IH.
Qed.

(** X9.  [dtb_find_child] returns the first child, in the order [dtb_get_child]
    and [dtb_get_sibling] list the children, whose name up to its first '@'
    (the whole name when it has none) is the name asked for, and null when no
    child has such a name.  The name asked for has fewer than 2^32 bytes and
    the children's names are shorter than [NOT_FOUND], so that no [uint32_t]
    index wraps. *)
Theorem dtb_find_child_matches_the_stem (st : dtb_state) (start : nodeptr) (name : cptr)
    (seg : list Z) (kids : list nodeptr) (names : list (list Z)) :
  iter_children st start = Ret kids ->
  node_names st kids = Ret names ->
  forallb (fun t => Z.of_nat (length t) <? NOT_FOUND) names = true ->
  cstring name = Ret seg ->
  Z.of_nat (length seg) < 4294967296 ->
  dtb_find_child st (Some start) (Some name)
  = Ret (first_labelled kids (stem <$> names) seg).
Proof.
  intros Hk Hn Hlen Hname Hfit.
  unfold dtb_find_child, find_child_internal. cbn [of_option rbind].
  rewrite (string_len_of_text _ _ Hname Hfit).
  cbn [rbind]. unfold iter_children, dtb_get_child in Hk.
  destruct (read_node st start) as [n| |]; cbn [rbind] in Hk |- *; try done.
  eapply find_child_loop_spec; eauto.
  apply Forall_forall. intros t Ht. rewrite forallb_forall in Hlen.
  apply Z.ltb_lt, Hlen. by apply list_elem_of_In.
Qed.

Lemma dtb_find_child_matches_the_stem_witness :
  dtb_find_child board_state (Some (0, 1)%nat) (Some (cstr "cpu")) = Ret (Some (0, 3)%nat).
Proof.
  apply (dtb_find_child_matches_the_stem board_state (0, 1)%nat (cstr "cpu")
           (bytes_of_string "cpu") [(0, 3); (0, 2)]%nat
           [bytes_of_string "cpu@1"; bytes_of_string "cpu@0"]);
    vm_compute; reflexivity.
Defined.

(** A bounded comparison that succeeds over [n] bytes none of which is NUL
    found the same [n] bytes on the other side. *)
Lemma strings_eq_bounded_true (a b : list Z) (n : nat) :
  (n <= length b)%nat -> Forall (fun c => c <> 0) (take n b) ->
  strings_eq_bounded_from a b n = Ret true ->
  take n a = take n b.
Proof.
  revert a b. induction n as [|n IH]; intros a b Hn Hnz H; [done|].
  destruct b as [|cb b]; [simpl in Hn; lia|].
  destruct a as [|ca a]; [done|].
  cbn [take] in Hnz |- *. inversion Hnz as [|? ? Hcb Hnz']; subst.
  cbn [strings_eq_bounded_from] in H.
  assert (E : (cb =? 0) = false) by (by apply Z.eqb_neq).
  rewrite E, andb_false_r in H.
  destruct (ca =? cb) eqn:E'; cbn [negb] in H; [|done].
  apply Z.eqb_eq in E'. subst cb. f_equal. apply IH; [simpl in Hn; lia|done|done].
Qed.

(** Where [string_find_char] stops. *)
Lemma string_find_char_from_stop (a : list Z) (target i r : Z) :
  string_find_char_from a target i = Ret r ->
  exists pre rest c,
    a = pre ++ c :: rest /\ ~ In target pre /\ ~ In 0 pre /\
    ((c = target /\ r = i + Z.of_nat (length pre)) \/
     (c = 0 /\ c <> target /\ r = NOT_FOUND)).
Proof.
  revert i. induction a as [|c a IH]; intros i H; [done|].
  cbn [string_find_char_from] in H. destruct (c =? target) eqn:E.
  - injection H as <-. apply Z.eqb_eq in E. exists [], a, c.
    split; [done|]. split; [tauto|]. split; [tauto|]. left. split; [done|simpl; lia].
  - apply Z.eqb_neq in E. destruct (c =? 0) eqn:E0.
    + injection H as <-. apply Z.eqb_eq in E0. exists [], a, c.
      split; [done|]. split; [tauto|]. split; [tauto|]. right. done.
    + apply Z.eqb_neq in E0. destruct (i =? 4294967295); [discriminate|].
      destruct (IH _ H) as (pre & rest & c' & -> & Ht & H0 & Hr).
      exists (c :: pre), rest, c'. split; [done|].
      split; [intros [?|?]; [lia|done]|]. split; [intros [?|?]; [lia|done]|].
      destruct Hr as [[-> ->]|(-> & ? & ->)]; [left|right]; [|done].
      split; [done|]. simpl length. lia.
Qed.

Lemma string_len_from_stop (a : list Z) (i r : Z) :
  string_len_from a i = Ret r ->
  exists pre rest, a = pre ++ 0 :: rest /\ ~ In 0 pre /\ r = i + Z.of_nat (length pre).
Proof.
  revert i. induction a as [|c a IH]; intros i H; [done|].
  cbn [string_len_from] in H. destruct (c =? 0) eqn:E.
  - injection H as <-. apply Z.eqb_eq in E. subst c. exists [], a.
    split; [done|]. split; [tauto|simpl; lia].
  - apply Z.eqb_neq in E. destruct (i =? 4294967295); [discriminate|].
    destruct (IH _ H) as (pre & rest & -> & H0 & ->).
    exists (c :: pre), rest. split; [done|]. split; [intros [?|?]; [lia|done]|].
    simpl length. lia.
Qed.

Lemma app_eq_prefix (pre pre' : list Z) (x y : Z) (rest rest' : list Z) :
  pre ++ x :: rest = pre' ++ y :: rest' ->
  ~ In y pre -> ~ In x pre' -> pre = pre'.
Proof.
  revert pre'. induction pre as [|c pre IH]; intros [|c' pre'] H Hy Hx.
  - done.
  - injection H as -> _. exfalso. apply Hx. by left.
  - injection H as -> _. exfalso. apply Hy. by left.
  - injection H as -> H. f_equal. apply (IH pre' H).
    + intros ?. apply Hy. by right.
    + intros ?. apply Hx. by right.
Qed.

(** The length [find_child_internal] computes for a child's name is that of
    a prefix of the name without ['@']. *)
Lemma child_name_len_no_at (p : cptr) (at_pos len : Z) :
  string_find_char p 64 = Ret at_pos ->
  (if at_pos =? NOT_FOUND then string_len p else Ret at_pos) = Ret len ->
  len < NOT_FOUND ->
  0 <= len /\ (Z.to_nat len <= length (bytes_from p))%nat /\
  ~ In 64 (take (Z.to_nat len) (bytes_from p)).
Proof.
  unfold string_find_char, string_len. intros Hf Hl Hlt.
  destruct (string_find_char_from_stop _ _ _ _ Hf) as (pre & rest & c & Ha & H64 & H0 & Hc).
  destruct (at_pos =? NOT_FOUND) eqn:E.
  - apply Z.eqb_eq in E. subst at_pos.
    destruct (string_len_from_stop _ _ _ Hl) as (pre' & rest' & Ha' & H0' & ->).
    rewrite Ha'. split; [lia|]. rewrite Z.add_0_l, Nat2Z.id, length_app.
    split; [lia|]. rewrite take_app_length.
    destruct Hc as [[-> Hr]|(-> & Hne & _)].
    + (* the sentinel value was a real position *)
      exfalso. rewrite Ha' in Ha. apply H0.
      assert (Hk : (pre' ++ 0 :: rest') !! length pre' = Some 0)
        by (by rewrite list_lookup_middle).
      rewrite Ha, lookup_app_l in Hk by lia.
      apply list_elem_of_In. by eapply list_elem_of_lookup_2.
    + rewrite Ha' in Ha. rewrite (app_eq_prefix _ _ _ _ _ _ Ha H0' H0) in *. done.
  - injection Hl as <-. apply Z.eqb_neq in E.
    destruct Hc as [[-> ->]|(_ & _ & ->)]; [|done].
    rewrite Ha. split; [lia|]. rewrite Z.add_0_l, Nat2Z.id, length_app.
    split; [lia|]. by rewrite take_app_length.
Qed.

Lemma find_child_loop_at (st : dtb_state) (name : cptr) (seg : list Z) :
  take (length seg) (bytes_from name) = seg ->
  Forall (fun c => c <> 0) seg -> In 64 seg ->
  Z.of_nat (length seg) < NOT_FOUND ->
  forall fuel scan r,
    find_child_loop fuel st scan name (Z.of_nat (length seg)) = Ret r -> r = None.
Proof.
  intros Htake Hnz Hat Hlen.
  assert (Hle : (length seg <= length (bytes_from name))%nat).
  { rewrite <- Htake at 1. rewrite length_take. lia. }
  induction fuel as [|fuel IH]; intros scan r H.
  { destruct scan; [done|]. by injection H as <-. }
  destruct scan as [sc|]; [|by injection H as <-].
  cbn [find_child_loop] in H.
  destruct (read_node st sc) as [n| |]; cbn [rbind] in H; try done.
  destruct (string_find_char (node_name n) 64) as [at_pos| |] eqn:Hf;
    cbn [rbind] in H; try done.
  destruct (if at_pos =? NOT_FOUND then string_len (node_name n) else Ret at_pos)
    as [len| |] eqn:Hl; cbn [rbind] in H; try done.
  destruct (len =? Z.of_nat (length seg)) eqn:E.
  - apply Z.eqb_eq in E. subst len.
    destruct (strings_eq_bounded (node_name n) name (Z.of_nat (length seg)))
      as [[|]| |] eqn:Hcmp; cbn [rbind] in H; try done.
    + exfalso. unfold strings_eq_bounded in Hcmp. rewrite Nat2Z.id in Hcmp.
      apply strings_eq_bounded_true in Hcmp; [|done|by rewrite Htake].
      destruct (child_name_len_no_at _ _ _ Hf Hl Hlen) as (_ & _ & Hno).
      rewrite Nat2Z.id, Hcmp, Htake in Hno. done.
    + by eapply IH.
  - cbn [rbind] in H. by eapply IH.
Qed.

(** X10.  A name that contains '@' is found by [dtb_find_child] under no node:
    a child's name is cut at its '@' before the comparison and the name asked
    for is not. *)
Theorem dtb_find_child_never_matches_an_at_sign (st : dtb_state) (start : nodeptr)
    (name : cptr) (seg : list Z) (r : option nodeptr) :
  cstring name = Ret seg ->
  In 64 seg ->
  Z.of_nat (length seg) < NOT_FOUND ->
  dtb_find_child st (Some start) (Some name) = Ret r ->
  r = None.
Proof.
  intros Hname Hat Hlen H. unfold dtb_find_child, find_child_internal in H.
  cbn [of_option rbind] in H.
  pose proof (string_len_of_text _ _ Hname ltac:(unfold NOT_FOUND in Hlen; lia)) as Hsl.
  rewrite Hsl in H. cbn [rbind] in H.
  destruct (read_node st start) as [n| |]; cbn [rbind] in H; try done.
  unfold cstring in Hname. destruct (cstring_from_split _ _ Hname) as (rest & Hb & Hnz).
  eapply (find_child_loop_at st name seg); eauto.
  by rewrite Hb, take_app_length.
Qed.

Lemma dtb_find_child_never_matches_an_at_sign_witness :
  dtb_find_child board_state (Some (0, 1)%nat) (Some (cstr "cpu@0")) = Ret None /\
  node_names board_state [(0, 3); (0, 2)]%nat
  = Ret [bytes_of_string "cpu@1"; bytes_of_string "cpu@0"] /\
  (None : option nodeptr) = None.
Proof.
  assert (H : dtb_find_child board_state (Some (0, 1)%nat) (Some (cstr "cpu@0")) = Ret None)
    by (vm_compute; reflexivity).
  split; [exact H|]. split; [vm_compute; reflexivity|].
  apply (dtb_find_child_never_matches_an_at_sign board_state (0, 1)%nat (cstr "cpu@0")
           (bytes_of_string "cpu@0") None).
  - reflexivity.
  - simpl. tauto.
  - vm_compute. reflexivity.
  - exact H.
Defined.

Lemma segments_from_facts (t rest : list Z) :
  Forall (fun c => c <> 0) t ->
  forall cur,
    Forall (fun c => c <> 0) cur ->
    Forall (fun seg => Forall (fun c => c <> 0) seg /\
                       (length seg <= length cur + length t)%nat)
           (segments_from (t ++ 0 :: rest) cur) /\
    (In 64 cur \/ In 64 t -> Exists (In 64) (segments_from (t ++ 0 :: rest) cur)).
Proof.
  assert (Hflush : forall cur n,
            Forall (fun c => c <> 0) cur -> (length cur <= n)%nat ->
            Forall (fun seg => Forall (fun c => c <> 0) seg /\ (length seg <= n)%nat)
                   (flush cur)).
  { intros [|c cur] n Hc Hn; [constructor|]. constructor; [done|constructor]. }
  assert (Hflush' : forall cur, In 64 cur -> Exists (In 64) (flush cur)).
  { intros [|c cur] Hin; [destruct Hin|]. by constructor. }
  induction 1 as [|c t Hc Ht IH]; intros cur Hcur.
  - cbn [app segments_from]. change (0 =? 0) with true. cbv iota. split.
    + apply Hflush; [done|lia].
    + intros [Hin|[]]. by apply Hflush'.
  - cbn [app segments_from]. apply Z.eqb_neq in Hc. rewrite Hc.
    destruct (c =? 47) eqn:E.
    + apply Z.eqb_eq in E. subst c.
      destruct (IH [] ltac:(constructor)) as [IH1 IH2]. split.
      * apply Forall_app. split; [apply Hflush; [done|simpl; lia]|].
        eapply Forall_impl; [exact IH1|]. intros seg [? ?]. split; [done|simpl in *; lia].
      * intros [Hin|[Hin|Hin]]; [|lia|].
        -- apply Exists_app. left. by apply Hflush'.
        -- apply Exists_app. right. apply IH2. by right.
    + apply Z.eqb_neq in Hc.
      destruct (IH (cur ++ [c])) as [IH1 IH2].
      { apply Forall_app. split; [done|]. by constructor. }
      split.
      * eapply Forall_impl; [exact IH1|]. intros seg [? Hl]. split; [done|].
        rewrite length_app in Hl. simpl in *. lia.
      * intros [Hin|[Hin|Hin]]; apply IH2.
        -- left. apply in_or_app. by left.
        -- left. apply in_or_app. right. by left.
        -- by right.
Qed.

Lemma walk_at (st : dtb_state) (segs : list (list Z)) :
  Forall (fun seg => Forall (fun c => c <> 0) seg /\ Z.of_nat (length seg) < NOT_FOUND) segs ->
  Exists (In 64) segs ->
  forall scan r, walk st scan segs = Ret r -> r = None.
Proof.
  induction segs as [|seg segs IH]; intros Hgood Hex scan r H.
  { by apply Exists_nil in Hex. }
  destruct scan as [sc|]; [|by injection H as <-].
  cbn [walk] in H. inversion Hgood as [|? ? [Hnz Hlen] Hgood']; subst.
  destruct (find_child_internal st sc (CPtr seg 0) (Z.of_nat (length seg)))
    as [scan'| |] eqn:Hf; cbn [rbind] in H; try done.
  apply Exists_cons in Hex. destruct Hex as [Hat|Hex].
  - unfold find_child_internal in Hf.
    destruct (read_node st sc) as [n| |]; cbn [rbind] in Hf; try done.
    apply (find_child_loop_at st (CPtr seg 0) seg) in Hf; try done.
    + subst scan'. rewrite walk_None in H. by injection H as <-.
    + by rewrite bytes_from_start, firstn_all.
  - by eapply IH.
Qed.

(** X11.  [dtb_find] gives null for every path that contains '@': a node with
    a unit address cannot be reached by its full name. *)
Theorem dtb_find_never_resolves_an_at_sign (st : dtb_state) (path : cptr) (t : list Z)
    (r : option nodeptr) :
  cstring path = Ret t ->
  In 64 t ->
  Z.of_nat (length (bytes_from path)) < NOT_FOUND ->
  dtb_find st (Some path) = Ret r ->
  r = None.
Proof.
  intros Hp Hat Hlen H. unfold cstring in Hp.
  destruct (cstring_from_split _ _ Hp) as (rest & Hb & Hnz).
  unfold dtb_find in H. cbn [from_option] in H.
  rewrite dtb_find_loop_walk in H; [|rewrite Hb; apply in_or_app; right; by left|done|lia].
  rewrite Hb in H, Hlen.
  destruct (segments_from_facts t rest Hnz [] ltac:(constructor)) as [Hgood Hex].
  eapply (walk_at st (segments (t ++ 0 :: rest))); [| |exact H].
  - eapply Forall_impl; [exact Hgood|]. intros seg [? Hl]. split; [done|].
    rewrite length_app in Hlen. simpl in *. lia.
  - apply Hex. by right.
Qed.

Lemma dtb_find_never_resolves_an_at_sign_witness :
  dtb_find board_state (Some (cstr "/cpus/cpu@0")) = Ret None /\
  dtb_find board_state (Some (cstr "/cpus/cpu")) = Ret (Some (0, 3)%nat) /\
  (None : option nodeptr) = None.
Proof.
  assert (H : dtb_find board_state (Some (cstr "/cpus/cpu@0")) = Ret None)
    by (vm_compute; reflexivity).
  split; [exact H|]. split; [vm_compute; reflexivity|].
  apply (dtb_find_never_resolves_an_at_sign board_state (cstr "/cpus/cpu@0")
           (bytes_of_string "/cpus/cpu@0") None).
  - reflexivity.
  - simpl. tauto.
  - vm_compute. reflexivity.
  - exact H.
Defined.

(** ** The properties of a node *)

Lemma get_prop_loop_walk (st : dtb_state) :
  forall fuel c l k,
    props_chain_from fuel st c = Ret l ->
    Z.of_nat k < 4294967296 ->
    get_prop_loop fuel st c (Z.of_nat k) = Ret (l !! k).
Proof.
  induction fuel as [|fuel IH]; intros c l k Hw Hk.
  - destruct c; [done|]. injection Hw as <-. done.
  - destruct c as [pp|]; [|injection Hw as <-; done].
    cbn [props_chain_from] in Hw.
    destruct (read_prop st pp) as [p| |] eqn:Hp; cbn [rbind] in Hw; try done.
    destruct (props_chain_from fuel st (next p)) as [l'| |] eqn:Hl'; cbn [rbind] in Hw;
      try done.
    injection Hw as <-. destruct k as [|k]; [done|].
    cbn [get_prop_loop].
    replace (Z.of_nat (S k) =? 0) with false by (symmetry; apply Z.eqb_neq; lia).
    rewrite Hp. cbn [rbind].
    replace (u32 (Z.of_nat (S k) - 1)) with (Z.of_nat k) by (rewrite u32_small; lia).
    rewrite (IH _ _ _ Hl') by lia. done.
Qed.

Lemma get_prop_loop_end (st : dtb_state) :
  forall fuel c m,
    get_prop_loop fuel st c (Z.of_nat m) = Ret None ->
    Z.of_nat m < 4294967296 ->
    exists l, props_chain_from fuel st c = Ret l /\ (length l <= m)%nat.
Proof.
  induction fuel as [|fuel IH]; intros c m Hg Hm.
  - destruct c as [pp|]; [|exists []; split; [done|simpl; lia]].
    cbn [get_prop_loop] in Hg. by destruct (Z.of_nat m =? 0).
  - destruct c as [pp|]; [|exists []; split; [done|simpl; lia]].
    cbn [get_prop_loop] in Hg. destruct m as [|m]; [done|].
    replace (Z.of_nat (S m) =? 0) with false in Hg by (symmetry; apply Z.eqb_neq; lia).
    destruct (read_prop st pp) as [p| |] eqn:Hp; cbn [rbind] in Hg; try done.
    replace (u32 (Z.of_nat (S m) - 1)) with (Z.of_nat m) in Hg by (rewrite u32_small; lia).
    destruct (IH _ _ Hg ltac:(lia)) as (l & Hl & Hlen).
    exists (pp :: l). cbn [props_chain_from]. rewrite Hp. cbn [rbind]. rewrite Hl.
    split; [done|simpl; lia].
Qed.

Lemma props_from_shape (st : dtb_state) (node : nodeptr) :
  forall fuel i l,
    props_from fuel st node i = Ret l ->
    (forall k p, l !! k = Some p ->
                 dtb_get_prop st (Some node) (i + Z.of_nat k) = Ret (Some p)) /\
    dtb_get_prop st (Some node) (i + Z.of_nat (length l)) = Ret None.
Proof.
  induction fuel as [|fuel IH]; intros i l H; [done|].
  cbn [props_from] in H.
  destruct (dtb_get_prop st (Some node) i) as [[p|]| |] eqn:Hg; cbn [rbind] in H; try done.
  - destruct (props_from fuel st node (i + 1)) as [rest| |] eqn:Hrest; cbn [rbind] in H;
      try done.
    injection H as <-. destruct (IH _ _ Hrest) as [IH1 IH2]. split.
    + intros [|k] q Hq.
      * injection Hq as <-. by rewrite Z.add_0_r.
      * replace (i + Z.of_nat (S k)) with (i + 1 + Z.of_nat k) by lia. by apply IH1.
    + replace (i + Z.of_nat (length (p :: rest))) with (i + 1 + Z.of_nat (length rest))
        by (simpl length; lia).
      exact IH2.
  - injection H as <-. split; [done|]. by rewrite Z.add_0_r.
Qed.

(** The properties [dtb_get_prop] enumerates are the ones on the node's
    [next] chain. *)
Lemma iter_props_walk (st : dtb_state) (node : nodeptr) (l : list propptr) :
  iter_props st node = Ret l ->
  Z.of_nat (length l) < 4294967296 ->
  exists n, read_node st node = Ret n /\
            props_chain_from (S (prop_slots st)) st (props n) = Ret l.
Proof.
  intros Hi Hlen. unfold iter_props in Hi.
  destruct (props_from_shape _ _ _ _ _ Hi) as [Hget Hend].
  rewrite Z.add_0_l in Hend. unfold dtb_get_prop in Hend, Hget.
  destruct (read_node st node) as [n| |]; cbn [rbind] in Hend, Hget; try done.
  exists n. split; [done|].
  destruct (get_prop_loop_end _ _ _ _ Hend Hlen) as (l' & Hl' & Hle).
  rewrite Hl'. f_equal. apply list_eq. intros k.
  destruct (l !! k) as [p|] eqn:Hk.
  - pose proof (lookup_lt_Some _ _ _ Hk) as Hlt.
    specialize (Hget k p Hk). rewrite Z.add_0_l in Hget.
    rewrite (get_prop_loop_walk _ _ _ _ k Hl') in Hget by lia. by injection Hget.
  - apply lookup_ge_None_1 in Hk. apply lookup_ge_None_2. lia.
Qed.

Lemma find_prop_loop_spec (st : dtb_state) (name : cptr) (t : list Z) :
  cstring name = Ret t ->
  forall fuel c l names,
    props_chain_from fuel st c = Ret l ->
    prop_names st l = Ret names ->
    Forall (fun tp => Z.of_nat (length tp) < 4294967296) names ->
    find_prop_loop fuel st c name (Z.of_nat (length t))
    = Ret (first_labelled l names t).
Proof.
  intros Hname. induction fuel as [|fuel IH]; intros c l names Hw Hn Hfit.
  { destruct c; [done|]. injection Hw as <-. done. }
  destruct c as [pp|]; [|injection Hw as <-; done].
  cbn [props_chain_from] in Hw. cbn [find_prop_loop].
  destruct (read_prop st pp) as [p| |] eqn:Hp; cbn [rbind] in Hw |- *; try done.
  destruct (props_chain_from fuel st (next p)) as [rest| |] eqn:Hrest;
    cbn [rbind] in Hw; try done.
  injection Hw as <-. cbn [prop_names] in Hn. rewrite Hp in Hn. cbn [rbind] in Hn.
  destruct (cstring (prop_name p)) as [tp| |] eqn:Ht; cbn [rbind] in Hn; try done.
  destruct (prop_names st rest) as [ts| |] eqn:Hts; cbn [rbind] in Hn; try done.
  injection Hn as <-. inversion Hfit as [|? ? Hfit1 Hfit']; subst.
  rewrite (string_len_of_text _ _ Ht Hfit1).
  cbn [rbind first_labelled].
  rewrite (strings_eq_of_text _ _ _ _ Ht Hname) by lia.
  destruct (Z.of_nat (length tp) =? Z.of_nat (length t)) eqn:E; cbn [rbind].
  - destruct (bool_decide (tp = t)); [done|]. by apply IH.
  - apply Z.eqb_neq in E. rewrite bool_decide_eq_false_2 by (intros ->; lia).
    by apply IH.
Qed.

(** X12.  [dtb_find_prop] returns the first property of the node, in the order
    [dtb_get_prop] enumerates them, whose name is the name asked for, and null
    when there is none.  The name asked for and the names of the properties
    have fewer than 2^32 bytes, so that no [uint32_t] index wraps. *)
Theorem dtb_find_prop_finds_the_first_by_name (st : dtb_state) (node : nodeptr)
    (name : cptr) (t : list Z) (l : list propptr) (names : list (list Z)) :
  iter_props st node = Ret l ->
  Z.of_nat (length l) < 4294967296 ->
  prop_names st l = Ret names ->
  forallb (fun tp => Z.of_nat (length tp) <? 4294967296) names = true ->
  cstring name = Ret t ->
  Z.of_nat (length t) < 4294967296 ->
  dtb_find_prop st (Some node) (Some name) = Ret (first_labelled l names t).
Proof.
  intros Hi Hlen Hn Hfits Hname Hfit.
  destruct (iter_props_walk _ _ _ Hi Hlen) as (n & Hr & Hw).
  unfold dtb_find_prop. cbn [of_option rbind].
  rewrite (string_len_of_text _ _ Hname Hfit).
  cbn [rbind]. rewrite Hr. cbn [rbind].
  eapply find_prop_loop_spec; eauto.
  apply Forall_forall. intros tp Htp. rewrite forallb_forall in Hfits.
  apply Z.ltb_lt, Hfits. by apply list_elem_of_In.
Qed.

Lemma dtb_find_prop_finds_the_first_by_name_witness :
  dtb_find_prop board_state (Some (0, 2)%nat) (Some (cstr "reg")) = Ret (Some (0, 4)%nat).
Proof.
  apply (dtb_find_prop_finds_the_first_by_name board_state (0, 2)%nat (cstr "reg")
           (bytes_of_string "reg") [(0, 5); (0, 4)]%nat
           [bytes_of_string "phandle"; bytes_of_string "reg"]);
    vm_compute; reflexivity.
Defined.

(** X13.  [dtb_get_prop] with index i returns the i-th property on the [next]
    chain of the node, counted from 0, and null when the chain has i
    properties or fewer. *)
Theorem dtb_get_prop_walks_the_next_chain (st : dtb_state) (node : nodeptr)
    (n : dtb_node) (l : list propptr) (index : Z) :
  read_node st node = Ret n ->
  props_chain_from (S (prop_slots st)) st (props n) = Ret l ->
  0 <= index < 4294967296 ->
  dtb_get_prop st (Some node) index = Ret (l !! Z.to_nat index).
Proof.
  intros Hr Hw Hindex. unfold dtb_get_prop. rewrite Hr. cbn [rbind].
  rewrite <- (Z2Nat.id index) at 1 by lia.
  apply get_prop_loop_walk; [done|lia].
Qed.

Lemma dtb_get_prop_walks_the_next_chain_witness :
  dtb_get_prop board_state (Some (0, 2)%nat) 1 = Ret (Some (0, 4)%nat) /\
  dtb_get_prop board_state (Some (0, 2)%nat) 2 = Ret None.
Proof.
  split.
  - apply (dtb_get_prop_walks_the_next_chain board_state (0, 2)%nat board_cpu0
             [(0, 5); (0, 4)]%nat 1); [vm_compute; reflexivity|vm_compute; reflexivity|lia].
  - apply (dtb_get_prop_walks_the_next_chain board_state (0, 2)%nat board_cpu0
             [(0, 5); (0, 4)]%nat 2); [vm_compute; reflexivity|vm_compute; reflexivity|lia].
Defined.

(** ** Node statistics and iteration *)

Lemma count_siblings_walk (st : dtb_state) :
  forall fuel c l count,
    siblings_from fuel st c = Ret l ->
    0 <= count < 4294967296 ->
    count_siblings fuel st c count = Ret (u32 (count + Z.of_nat (length l))).
Proof.
  induction fuel as [|fuel IH]; intros c l count Hw Hc.
  - destruct c; [done|]. injection Hw as <-. cbn. by rewrite Z.add_0_r, u32_small.
  - destruct c as [np|];
      [|injection Hw as <-; cbn; by rewrite Z.add_0_r, u32_small].
    cbn [siblings_from dtb_get_sibling] in Hw. cbn [count_siblings].
    destruct (read_node st np) as [n| |]; cbn [rbind] in Hw |- *; try done.
    destruct (siblings_from fuel st (sibling n)) as [rest| |] eqn:Hrest;
      cbn [rbind] in Hw; try done.
    injection Hw as <-. rewrite (IH _ _ _ Hrest) by apply u32_range.
    f_equal. unfold u32. rewrite Zplus_mod_idemp_l. f_equal. simpl length. lia.
Qed.

Lemma count_props_walk (st : dtb_state) :
  forall fuel c l count,
    props_chain_from fuel st c = Ret l ->
    0 <= count < 4294967296 ->
    count_props fuel st c count = Ret (u32 (count + Z.of_nat (length l))).
Proof.
  induction fuel as [|fuel IH]; intros c l count Hw Hc.
  - destruct c; [done|]. injection Hw as <-. cbn. by rewrite Z.add_0_r, u32_small.
  - destruct c as [pp|];
      [|injection Hw as <-; cbn; by rewrite Z.add_0_r, u32_small].
    cbn [props_chain_from] in Hw. cbn [count_props].
    destruct (read_prop st pp) as [p| |]; cbn [rbind] in Hw |- *; try done.
    destruct (props_chain_from fuel st (next p)) as [rest| |] eqn:Hrest;
      cbn [rbind] in Hw; try done.
    injection Hw as <-. rewrite (IH _ _ _ Hrest) by apply u32_range.
    f_equal. unfold u32. rewrite Zplus_mod_idemp_l. f_equal. simpl length. lia.
Qed.

Lemma dtb_stat_node_spec (st : dtb_state) (node : nodeptr)
    (n : dtb_node) (stat : dtb_node_stat) (kids sibs : list nodeptr)
    (props : list propptr) :
  read_node st node = Ret n ->
  iter_children st node = Ret kids ->
  iter_props st node = Ret props ->
  Z.of_nat (length props) < 4294967296 ->
  match parent n with
  | Some par => iter_children st par = Ret sibs
  | None => sibs = []
  end ->
  dtb_stat_node st (Some node) (Some stat)
  = Ret (Some (Stat (if bool_decide (root st = Some node) then ROOT_NODE_STR
                     else node_name n)
                    (u32 (Z.of_nat (length kids)))
                    (u32 (Z.of_nat (length props)))
                    (u32 (Z.of_nat (length sibs))))).
Proof.
  intros Hn Hk Hp Hlen Hs.
  destruct (iter_props_walk _ _ _ Hp Hlen) as (n' & Hn' & Hw).
  assert (n' = n) by congruence. subst n'.
  unfold iter_children, dtb_get_child in Hk. rewrite Hn in Hk. cbn [rbind] in Hk.
  unfold dtb_stat_node. rewrite Hn. cbn [rbind of_option].
  rewrite (count_props_walk _ _ _ _ 0 Hw) by lia.
  rewrite (count_siblings_walk _ _ _ _ 0 Hk) by lia. cbn [rbind].
  rewrite !Z.add_0_l.
  assert (Hroot : match root st with
                  | Some r => nodeptr_eqb node r
                  | None => false
                  end = bool_decide (root st = Some node)).
  { destruct (root st) as [r|]; [|by rewrite bool_decide_eq_false_2].
    destruct (nodeptr_eqb node r) eqn:E.
    - unfold nodeptr_eqb in E. apply andb_true_iff in E as [E1 E2].
      apply Nat.eqb_eq in E1, E2. destruct node, r; simpl in *; subst.
      by rewrite bool_decide_eq_true_2.
    - rewrite bool_decide_eq_false_2; [done|]. intros [= ->].
      unfold nodeptr_eqb in E. by rewrite !Nat.eqb_refl in E. }
  rewrite Hroot.
  destruct (parent n) as [par|].
  - unfold iter_children, dtb_get_child in Hs.
    destruct (read_node st par) as [pn| |]; cbn [rbind] in Hs |- *; try done.
    rewrite (count_siblings_walk _ _ _ _ 0 Hs) by lia. cbn [rbind].
    by rewrite Z.add_0_l.
  - subst sibs. cbn [rbind]. done.
Qed.

(** X14.  [dtb_stat_node] sets [child_count] to the number of children that
    [dtb_get_child] and [dtb_get_sibling] list, [prop_count] to the number of
    properties that [dtb_get_prop] enumerates and [sibling_count] to the
    number of children of the parent (0 without a parent), each taken modulo
    2^32; [name] is the node's name, or [ROOT_NODE_STR] for the node [root]
    points to. *)
Theorem dtb_stat_node_counts_what_iteration_yields (st : dtb_state) (node : nodeptr)
    (n : dtb_node) (stat : dtb_node_stat) (kids sibs : list nodeptr)
    (props : list propptr) :
  read_node st node = Ret n ->
  iter_children st node = Ret kids ->
  iter_props st node = Ret props ->
  Z.of_nat (length props) < 4294967296 ->
  match parent n with
  | Some par => iter_children st par = Ret sibs
  | None => sibs = []
  end ->
  dtb_stat_node st (Some node) (Some stat)
  = Ret (Some (Stat (if bool_decide (root st = Some node) then ROOT_NODE_STR
                     else node_name n)
                    (u32 (Z.of_nat (length kids)))
                    (u32 (Z.of_nat (length props)))
                    (u32 (Z.of_nat (length sibs))))).
Proof. apply dtb_stat_node_spec. Qed.

Lemma dtb_stat_node_counts_what_iteration_yields_witness :
  dtb_stat_node board_state (Some (0, 1)%nat) (Some (Stat null_cptr 0 0 0))
  = Ret (Some (Stat (node_name board_cpus) 2 2 2)).
Proof.
  apply (dtb_stat_node_counts_what_iteration_yields board_state (0, 1)%nat board_cpus
           (Stat null_cptr 0 0 0) [(0, 3); (0, 2)]%nat [(0, 4); (0, 1)]%nat
           [(0, 3); (0, 2)]%nat);
    vm_compute; reflexivity.
Defined.

(** ** The pre-scan of [alloc_buffers] *)

Lemma count_cells_range (remaining : nat) :
  forall cs i v n, count_cells remaining cs i v = Ret n -> 0 <= n <= Z.of_nat remaining.
Proof.
  induction remaining as [|remaining IH]; intros cs i v n H.
  - injection H as <-. simpl. lia.
  - cbn [count_cells] in H. apply rbind_Ret in H as (c & _ & H).
    apply rbind_Ret in H as (m & Hm & H). injection H as <-.
    apply IH in Hm. destruct (be32 c =? v); lia.
Qed.

Lemma alloc_buffers_scan_counts (remaining : nat) :
  forall i st st' u,
    alloc_buffers_scan remaining i st = Ret (u, st') ->
    0 <= node_alloc_max st -> 0 <= prop_alloc_max st ->
    node_alloc_max st + Z.of_nat remaining < 4294967296 ->
    prop_alloc_max st + Z.of_nat remaining < 4294967296 ->
    exists n1 n3,
      count_cells remaining (cells st) i FDT_BEGIN_NODE = Ret n1 /\
      count_cells remaining (cells st) i FDT_PROP = Ret n3 /\
      node_alloc_max st' = node_alloc_max st + n1 /\
      prop_alloc_max st' = prop_alloc_max st + n3.
Proof.
  induction remaining as [|remaining IH]; intros i st st' u H Hn Hp Hnb Hpb.
  - cbn [alloc_buffers_scan] in H. minv H. exists 0, 0. cbn. split; [done|].
    split; [done|]. lia.
  - cbn [alloc_buffers_scan] in H. minv H. cbn [count_cells].
    unfold read_cell in Hrd. rewrite Hrd. cbn [rbind].
    match goal with
    | Hs : (if ?c then _ else _) _ = Ret (_, ?s) |- _ =>
        assert (Hone : cells s = cells st /\
                       node_alloc_max s
                       = node_alloc_max st + (if c then 1 else 0) /\
                       prop_alloc_max s
                       = prop_alloc_max st
                         + (if be32 a =? FDT_PROP then 1 else 0));
        [destruct c eqn:Ec; [minv Hs|
           match type of Hs with
           | (if ?d then _ else _) _ = _ => destruct d eqn:Ed; minv Hs
           end]|]
    end.
    + apply Z.eqb_eq in Ec. rewrite Ec. change (FDT_BEGIN_NODE =? FDT_PROP) with false.
      cbn. rewrite u32_small by lia. split; [done|]. split; lia.
    + cbn. rewrite u32_small by lia. split; [done|]. split; lia.
    + split; [done|]. split; lia.
    + destruct Hone as (Hcs & Hn1 & Hp1).
      destruct (IH _ _ _ _ H) as (n1 & n3 & Hc1 & Hc3 & Hmax1 & Hmax3).
      { destruct (be32 a =? FDT_BEGIN_NODE); lia. }
      { destruct (be32 a =? FDT_PROP); lia. }
      { destruct (be32 a =? FDT_BEGIN_NODE); lia. }
      { destruct (be32 a =? FDT_PROP); lia. }
      rewrite Hcs in Hc1, Hc3. rewrite Hc1, Hc3. cbn [rbind].
      eexists _, _. split; [reflexivity|]. split; [reflexivity|]. lia.
Qed.

Lemma alloc_buffers_counts (st st1 : dtb_state) (u : unit) :
  alloc_buffers st = Ret (u, st1) ->
  0 <= cell_count st < 1073741824 ->
  count_cells (Z.to_nat (cell_count st)) (cells st) 0 FDT_BEGIN_NODE
  = Ret (node_alloc_max st1) /\
  count_cells (Z.to_nat (cell_count st)) (cells st) 0 FDT_PROP
  = Ret (prop_alloc_max st1).
Proof.
  unfold alloc_buffers. intros H Hc. minv H.
  match goal with
  | Hs : alloc_buffers_scan _ _ _ = Ret _ |- _ =>
      apply alloc_buffers_scan_counts in Hs as (n1 & n3 & H1 & H3 & Hm1 & Hm3);
        [|simpl; lia..]
  end.
  simpl in H1, H3, Hm1, Hm3.
  match goal with
  | Hm : host_malloc _ _ _ _ = Ret _ |- _ => unfold host_malloc in Hm
  end.
  match goal with
  | Hm : (if ?c then _ else _) = Ret _ |- _ => destruct c; [discriminate|]
  end.
  match goal with
  | Hm : (if ?c then _ else _) = Ret _ |- _ =>
      destruct c; [discriminate|]; injection Hm as <- <-
  end.
  simpl. rewrite H1, H3, Hm1, Hm3. split; f_equal; lia.
Qed.

(** ** Lookup by phandle after [dtb_init] *)

Lemma call_on_error_log (why : string) (st st' : dtb_state) (u : unit) :
  call_on_error why st = Ret (u, st') ->
  st' = set_err_log (err_log st') st /\
  err_log st' = if on_error (ops st) then err_log st ++ [why] else err_log st.
Proof.
  unfold call_on_error. destruct (on_error (ops st)); intros [= ? <-]; [done|].
  by destruct st.
Qed.

(** [dtb_init] on a fresh parser that stops before allocating has only
    stored [ops] and reported one error. *)
Lemma dtb_init_cases (start : cptr) (o : dtb_ops) (st' : dtb_state) (u : unit) :
  dtb_init start o state0 = Ret (u, st') ->
  (st' = set_err_log (err_log st') (set_ops o state0) /\
   ((malloc o = false /\
     err_log st' = if on_error o then ["ops.malloc is NULL"%string] else []) \/
    (malloc o = true /\
     (exists magic, load32 start = Ret magic /\ be32 magic <> FDT_MAGIC) /\
     err_log st' = if on_error o then ["FDT has incorrect magic number."%string]
                   else []))) \/
  (malloc o = true /\
   (exists magic, load32 start = Ret magic /\ be32 magic = FDT_MAGIC) /\
   exists st1,
    wf 0 st1 /\ hinv 0 st1 /\ root st1 = None /\
    node_alloc_head st1 = 0 /\ prop_alloc_head st1 = 0 /\
    0 <= cell_count st1 < 1073741824 /\ err_log st1 = [] /\ ops st1 = o /\
    count_cells (Z.to_nat (cell_count st1)) (cells st1) 0 FDT_BEGIN_NODE
    = Ret (node_alloc_max st1) /\
    count_cells (Z.to_nat (cell_count st1)) (cells st1) 0 FDT_PROP
    = Ret (prop_alloc_max st1) /\
    length (nodes_of st1 0) = Z.to_nat (node_alloc_max st1) /\
    length (props_of st1 0) = Z.to_nat (prop_alloc_max st1) /\
    dtb_init_loop (init_fuel (cell_count st1)) 0 st1 = Ret (u, st')).
Proof.
  unfold dtb_init. intros H. minv H.
  destruct (malloc o) eqn:Hm; cbn [negb] in H.
  2:{ left. apply call_on_error_log in H as [H Hlog]. split; [done|]. left.
      split; [done|]. exact Hlog. }
  minv H.
  match type of H with
  | (if negb ?c then _ else _) _ = _ => destruct c eqn:Hmagic; cbn [negb] in H
  end.
  2:{ left. apply call_on_error_log in H as [H Hlog]. split; [done|]. right.
      split; [done|]. split; [|exact Hlog].
      eexists. split; [eassumption|]. by apply Z.eqb_neq. }
  minv H. right. split; [done|].
  split; [eexists; split; [eassumption|by apply Z.eqb_eq]|].
  match goal with
  | Hs : (if _ is Some _ then _ else _) _ = Ret _ |- _ =>
      cbn in Hs; injection Hs as _ <-
  end.
  match goal with
  | Hl : load32 (ptr_add start 36) = Ret ?x |- _ => pose proof (be32_range x) as Hx
  end.
  match goal with
  | Ha : alloc_buffers ?s = Ret _ |- _ =>
      assert (Hc : 0 <= cell_count s < 1073741824)
        by (simpl; split; [apply Z.div_pos; lia|apply Z.div_lt_upper_bound; lia]);
      destruct (alloc_buffers_counts _ _ _ Ha Hc) as [Hc1 Hc3];
      apply alloc_buffers_Ret in Ha as (nm & pm & Hn & Hp & ->)
  end.
  simpl in Hn, Hp, Hc, Hc1, Hc3.
  match type of H with
  | dtb_init_loop _ _ ?s1 = _ =>
      match s1 with
      | context [heap ?s ++ _] =>
          destruct (fresh_block_wf s nm pm ltac:(lia) ltac:(lia)) as [Hwf Hi]
      end
  end.
  eexists. split; [exact Hwf|]. split; [exact Hi|].
  split; [reflexivity|]. split; [reflexivity|]. split; [reflexivity|].
  split; [exact Hc|]. split; [reflexivity|]. split; [reflexivity|].
  split; [exact Hc1|]. split; [exact Hc3|].
  split; [apply length_replicate|]. split; [apply length_replicate|exact H].
Qed.

Lemma dtb_init_early (start : cptr) (o : dtb_ops) (st : dtb_state) :
  dtb_init start o state0 = Ret (tt, st) ->
  node_buff st = None ->
  st = set_err_log (err_log st) (set_ops o state0).
Proof.
  intros H Hnb.
  destruct (dtb_init_cases _ _ _ _ H)
    as [[Hst _]|(_ & _ & st1 & Hwf1 & Hi1 & _ & _ & _ & _ & _ & _ & _ & _ & _ & _ & Hloop)];
    [done|].
  destruct (init_loop_hinv 0 _ _ _ _ _ Hwf1 Hi1 Hloop) as [Hwf _].
  rewrite (wf_node_buff _ _ Hwf) in Hnb. done.
Qed.

(** X15.  After a [dtb_init] on a fresh parser that has run without a memory
    fault, so that no handle was stored outside the phandle table,
    [dtb_find_phandle] with a handle [h] below [node_alloc_max], the number
    of entries of the phandle table, returns either a parsed node that has a
    [phandle] or [linux,phandle] property of value [h], or null, and then no
    parsed node has such a property.  With a handle at or above
    [node_alloc_max] it returns null, whatever the nodes declare. *)
Theorem dtb_find_phandle_returns_a_declaring_node (start : cptr) (o : dtb_ops)
    (st : dtb_state) (h : Z) :
  dtb_init start o state0 = Ret (tt, st) ->
  0 <= h ->
  (h < node_alloc_max st ->
   exists r,
     dtb_find_phandle st h = Ret r /\
     match r with
     | Some N => parsed st N /\ declares st N h
     | None => forall N, parsed st N -> ~ declares st N h
     end) /\
  (node_alloc_max st <= h -> dtb_find_phandle st h = Ret None).
Proof.
  intros Hinit Hh. split.
  2:{ intros Hge. unfold dtb_find_phandle.
      by replace (h <? node_alloc_max st) with false by (symmetry; apply Z.ltb_ge; lia). }
  intros Hbelow.
  destruct (init_tree _ _ _ Hinit) as [(Hnb & _)|(Hwf & Hi & _)].
  { assert (Hmax : node_alloc_max st = 0)
      by (by rewrite (dtb_init_early _ _ _ Hinit Hnb)).
    lia. }
  pose proof (wf_live _ _ Hwf) as Hlive.
  assert (Hcomplete : forall N,
            parsed st N -> declares st N h ->
            exists n, handles_of st 0 !! Z.to_nat h = Some (Some n)).
  { intros N [Hb Hk] (props & pp & p & Hprops & Hpp & Hp & Hfor).
    destruct N as [b k]. cbn [fst snd] in Hb, Hk.
    rewrite (wf_node_buff _ _ Hwf) in Hb. injection Hb as <-.
    destruct (iter_props_read _ _ _ Hprops) as (nd & Hnd).
    pose proof (read_node_nodes_of _ _ _ _ Hnd) as Hnd'.
    destruct (hi_chains _ _ Hi k nd Hk Hnd') as (l & Hl).
    rewrite (iter_props_chain st 0 k nd _ l Hnd Hl Hlive
               (wf_chain_short _ _ _ _ Hwf Hl)) in Hprops.
    injection Hprops as <-. apply list_elem_of_fmap in Hpp as (j & -> & Hj).
    apply read_prop_props_of in Hp. apply is_handle_for_true in Hfor.
    destruct Hfor as [Hcl Hdec].
    destruct (hi_props _ _ Hi k nd l j p Hk Hnd' Hl Hj Hp Hcl) as (h' & n' & Hdec' & Hn').
    assert (h' = h) by congruence. subst h'. by exists n'. }
  unfold dtb_find_phandle.
  replace (h <? node_alloc_max st) with true by (symmetry; apply Z.ltb_lt; lia).
  destruct (lookup_lt_is_Some_2 (handles_of st 0) (Z.to_nat h)) as [v Hv].
  { rewrite (hi_size _ _ Hi). lia. }
  exists v. split.
  { apply (read_handle_of st 0 h _ (wf_handle_lookup _ _ Hwf)). by split. }
  destruct v as [n|].
  - destruct (hi_table _ _ Hi _ _ Hv)
      as (k & nd & l & j & p & -> & Hk & Hnd & Hl & Hj & Hp & Hph).
    rewrite Z2Nat.id in Hph by done.
    split; [split; [apply (wf_node_buff _ _ Hwf)|done]|].
    exists ((fun j => (0%nat, j)) <$> l), (0%nat, j), p.
    split; [|split; [|split]].
    + eapply iter_props_chain; eauto; [by apply wf_read_node|].
      by eapply wf_chain_short.
    + apply list_elem_of_fmap. by exists j.
    + by apply wf_read_prop.
    + by apply is_handle_for_true.
  - intros N HN Hd. destruct (Hcomplete N HN Hd) as (n & Hn). congruence.
Qed.

Lemma dtb_find_phandle_returns_a_declaring_node_witness :
  2 < node_alloc_max board_state /\
  exists r,
    dtb_find_phandle board_state 2 = Ret r /\
    match r with
    | Some N => parsed board_state N /\ declares board_state N 2
    | None => forall N, parsed board_state N -> ~ declares board_state N 2
    end.
Proof.
  split; [vm_compute; reflexivity|].
  apply (dtb_find_phandle_returns_a_declaring_node (board 1 2) all_ops board_state 2).
  - vm_compute; reflexivity.
  - lia.
  - vm_compute; reflexivity.
Defined.

(** ** The property decoders *)

Lemma load8_nth (p : cptr) (k : nat) (c : Z) :
  bytes_from p !! k = Some c -> load8 (ptr_add p (Z.of_nat k)) = Ret c.
Proof.
  intros Hk. unfold load8. rewrite bytes_from_add.
  - by rewrite (drop_S _ _ _ Hk).
  - apply bytes_from_nonempty. intros E. by rewrite E in Hk.
Qed.

Lemma insert_take_drop {A : Type} (src buf : list A) (m : nat) (x : A) :
  src !! m = Some x -> (m < length buf)%nat ->
  <[m := x]> (take m src ++ drop m buf) = take (S m) src ++ drop (S m) buf.
Proof.
  intros Hx Hm. pose proof (lookup_lt_Some _ _ _ Hx) as Hlt.
  destruct (lookup_lt_is_Some_2 buf m Hm) as [y Hy].
  rewrite (drop_S _ _ _ Hy). rewrite (take_S_r _ _ _ Hx).
  assert (Hlen : length (take m src) = m) by (rewrite length_take; lia).
  rewrite <- (Nat.add_0_r m) at 1. rewrite <- Hlen at 1.
  rewrite insert_app_r. cbn. by rewrite <- app_assoc.
Qed.

Lemma read_prop_bytestring_loop_copies (base : cptr) (buf : list Z) :
  forall remaining i,
    (i + remaining <= length (bytes_from base))%nat ->
    (i + remaining <= length buf)%nat ->
    read_prop_bytestring_loop remaining base (Z.of_nat i)
                              (take i (bytes_from base) ++ drop i buf)
    = Ret (take (i + remaining) (bytes_from base) ++ drop (i + remaining) buf).
Proof.
  induction remaining as [|remaining IH]; intros i Hsrc Hbuf.
  - by rewrite Nat.add_0_r.
  - cbn [read_prop_bytestring_loop].
    destruct (lookup_lt_is_Some_2 (bytes_from base) i ltac:(lia)) as [c Hc].
    rewrite (load8_nth _ _ _ Hc). cbn [rbind]. rewrite Nat2Z.id.
    assert (Hin : is_Some ((take i (bytes_from base) ++ drop i buf) !! i)).
    { apply lookup_lt_is_Some_2. rewrite length_app, length_take, length_drop. lia. }
    destruct Hin as [y ->]. cbn [of_option rbind].
    rewrite insert_take_drop by (done || lia).
    replace (Z.of_nat i + 1) with (Z.of_nat (S i)) by lia.
    rewrite IH by lia. do 3 f_equal; lia.
Qed.

(** X16.  [dtb_read_prop_bytestring] returns the length stored in the blob in
    front of the value.  With a null buffer it does nothing else; with a
    buffer at least that long it copies that many bytes of the value to the
    start of the buffer and leaves the rest of the buffer as it was. *)
Theorem dtb_read_prop_bytestring_copies_the_value (st : dtb_state) (pp : propptr)
    (p : dtb_prop) (raw : Z) (buf : list Z) :
  read_prop st pp = Ret p ->
  load32 (ptr_add (first_cell p) (-8)) = Ret raw ->
  (Z.to_nat (be32 raw) <= length (bytes_from (first_cell p)))%nat ->
  (Z.to_nat (be32 raw) <= length buf)%nat ->
  dtb_read_prop_bytestring st (Some pp) None = Ret (be32 raw, None) /\
  dtb_read_prop_bytestring st (Some pp) (Some buf)
  = Ret (be32 raw, Some (take (Z.to_nat (be32 raw)) (bytes_from (first_cell p))
                         ++ drop (Z.to_nat (be32 raw)) buf)).
Proof.
  intros Hp Hraw Hsrc Hbuf. unfold dtb_read_prop_bytestring.
  rewrite Hp. cbn [rbind]. rewrite Hraw. cbn [rbind].
  split; [done|].
  pose proof (read_prop_bytestring_loop_copies (first_cell p) buf (Z.to_nat (be32 raw)) O
                ltac:(simpl; lia) ltac:(simpl; lia)) as H.
  rewrite take_0, drop_0 in H. cbn [app Nat.add] in H. change (Z.of_nat 0) with 0 in H.
  by rewrite H.
Qed.

Lemma dtb_read_prop_bytestring_copies_the_value_witness :
  dtb_read_prop_bytestring board_state (Some (0, 8)%nat) None = Ret (9, None) /\
  dtb_read_prop_bytestring board_state (Some (0, 8)%nat) (Some (repeat 255 12))
  = Ret (9, Some (bytes_of_string "ns16550a" ++ [0; 255; 255; 255])).
Proof.
  apply (dtb_read_prop_bytestring_copies_the_value board_state (0, 8)%nat
           board_uart_compatible 150994944 (repeat 255 12));
    [vm_compute; reflexivity|vm_compute; reflexivity|vm_compute; lia|vm_compute; lia].
Defined.

Lemma cells_at_lookup (n : nat) :
  forall p vs,
    cells_at n p = Ret vs ->
    length vs = n /\
    forall k v, vs !! k = Some v ->
      exists c, load32 (ptr_add p (4 * Z.of_nat k)) = Ret c /\ v = be32 c.
Proof.
  induction n as [|n IH]; intros p vs H.
  - injection H as <-. split; [done|]. intros k v Hk. done.
  - cbn [cells_at] in H. destruct (load32 p) as [c| |] eqn:Hc; cbn [rbind] in H; try done.
    destruct (cells_at n (ptr_add p 4)) as [rest| |] eqn:Hr; cbn [rbind] in H; try done.
    injection H as <-. destruct (IH _ _ Hr) as [Hlen Hk]. split; [simpl; lia|].
    intros [|k] v Hv.
    + injection Hv as <-. exists c. by rewrite Z.mul_0_r, ptr_add_0.
    + destruct (Hk k v Hv) as (c' & Hc' & ->). exists c'. split; [|done].
      rewrite ptr_add_add in Hc'.
      replace (4 * Z.of_nat (S k)) with (4 + 4 * Z.of_nat k) by lia. exact Hc'.
Qed.

Lemma extract_cells_copies (first : cptr) (vs buf : list Z) (bn : nat) :
  (forall k v, vs !! k = Some v ->
     exists c, load32 (ptr_add first (4 * Z.of_nat k)) = Ret c /\ v = be32 c) ->
  forall remaining i,
    (bn + i + remaining <= length vs)%nat ->
    (bn + i + remaining <= length buf)%nat ->
    extract_cells remaining (ptr_add first (4 * Z.of_nat bn)) (Z.of_nat i)
                  (take (bn + i) vs ++ drop (bn + i) buf) (Z.of_nat bn)
    = Ret (take (bn + i + remaining) vs ++ drop (bn + i + remaining) buf).
Proof.
  intros Hvs. induction remaining as [|remaining IH]; intros i Hsrc Hbuf.
  - by rewrite Nat.add_0_r.
  - cbn [extract_cells].
    destruct (lookup_lt_is_Some_2 vs (bn + i) ltac:(lia)) as [v Hv].
    destruct (Hvs _ _ Hv) as (c & Hc & ->).
    rewrite ptr_add_add.
    replace (4 * Z.of_nat bn + 4 * Z.of_nat i) with (4 * Z.of_nat (bn + i)) by lia.
    rewrite Hc. cbn [rbind].
    replace (Z.to_nat (Z.of_nat bn + Z.of_nat i)) with (bn + i)%nat by lia.
    assert (Hin : is_Some ((take (bn + i) vs ++ drop (bn + i) buf) !! (bn + i)%nat)).
    { apply lookup_lt_is_Some_2. rewrite length_app, length_take, length_drop. lia. }
    destruct Hin as [y ->]. cbn [of_option rbind].
    rewrite insert_take_drop by (done || lia).
    replace (Z.of_nat i + 1) with (Z.of_nat (S i)) by lia.
    replace (S (bn + i)) with (bn + S i)%nat by lia.
    rewrite IH by lia. do 3 f_equal; lia.
Qed.

Lemma read_prop_cell_array_loop_copies (first : cptr) (vs buf : list Z) (cc : nat) :
  (forall k v, vs !! k = Some v ->
     exists c, load32 (ptr_add first (4 * Z.of_nat k)) = Ret c /\ v = be32 c) ->
  Z.of_nat (length vs) < 4294967296 ->
  forall remaining i,
    ((i + remaining) * cc <= length vs)%nat ->
    ((i + remaining) * cc <= length buf)%nat ->
    read_prop_cell_array_loop remaining first (Z.of_nat i) (Z.of_nat cc)
                              (take (i * cc) vs ++ drop (i * cc) buf)
    = Ret (take ((i + remaining) * cc) vs ++ drop ((i + remaining) * cc) buf).
Proof.
  intros Hvs Hlen. induction remaining as [|remaining IH]; intros i Hsrc Hbuf.
  - by rewrite Nat.add_0_r.
  - cbn [read_prop_cell_array_loop].
    assert (Hi : u32 (Z.of_nat i * Z.of_nat cc) = Z.of_nat (i * cc)).
    { rewrite u32_small; nia. }
    rewrite Hi, Nat2Z.id.
    pose proof (extract_cells_copies first vs buf (i * cc) Hvs cc O
                  ltac:(nia) ltac:(nia)) as H.
    rewrite Nat.add_0_r in H. change (Z.of_nat 0) with 0 in H. rewrite H.
    cbn [rbind].
    replace (Z.of_nat i + 1) with (Z.of_nat (S i)) by lia.
    replace (i * cc + cc)%nat with (S i * cc)%nat by lia.
    rewrite IH by (rewrite <- ?Nat.add_succ_comm in *; lia || nia).
    do 3 f_equal; lia.
Qed.

(** X17.  [dtb_read_prop_cell_array] with a cell count c, 0 < c < 2^32,
    divides the stored length by c * 4 as a [uint32_t], that is, reduced
    modulo 2^32.  When that divisor is 0 (c is a multiple of 2^30) the call
    divides by zero, with or without a buffer.  Otherwise, with a null
    buffer, it returns the quotient and does nothing else.  For c < 2^30 the
    product does not wrap, the quotient n is the number of whole groups of c
    cells in the stored length, and with a buffer the call writes the n * c
    cells of those groups, decoded from big endian, to the start of the
    buffer, leaves the rest of the buffer as it was and returns n. *)
Theorem dtb_read_prop_cell_array_decodes_the_cells (st : dtb_state) (pp : propptr)
    (p : dtb_prop) (raw cell_count : Z) :
  read_prop st pp = Ret p ->
  load32 (ptr_add (first_cell p) (-8)) = Ret raw ->
  0 < cell_count < 4294967296 ->
  (u32 (cell_count * 4) = 0 ->
   forall vals, dtb_read_prop_cell_array st (Some pp) cell_count vals = Err DivByZero) /\
  (u32 (cell_count * 4) <> 0 ->
   dtb_read_prop_cell_array st (Some pp) cell_count None
   = Ret (be32 raw / u32 (cell_count * 4), None)) /\
  (cell_count < 1073741824 ->
   u32 (cell_count * 4) = cell_count * 4 /\
   forall vs buf,
     cells_at (Z.to_nat (be32 raw / (cell_count * 4) * cell_count)) (first_cell p) = Ret vs ->
     (length vs <= length buf)%nat ->
     dtb_read_prop_cell_array st (Some pp) cell_count (Some buf)
     = Ret (be32 raw / (cell_count * 4), Some (vs ++ drop (length vs) buf))).
Proof.
  intros Hp Hraw Hcc. unfold dtb_read_prop_cell_array.
  replace (cell_count =? 0) with false by (symmetry; apply Z.eqb_neq; lia).
  rewrite Hp. cbn [rbind]. rewrite Hraw. cbn [rbind]. unfold FDT_CELL_SIZE.
  split; [|split].
  - intros Hw vals. by rewrite Hw.
  - intros Hw. by apply Z.eqb_neq in Hw as ->.
  - intros Hsmall. rewrite (u32_small (cell_count * 4)) by lia. split; [done|].
    intros vs buf Hvs Hbuf.
    replace (cell_count * 4 =? 0) with false by (symmetry; apply Z.eqb_neq; lia).
    destruct (cells_at_lookup _ _ _ Hvs) as [Hlen Hlook].
    pose proof (be32_range raw) as Hr.
    set (count := be32 raw / (cell_count * 4)) in *.
    assert (Hcount : 0 <= count) by (apply Z.div_pos; lia).
    assert (Htotal : count * cell_count <= be32 raw).
    { pose proof (Z.mul_div_le (be32 raw) (cell_count * 4) ltac:(lia)). fold count in H. nia. }
    pose proof (read_prop_cell_array_loop_copies (first_cell p) vs buf (Z.to_nat cell_count)
                  Hlook ltac:(lia) (Z.to_nat count) O) as H.
    rewrite Nat.add_0_l, Nat.mul_0_l, take_0, drop_0 in H. cbn [app] in H.
    change (Z.of_nat 0) with 0 in H. rewrite Z2Nat.id in H by lia.
    assert (Hn : (Z.to_nat count * Z.to_nat cell_count)%nat = length vs).
    { rewrite Hlen. rewrite Z2Nat.inj_mul by lia. done. }
    rewrite Hn in H. rewrite H by lia. cbn [rbind].
    by rewrite firstn_all.
Qed.

Lemma dtb_read_prop_cell_array_decodes_the_cells_witness :
  dtb_read_prop_cell_array board_state (Some (0, 9)%nat) 1 None = Ret (1, None) /\
  dtb_read_prop_cell_array board_state (Some (0, 9)%nat) 1 (Some [7; 7])
  = Ret (1, Some [3; 7]) /\
  dtb_read_prop_cell_array board_state (Some (0, 9)%nat) 1073741824 (Some [7; 7])
  = Err DivByZero /\
  dtb_read_prop_cell_array board_state (Some (0, 9)%nat) 1073741825 None = Ret (1, None).
Proof.
  destruct (dtb_read_prop_cell_array_decodes_the_cells board_state (0, 9)%nat
              board_uart_interrupts 67108864 1)
    as (_ & Hnull & Hbuf); [vm_compute; reflexivity|vm_compute; reflexivity|lia|].
  destruct (dtb_read_prop_cell_array_decodes_the_cells board_state (0, 9)%nat
              board_uart_interrupts 67108864 1073741824)
    as (Hzero & _ & _); [vm_compute; reflexivity|vm_compute; reflexivity|lia|].
  destruct (dtb_read_prop_cell_array_decodes_the_cells board_state (0, 9)%nat
              board_uart_interrupts 67108864 1073741825)
    as (_ & Hwrap & _); [vm_compute; reflexivity|vm_compute; reflexivity|lia|].
  split; [apply Hnull; vm_compute; discriminate|].
  split; [apply (proj2 (Hbuf ltac:(lia)) [3] [7; 7]); [vm_compute; reflexivity|simpl; lia]|].
  split; [apply Hzero; vm_compute; reflexivity|].
  apply Hwrap. vm_compute. discriminate.
Defined.

Lemma read_prop_string_loop_find (name : cptr) (index : nat) :
  forall bytes pos curr pre tail,
    bytes_from name = pre ++ bytes ++ tail -> length pre = pos ->
    Z.of_nat (curr + length bytes) < 4294967296 ->
    read_prop_string_loop (length bytes) name (Z.of_nat pos) (Z.of_nat curr) (Z.of_nat index)
    = Ret ((fun q => ptr_add name (Z.of_nat q)) <$> find_string bytes pos curr index).
Proof.
  induction bytes as [|c bytes IH]; intros pos curr pre tail Hb Hpos Hlen; [done|].
  cbn [length read_prop_string_loop find_string].
  assert (Hc : bytes_from name !! pos = Some c).
  { rewrite Hb. by apply (list_lookup_middle pre (bytes ++ tail) c). }
  rewrite (load8_nth _ _ _ Hc). cbn [rbind].
  assert (Hb' : bytes_from name = (pre ++ [c]) ++ bytes ++ tail)
    by (by rewrite Hb, <- app_assoc).
  assert (Hpos' : length (pre ++ [c]) = S pos) by (rewrite length_app; simpl; lia).
  simpl length in Hlen.
  replace (Z.of_nat pos + 1) with (Z.of_nat (S pos)) by lia.
  destruct (c =? 0).
  - replace (u32 (Z.of_nat curr + 1)) with (Z.of_nat (S curr)) by (rewrite u32_small; lia).
    apply (IH _ _ _ _ Hb' Hpos'). lia.
  - destruct (Nat.eqb curr index) eqn:E.
    + apply Nat.eqb_eq in E. subst. by rewrite Z.eqb_refl.
    + apply Nat.eqb_neq in E.
      replace (Z.of_nat curr =? Z.of_nat index) with false
        by (symmetry; apply Z.eqb_neq; lia).
      apply (IH _ _ _ _ Hb' Hpos'). lia.
Qed.

Lemma find_string_past (bytes : list Z) :
  forall pos curr index, (index < curr)%nat -> find_string bytes pos curr index = None.
Proof.
  induction bytes as [|c bytes IH]; intros pos curr index Hlt; [done|].
  cbn [find_string]. destruct (c =? 0); [apply IH; lia|].
  replace (Nat.eqb curr index) with false by (symmetry; apply Nat.eqb_neq; lia).
  by apply IH.
Qed.

Lemma find_string_skip (s rest : list Z) :
  Forall (fun c => c <> 0) s ->
  forall pos curr index,
    curr <> index ->
    find_string (s ++ 0 :: rest) pos curr index
    = find_string rest (pos + length s + 1) (S curr) index.
Proof.
  induction 1 as [|c s Hc _ IH]; intros pos curr index Hne.
  - cbn. f_equal. lia.
  - cbn [app find_string]. apply Z.eqb_neq in Hc. rewrite Hc.
    replace (Nat.eqb curr index) with false by (symmetry; by apply Nat.eqb_neq).
    rewrite IH by done. f_equal. simpl length. lia.
Qed.

Lemma find_string_strs (strs : list (list Z)) :
  Forall (Forall (fun c => c <> 0)) strs ->
  forall pos curr i,
    find_string (stringlist strs) pos curr (curr + i)
    = match strs !! i with
      | Some (_ :: _) => Some (pos + length (stringlist (take i strs)))%nat
      | _ => None
      end.
Proof.
  induction 1 as [|s strs Hs _ IH]; intros pos curr i; [done|].
  change (stringlist (s :: strs)) with ((s ++ [0]) ++ stringlist strs).
  rewrite <- app_assoc. cbn [app]. destruct i as [|i].
  - rewrite Nat.add_0_r. cbn [lookup list_lookup take]. destruct s as [|c s].
    + cbn [app find_string]. change (0 =? 0) with true. cbv iota.
      apply find_string_past. lia.
    + cbn [app find_string]. inversion Hs as [|? ? Hc _]; subst.
      apply Z.eqb_neq in Hc. rewrite Hc, Nat.eqb_refl. f_equal. cbn. lia.
  - rewrite find_string_skip by (done || lia).
    replace (curr + S i)%nat with (S curr + i)%nat by lia. rewrite IH.
    cbn [lookup list_lookup take]. destruct (strs !! i) as [[|c t]|]; try done.
    f_equal. change (stringlist (s :: take i strs))
      with ((s ++ [0]) ++ stringlist (take i strs)).
    rewrite !length_app. simpl. lia.
Qed.

(** X18.  On a property whose value is a list of NUL-terminated strings,
    [dtb_read_prop_string] with index i returns a pointer to the first byte
    of the i-th string, counted from 0, when that string is not empty, and
    null when it is empty or the list has i strings or fewer. *)
Theorem dtb_read_prop_string_finds_the_indexed_string (st : dtb_state) (pp : propptr)
    (p : dtb_prop) (strs : list (list Z)) (tail : list Z) (index : nat) :
  read_prop st pp = Ret p ->
  bytes_from (first_cell p) = stringlist strs ++ tail ->
  prop_length p = Z.of_nat (length (stringlist strs)) ->
  forallb (forallb (fun c => negb (c =? 0))) strs = true ->
  prop_length p < 4294967296 ->
  dtb_read_prop_string st (Some pp) (Z.of_nat index)
  = Ret (match strs !! index with
         | Some (_ :: _) =>
             Some (ptr_add (first_cell p)
                           (Z.of_nat (length (stringlist (take index strs)))))
         | _ => None
         end).
Proof.
  intros Hp Hb Hlen Hnz Hsmall. unfold dtb_read_prop_string. rewrite Hp. cbn [rbind].
  rewrite Hlen, Nat2Z.id.
  pose proof (read_prop_string_loop_find (first_cell p) index (stringlist strs) O O []
                tail Hb eq_refl ltac:(lia)) as H.
  change (Z.of_nat 0) with 0 in H. rewrite H. f_equal.
  assert (Hall : Forall (Forall (fun c => c <> 0)) strs).
  { apply Forall_forall. intros s Hs. apply Forall_forall. intros c Hc.
    rewrite forallb_forall in Hnz. specialize (Hnz s ltac:(by apply list_elem_of_In)).
    rewrite forallb_forall in Hnz. specialize (Hnz c ltac:(by apply list_elem_of_In)).
    apply negb_true_iff, Z.eqb_neq in Hnz. done. }
  pose proof (find_string_strs strs Hall O O index) as Hf.
  rewrite Nat.add_0_l in Hf. rewrite Hf.
  by destruct (strs !! index) as [[|c t]|].
Qed.

Lemma dtb_read_prop_string_finds_the_indexed_string_witness :
  dtb_read_prop_string board_state (Some (0, 8)%nat) 0
  = Ret (Some (ptr_add (first_cell board_uart_compatible) 0)) /\
  dtb_read_prop_string board_state (Some (0, 8)%nat) 1 = Ret None.
Proof.
  split.
  - apply (dtb_read_prop_string_finds_the_indexed_string board_state (0, 8)%nat
             board_uart_compatible [bytes_of_string "ns16550a"]
             (drop 9 (bytes_from (first_cell board_uart_compatible))) 0);
      vm_compute; reflexivity.
  - apply (dtb_read_prop_string_finds_the_indexed_string board_state (0, 8)%nat
             board_uart_compatible [bytes_of_string "ns16550a"]
             (drop 9 (bytes_from (first_cell board_uart_compatible))) 1);
      vm_compute; reflexivity.
Defined.

(** ** Lookup by compatible string *)

Lemma compatible_strings_loop_true (st : dtb_state) (compat : propptr) (str : option cptr) :
  forall fuel ci,
    compatible_strings_loop fuel st compat str ci = Ret true ->
    exists ci' s str',
      str = Some str' /\
      dtb_read_prop_string st (Some compat) ci' = Ret (Some s) /\
      strings_eq s str' = Ret true.
Proof.
  induction fuel as [|fuel IH]; intros ci H; [done|].
  cbn [compatible_strings_loop] in H.
  destruct (dtb_read_prop_string st (Some compat) ci) as [[s|]| |] eqn:Hs;
    cbn [rbind] in H; try done.
  destruct str as [str'|]; cbn [of_option rbind] in H; [|done].
  destruct (strings_eq s str') as [[|]| |] eqn:He; cbn [rbind] in H; try done.
  - by exists ci, s, str'.
  - by eapply IH.
Qed.

Lemma find_compatible_loop_sound (st : dtb_state) (str : option cptr) :
  forall remaining i N,
    0 <= i ->
    find_compatible_loop remaining st i str = Ret (Some N) ->
    node_buff st = Some N.1 /\
    i <= Z.of_nat N.2 < i + Z.of_nat remaining /\
    exists str' ci, str = Some str' /\ compatible_at st N str' ci.
Proof.
  induction remaining as [|remaining IH]; intros i N Hi H; [done|].
  cbn [find_compatible_loop] in H.
  destruct (node_buff st) as [b|] eqn:Hb; cbn [of_option rbind] in H; [|done].
  assert (Hnext : find_compatible_loop remaining st (i + 1) str = Ret (Some N) ->
                  Some b = Some N.1 /\
                  i <= Z.of_nat N.2 < i + Z.of_nat (S remaining) /\
                  exists str' ci, str = Some str' /\ compatible_at st N str' ci).
  { intros H'. destruct (IH (i + 1) N ltac:(lia) H') as (Hb' & Hr & Hc).
    split; [done|]. split; [lia|done]. }
  destruct (dtb_find_prop st (Some (b, Z.to_nat i)) (Some (cstr "compatible")))
    as [[compat|]| |] eqn:Hf; cbn [rbind] in H; try done; [|by apply Hnext].
  destruct (read_prop st compat) as [p| |]; cbn [rbind] in H; try done.
  destruct (compatible_strings_loop _ st compat str 0) as [[|]| |] eqn:Hl;
    cbn [rbind] in H; try done; [|by apply Hnext].
  injection H as <-. cbn [fst snd]. split; [done|]. split; [lia|].
  destruct (compatible_strings_loop_true _ _ _ _ _ Hl) as (ci & s & str' & -> & Hs & He).
  exists str', ci. split; [done|]. by exists compat, s.
Qed.

(** X19.  A node that [dtb_find_compatible] returns is an entry of the node
    table in use, lies after [start] in the table when [start] is given, and
    has a [compatible] property, found by [dtb_find_prop], one of whose
    strings equals [str]. *)
Theorem dtb_find_compatible_returns_a_compatible_node (st : dtb_state)
    (start : option nodeptr) (str : option cptr) (N : nodeptr) :
  dtb_find_compatible st start str = Ret (Some N) ->
  node_buff st = Some N.1 /\
  Z.of_nat N.2 < node_alloc_head st /\
  match start with
  | Some s => u32 (Z.of_nat s.2 + 1) <= Z.of_nat N.2
  | None => True
  end /\
  exists str' ci, str = Some str' /\ compatible_at st N str' ci.
Proof.
  unfold dtb_find_compatible. intros H.
  destruct start as [s|].
  - destruct (node_buff st) as [b|] eqn:Hb; [|done].
    destruct (Nat.eqb s.1 b); [|done]. cbn [rbind] in H.
    pose proof (u32_range (Z.of_nat s.2 + 1)) as Hr.
    destruct (find_compatible_loop_sound _ _ _ _ _ (proj1 Hr) H) as (Hb' & Hi & Hc).
    rewrite <- Hb. split; [done|]. split; [lia|]. split; [lia|done].
  - cbn [rbind] in H.
    destruct (find_compatible_loop_sound _ _ _ _ _ (Z.le_refl 0) H) as (Hb' & Hi & Hc).
    split; [done|]. split; [lia|]. done.
Qed.

Lemma dtb_find_compatible_returns_a_compatible_node_witness :
  dtb_find_compatible board_state None (Some (cstr "ns16550a")) = Ret (Some (0, 5)%nat) /\
  dtb_find_compatible board_state (Some (0, 5)%nat) (Some (cstr "ns16550a")) = Ret None /\
  exists str' ci, Some (cstr "ns16550a") = Some str' /\
                  compatible_at board_state (0, 5)%nat str' ci.
Proof.
  assert (H : dtb_find_compatible board_state None (Some (cstr "ns16550a"))
              = Ret (Some (0, 5)%nat)) by (vm_compute; reflexivity).
  split; [exact H|]. split; [vm_compute; reflexivity|].
  apply (dtb_find_compatible_returns_a_compatible_node board_state None
           (Some (cstr "ns16550a")) (0, 5)%nat H).
Defined.

Lemma read_prop_string_loop_bound (name : cptr) (index : Z) :
  forall remaining scan curr q,
    0 <= curr -> curr + Z.of_nat remaining < 4294967296 ->
    read_prop_string_loop remaining name scan curr index = Ret (Some q) ->
    curr <= index < curr + Z.of_nat remaining.
Proof.
  induction remaining as [|remaining IH]; intros scan curr q Hc Hlen H; [done|].
  cbn [read_prop_string_loop] in H.
  destruct (load8 (ptr_add name scan)) as [c| |]; cbn [rbind] in H; try done.
  destruct (c =? 0).
  - rewrite u32_small in H by lia. apply IH in H; lia.
  - destruct (curr =? index) eqn:E.
    + apply Z.eqb_eq in E. lia.
    + apply IH in H; lia.
Qed.

Lemma lengths_fit_read (st : dtb_state) (pp : propptr) (p : dtb_prop) :
  lengths_fit st = true -> read_prop st pp = Ret p -> 0 <= prop_length p < 4294967296.
Proof.
  unfold lengths_fit, read_prop, read_block. intros Hfit H.
  destruct (heap st !! pp.1) as [blk|] eqn:Hb; cbn [rbind] in H; [|done].
  destruct (live blk); cbn [rbind] in H; [|done].
  destruct (bprops blk !! pp.2) as [p'|] eqn:Hp; cbn [of_option] in H; [|done].
  injection H as ->.
  rewrite forallb_forall in Hfit.
  specialize (Hfit blk ltac:(apply list_elem_of_In; by eapply list_elem_of_lookup_2)).
  rewrite forallb_forall in Hfit.
  specialize (Hfit p ltac:(apply list_elem_of_In; by eapply list_elem_of_lookup_2)).
  apply andb_true_iff in Hfit as [H1 H2]. apply Z.leb_le in H1. apply Z.ltb_lt in H2. lia.
Qed.

Lemma read_prop_string_bound (st : dtb_state) (compat : propptr) (p : dtb_prop)
    (ci : Z) (s : cptr) :
  lengths_fit st = true ->
  read_prop st compat = Ret p ->
  dtb_read_prop_string st (Some compat) ci = Ret (Some s) ->
  0 <= ci < prop_length p.
Proof.
  intros Hfit Hp H. unfold dtb_read_prop_string in H. rewrite Hp in H. cbn [rbind] in H.
  pose proof (lengths_fit_read _ _ _ Hfit Hp) as Hl.
  apply read_prop_string_loop_bound in H; lia.
Qed.

(** The index at which [dtb_find_compatible] stops going through the
    strings of a [compatible] property that does not match: all strings
    before it differ from [str]. *)
Lemma compatible_strings_loop_false (st : dtb_state) (compat : propptr) (p : dtb_prop)
    (str : cptr) :
  lengths_fit st = true ->
  read_prop st compat = Ret p ->
  forall fuel ci,
    0 <= ci ->
    compatible_strings_loop fuel st compat (Some str) ci = Ret false ->
    exists stop,
      ci <= stop /\
      dtb_read_prop_string st (Some compat) stop = Ret None /\
      forall j, ci <= j < stop ->
        exists s, dtb_read_prop_string st (Some compat) j = Ret (Some s) /\
                  strings_eq s str = Ret false.
Proof.
  intros Hfit Hp. induction fuel as [|fuel IH]; intros ci Hci H; [done|].
  cbn [compatible_strings_loop] in H.
  destruct (dtb_read_prop_string st (Some compat) ci) as [[s|]| |] eqn:Hs;
    cbn [rbind of_option] in H; try done.
  - destruct (strings_eq s str) as [[|]| |] eqn:He; cbn [rbind] in H; try done.
    pose proof (read_prop_string_bound _ _ _ _ _ Hfit Hp Hs) as Hb.
    pose proof (lengths_fit_read _ _ _ Hfit Hp) as Hl.
    rewrite u32_small in H by lia.
    destruct (IH (ci + 1) ltac:(lia) H) as (stop & Hle & Hstop & Hbefore).
    exists stop. split; [lia|]. split; [done|].
    intros j Hj. destruct (Z.eq_dec j ci) as [->|Hne]; [by exists s|].
    apply Hbefore. lia.
  - exists ci. split; [lia|]. split; [done|]. intros j Hj. lia.
Qed.

Lemma find_compatible_loop_first (st : dtb_state) (str : cptr) (b : nat) :
  lengths_fit st = true ->
  node_buff st = Some b ->
  forall remaining i r,
    0 <= i ->
    find_compatible_loop remaining st i (Some str) = Ret r ->
    forall k, i <= Z.of_nat k < i + Z.of_nat remaining ->
      (forall N, r = Some N -> (k < N.2)%nat) ->
      ~ compatible_with st (b, k) str.
Proof.
  intros Hfit Hb. induction remaining as [|remaining IH]; intros i r Hi H k Hk Hr; [lia|].
  cbn [find_compatible_loop] in H. rewrite Hb in H. cbn [of_option rbind] in H.
  assert (Hnext : find_compatible_loop remaining st (i + 1) (Some str) = Ret r ->
                  Z.of_nat k <> i -> ~ compatible_with st (b, k) str).
  { intros H' Hne. apply (IH (i + 1) r ltac:(lia) H'); [lia|done]. }
  destruct (Z.eq_dec (Z.of_nat k) i) as [Hki|Hki].
  - assert (Z.to_nat i = k) by lia. subst i. rewrite Nat2Z.id in H.
    intros (ci & Hci & (compat & s & Hf & Hs & He) & Hprefix).
    match type of H with
    | rbind ?x _ = _ => assert (Hx : x = Ret (Some compat)) by exact Hf; rewrite Hx in H
    end.
    cbn [rbind] in H.
    destruct (read_prop st compat) as [p| |] eqn:Hp; cbn [rbind] in H; try done.
    destruct (compatible_strings_loop _ st compat (Some str) 0) as [[|]| |] eqn:Hl;
      cbn [rbind] in H; try done.
    + injection H as <-. specialize (Hr _ eq_refl). cbn in Hr. lia.
    + destruct (compatible_strings_loop_false _ _ _ _ Hfit Hp _ _ (Z.le_refl 0) Hl)
        as (stop & Hle & Hstop & Hbefore).
      destruct (Z_lt_le_dec ci stop) as [Hlt|Hge].
      * destruct (Hbefore ci ltac:(lia)) as (s' & Hs' & He'). congruence.
      * destruct (Z.eq_dec stop ci) as [->|Hne]; [congruence|].
        destruct (Hprefix compat stop Hf ltac:(lia)) as (s' & Hs'). congruence.
  - destruct (dtb_find_prop st (Some (b, Z.to_nat i)) (Some (cstr "compatible")))
      as [[compat|]| |]; cbn [rbind] in H; try done; [|by apply Hnext].
    destruct (read_prop st compat) as [p| |]; cbn [rbind] in H; try done.
    destruct (compatible_strings_loop _ st compat (Some str) 0) as [[|]| |];
      cbn [rbind] in H; try done; [|by apply Hnext].
    injection H as <-. specialize (Hr _ eq_refl). cbn in Hr. lia.
Qed.

(** X20.  [dtb_find_compatible] passes over no node whose [compatible]
    property it would match: of the entries between the one the search
    starts at and the node returned, or the end of the entries in use when
    null is returned, none has a [compatible] property, the first by that
    name, that holds a string equal to [str] at an index below which
    [dtb_read_prop_string] gives a string at every index.  Nothing is said
    of a string behind an index at which [dtb_read_prop_string] gives null:
    the search does not get to it. *)
Theorem dtb_find_compatible_skips_no_compatible_node (st : dtb_state)
    (start : option nodeptr) (str : cptr) (r : option nodeptr) (b k : nat) :
  lengths_fit st = true ->
  node_buff st = Some b ->
  dtb_find_compatible st start (Some str) = Ret r ->
  match start with
  | Some s => u32 (Z.of_nat s.2 + 1) <= Z.of_nat k
  | None => True
  end ->
  Z.of_nat k < node_alloc_head st ->
  match r with
  | Some N => (k < N.2)%nat
  | None => True
  end ->
  ~ compatible_with st (b, k) str.
Proof.
  unfold dtb_find_compatible. intros Hfit Hb H Hs Hk Hr.
  assert (Hr' : forall N, r = Some N -> (k < N.2)%nat) by (by intros N ->).
  destruct start as [s|].
  - rewrite Hb in H. destruct (Nat.eqb s.1 b); [|done]. cbn [rbind] in H.
    pose proof (u32_range (Z.of_nat s.2 + 1)) as Hu.
    apply (find_compatible_loop_first st str b Hfit Hb _ _ _ (proj1 Hu) H); [lia|done].
  - cbn [rbind] in H.
    apply (find_compatible_loop_first st str b Hfit Hb _ _ _ (Z.le_refl 0) H); [lia|done].
Qed.

Lemma dtb_find_compatible_skips_no_compatible_node_witness :
  dtb_find_compatible board_state None (Some (cstr "ns16550a")) = Ret (Some (0, 5)%nat) /\
  ~ compatible_with board_state (0, 4)%nat (cstr "ns16550a").
Proof.
  assert (H : dtb_find_compatible board_state None (Some (cstr "ns16550a"))
              = Ret (Some (0, 5)%nat)) by (vm_compute; reflexivity).
  split; [exact H|].
  apply (dtb_find_compatible_skips_no_compatible_node board_state None (cstr "ns16550a")
           (Some (0, 5)%nat) 0 4).
  - vm_compute; reflexivity.
  - vm_compute; reflexivity.
  - exact H.
  - exact I.
  - vm_compute; reflexivity.
  - simpl. lia.
Defined.

(** A string behind an empty one is not compared: on
    [compatible = "", "ns16550a"] index 0 gives null, index 1 gives
    "ns16550a", and the search for "ns16550a" returns null. *)
Lemma string_after_an_empty_one_is_not_compared :
  exists st compat s,
    init_state empty_first_compatible all_ops = Ret st /\
    dtb_find_prop st (Some (0, 0)%nat) (Some (cstr "compatible")) = Ret (Some compat) /\
    dtb_read_prop_string st (Some compat) 0 = Ret None /\
    dtb_read_prop_string st (Some compat) 1 = Ret (Some s) /\
    strings_eq s (cstr "ns16550a") = Ret true /\
    dtb_find_compatible st None (Some (cstr "ns16550a")) = Ret None.
Proof.
  eexists _, _, _. split; [vm_compute; reflexivity|].
  split; [vm_compute; reflexivity|].
  split; [vm_compute; reflexivity|].
  split; [vm_compute; reflexivity|].
  split; vm_compute; reflexivity.
Qed.

(** ** What [dtb_init] reports *)

Lemma only_unterminated_refl (st : dtb_state) : only_unterminated st st.
Proof. exists O. by rewrite app_nil_r. Qed.

Lemma only_unterminated_same (st st' : dtb_state) :
  err_log st' = err_log st -> only_unterminated st st'.
Proof. intros H. exists O. by rewrite app_nil_r. Qed.

Lemma only_unterminated_trans (st1 st2 st3 : dtb_state) :
  only_unterminated st1 st2 -> only_unterminated st2 st3 -> only_unterminated st1 st3.
Proof.
  intros [k1 H1] [k2 H2]. exists (k1 + k2)%nat.
  by rewrite H2, H1, <- app_assoc, replicate_add.
Qed.

Lemma write_node_log (p : nodeptr) f (st st' : dtb_state) :
  write_node p f st = Ret st' -> err_log st' = err_log st.
Proof.
  unfold write_node. intros H. apply rbind_Ret in H as (blk & _ & H).
  apply rbind_Ret in H as (n & _ & H). by injection H as <-.
Qed.

Lemma write_prop_log (p : propptr) f (st st' : dtb_state) :
  write_prop p f st = Ret st' -> err_log st' = err_log st.
Proof.
  unfold write_prop. intros H. apply rbind_Ret in H as (blk & _ & H).
  apply rbind_Ret in H as (n & _ & H). by injection H as <-.
Qed.

Lemma write_handle_log (h : Z) (n : nodeptr) (st st' : dtb_state) :
  write_handle h n st = Ret st' -> err_log st' = err_log st.
Proof.
  unfold write_handle. intros H. apply rbind_Ret in H as (b & _ & H).
  apply rbind_Ret in H as (blk & _ & H). apply rbind_Ret in H as (x & _ & H).
  by injection H as <-.
Qed.

Lemma alloc_node_log (st st' : dtb_state) (p : nodeptr) :
  alloc_node st = Ret (Some p, st') -> err_log st' = err_log st.
Proof.
  unfold alloc_node, bind, gets, modify, ret, fail, call_on_error.
  destruct (u32 (node_alloc_head st + 1) <? node_alloc_max st).
  - destruct (node_buff st); [|done]. by intros [= _ <-].
  - by destruct (on_error (ops st)).
Qed.

Lemma alloc_prop_log (st st' : dtb_state) (p : propptr) :
  alloc_prop st = Ret (Some p, st') -> err_log st' = err_log st.
Proof.
  unfold alloc_prop, bind, gets, modify, ret, fail, call_on_error.
  destruct (u32 (prop_alloc_head st + 1) <? prop_alloc_max st).
  - destruct (prop_buff st); [|done]. by intros [= _ <-].
  - by destruct (on_error (ops st)).
Qed.

Lemma check_for_special_prop_log (node : nodeptr) (prop : propptr)
    (st st' : dtb_state) (u : unit) :
  check_for_special_prop node prop st = Ret (u, st') -> err_log st' = err_log st.
Proof.
  intros H. apply check_for_special_prop_Ret in H as (p & _ & kind & _ & He).
  destruct kind; cbn [special_effect] in He.
  - by subst.
  - destruct He as (h & _ & Hw). by eapply write_handle_log.
  - destruct He as (v & _ & Hw). by eapply write_node_log.
  - destruct He as (v & _ & Hw). by eapply write_node_log.
Qed.

Lemma parse_prop_log (offset : Z) (st st' : dtb_state) (r : option propptr * Z) :
  parse_prop offset st = Ret (r, st') -> err_log st' = err_log st.
Proof.
  unfold parse_prop. intros H. minv H.
  match type of H with
  | (if ?c then _ else _) _ = _ => destruct c
  end.
  { by minv H. }
  minv H.
  match goal with
  | Ha : alloc_prop st = Ret (?o, _) |- _ => destruct o as [prop|]; [|discriminate];
      apply alloc_prop_log in Ha
  end.
  minv H.
  repeat match goal with
         | Hw : write_prop _ _ _ = Ret _ |- _ => apply write_prop_log in Hw
         end.
  congruence.
Qed.

Lemma parse_log :
  forall fuel,
    (forall offset ac sc st r st',
        parse_node fuel offset ac sc st = Ret (r, st') -> only_unterminated st st') /\
    (forall node offset st r st',
        parse_node_loop fuel node offset st = Ret (r, st') -> only_unterminated st st').
Proof.
  induction fuel as [|fuel [IHn IHl]]; [split; intros; discriminate|].
  split.
  - intros offset ac sc st r st' H. cbn [parse_node] in H. minv H.
    match type of H with
    | (if ?c then _ else _) _ = _ => destruct c
    end.
    { minv H. apply only_unterminated_refl. }
    minv H.
    match goal with
    | Ha : alloc_node st = Ret (?o, _) |- _ => destruct o as [node|]; [|discriminate];
        apply alloc_node_log in Ha
    end.
    minv H.
    repeat match goal with
           | Hw : write_node _ _ _ = Ret _ |- _ => apply write_node_log in Hw
           end.
    apply IHl in H. eapply only_unterminated_trans; [|exact H].
    apply only_unterminated_same. congruence.
  - intros node offset st [r offset'] st' H.
    destruct (parse_node_loop_Ret _ _ _ _ _ _ _ H)
      as [(_ & _ & _ & u & Herr)
         |(_ & t & _ &
           [(_ & _ & _ & ->)
           |[(_ & n & c & o1 & st1 & st2 & _ & Hcall & Hlink & Hrest)
            |[(_ & pp & o1 & st1 & st2 & Hprop & Hlink & Hrest)
             |(_ & _ & _ & Hrest)]]])].
    + apply call_on_error_log in Herr as [_ Hlog].
      destruct (on_error (ops st)).
      * exists 1%nat. exact Hlog.
      * by apply only_unterminated_same.
    + apply only_unterminated_refl.
    + apply IHn in Hcall. apply IHl in Hrest.
      eapply only_unterminated_trans; [exact Hcall|].
      eapply only_unterminated_trans; [|exact Hrest].
      destruct c as [cp|]; [|subst; apply only_unterminated_refl].
      destruct Hlink as (n' & s1 & s2 & _ & H1 & H2 & H3).
      apply write_node_log in H1, H2, H3. apply only_unterminated_same. congruence.
    + apply parse_prop_log in Hprop. apply IHl in Hrest.
      eapply only_unterminated_trans; [|exact Hrest].
      destruct pp as [prop|]; [|subst; by apply only_unterminated_same].
      destruct Hlink as (st12 & u & (n' & s1 & _ & H1 & H2) & Hc).
      apply write_prop_log in H1. apply write_node_log in H2.
      apply check_for_special_prop_log in Hc. apply only_unterminated_same. congruence.
    + by apply IHl in Hrest.
Qed.

Lemma init_loop_log :
  forall fuel i st st' u,
    dtb_init_loop fuel i st = Ret (u, st') -> only_unterminated st st'.
Proof.
  induction fuel as [|fuel IH]; intros i st st' u H; [discriminate|].
  destruct (dtb_init_loop_Ret _ _ _ _ _ H)
    as [(_ & ->)
       |(_ & t & _ &
         [(_ & Hrest)
         |(_ & sub & i1 & st1 & st2 & Hcall & Hlink & Hrest)])].
  - apply only_unterminated_refl.
  - by eapply IH.
  - apply (proj1 (parse_log fuel)) in Hcall. apply IH in Hrest.
    eapply only_unterminated_trans; [exact Hcall|].
    eapply only_unterminated_trans; [|exact Hrest].
    destruct sub as [sub_root|]; [|subst; apply only_unterminated_refl].
    destruct Hlink as (st12 & Hw & ->). apply write_node_log in Hw.
    by apply only_unterminated_same.
Qed.

(** X21.  A [dtb_init] on a fresh parser that returns has done one of three
    things: stopped for want of [malloc], or stopped at a wrong magic number,
    in both cases without allocating and with that one error passed to
    [on_error] when there is one; or allocated and parsed, and then the only
    error reported, any number of times, is that of a node without its
    terminating tag. *)
Theorem dtb_init_reports_only_three_errors (start : cptr) (o : dtb_ops) (st : dtb_state) :
  dtb_init start o state0 = Ret (tt, st) ->
  (malloc o = false /\ node_buff st = None /\
   err_log st = if on_error o then ["ops.malloc is NULL"%string] else []) \/
  (malloc o = true /\ node_buff st = None /\
   err_log st = if on_error o then ["FDT has incorrect magic number."%string] else []) \/
  (malloc o = true /\ node_buff st = Some O /\
   exists k, err_log st = replicate k NO_END).
Proof.
  intros H.
  destruct (dtb_init_cases _ _ _ _ H)
    as [[Hst [[Hm Hlog]|(Hm & _ & Hlog)]]
       |(Hm & _ & st1 & Hwf1 & Hi1 & _ & _ & _ & _ & Hlog1 & Hops & _ & _ & _ & _ & Hloop)].
  - left. split; [done|]. split; [by rewrite Hst|done].
  - right. left. split; [done|]. split; [by rewrite Hst|done].
  - right. right. split; [done|].
    destruct (init_loop_hinv 0 _ _ _ _ _ Hwf1 Hi1 Hloop) as [Hwf _].
    split; [apply (wf_node_buff _ _ Hwf)|].
    destruct (init_loop_log _ _ _ _ _ Hloop) as [k Hk]. rewrite Hlog1 in Hk.
    by exists k.
Qed.

Lemma dtb_init_reports_only_three_errors_witness :
  (malloc all_ops = false /\ node_buff board_state = None /\
   err_log board_state = if on_error all_ops then ["ops.malloc is NULL"%string] else []) \/
  (malloc all_ops = true /\ node_buff board_state = None /\
   err_log board_state
   = if on_error all_ops then ["FDT has incorrect magic number."%string] else []) \/
  (malloc all_ops = true /\ node_buff board_state = Some O /\
   exists k, err_log board_state = replicate k NO_END).
Proof.
  apply (dtb_init_reports_only_three_errors (board 1 2) all_ops board_state).
  vm_compute; reflexivity.
Defined.

Lemma init_sizes (start : cptr) (o : dtb_ops) (st : dtb_state) :
  dtb_init start o state0 = Ret (tt, st) ->
  node_buff st = Some O ->
  count_cells (Z.to_nat (cell_count st)) (cells st) 0 FDT_BEGIN_NODE
  = Ret (node_alloc_max st) /\
  count_cells (Z.to_nat (cell_count st)) (cells st) 0 FDT_PROP
  = Ret (prop_alloc_max st) /\
  length (nodes_of st 0) = Z.to_nat (node_alloc_max st) /\
  length (props_of st 0) = Z.to_nat (prop_alloc_max st) /\
  length (handles_of st 0) = Z.to_nat (node_alloc_max st).
Proof.
  intros H Hnb.
  destruct (dtb_init_cases _ _ _ _ H)
    as [[Hst _]
       |(_ & _ & st1 & Hwf1 & Hi1 & _ & _ & _ & _ & _ & _ & Hc1 & Hc3 & Hl1 & Hl3 & Hloop)].
  { rewrite Hst in Hnb. done. }
  destruct (init_loop_hinv 0 _ _ _ _ _ Hwf1 Hi1 Hloop) as [Hwf Hi].
  destruct (init_sim_all 0 (cells st1) (strings st1) (cell_count st1)
              _ _ _ _ _ Hwf1 ltac:(done) Hloop) as (_ & Hq & _).
  destruct (q_config _ _ _ _ _ Hq) as [Ec _ Ecc _ _ _ Enm Epm _ _ Enl Epl _].
  rewrite Ec, Ecc, Enm, Epm, Enl, Epl.
  split; [done|]. split; [done|]. split; [done|]. split; [done|].
  rewrite <- Enm. apply (hi_size _ _ Hi).
Qed.

(** X22.  After a [dtb_init] on a fresh parser that allocated, [node_alloc_max]
    is the number of cells of the structure block that hold [FDT_BEGIN_NODE]
    and [prop_alloc_max] the number that hold [FDT_PROP], wherever the cell
    lies; the node table and the phandle table have [node_alloc_max] entries
    and the property table has [prop_alloc_max]. *)
Theorem tables_are_sized_by_counting_cells (start : cptr) (o : dtb_ops) (st : dtb_state) :
  dtb_init start o state0 = Ret (tt, st) ->
  node_buff st = Some O ->
  count_cells (Z.to_nat (cell_count st)) (cells st) 0 FDT_BEGIN_NODE
  = Ret (node_alloc_max st) /\
  count_cells (Z.to_nat (cell_count st)) (cells st) 0 FDT_PROP
  = Ret (prop_alloc_max st) /\
  length (nodes_of st 0) = Z.to_nat (node_alloc_max st) /\
  length (props_of st 0) = Z.to_nat (prop_alloc_max st) /\
  length (handles_of st 0) = Z.to_nat (node_alloc_max st).
Proof. apply init_sizes. Qed.

Lemma tables_are_sized_by_counting_cells_witness :
  count_cells (Z.to_nat (cell_count board_state)) (cells board_state) 0 FDT_BEGIN_NODE
  = Ret 11 /\
  node_alloc_head board_state = 6 /\
  count_cells (Z.to_nat (cell_count board_state)) (cells board_state) 0 FDT_BEGIN_NODE
  = Ret (node_alloc_max board_state) /\
  count_cells (Z.to_nat (cell_count board_state)) (cells board_state) 0 FDT_PROP
  = Ret (prop_alloc_max board_state) /\
  length (nodes_of board_state 0) = Z.to_nat (node_alloc_max board_state) /\
  length (props_of board_state 0) = Z.to_nat (prop_alloc_max board_state) /\
  length (handles_of board_state 0) = Z.to_nat (node_alloc_max board_state).
Proof.
  split; [vm_compute; reflexivity|]. split; [vm_compute; reflexivity|].
  apply (tables_are_sized_by_counting_cells (board 1 2) all_ops board_state);
    vm_compute; reflexivity.
Defined.

(** ** Parent and child links *)

Lemma same_links_refl (ns : list dtb_node) : same_links ns ns.
Proof. intros i. by destruct (ns !! i). Qed.

Lemma same_links_alter (ns : list dtb_node) (f : dtb_node -> dtb_node) (k : nat) :
  (forall n, parent (f n) = parent n /\ sibling (f n) = sibling n /\ child (f n) = child n) ->
  same_links ns (alter f k ns).
Proof.
  intros Hf i. destruct (decide (i = k)) as [->|Hne].
  - rewrite list_lookup_alter_eq. destruct (ns !! k); simpl; [apply Hf|done].
  - rewrite list_lookup_alter_ne by done. by destruct (ns !! i).
Qed.

Lemma same_links_chain (b : nat) (ns ns' : list dtb_node) bound c l :
  same_links ns ns' -> node_chain b ns bound c l -> node_chain b ns' bound c l.
Proof.
  intros Hs Hc. eapply node_chain_frame_sib; [exact Hc|].
  intros i n _ Hn. specialize (Hs i). rewrite Hn in Hs.
  destruct (ns' !! i) as [n'|]; [|done]. exists n'. split; [done|]. tauto.
Qed.

Lemma linv_same_links (b : nat) (st st' : dtb_state) :
  linv b st ->
  node_alloc_head st' = node_alloc_head st ->
  same_links (nodes_of st b) (nodes_of st' b) ->
  linv b st'.
Proof.
  intros [Hk Hp] Hh Hs. constructor; rewrite Hh.
  - intros k nd' Hlt Hnd'. pose proof (Hs k) as Hsk. rewrite Hnd' in Hsk.
    destruct (nodes_of st b !! k) as [nd|] eqn:Hnd; [|done].
    destruct Hsk as (_ & _ & Hc). rewrite Hc.
    destruct (Hk k nd Hlt Hnd) as (cl & Hcl & Hall). exists cl.
    split; [by eapply same_links_chain|].
    eapply Forall_impl; [exact Hall|]. intros c (Hkc & cn & Hcn & Hpar).
    split; [done|]. pose proof (Hs c) as Hsc. rewrite Hcn in Hsc.
    destruct (nodes_of st' b !! c) as [cn'|] eqn:Hcn'; [|done].
    exists cn'. split; [done|]. destruct Hsc as (-> & _). done.
  - intros c cn' p Hlt Hcn' Hpar. pose proof (Hs c) as Hsc. rewrite Hcn' in Hsc.
    destruct (nodes_of st b !! c) as [cn|] eqn:Hcn; [|done].
    destruct Hsc as (Hpc & _). rewrite Hpc in Hpar.
    destruct (Hp c cn p Hlt Hcn Hpar) as (k & nd & cl & -> & Hkc & Hnd & Hcl & Hin).
    pose proof (Hs k) as Hsk. rewrite Hnd in Hsk.
    destruct (nodes_of st' b !! k) as [nd'|] eqn:Hnd'; [|done].
    exists k, nd', cl. split; [done|]. split; [done|]. split; [done|].
    destruct Hsk as (_ & _ & ->). split; [by eapply same_links_chain|done].
Qed.

(** A fresh entry at the bump pointer. *)
Lemma linv_enter (b : nat) (st st' : dtb_state) (n0 : dtb_node) :
  linv b st ->
  0 <= node_alloc_head st ->
  node_alloc_head st' = node_alloc_head st + 1 ->
  nodes_of st' b = <[Z.to_nat (node_alloc_head st) := n0]> (nodes_of st b) ->
  (Z.to_nat (node_alloc_head st) < length (nodes_of st b))%nat ->
  parent n0 = None -> child n0 = None ->
  linv b st'.
Proof.
  intros [Hk Hp] H0 Hh Hns Hlen Hpar Hch.
  set (h := Z.to_nat (node_alloc_head st)) in *.
  assert (Hold : forall i, (i < h)%nat -> nodes_of st' b !! i = nodes_of st b !! i).
  { intros i Hi. rewrite Hns, list_lookup_insert_ne by lia. done. }
  assert (Hnew : nodes_of st' b !! h = Some n0).
  { rewrite Hns. by apply list_lookup_insert_eq. }
  assert (Hchain : forall c l,
            node_chain b (nodes_of st b) h c l ->
            node_chain b (nodes_of st' b) (Z.to_nat (node_alloc_head st')) c l).
  { intros c l Hc. apply (node_chain_weaken _ _ h); [|lia].
    eapply node_chain_frame; [exact Hc|]. exact Hold. }
  constructor.
  - intros k nd Hlt Hnd. destruct (decide (k = h)) as [->|Hne].
    + rewrite Hnew in Hnd. injection Hnd as <-. exists []. rewrite Hch.
      split; constructor.
    + assert (Hkh : (k < h)%nat) by lia. rewrite Hold in Hnd by done.
      destruct (Hk k nd ltac:(lia) Hnd) as (cl & Hcl & Hall). exists cl.
      split; [by apply Hchain|].
      pose proof (node_chain_app_bound _ _ _ _ _ Hcl) as Hb.
      apply Forall_forall. intros c Hc. rewrite Forall_forall in Hall.
      destruct (Hall c Hc) as (Hkc & cn & Hcn & Hpc). split; [done|].
      exists cn. split; [|done]. rewrite Hold; [done|]. by apply Hb.
  - intros c cn p Hlt Hcn Hpc. destruct (decide (c = h)) as [->|Hne].
    + rewrite Hnew in Hcn. injection Hcn as <-. congruence.
    + assert (Hch' : (c < h)%nat) by lia. rewrite Hold in Hcn by done.
      destruct (Hp c cn p ltac:(lia) Hcn Hpc) as (k & nd & cl & -> & Hkc & Hnd & Hcl & Hin).
      exists k, nd, cl. split; [done|]. split; [done|].
      split; [rewrite Hold; [done|lia]|]. split; [by apply Hchain|done].
Qed.

(** A chain that does not run through [h] is untouched by stores that keep
    the sibling of every other entry. *)
Lemma node_chain_avoid (b : nat) (ns ns' : list dtb_node) (h : nat) bound c l :
  node_chain b ns bound c l ->
  h ∉ l ->
  (forall i n, i <> h -> ns !! i = Some n ->
               exists n', ns' !! i = Some n' /\ sibling n' = sibling n) ->
  node_chain b ns' bound c l.
Proof.
  intros Hc Hh Hs. eapply node_chain_frame_sib; [exact Hc|].
  intros i n Hi Hn. apply Hs; [|done]. intros ->. done.
Qed.

(** Hanging the node [h], returned by a call of [parse_node], under [k]. *)
Lemma linv_link_child (b k h : nat) (st st' : dtb_state) (n cn : dtb_node)
    (cl0 : list nat) :
  linv b st ->
  (k < h)%nat -> Z.of_nat h < node_alloc_head st ->
  nodes_of st b !! k = Some n ->
  nodes_of st b !! h = Some cn ->
  parent cn = None ->
  node_chain b (nodes_of st b) h (child n) cl0 ->
  node_alloc_head st' = node_alloc_head st ->
  nodes_of st' b
  = (alter (set_parent (Some (b, k))) h ∘ alter (set_child (Some (b, h))) k
     ∘ alter (set_sibling (child n)) h) (nodes_of st b) ->
  linv b st'.
Proof.
  intros [Hk Hp] Hkh Hh Hn Hcn Hpar Hcl0 Hhead Hns.
  set (ns := nodes_of st b) in *. set (ns' := nodes_of st' b) in *.
  set (H := Z.to_nat (node_alloc_head st)) in *.
  assert (F1 : forall i, i <> k -> i <> h -> ns' !! i = ns !! i).
  { intros i Hik Hih. rewrite Hns. unfold compose.
    by rewrite !list_lookup_alter_ne. }
  assert (F2 : ns' !! k = Some (set_child (Some (b, h)) n)).
  { rewrite Hns. unfold compose.
    rewrite list_lookup_alter_ne by lia. rewrite list_lookup_alter_eq.
    rewrite list_lookup_alter_ne by lia. by rewrite Hn. }
  assert (F3 : ns' !! h
               = Some (set_parent (Some (b, k)) (set_sibling (child n) cn))).
  { rewrite Hns. unfold compose.
    rewrite list_lookup_alter_eq. rewrite list_lookup_alter_ne by lia.
    rewrite list_lookup_alter_eq. by rewrite Hcn. }
  assert (G : forall i m, i <> h -> ns !! i = Some m ->
                exists m', ns' !! i = Some m' /\ sibling m' = sibling m /\
                           parent m' = parent m /\ (i <> k -> m' = m)).
  { intros i m Hih Hm. destruct (decide (i = k)) as [->|Hik].
    - rewrite Hn in Hm. injection Hm as <-. eexists. split; [exact F2|]. done.
    - exists m. rewrite F1 by done. done. }
  assert (G' : forall i m, i <> h -> ns !! i = Some m ->
                 exists m', ns' !! i = Some m' /\ sibling m' = sibling m).
  { intros i m Hih Hm. destruct (G i m Hih Hm) as (m' & ? & ? & _). by exists m'. }
  (* no chain runs through [h], which has no parent yet *)
  assert (F4 : forall i nd cl,
            Z.of_nat i < node_alloc_head st -> ns !! i = Some nd ->
            node_chain b ns H (child nd) cl -> h ∉ cl).
  { intros i nd cl Hi Hnd Hc Hin.
    destruct (Hk i nd Hi Hnd) as (cl' & Hcl' & Hall).
    rewrite (node_chain_det _ _ _ _ _ _ _ Hc Hcl') in Hin.
    rewrite Forall_forall in Hall. destruct (Hall h Hin) as (_ & cn' & Hcn' & Hp').
    fold ns in Hcn'. congruence. }
  (* the chain of [k] as the invariant has it *)
  destruct (Hk k n ltac:(lia) Hn) as (clk & Hclk & Hallk).
  assert (Eclk : clk = cl0) by (eapply node_chain_det; eauto). subst clk.
  pose proof (node_chain_app_bound _ _ _ _ _ Hcl0) as Hb0.
  assert (Hnew : node_chain b ns' H (Some (b, h)) (h :: cl0)).
  { econstructor; [unfold H; lia|exact F3|]. cbn.
    eapply node_chain_avoid; [exact Hcl0| |exact G'].
    intros Hin. specialize (Hb0 h Hin). lia. }
  constructor; rewrite Hhead; fold ns ns' H.
  - intros i nd' Hi Hnd'. destruct (decide (i = k)) as [->|Hik];
      [|destruct (decide (i = h)) as [->|Hih]].
    + rewrite F2 in Hnd'. injection Hnd' as <-. exists (h :: cl0). cbn.
      split; [exact Hnew|]. constructor.
      * split; [done|]. eexists. split; [exact F3|done].
      * rewrite Forall_forall in Hallk. apply Forall_forall. intros c Hc.
        destruct (Hallk c Hc) as (Hkc & cn' & Hcn' & Hp'). split; [done|].
        exists cn'. split; [|done]. rewrite F1; [done|lia|].
        specialize (Hb0 c Hc). lia.
    + rewrite F3 in Hnd'. injection Hnd' as <-. cbn.
      destruct (Hk h cn Hh Hcn) as (cl & Hcl & Hall). exists cl. split.
      * eapply node_chain_avoid; [exact Hcl| |exact G']. by eapply F4.
      * rewrite Forall_forall in Hall. apply Forall_forall. intros c Hc.
        destruct (Hall c Hc) as (Hhc & cn' & Hcn' & Hp'). split; [done|].
        exists cn'. split; [|done]. rewrite F1; [done|lia|lia].
    + rewrite F1 in Hnd' by done.
      destruct (Hk i nd' Hi Hnd') as (cl & Hcl & Hall). exists cl. split.
      * eapply node_chain_avoid; [exact Hcl| |exact G']. by eapply F4.
      * rewrite Forall_forall in Hall. apply Forall_forall. intros c Hc.
        destruct (Hall c Hc) as (Hic & cn' & Hcn' & Hp'). split; [done|].
        assert (c <> h) by (intros ->; by eapply (F4 i nd' cl)).
        destruct (G c cn' ltac:(done) Hcn') as (m' & Hm' & _ & Hpm & _).
        exists m'. split; [done|congruence].
  - intros c cn' p Hc Hcn' Hpc. destruct (decide (c = h)) as [->|Hch].
    + rewrite F3 in Hcn'. injection Hcn' as <-. cbn in Hpc. injection Hpc as <-.
      eexists k, _, (h :: cl0). split; [done|]. split; [done|].
      split; [exact F2|]. split; [exact Hnew|apply list_elem_of_here].
    + assert (Hold : exists m, ns !! c = Some m /\ parent m = Some p).
      { destruct (decide (c = k)) as [->|Hck].
        - rewrite F2 in Hcn'. injection Hcn' as <-. by exists n.
        - rewrite F1 in Hcn' by done. by exists cn'. }
      destruct Hold as (m & Hm & Hpm).
      destruct (Hp c m p Hc Hm Hpm) as (k0 & nd0 & cl & -> & Hk0c & Hnd0 & Hcl & Hin).
      destruct (decide (k0 = k)) as [->|Hk0k]; [|destruct (decide (k0 = h)) as [->|Hk0h]].
      * assert (nd0 = n) by congruence. subst nd0.
        assert (cl = cl0) by (eapply node_chain_det; eauto). subst cl.
        eexists k, _, (h :: cl0). split; [done|]. split; [done|].
        split; [exact F2|]. split; [exact Hnew|by apply list_elem_of_further].
      * assert (nd0 = cn) by congruence. subst nd0.
        eexists h, _, cl. split; [done|]. split; [done|].
        split; [exact F3|]. cbn. split; [|done].
        eapply node_chain_avoid; [exact Hcl| |exact G'].
        eapply (F4 h cn cl); [lia|done|done].
      * exists k0, nd0, cl. split; [done|]. split; [done|].
        split; [by rewrite F1|]. split; [|done].
        eapply node_chain_avoid; [exact Hcl| |exact G'].
        eapply (F4 k0 nd0 cl); [lia|done|done].
Qed.

Lemma linv_table_step (b : nat) (st st' : dtb_state) dp fn fp fh :
  linv b st ->
  table_step b st st' 0 dp fn fp fh ->
  same_links (nodes_of st b) (fn (nodes_of st b)) ->
  linv b st'.
Proof.
  intros Hi Hs Hl. eapply linv_same_links; [exact Hi| |].
  - rewrite (ts_node_head _ _ _ _ _ _ _ _ Hs). lia.
  - by rewrite (ts_nodes _ _ _ _ _ _ _ _ Hs).
Qed.

Lemma special_update_links (kind : special) (b k j : nat) (st : dtb_state) fn fh
    (ns : list dtb_node) :
  special_update kind b k j st fn fh -> same_links ns (fn ns).
Proof.
  intros H. destruct kind; simpl in H.
  - destruct H as [-> _]. apply same_links_refl.
  - destruct H as (h & _ & _ & -> & _). apply same_links_refl.
  - destruct H as (v & _ & -> & _). by apply same_links_alter.
  - destruct H as (v & _ & -> & _). by apply same_links_alter.
Qed.

(** Every call of [parse_node] and every run of its loop keeps the links
    consistent. *)
Lemma parse_linv (b : nat) :
  forall fuel,
    (forall offset ac sc st r offset' st',
        wf b st -> linv b st ->
        parse_node fuel offset ac sc st = Ret ((r, offset'), st') ->
        linv b st') /\
    (forall k offset st r offset' st',
        wf b st -> Z.of_nat k < node_alloc_head st -> linv b st ->
        parse_node_loop fuel (b, k) offset st = Ret ((r, offset'), st') ->
        linv b st').
Proof.
  induction fuel as [|fuel [IHcall IHloop]]; [split; intros; discriminate|].
  destruct (parse_frames b fuel) as [Fcall Floop].
  split.
  - intros offset ac sc st r offset' st' Hwf Hi H.
    destruct (parse_node_Ret b _ _ _ _ _ _ _ _ Hwf H)
      as (t & Htok & [(Ht & -> & -> & ->)
                     |(Ht & st1 & o1 & Hname & Hk & Hs & Hwf1 & Hloop)]);
      [done|].
    cbv zeta in *.
    pose proof (wf_node_head _ _ Hwf) as Hh.
    pose proof (ts_node_head _ _ _ _ _ _ _ _ Hs) as Hh1.
    eapply IHloop; [exact Hwf1| | |exact Hloop]; [lia|].
    apply (linv_enter b st st1
             (Node None None None None (node_name_at (cells st) offset) ac sc));
      [exact Hi|lia|exact Hh1| |exact Hk|done|done].
    apply (ts_nodes _ _ _ _ _ _ _ _ Hs).
  - intros k offset st r offset' st' Hwf Hk Hi H.
    destruct (parse_node_loop_Ret _ _ _ _ _ _ _ H)
      as [(Hge & -> & -> & u & Herr)
         |(Hlt & t & Htok &
           [(Ht & -> & -> & ->)
           |[(Ht & n & c & o1 & st1 & st2 & Hn & Hcall & Hlink & Hrest)
            |[(Ht & pp & o1 & st1 & st2 & Hprop & Hlink & Hrest)
             |(Ht1 & Ht2 & Ht3 & Hrest)]]])].
    + apply (call_on_error_step b) in Herr.
      eapply linv_table_step; [exact Hi|exact Herr|apply same_links_refl].
    + done.
    + destruct (Fcall _ _ _ _ _ _ _ Hwf Hcall) as [Hf1 Hr1]. cbv zeta in *.
      pose proof (IHcall _ _ _ _ _ _ _ Hwf Hi Hcall) as Hi1.
      set (h := Z.to_nat (node_alloc_head st)) in *.
      pose proof (wf_node_head _ _ Hwf) as Hh.
      pose proof (fr_wf _ _ _ _ _ _ Hf1) as Hwf1.
      pose proof (fr_node_head _ _ _ _ _ _ Hf1) as Hh1.
      destruct c as [cp|].
      * destruct (Hr1 cp eq_refl) as (-> & Hlt1 & cn & Hcn & Hpar & _).
        destruct (link_child_step b k h st1 st2 Hwf1 Hlink ltac:(lia)
                    ltac:(unfold h; lia)) as (n1 & Hn1 & Hlen & Hs & Hwf2).
        pose proof (ts_node_head _ _ _ _ _ _ _ _ Hs) as Hh2.
        eapply IHloop; [exact Hwf2| | |exact Hrest]; [lia|].
        assert (Hsame : forall i, (i < h)%nat ->
                          nodes_of st1 b !! i = nodes_of st b !! i).
        { intros i Hih. apply (fr_nodes _ _ _ _ _ _ Hf1); unfold h in *; lia. }
        assert (Hnk : nodes_of st b !! k = Some n1).
        { rewrite <- Hsame; [done|unfold h; lia]. }
        destruct (li_kids _ _ Hi k n1 Hk Hnk) as (cl0 & Hcl0 & _).
        fold h in Hcl0.
        eapply (linv_link_child b k h st1 st2 n1 cn cl0); eauto.
        -- unfold h. lia.
        -- unfold h. lia.
        -- eapply node_chain_frame; [exact Hcl0|exact Hsame].
        -- lia.
        -- apply (ts_nodes _ _ _ _ _ _ _ _ Hs).
      * subst st2. eapply IHloop; [exact Hwf1| |exact Hi1|exact Hrest]. lia.
    + rewrite Ht in Htok.
      destruct (parse_prop_Ret b _ _ _ _ _ Hwf Htok Hprop)
        as (name & len & Hname & Hlen & Hafter & -> & Hj & Hs1 & Hwf1).
      cbv zeta in *. set (j := Z.to_nat (prop_alloc_head st)) in *.
      pose proof (wf_prop_head _ _ Hwf) as Hph.
      pose proof (ts_node_head _ _ _ _ _ _ _ _ Hs1) as Hh1.
      pose proof (ts_prop_head _ _ _ _ _ _ _ _ Hs1) as Hp1.
      destruct Hlink as (st12 & u & Hlink & Hcheck).
      destruct (link_prop_step b k j st1 st12 Hwf1 Hlink ltac:(lia)
                  ltac:(unfold j; lia)) as (n1 & Hn1 & Hs2 & Hwf12).
      pose proof (ts_node_head _ _ _ _ _ _ _ _ Hs2) as Hh2.
      destruct (check_for_special_prop_Ret _ _ _ _ _ Hcheck)
        as (p & Hp & kind & Hcl & Heff).
      destruct (special_effect_step kind b k j st12 st2 Hwf12 Heff ltac:(lia))
        as (fn & fh & Hupd & Hs3 & Hwf2).
      pose proof (ts_node_head _ _ _ _ _ _ _ _ Hs3) as Hh3.
      eapply IHloop; [exact Hwf2| | |exact Hrest]; [lia|].
      eapply linv_table_step; [|exact Hs3|by eapply special_update_links].
      eapply linv_table_step; [|exact Hs2|by apply same_links_alter].
      eapply linv_table_step; [exact Hi|exact Hs1|apply same_links_refl].
    + by eapply IHloop.
Qed.

(** Putting the node [h], which has no parent, in front of the root list. *)
Lemma linv_link_root (b h : nat) (st st' : dtb_state) (cn : dtb_node)
    (r : option nodeptr) :
  linv b st ->
  Z.of_nat h < node_alloc_head st ->
  nodes_of st b !! h = Some cn -> parent cn = None ->
  node_alloc_head st' = node_alloc_head st ->
  nodes_of st' b = alter (set_sibling r) h (nodes_of st b) ->
  linv b st'.
Proof.
  intros [Hk Hp] Hh Hcn Hpar Hhead Hns.
  set (ns := nodes_of st b) in *. set (ns' := nodes_of st' b) in *.
  set (H := Z.to_nat (node_alloc_head st)) in *.
  assert (F1 : forall i, i <> h -> ns' !! i = ns !! i).
  { intros i Hih. rewrite Hns. by rewrite list_lookup_alter_ne. }
  assert (F3 : ns' !! h = Some (set_sibling r cn)).
  { rewrite Hns. rewrite list_lookup_alter_eq. by rewrite Hcn. }
  assert (G' : forall i m, i <> h -> ns !! i = Some m ->
                 exists m', ns' !! i = Some m' /\ sibling m' = sibling m).
  { intros i m Hih Hm. exists m. by rewrite F1. }
  assert (F4 : forall i nd cl,
            Z.of_nat i < node_alloc_head st -> ns !! i = Some nd ->
            node_chain b ns H (child nd) cl -> h ∉ cl).
  { intros i nd cl Hi Hnd Hc Hin.
    destruct (Hk i nd Hi Hnd) as (cl' & Hcl' & Hall).
    rewrite (node_chain_det _ _ _ _ _ _ _ Hc Hcl') in Hin.
    rewrite Forall_forall in Hall. destruct (Hall h Hin) as (_ & cn' & Hcn' & Hp').
    fold ns in Hcn'. congruence. }
  assert (Hold : forall i nd', Z.of_nat i < node_alloc_head st -> ns' !! i = Some nd' ->
                   exists nd, ns !! i = Some nd /\ child nd = child nd' /\
                              parent nd = parent nd').
  { intros i nd' Hi Hnd'. destruct (decide (i = h)) as [->|Hih].
    - rewrite F3 in Hnd'. injection Hnd' as <-. by exists cn.
    - rewrite F1 in Hnd' by done. by exists nd'. }
  constructor; rewrite Hhead; fold ns ns' H.
  - intros i nd' Hi Hnd'. destruct (Hold i nd' Hi Hnd') as (nd & Hnd & Hc & _).
    rewrite <- Hc. destruct (Hk i nd Hi Hnd) as (cl & Hcl & Hall). exists cl. split.
    + eapply node_chain_avoid; [exact Hcl| |exact G']. by eapply (F4 i nd cl).
    + rewrite Forall_forall in Hall. apply Forall_forall. intros c Hcin.
      destruct (Hall c Hcin) as (Hic & cn' & Hcn' & Hp'). split; [done|].
      exists cn'. split; [|done]. rewrite F1; [done|].
      intros ->. by eapply (F4 i nd cl).
  - intros c cn' p Hc Hcn' Hpc. destruct (Hold c cn' Hc Hcn') as (m & Hm & _ & Hpm).
    rewrite <- Hpm in Hpc.
    destruct (Hp c m p Hc Hm Hpc) as (k0 & nd0 & cl & -> & Hk0c & Hnd0 & Hcl & Hin).
    assert (Hk0 : Z.of_nat k0 < node_alloc_head st) by lia.
    destruct (decide (k0 = h)) as [->|Hk0h].
    + assert (nd0 = cn) by congruence. subst nd0.
      eexists h, _, cl. split; [done|]. split; [done|]. split; [exact F3|].
      cbn. split; [|done].
      eapply node_chain_avoid; [exact Hcl| |exact G']. by eapply (F4 h cn cl).
    + exists k0, nd0, cl. split; [done|]. split; [done|].
      split; [by rewrite F1|]. split; [|done].
      eapply node_chain_avoid; [exact Hcl| |exact G']. by eapply (F4 k0 nd0 cl).
Qed.

Lemma init_loop_linv (b : nat) :
  forall fuel i st st' u,
    wf b st -> linv b st -> rinv b st ->
    dtb_init_loop fuel i st = Ret (u, st') ->
    linv b st' /\ rinv b st'.
Proof.
  induction fuel as [|fuel IH]; intros i st st' u Hwf Hi Hr H; [discriminate|].
  destruct (dtb_init_loop_Ret _ _ _ _ _ H)
    as [(_ & ->)
       |(Hlt & t & Htok &
         [(Ht & Hrest)
         |(Ht & sub & i1 & st1 & st2 & Hcall & Hlink & Hrest)])].
  - done.
  - by eapply IH.
  - destruct (proj1 (parse_frames b fuel) _ _ _ _ _ _ _ Hwf Hcall) as [Hf1 Hr1].
    pose proof (proj1 (parse_linv b fuel) _ _ _ _ _ _ _ Hwf Hi Hcall) as Hi1.
    cbv zeta in *. set (h := Z.to_nat (node_alloc_head st)) in *.
    pose proof (fr_wf _ _ _ _ _ _ Hf1) as Hwf1.
    pose proof (wf_node_head _ _ Hwf) as Hh.
    pose proof (fr_node_head _ _ _ _ _ _ Hf1) as Hh1.
    assert (Hsame : forall i, (i < h)%nat ->
                      nodes_of st1 b !! i = nodes_of st b !! i).
    { intros j Hj. apply (fr_nodes _ _ _ _ _ _ Hf1); unfold h in *; lia. }
    destruct Hr as (rl & Hrl & Hrall). fold h in Hrl.
    pose proof (node_chain_app_bound _ _ _ _ _ Hrl) as Hrb.
    assert (Hrl1 : node_chain b (nodes_of st1 b) h (root st1) rl).
    { rewrite (fr_root _ _ _ _ _ _ Hf1). eapply node_chain_frame; [exact Hrl|exact Hsame]. }
    assert (Hrall1 : Forall (fun c => exists cn, nodes_of st1 b !! c = Some cn /\
                                                 parent cn = None) rl).
    { rewrite Forall_forall in Hrall. apply Forall_forall. intros c Hc.
      destruct (Hrall c Hc) as (cn & Hcn & Hp). exists cn. split; [|done].
      rewrite Hsame; [done|]. by apply Hrb. }
    destruct sub as [sub_root|].
    + destruct (Hr1 sub_root eq_refl) as (-> & Hlt1 & cn & Hcn & Hpar & _).
      destruct Hlink as (st12 & Hw & ->).
      destruct (link_root_step b _ st1 st12 Hwf1 Hw ltac:(unfold h; lia)) as [Hs Hwf12].
      fold h in Hs.
      pose proof (ts_node_head _ _ _ _ _ _ _ _ Hs) as Hh12.
      pose proof (ts_nodes _ _ _ _ _ _ _ _ Hs) as Hns12.
      assert (Hi12 : linv b st12).
      { eapply (linv_link_root b h st1 st12 cn); eauto; [unfold h; lia|lia]. }
      eapply IH; [by apply wf_set_root| | |exact Hrest].
      * eapply linv_same_links; [exact Hi12|done|apply same_links_refl].
      * exists (h :: rl). cbn [root set_root].
        change (nodes_of (set_root (Some (b, h)) st12) b) with (nodes_of st12 b).
        change (node_alloc_head (set_root (Some (b, h)) st12)) with (node_alloc_head st12).
        assert (Hnew : nodes_of st12 b !! h = Some (set_sibling (root st1) cn)).
        { rewrite Hns12, list_lookup_alter_eq, Hcn. done. }
        assert (Hold : forall i, i <> h -> nodes_of st12 b !! i = nodes_of st1 b !! i).
        { intros j Hj. rewrite Hns12. by rewrite list_lookup_alter_ne. }
        split.
        -- econstructor; [unfold h in *; lia|exact Hnew|]. cbn.
           eapply node_chain_frame; [exact Hrl1|]. intros j Hj. apply Hold. lia.
        -- constructor; [by eexists|].
           rewrite Forall_forall in Hrall1. apply Forall_forall. intros c Hc.
           destruct (Hrall1 c Hc) as (cn' & Hcn' & Hp'). exists cn'. split; [|done].
           rewrite Hold; [done|]. specialize (Hrb c Hc). lia.
    + subst st2. eapply IH; [exact Hwf1|exact Hi1| |exact Hrest].
      exists rl. split; [|done].
      eapply node_chain_weaken; [exact Hrl1|]. unfold h. lia.
Qed.

Lemma init_links (start : cptr) (o : dtb_ops) (st : dtb_state) :
  dtb_init start o state0 = Ret (tt, st) ->
  node_buff st = None \/
  (wf 0 st /\ linv 0 st /\ rinv 0 st /\
   length (nodes_of st 0) = Z.to_nat (node_alloc_max st)).
Proof.
  intros Hinit.
  destruct (dtb_init_Ret _ _ _ _ Hinit)
    as [(_ & Hnb & _)|(st1 & Hwf1 & Hi1 & Hroot & Hh & _ & _ & Hloop)]; [by left|right].
  destruct (init_loop_hinv 0 _ _ _ _ _ Hwf1 Hi1 Hloop) as [Hwf _].
  split; [done|].
  assert (Hl0 : linv 0 st1) by (constructor; rewrite Hh; intros; lia).
  assert (Hr0 : rinv 0 st1) by (exists []; rewrite Hroot; split; constructor).
  destruct (init_loop_linv 0 _ _ _ _ tt Hwf1 Hl0 Hr0 Hloop) as [Hl Hr].
  split; [done|]. split; [done|].
  apply (init_sizes _ _ _ Hinit (wf_node_buff _ _ Hwf)).
Qed.

(** X23.  After [dtb_init] on a fresh parser, for every parsed node N: the
    children that [dtb_get_child] and [dtb_get_sibling] list are parsed nodes
    whose [dtb_get_parent] is N; the parent of N, when it has one, is a
    parsed node that lists N among its children; and the nodes on the sibling
    chain from [root] are parsed nodes without a parent. *)
Theorem parent_and_child_links_agree (start : cptr) (o : dtb_ops) (st : dtb_state)
    (N : nodeptr) :
  dtb_init start o state0 = Ret (tt, st) ->
  parsed st N ->
  (exists kids,
      iter_children st N = Ret kids /\
      Forall (fun c => parsed st c /\ dtb_get_parent st (Some c) = Ret (Some N)) kids) /\
  (exists p,
      dtb_get_parent st (Some N) = Ret p /\
      forall P, p = Some P ->
        parsed st P /\ exists sibs, iter_children st P = Ret sibs /\ N ∈ sibs) /\
  (exists tops,
      siblings_from (S (node_slots st)) st (root st) = Ret tops /\
      Forall (fun c => parsed st c /\ dtb_get_parent st (Some c) = Ret None) tops).
Proof.
  intros Hinit [Hb Hk].
  destruct (init_links _ _ _ Hinit)
    as [Hnb|(Hwf & [Hkids Hpar] & (rl & Hrl & Hrall) & Hlen)]; [congruence|].
  destruct N as [b k]. cbn [fst snd] in Hb, Hk.
  rewrite (wf_node_buff _ _ Hwf) in Hb. injection Hb as <-.
  pose proof (wf_live _ _ Hwf) as Hlive.
  pose proof (wf_node_head _ _ Hwf) as Hh.
  destruct (lookup_lt_is_Some_2 (nodes_of st 0) k ltac:(lia)) as [nd Hnd].
  pose proof (wf_read_node _ _ _ _ Hwf Hnd) as Hrd.
  assert (Hparsed : forall c, (c < Z.to_nat (node_alloc_head st))%nat ->
                               parsed st (0%nat, c)).
  { intros c Hc. split; [apply (wf_node_buff _ _ Hwf)|cbn; lia]. }
  split; [|split].
  - destruct (Hkids k nd Hk Hnd) as (cl & Hcl & Hall).
    exists ((fun i => (0%nat, i)) <$> cl). split.
    + eapply iter_children_chain; eauto.
    + apply Forall_fmap. pose proof (node_chain_app_bound _ _ _ _ _ Hcl) as Hb.
      rewrite Forall_forall in Hall. apply Forall_forall. intros c Hc.
      destruct (Hall c Hc) as (_ & cn & Hcn & Hp). cbn. split; [by apply Hparsed, Hb|].
      unfold dtb_get_parent. rewrite (wf_read_node _ _ _ _ Hwf Hcn). cbn. by rewrite Hp.
  - exists (parent nd). split; [unfold dtb_get_parent; by rewrite Hrd|].
    intros P HP.
    destruct (Hpar k nd P Hk Hnd HP) as (k0 & nd0 & cl & -> & Hk0 & Hnd0 & Hcl & Hin).
    split; [apply Hparsed; lia|].
    exists ((fun i => (0%nat, i)) <$> cl). split.
    + eapply iter_children_chain; eauto. by apply wf_read_node.
    + apply list_elem_of_fmap. by exists k.
  - exists ((fun i => (0%nat, i)) <$> rl). split.
    + eapply siblings_from_chain; [exact Hrl|done|].
      pose proof (node_chain_length _ _ _ _ _ Hrl).
      pose proof (nodes_of_slots st 0). lia.
    + apply Forall_fmap. pose proof (node_chain_app_bound _ _ _ _ _ Hrl) as Hb.
      rewrite Forall_forall in Hrall. apply Forall_forall. intros c Hc.
      destruct (Hrall c Hc) as (cn & Hcn & Hp). cbn. split; [by apply Hparsed, Hb|].
      unfold dtb_get_parent. rewrite (wf_read_node _ _ _ _ Hwf Hcn). cbn. by rewrite Hp.
Qed.

Lemma parent_and_child_links_agree_witness :
  (exists kids, iter_children board_state (0, 1)%nat = Ret kids /\
     Forall (fun c => parsed board_state c /\
                      dtb_get_parent board_state (Some c) = Ret (Some (0, 1)%nat)) kids) /\
  (exists p, dtb_get_parent board_state (Some (0, 1)%nat) = Ret p /\
     forall P, p = Some P ->
       parsed board_state P /\
       exists sibs, iter_children board_state P = Ret sibs /\ (0, 1)%nat ∈ sibs) /\
  (exists tops,
     siblings_from (S (node_slots board_state)) board_state (root board_state) = Ret tops /\
     Forall (fun c => parsed board_state c /\
                      dtb_get_parent board_state (Some c) = Ret None) tops).
Proof.
  apply (parent_and_child_links_agree (board 1 2) all_ops board_state (0, 1)%nat);
    [vm_compute; reflexivity|split; vm_compute; reflexivity].
Defined.

(** ** Queries on parsed nodes *)

(** X24.  After [dtb_init] on a fresh parser the walks over a parsed node all
    come to an end without a fault: its children are listed, its properties
    enumerated, the children of its parent listed, and [dtb_stat_node]
    returns their three lengths, none of which wraps around. *)
Theorem queries_on_parsed_nodes_return (start : cptr) (o : dtb_ops) (st : dtb_state)
    (N : nodeptr) (stat : dtb_node_stat) :
  dtb_init start o state0 = Ret (tt, st) ->
  parsed st N ->
  exists nd kids props sibs,
    read_node st N = Ret nd /\
    iter_children st N = Ret kids /\
    iter_props st N = Ret props /\
    match parent nd with
    | Some par => iter_children st par = Ret sibs
    | None => sibs = []
    end /\
    dtb_stat_node st (Some N) (Some stat)
    = Ret (Some (Stat (if bool_decide (root st = Some N) then ROOT_NODE_STR
                       else node_name nd)
                      (Z.of_nat (length kids))
                      (Z.of_nat (length props))
                      (Z.of_nat (length sibs)))).
Proof.
  intros Hinit [Hb Hk].
  destruct (init_links _ _ _ Hinit)
    as [Hnb|(Hwf & [Hkids Hpar] & _ & Hlen)]; [congruence|].
  destruct (init_tree _ _ _ Hinit) as [(Hnb & _)|(_ & Hi & _)]; [congruence|].
  destruct N as [b k]. cbn [fst snd] in Hb, Hk.
  rewrite (wf_node_buff _ _ Hwf) in Hb. injection Hb as <-.
  pose proof (wf_live _ _ Hwf) as Hlive.
  pose proof (wf_node_head _ _ Hwf) as Hh.
  pose proof (wf_node_max _ _ Hwf) as Hmax.
  destruct (lookup_lt_is_Some_2 (nodes_of st 0) k ltac:(lia)) as [nd Hnd].
  pose proof (wf_read_node _ _ _ _ Hwf Hnd) as Hrd.
  destruct (Hkids k nd Hk Hnd) as (cl & Hcl & _).
  destruct (hi_chains _ _ Hi k nd Hk Hnd) as (pl & Hpl).
  pose proof (iter_children_chain st 0 k nd _ cl Hrd Hcl Hlive) as Hic.
  pose proof (iter_props_chain st 0 k nd _ pl Hrd Hpl Hlive
                (wf_chain_short _ _ _ _ Hwf Hpl)) as Hip.
  assert (Hsibs : exists sl : list nat,
            match parent nd with
            | Some par => iter_children st par = Ret ((fun i => (0%nat, i)) <$> sl)
            | None => (fun i => (0%nat, i)) <$> sl = []
            end /\ (length sl <= length (nodes_of st 0))%nat).
  { destruct (parent nd) as [par|] eqn:Hp; [|exists []; split; [done|simpl; lia]].
    destruct (Hpar k nd par Hk Hnd Hp) as (k0 & nd0 & sl & -> & _ & Hnd0 & Hsl & _).
    exists sl. split; [|by eapply node_chain_length].
    eapply iter_children_chain; eauto. by apply wf_read_node. }
  destruct Hsibs as (sl & Hsl & Hsll).
  pose proof (node_chain_length _ _ _ _ _ Hcl) as Hcll.
  pose proof (wf_chain_short _ _ _ _ Hwf Hpl) as Hpll.
  exists nd, ((fun i => (0%nat, i)) <$> cl), ((fun i => (0%nat, i)) <$> pl),
    ((fun i => (0%nat, i)) <$> sl).
  split; [done|]. split; [done|]. split; [done|]. split; [done|].
  rewrite (dtb_stat_node_spec st (0%nat, k) nd stat _ _ _ Hrd Hic Hip
             ltac:(by rewrite length_fmap) Hsl).
  rewrite !length_fmap. rewrite !u32_small by lia. done.
Qed.

Lemma queries_on_parsed_nodes_return_witness :
  exists nd kids props sibs,
    read_node board_state (0, 2)%nat = Ret nd /\
    iter_children board_state (0, 2)%nat = Ret kids /\
    iter_props board_state (0, 2)%nat = Ret props /\
    match parent nd with
    | Some par => iter_children board_state par = Ret sibs
    | None => sibs = []
    end /\
    dtb_stat_node board_state (Some (0, 2)%nat) (Some (Stat null_cptr 0 0 0))
    = Ret (Some (Stat (if bool_decide (root board_state = Some (0, 2)%nat)
                       then ROOT_NODE_STR else node_name nd)
                      (Z.of_nat (length kids))
                      (Z.of_nat (length props))
                      (Z.of_nat (length sibs)))).
Proof.
  apply (queries_on_parsed_nodes_return (board 1 2) all_ops board_state (0, 2)%nat
           (Stat null_cptr 0 0 0));
    [vm_compute; reflexivity|split; vm_compute; reflexivity].
Defined.

(** ** A second [dtb_init] *)

Lemma lives_insert (st : dtb_state) (b : nat) (blk blk' : block) :
  heap st !! b = Some blk -> live blk' = live blk ->
  lives (set_heap (<[b := blk']> (heap st)) st) = lives st.
Proof.
  intros Hb Hl. unfold lives. simpl. rewrite list_fmap_insert, Hl.
  apply list_insert_id. by rewrite list_lookup_fmap, Hb.
Qed.

Lemma write_node_lives (p : nodeptr) f (st st' : dtb_state) :
  write_node p f st = Ret st' -> lives st' = lives st.
Proof.
  unfold write_node. intros H. apply rbind_Ret in H as (blk & Hb & H).
  apply read_block_Ret in Hb as [Hb _].
  apply rbind_Ret in H as (n & _ & H). injection H as <-.
  by eapply lives_insert.
Qed.

Lemma write_prop_lives (p : propptr) f (st st' : dtb_state) :
  write_prop p f st = Ret st' -> lives st' = lives st.
Proof.
  unfold write_prop. intros H. apply rbind_Ret in H as (blk & Hb & H).
  apply read_block_Ret in Hb as [Hb _].
  apply rbind_Ret in H as (n & _ & H). injection H as <-.
  by eapply lives_insert.
Qed.

Lemma write_handle_lives (h : Z) (n : nodeptr) (st st' : dtb_state) :
  write_handle h n st = Ret st' -> lives st' = lives st.
Proof.
  unfold write_handle. intros H. apply rbind_Ret in H as (b & _ & H).
  apply rbind_Ret in H as (blk & Hb & H). apply read_block_Ret in Hb as [Hb _].
  apply rbind_Ret in H as (x & _ & H). injection H as <-.
  by eapply lives_insert.
Qed.

Lemma call_on_error_lives (why : string) (st st' : dtb_state) (u : unit) :
  call_on_error why st = Ret (u, st') -> lives st' = lives st /\ root st' = root st.
Proof.
  unfold call_on_error. by destruct (on_error (ops st)); intros [= ? <-].
Qed.

Lemma alloc_node_lives (st st' : dtb_state) (p : nodeptr) :
  alloc_node st = Ret (Some p, st') -> lives st' = lives st.
Proof.
  unfold alloc_node, bind, gets, modify, ret, fail, call_on_error.
  destruct (u32 (node_alloc_head st + 1) <? node_alloc_max st).
  - destruct (node_buff st); [|done]. by intros [= _ <-].
  - by destruct (on_error (ops st)).
Qed.

Lemma alloc_prop_lives (st st' : dtb_state) (p : propptr) :
  alloc_prop st = Ret (Some p, st') -> lives st' = lives st.
Proof.
  unfold alloc_prop, bind, gets, modify, ret, fail, call_on_error.
  destruct (u32 (prop_alloc_head st + 1) <? prop_alloc_max st).
  - destruct (prop_buff st); [|done]. by intros [= _ <-].
  - by destruct (on_error (ops st)).
Qed.

Lemma check_for_special_prop_lives (node : nodeptr) (prop : propptr)
    (st st' : dtb_state) (u : unit) :
  check_for_special_prop node prop st = Ret (u, st') -> lives st' = lives st.
Proof.
  intros H. apply check_for_special_prop_Ret in H as (p & _ & kind & _ & He).
  destruct kind; cbn [special_effect] in He.
  - by subst.
  - destruct He as (h & _ & Hw). by eapply write_handle_lives.
  - destruct He as (v & _ & Hw). by eapply write_node_lives.
  - destruct He as (v & _ & Hw). by eapply write_node_lives.
Qed.

Lemma parse_prop_lives (offset : Z) (st st' : dtb_state) (r : option propptr * Z) :
  parse_prop offset st = Ret (r, st') -> lives st' = lives st.
Proof.
  unfold parse_prop. intros H. minv H.
  match type of H with
  | (if ?c then _ else _) _ = _ => destruct c
  end.
  { by minv H. }
  minv H.
  match goal with
  | Ha : alloc_prop st = Ret (?o, _) |- _ => destruct o as [prop|]; [|discriminate];
      apply alloc_prop_lives in Ha
  end.
  minv H.
  repeat match goal with
         | Hw : write_prop _ _ _ = Ret _ |- _ => apply write_prop_lives in Hw
         end.
  congruence.
Qed.

Lemma parse_lives :
  forall fuel,
    (forall offset ac sc st r st',
        parse_node fuel offset ac sc st = Ret (r, st') -> lives st' = lives st) /\
    (forall node offset st r st',
        parse_node_loop fuel node offset st = Ret (r, st') -> lives st' = lives st).
Proof.
  induction fuel as [|fuel [IHn IHl]]; [split; intros; discriminate|].
  split.
  - intros offset ac sc st r st' H. cbn [parse_node] in H. minv H.
    match type of H with
    | (if ?c then _ else _) _ = _ => destruct c
    end.
    { by minv H. }
    minv H.
    match goal with
    | Ha : alloc_node st = Ret (?o, _) |- _ => destruct o as [node|]; [|discriminate];
        apply alloc_node_lives in Ha
    end.
    minv H.
    repeat match goal with
           | Hw : write_node _ _ _ = Ret _ |- _ => apply write_node_lives in Hw
           end.
    apply IHl in H. congruence.
  - intros node offset st [r offset'] st' H.
    destruct (parse_node_loop_Ret _ _ _ _ _ _ _ H)
      as [(_ & _ & _ & u & Herr)
         |(_ & t & _ &
           [(_ & _ & _ & ->)
           |[(_ & n & c & o1 & st1 & st2 & _ & Hcall & Hlink & Hrest)
            |[(_ & pp & o1 & st1 & st2 & Hprop & Hlink & Hrest)
             |(_ & _ & _ & Hrest)]]])].
    + by apply call_on_error_lives in Herr as [? _].
    + done.
    + apply IHn in Hcall. apply IHl in Hrest.
      rewrite Hrest, <- Hcall.
      destruct c as [cp|]; [|by subst].
      destruct Hlink as (n' & s1 & s2 & _ & H1 & H2 & H3).
      apply write_node_lives in H1, H2, H3. congruence.
    + apply parse_prop_lives in Hprop. apply IHl in Hrest.
      rewrite Hrest, <- Hprop.
      destruct pp as [prop|]; [|by subst].
      destruct Hlink as (st12 & u & (n' & s1 & _ & H1 & H2) & Hc).
      apply write_prop_lives in H1. apply write_node_lives in H2.
      apply check_for_special_prop_lives in Hc. congruence.
    + by apply IHl in Hrest.
Qed.

Lemma init_loop_lives :
  forall fuel i st st' u,
    dtb_init_loop fuel i st = Ret (u, st') -> lives st' = lives st.
Proof.
  induction fuel as [|fuel IH]; intros i st st' u H; [discriminate|].
  destruct (dtb_init_loop_Ret _ _ _ _ _ H)
    as [(_ & ->)
       |(_ & t & _ &
         [(_ & Hrest)
         |(_ & sub & i1 & st1 & st2 & Hcall & Hlink & Hrest)])].
  - done.
  - by eapply IH.
  - apply (proj1 (parse_lives fuel)) in Hcall. apply IH in Hrest.
    rewrite Hrest, <- Hcall.
    destruct sub as [sub_root|]; [|by subst].
    destruct Hlink as (st12 & Hw & ->). by apply write_node_lives in Hw.
Qed.

Lemma chain_to_weaken (b : nat) (ns ns' : list dtb_node) (bound bound' : nat) tgt c l :
  chain_to b ns bound tgt c l ->
  (bound <= bound')%nat ->
  (forall j, (j < bound)%nat -> ns' !! j = ns !! j) ->
  chain_to b ns' bound' tgt c l.
Proof.
  intros H Hb Hs. induction H as [|j p l Hj Hp _ IH]; [constructor|].
  econstructor; [lia| |exact IH]. by rewrite Hs.
Qed.

(** The scanning loop of [dtb_init] puts nodes in front of the root list and
    takes none off. *)
Lemma init_loop_chain (b : nat) (tgt : option nodeptr) :
  forall fuel i st st' u rl,
    wf b st ->
    chain_to b (nodes_of st b) (Z.to_nat (node_alloc_head st)) tgt (root st) rl ->
    dtb_init_loop fuel i st = Ret (u, st') ->
    wf b st' /\
    exists rl',
      chain_to b (nodes_of st' b) (Z.to_nat (node_alloc_head st')) tgt (root st') rl'.
Proof.
  induction fuel as [|fuel IH]; intros i st st' u rl Hwf Hc H; [discriminate|].
  destruct (dtb_init_loop_Ret _ _ _ _ _ H)
    as [(_ & ->)
       |(Hlt & t & Htok &
         [(Ht & Hrest)
         |(Ht & sub & i1 & st1 & st2 & Hcall & Hlink & Hrest)])].
  - split; [done|]. by exists rl.
  - by eapply IH.
  - destruct (proj1 (parse_frames b fuel) _ _ _ _ _ _ _ Hwf Hcall) as [Hf1 Hr1].
    cbv zeta in *.
    pose proof (fr_wf _ _ _ _ _ _ Hf1) as Hwf1.
    pose proof (wf_node_head _ _ Hwf) as Hh.
    pose proof (fr_node_head _ _ _ _ _ _ Hf1) as Hh1.
    assert (Hc1 : chain_to b (nodes_of st1 b) (Z.to_nat (node_alloc_head st)) tgt
                    (root st1) rl).
    { rewrite (fr_root _ _ _ _ _ _ Hf1).
      eapply chain_to_weaken; [exact Hc|done|].
      intros j Hj. apply (fr_nodes _ _ _ _ _ _ Hf1); lia. }
    destruct sub as [sub_root|].
    + destruct (Hr1 sub_root eq_refl) as (-> & Hlt1 & _).
      destruct Hlink as (st12 & Hw & ->).
      destruct (link_root_step b _ st1 st12 Hwf1 Hw ltac:(lia)) as [Hs Hwf12].
      apply write_node_spec in Hw as (nk & Hnk & _).
      eapply (IH _ _ _ _ (Z.to_nat (node_alloc_head st) :: rl)); [|
        |exact Hrest].
      { by apply wf_set_root. }
      change (nodes_of (set_root ?r st12) b) with (nodes_of st12 b).
      change (node_alloc_head (set_root ?r st12)) with (node_alloc_head st12).
      change (root (set_root ?r st12)) with r.
      rewrite (ts_nodes _ _ _ _ _ _ _ _ Hs), (ts_node_head _ _ _ _ _ _ _ _ Hs), Z.add_0_r.
      econstructor.
      * lia.
      * rewrite list_lookup_alter_eq, Hnk. reflexivity.
      * simpl. eapply chain_to_weaken; [exact Hc1|lia|].
        intros j Hj. apply list_lookup_alter_ne. lia.
    + subst st2. eapply (IH _ _ _ _ rl); [exact Hwf1| |exact Hrest].
      eapply chain_to_weaken; [exact Hc1|lia|done].
Qed.

Lemma chain_to_steps (b : nat) (st : dtb_state) (bound : nat) tgt c l :
  wf b st ->
  chain_to b (nodes_of st b) bound tgt c l ->
  sibling_steps (length l) st c = Ret tgt.
Proof.
  intros Hwf H. induction H as [|j p l Hj Hp _ IH]; [done|].
  cbn [length sibling_steps]. unfold dtb_get_sibling.
  rewrite (wf_read_node _ _ _ _ Hwf Hp). cbn [rbind]. exact IH.
Qed.

(** [free_buffers] as [dtb_init] calls it. *)
Lemma free_buffers_Ret (st st' : dtb_state) (u : unit) (b0 : nat) :
  free_buffers st = Ret (u, st') ->
  node_buff st = Some b0 ->
  root st' = root st /\ cells st' = cells st /\ cell_count st' = cell_count st /\
  strings st' = strings st /\ ops st' = ops st /\
  length (heap st') = length (heap st) /\
  (if free (ops st) then lives st' = <[b0 := false]> (lives st) /\
                         (b0 < length (heap st))%nat
   else lives st' = lives st) /\
  (free (ops st) = false -> heap st' = heap st).
Proof.
  unfold free_buffers. intros H Hnb. minv H.
  destruct (free (ops st)); cbn [negb] in H.
  - minv H. simpl.
    match goal with
    | Hf : host_free _ _ = _ |- _ => rename Hf into Hfree
    end.
    unfold host_free in Hfree. rewrite Hnb in Hfree.
    destruct (heap st !! b0) as [blk|] eqn:Hb; [|discriminate].
    destruct (live blk); [|discriminate]. injection Hfree as _ <-. simpl.
    repeat split; try done.
    + by rewrite length_insert.
    + unfold lives. simpl. by rewrite list_fmap_insert.
    + by eapply lookup_lt_Some.
  - unfold call_on_error in H.
    destruct (on_error (ops st)); injection H as _ <-; by repeat split.
Qed.

(** [dtb_init] on any parser state, up to its scanning loop. *)
Lemma dtb_init_any (start : cptr) (o : dtb_ops) (st st' : dtb_state) (u : unit) :
  dtb_init start o st = Ret (u, st') ->
  (root st' = root st /\ lives st' = lives st /\ heap st' = heap st /\
   (malloc o = false \/
    exists magic, load32 start = Ret magic /\ be32 magic <> FDT_MAGIC)) \/
  (malloc o = true /\
   (exists magic, load32 start = Ret magic /\ be32 magic = FDT_MAGIC) /\
   exists (lf : list bool) (st1 : dtb_state),
     length lf = length (heap st) /\
     match node_buff st with
     | Some b0 =>
         if free o then lf = <[b0 := false]> (lives st) /\ (b0 < length (heap st))%nat
         else lf = lives st
     | None => lf = lives st
     end /\
     wf (length (heap st)) st1 /\ root st1 = root st /\ node_alloc_head st1 = 0 /\
     lives st1 = lf ++ [true] /\
     (free o = false -> exists blk, heap st1 = heap st ++ [blk]) /\
     dtb_init_loop (init_fuel (cell_count st1)) 0 st1 = Ret (u, st')).
Proof.
  unfold dtb_init. intros H. minv H.
  destruct (malloc o) eqn:Hm; cbn [negb] in H.
  2:{ left.
      assert (Hheap : heap st' = heap st)
        by (unfold call_on_error in H; destruct (on_error _); by injection H as _ <-).
      apply call_on_error_lives in H as [H1 H2]. split; [done|].
      split; [done|]. split; [done|]. by left. }
  minv H.
  match type of H with
  | (if negb ?c then _ else _) _ = _ => destruct c eqn:Hmagic; cbn [negb] in H
  end.
  2:{ left.
      assert (Hheap : heap st' = heap st)
        by (unfold call_on_error in H; destruct (on_error _); by injection H as _ <-).
      apply call_on_error_lives in H as [H1 H2]. split; [done|].
      split; [done|]. split; [done|].
      right. eexists. split; [eassumption|]. by apply Z.eqb_neq. }
  minv H. right. split; [done|].
  split; [eexists; split; [eassumption|by apply Z.eqb_eq]|].
  match goal with
  | Hl : load32 (ptr_add start 36) = Ret ?x |- _ => pose proof (be32_range x) as Hx
  end.
  match goal with
  | Hs : (if ?nb is Some _ then _ else _) ?s = Ret (_, ?sf) |- _ =>
      assert (Hfree : root sf = root st /\
                      cell_count sf = cell_count s /\
                      length (heap sf) = length (heap st) /\
                      match node_buff st with
                      | Some b0 =>
                          if free o then lives sf = <[b0 := false]> (lives st) /\
                                         (b0 < length (heap st))%nat
                          else lives sf = lives st
                      | None => lives sf = lives st
                      end /\
                      (free o = false -> heap sf = heap st));
      [simpl in Hs; destruct (node_buff st) as [b0|] eqn:Hnb;
       [apply (free_buffers_Ret _ _ _ b0) in Hs as (? & ? & ? & ? & ? & ? & ? & ?);
        [by repeat split|done]
       |injection Hs as _ <-; by repeat split]|]
  end.
  destruct Hfree as (Hroot & Hcc & Hlen & Hlives & Hheap).
  match goal with
  | Ha : alloc_buffers ?s = Ret _ |- _ =>
      assert (Hc : 0 <= cell_count s < 1073741824)
        by (rewrite Hcc; simpl;
            split; [apply Z.div_pos; lia|apply Z.div_lt_upper_bound; lia]);
      apply alloc_buffers_Ret in Ha as (nm & pm & Hn & Hp & ->)
  end.
  match type of H with
  | dtb_init_loop _ _ ?s1 = _ =>
      match s1 with
      | context [heap ?s ++ _] =>
          destruct (fresh_block_wf s nm pm ltac:(lia) ltac:(lia)) as [Hwf _];
          exists (lives s)
      end
  end.
  cbv zeta in Hwf. rewrite Hlen in Hwf, H.
  eexists. split; [by unfold lives; rewrite length_fmap|].
  split; [exact Hlives|]. split; [exact Hwf|].
  split; [exact Hroot|]. split; [reflexivity|].
  split; [unfold lives; simpl; by rewrite fmap_app|].
  split; [|exact H].
  intros Hf. eexists. simpl. by rewrite (Hheap Hf).
Qed.

Lemma within_block_refl (b : nat) (st : dtb_state) : within_block b st st.
Proof. by repeat split. Qed.

Lemma within_block_trans (b : nat) (s1 s2 s3 : dtb_state) :
  within_block b s1 s2 -> within_block b s2 s3 -> within_block b s1 s3.
Proof.
  intros (H1 & H2 & H3 & H4) (G1 & G2 & G3 & G4).
  repeat split; try congruence. intros b' Hb'. by rewrite G4, H4.
Qed.

Lemma write_node_within (p : nodeptr) f (st st' : dtb_state) :
  write_node p f st = Ret st' -> within_block p.1 st st'.
Proof.
  unfold write_node. intros H. apply rbind_Ret in H as (blk & _ & H).
  apply rbind_Ret in H as (n & _ & H). injection H as <-.
  repeat split. intros b' Hb'. simpl. by apply list_lookup_insert_ne.
Qed.

Lemma write_prop_within (p : propptr) f (st st' : dtb_state) :
  write_prop p f st = Ret st' -> within_block p.1 st st'.
Proof.
  unfold write_prop. intros H. apply rbind_Ret in H as (blk & _ & H).
  apply rbind_Ret in H as (n & _ & H). injection H as <-.
  repeat split. intros b' Hb'. simpl. by apply list_lookup_insert_ne.
Qed.

Lemma write_handle_within (b : nat) (h : Z) (n : nodeptr) (st st' : dtb_state) :
  handle_lookup st = Some b ->
  write_handle h n st = Ret st' -> within_block b st st'.
Proof.
  unfold write_handle. intros Hb H. rewrite Hb in H. cbn [of_option rbind] in H.
  apply rbind_Ret in H as (blk & _ & H).
  apply rbind_Ret in H as (x & _ & H). injection H as <-.
  repeat split. intros b' Hb'. simpl. by apply list_lookup_insert_ne.
Qed.

Lemma call_on_error_within (b : nat) (why : string) (st st' : dtb_state) (u : unit) :
  call_on_error why st = Ret (u, st') -> within_block b st st'.
Proof.
  unfold call_on_error. by destruct (on_error (ops st)); intros [= ? <-].
Qed.

Lemma alloc_node_within (b : nat) (st st' : dtb_state) (p : nodeptr) :
  node_buff st = Some b ->
  alloc_node st = Ret (Some p, st') -> p.1 = b /\ within_block b st st'.
Proof.
  unfold alloc_node, bind, gets, modify, ret, fail, call_on_error. intros Hb.
  destruct (u32 (node_alloc_head st + 1) <? node_alloc_max st).
  - rewrite Hb. by intros [= <- <-].
  - by destruct (on_error (ops st)).
Qed.

Lemma alloc_prop_within (b : nat) (st st' : dtb_state) (p : propptr) :
  prop_buff st = Some b ->
  alloc_prop st = Ret (Some p, st') -> p.1 = b /\ within_block b st st'.
Proof.
  unfold alloc_prop, bind, gets, modify, ret, fail, call_on_error. intros Hb.
  destruct (u32 (prop_alloc_head st + 1) <? prop_alloc_max st).
  - rewrite Hb. by intros [= <- <-].
  - by destruct (on_error (ops st)).
Qed.

Lemma check_for_special_prop_within (b : nat) (node : nodeptr) (prop : propptr)
    (st st' : dtb_state) (u : unit) :
  handle_lookup st = Some b -> node.1 = b ->
  check_for_special_prop node prop st = Ret (u, st') -> within_block b st st'.
Proof.
  intros Hh Hn H. apply check_for_special_prop_Ret in H as (p & _ & kind & _ & He).
  destruct kind; cbn [special_effect] in He.
  - subst. apply within_block_refl.
  - destruct He as (h & _ & Hw). by eapply write_handle_within.
  - destruct He as (v & _ & Hw). apply write_node_within in Hw. by rewrite Hn in Hw.
  - destruct He as (v & _ & Hw). apply write_node_within in Hw. by rewrite Hn in Hw.
Qed.

Lemma parse_prop_within (b : nat) (offset : Z) (st st' : dtb_state)
    (r : option propptr * Z) :
  prop_buff st = Some b ->
  parse_prop offset st = Ret (r, st') ->
  within_block b st st' /\ forall p, r.1 = Some p -> p.1 = b.
Proof.
  unfold parse_prop. intros Hb H. minv H.
  match type of H with
  | (if ?c then _ else _) _ = _ => destruct c
  end.
  { minv H. split; [apply within_block_refl|done]. }
  minv H.
  match goal with
  | Ha : alloc_prop st = Ret (?o, _) |- _ => destruct o as [prop|]; [|discriminate];
      apply (alloc_prop_within b) in Ha as [Hp Ha]; [|done]
  end.
  minv H.
  repeat match goal with
         | Hw : write_prop _ _ _ = Ret _ |- _ =>
             apply write_prop_within in Hw; rewrite Hp in Hw
         end.
  split; [|by intros p [= <-]].
  repeat (eapply within_block_trans; [eassumption|]). apply within_block_refl.
Qed.

(** The parser stores only into the block that holds its tables. *)
Lemma parse_within (b : nat) :
  forall fuel,
    (forall offset ac sc st r st',
        node_buff st = Some b -> prop_buff st = Some b -> handle_lookup st = Some b ->
        parse_node fuel offset ac sc st = Ret (r, st') ->
        within_block b st st' /\ forall n, r.1 = Some n -> n.1 = b) /\
    (forall node offset st r st',
        node_buff st = Some b -> prop_buff st = Some b -> handle_lookup st = Some b ->
        node.1 = b ->
        parse_node_loop fuel node offset st = Ret (r, st') ->
        within_block b st st' /\ forall n, r.1 = Some n -> n.1 = b).
Proof.
  induction fuel as [|fuel [IHn IHl]]; [split; intros; discriminate|].
  split.
  - intros offset ac sc st r st' Hnb Hpb Hhl H. cbn [parse_node] in H. minv H.
    match type of H with
    | (if ?c then _ else _) _ = _ => destruct c
    end.
    { minv H. split; [apply within_block_refl|done]. }
    minv H.
    match goal with
    | Ha : alloc_node st = Ret (?o, _) |- _ => destruct o as [node|]; [|discriminate];
        apply (alloc_node_within b) in Ha as [Hp Ha]; [|done]
    end.
    minv H.
    repeat match goal with
           | Hw : write_node _ _ _ = Ret _ |- _ =>
               apply write_node_within in Hw; rewrite Hp in Hw
           end.
    match type of H with
    | parse_node_loop _ _ _ ?s = _ =>
        assert (Hw : within_block b st s)
          by (repeat (eapply within_block_trans; [eassumption|]); apply within_block_refl)
    end.
    destruct Hw as (E1 & E2 & E3 & E4).
    apply IHl in H as [H Hr]; [|congruence..|done].
    split; [|done]. eapply within_block_trans; [|exact H]. by repeat split.
  - intros node offset st [r offset'] st' Hnb Hpb Hhl Hnode H.
    destruct (parse_node_loop_Ret _ _ _ _ _ _ _ H)
      as [(_ & -> & _ & u & Herr)
         |(_ & t & _ &
           [(_ & -> & _ & ->)
           |[(_ & n & c & o1 & st1 & st2 & _ & Hcall & Hlink & Hrest)
            |[(_ & pp & o1 & st1 & st2 & Hprop & Hlink & Hrest)
             |(_ & _ & _ & Hrest)]]])].
    + split; [by eapply call_on_error_within|done].
    + split; [apply within_block_refl|]. by intros ? [= <-].
    + apply IHn in Hcall as [Hcall Hc]; [|done..].
      assert (H12 : within_block b st1 st2).
      { destruct c as [cp|]; [|subst; apply within_block_refl].
        destruct Hlink as (n' & s1 & s2 & _ & H1 & H2 & H3).
        apply write_node_within in H1, H2, H3.
        rewrite (Hc cp eq_refl) in H1, H3. rewrite Hnode in H2.
        eapply within_block_trans; [exact H1|].
        eapply within_block_trans; [exact H2|exact H3]. }
      pose proof (within_block_trans _ _ _ _ Hcall H12) as (E1 & E2 & E3 & E4).
      apply IHl in Hrest as [Hrest Hr]; [|congruence..|done].
      split; [|done]. eapply within_block_trans; [|exact Hrest]. by repeat split.
    + apply (parse_prop_within b) in Hprop as [Hprop Hp]; [|done].
      assert (H12 : within_block b st1 st2).
      { destruct pp as [prop|]; [|subst; apply within_block_refl].
        destruct Hlink as (st12 & u & (n' & s1 & _ & H1 & H2) & Hc).
        apply write_prop_within in H1. apply write_node_within in H2.
        rewrite (Hp prop eq_refl) in H1. rewrite Hnode in H2.
        pose proof (within_block_trans _ _ _ _ H1 H2) as H3.
        apply (check_for_special_prop_within b) in Hc; [|
          destruct Hprop as (_ & _ & G3 & _); destruct H3 as (_ & _ & G3' & _);
          congruence|done].
        eapply within_block_trans; [exact H3|exact Hc]. }
      pose proof (within_block_trans _ _ _ _ Hprop H12) as (E1 & E2 & E3 & E4).
      apply IHl in Hrest as [Hrest Hr]; [|congruence..|done].
      split; [|done]. eapply within_block_trans; [|exact Hrest]. by repeat split.
    + by apply IHl in Hrest.
Qed.

Lemma init_loop_within (b : nat) :
  forall fuel i st st' u,
    node_buff st = Some b -> prop_buff st = Some b -> handle_lookup st = Some b ->
    dtb_init_loop fuel i st = Ret (u, st') -> within_block b st st'.
Proof.
  induction fuel as [|fuel IH]; intros i st st' u Hnb Hpb Hhl H; [discriminate|].
  destruct (dtb_init_loop_Ret _ _ _ _ _ H)
    as [(_ & ->)
       |(_ & t & _ &
         [(_ & Hrest)
         |(_ & sub & i1 & st1 & st2 & Hcall & Hlink & Hrest)])].
  - apply within_block_refl.
  - by eapply IH.
  - apply (proj1 (parse_within b fuel)) in Hcall as [Hcall Hc]; [|done..].
    assert (H12 : within_block b st1 st2).
    { destruct sub as [sub_root|]; [|subst; apply within_block_refl].
      destruct Hlink as (st12 & Hw & ->). apply write_node_within in Hw.
      rewrite (Hc sub_root eq_refl) in Hw. exact Hw. }
    pose proof (within_block_trans _ _ _ _ Hcall H12) as (E1 & E2 & E3 & E4).
    apply IH in Hrest; [|congruence..].
    eapply within_block_trans; [|exact Hrest]. by repeat split.
Qed.

(** X25.  [dtb_init] never clears [root], so a second call adds its tree to
    the first instead of replacing it.  On a host without [ops.free], where
    the call releases nothing, and on a parser that has released no table
    before: after the call every block the parser held is still there,
    allocated and unchanged, whatever the call has obtained lies behind
    them, and the old first top-level node is still reached from [root] by
    [dtb_get_sibling], behind the nodes the call has put in front of it. *)
Theorem a_second_dtb_init_keeps_the_old_root (start : cptr) (o : dtb_ops)
    (st st' : dtb_state) (r : nodeptr) :
  dtb_init start o st = Ret (tt, st') ->
  root st = Some r ->
  free o = false ->
  forallb live (heap st) = true ->
  (exists n, sibling_steps n st' (root st') = Ret (Some r)) /\
  exists new, heap st' = heap st ++ new /\ forallb live new = true.
Proof.
  intros Hinit Hroot Hfree Hlive.
  destruct (dtb_init_any _ _ _ _ _ Hinit)
    as [(Hr & _ & Hh & _)
       |(Hm & _ & lf & st1 & Hlen & _ & Hwf1 & Hr1 & Hh1 & Hl1 & Hheap & Hloop)].
  { split; [exists O; simpl; congruence|].
    exists []. by rewrite app_nil_r. }
  destruct (init_loop_chain (length (heap st)) (Some r) _ _ _ _ _ [] Hwf1
              ltac:(rewrite Hr1, Hroot; constructor) Hloop) as (Hwf & rl & Hrl).
  split; [exists (length rl); by eapply chain_to_steps|].
  destruct (Hheap Hfree) as (blk & Hh1').
  pose proof (init_loop_lives _ _ _ _ _ Hloop) as Hl.
  pose proof (init_loop_within (length (heap st)) _ _ _ _ _
                (wf_node_buff _ _ Hwf1) (wf_prop_buff _ _ Hwf1)
                (wf_handle_lookup _ _ Hwf1) Hloop) as (_ & _ & _ & Hold).
  assert (Hlen' : length (heap st') = S (length (heap st))).
  { apply (f_equal length) in Hl. unfold lives in Hl. rewrite !length_fmap in Hl.
    rewrite Hl, Hh1', length_app. simpl. lia. }
  destruct (heap st' !! length (heap st)) as [blk'|] eqn:Hblk'.
  2:{ apply lookup_ge_None in Hblk'. lia. }
  exists [blk']. split.
  - apply list_eq. intros j.
    destruct (decide (j = length (heap st))) as [->|Hj].
    + rewrite Hblk'. by rewrite list_lookup_middle.
    + rewrite (Hold j Hj), Hh1'.
      destruct (decide (j < length (heap st))%nat).
      * by rewrite !lookup_app_l.
      * rewrite !lookup_ge_None_2; [done|simpl; rewrite length_app; simpl; lia
                                    |rewrite length_app; simpl; lia].
  - cbn [forallb]. rewrite andb_true_r.
    assert (Hx : lives st' !! length (heap st) = Some true).
    { rewrite Hl, Hl1. rewrite <- Hlen. by rewrite list_lookup_middle. }
    unfold lives in Hx. rewrite list_lookup_fmap, Hblk' in Hx. by injection Hx.
Qed.

Lemma a_second_dtb_init_keeps_the_old_root_witness :
  (exists n,
      sibling_steps n board_state_again (root board_state_again)
      = Ret (Some (0, 0)%nat)) /\
  exists new, heap board_state_again = heap board_state ++ new /\
              forallb live new = true.
Proof.
  apply (a_second_dtb_init_keeps_the_old_root (board 1 2) no_free_ops board_state
           board_state_again (0, 0)%nat); vm_compute; reflexivity.
Defined.
